(** * CouchDB adapter for Better-Auth: a shallow embedding of [src/index.ts]
    (the revision with the [betterAuthModel] discriminator) and of the
    in-memory store of [src/mock-couchdb.ts]. *)

From Stdlib Require Import String Ascii List ZArith Bool Lia Arith.
From Stdlib Require Import DecimalString Permutation Sorted.
Import ListNotations.

Set Warnings "-register-all".

Local Open Scope string_scope.
Local Open Scope list_scope.
Local Open Scope Z_scope.

(** ** JavaScript values

    Numbers are the integers among the JavaScript numbers; [Date] instances
    and functions are outside the value universe.  An object is a plain
    object, with [Object.prototype] for its prototype: it is its list of
    own enumerable properties in insertion order, the order [Object.entries]
    walks them in (keys that look like array indices are not reordered). *)

Module JS.

Inductive Value : Type :=
| VUndefined
| VNull
| VBool (b : bool)
| VNum (n : Z)
| VStr (s : string)
| VArr (items : list Value)
| VObj (props : list (string * Value)).

(** What a [throw] carries.  A nano error has [statusCode] and [error]; an
    [Error] made by [new Error(msg)] and a [TypeError] have neither. *)
Record JsError : Type := mkError {
  statusCode : option Z;
  error : option string;
  message : string
}.

Definition TypeError (msg : string) : JsError := mkError None None msg.
Definition NewError (msg : string) : JsError := mkError None None msg.

(** The result of running a piece of code: a value, a thrown error, or no
    result within the steps allowed (loops and non-structural recursion are
    run on fuel). *)
Inductive outcome (A : Type) : Type :=
| Ok (a : A)
| Throw (e : JsError)
| OutOfFuel.
Arguments Ok {A} a.
Arguments Throw {A} e.
Arguments OutOfFuel {A}.

Definition obind {A B} (m : outcome A) (f : A -> outcome B) : outcome B :=
  match m with
  | Ok a => f a
  | Throw e => Throw e
  | OutOfFuel => OutOfFuel
  end.

Definition status_is (e : JsError) (code : Z) : bool :=
  match statusCode e with
  | Some c => Z.eqb c code
  | None => false
  end.

Definition error_is (e : JsError) (name : string) : bool :=
  match error e with
  | Some n => String.eqb n name
  | None => false
  end.

(** *** Own properties *)

Fixpoint lookup (k : string) (props : list (string * Value)) : option Value :=
  match props with
  | [] => None
  | (k', v) :: rest => if String.eqb k' k then Some v else lookup k rest
  end.

(** [o[k] = v] on a property list: an existing key keeps its place. *)
Fixpoint assign (k : string) (v : Value) (props : list (string * Value))
  : list (string * Value) :=
  match props with
  | [] => [(k, v)]
  | (k', v') :: rest =>
      if String.eqb k' k then (k', v) :: rest else (k', v') :: assign k v rest
  end.

Fixpoint remove (k : string) (props : list (string * Value))
  : list (string * Value) :=
  match props with
  | [] => []
  | (k', v') :: rest =>
      if String.eqb k' k then remove k rest else (k', v') :: remove k rest
  end.

(** [{ ...a, ...b }] on property lists. *)
Definition spread (a b : list (string * Value)) : list (string * Value) :=
  fold_left (fun acc kv => assign (fst kv) (snd kv) acc) b a.

(** [Object.entries(v)] for a spread source: an object gives its properties,
    anything else that the adapter spreads (undefined, null, a number, a
    boolean) gives none. *)
Definition props_of (v : Value) : list (string * Value) :=
  match v with
  | VObj props => props
  | _ => []
  end.

(** [v[k]] where [v] is known not to be null or undefined: the own
    properties of objects.  The indices and the length of arrays and
    strings are not modelled, and neither are the properties that an object
    inherits: a read under one of the names of [objectPrototypeName], which
    gives a function in JavaScript, is outside the model. *)
Definition get (v : Value) (k : string) : Value :=
  match v with
  | VObj props => match lookup k props with Some x => x | None => VUndefined end
  | _ => VUndefined
  end.

(** [v[k]] in general: reading a property of null or undefined throws. *)
Definition getE (v : Value) (k : string) : outcome Value :=
  match v with
  | VUndefined | VNull =>
      Throw (TypeError ("Cannot read properties of undefined or null (reading '" ++ k ++ "')"))
  | _ => Ok (get v k)
  end.

Definition set (v : Value) (k : string) (x : Value) : Value :=
  match v with
  | VObj props => VObj (assign k x props)
  | _ => v
  end.

Definition delete (v : Value) (k : string) : Value :=
  match v with
  | VObj props => VObj (remove k props)
  | _ => v
  end.

(** Whether [k] is an own property of the object [v]. *)
Definition has (v : Value) (k : string) : bool :=
  match v with
  | VObj props => match lookup k props with Some _ => true | None => false end
  | _ => false
  end.

(** The names that every object inherits from [Object.prototype]. *)
Definition objectPrototypeName (k : string) : bool :=
  existsb (String.eqb k)
    ["constructor"; "__defineGetter__"; "__defineSetter__"; "hasOwnProperty";
     "__lookupGetter__"; "__lookupSetter__"; "isPrototypeOf";
     "propertyIsEnumerable"; "toString"; "valueOf"; "__proto__";
     "toLocaleString"].

(** [k in v] for an object: an own property, or an inherited one. *)
Definition in_ (v : Value) (k : string) : bool :=
  match v with
  | VObj _ => (has v k || objectPrototypeName k)%bool
  | _ => false
  end.

(** [v[k] === undefined] for an object: an own property is read as it is,
    and what is inherited under a name of [Object.prototype] is a function
    or an object. *)
Definition readsUndefined (v : Value) (k : string) : bool :=
  match v with
  | VObj props =>
      match lookup k props with
      | Some x => match x with VUndefined => true | _ => false end
      | None => negb (objectPrototypeName k)
      end
  | _ => true
  end.

(** [o[k] = v] with a computed key, on a property list: for the key
    [__proto__] of an object that has no such own property the assignment
    goes to the setter of [Object.prototype], which changes the prototype
    (or does nothing) and makes no property.  The prototype is not part of
    the model. *)
Definition put (k : string) (v : Value) (props : list (string * Value))
  : list (string * Value) :=
  if (String.eqb k "__proto__"
      && match lookup "__proto__" props with Some _ => false | None => true end)%bool
  then props
  else assign k v props.

(** *** Coercions and comparisons *)

Definition truthy (v : Value) : bool :=
  match v with
  | VUndefined | VNull => false
  | VBool b => b
  | VNum n => negb (Z.eqb n 0)
  | VStr s => negb (String.eqb s "")
  | VArr _ | VObj _ => true
  end.

Definition is_nullish (v : Value) : bool :=
  match v with
  | VUndefined | VNull => true
  | _ => false
  end.

Definition isArray (v : Value) : bool :=
  match v with VArr _ => true | _ => false end.

(** [typeof v === "object" && v !== null && !Array.isArray(v)]. *)
Definition isPlainObject (v : Value) : bool :=
  match v with VObj _ => true | _ => false end.

Definition string_of_Z (n : Z) : string := NilZero.string_of_int (Z.to_int n).

Fixpoint join (sep : string) (parts : list string) : string :=
  match parts with
  | [] => ""
  | [p] => p
  | p :: rest => p ++ sep ++ join sep rest
  end.

(** [Number.prototype.toString] on an integer.  The digits are the fewest
    that read back as the same number, and of those the closest to it: up
    to [2^53] they are the integer's own, and beyond they are followed by
    zeros.  From [10^21] on the notation is exponential.  [roundsTo n x]
    tells whether the integer [x] rounds to the number [n], of mantissa
    [n / ulp]. *)
Definition digits (n : Z) : nat := String.length (string_of_Z n).

Definition roundsTo (n : Z) (x : Z) : bool :=
  let ulp := 2 ^ (Z.log2 n - 52) in
  let mantissa := n / ulp in
  let below := if mantissa =? 2 ^ 52 then ulp / 4 else ulp / 2 in
  let above := ulp / 2 in
  if Z.even mantissa
  then ((n - below <=? x) && (x <=? n + above))%bool
  else ((n - below <? x) && (x <? n + above))%bool.

Fixpoint shortest (fuel k : nat) (n : Z) : Z :=
  match fuel with
  | O => n
  | S fuel' =>
      let unit := 10 ^ Z.of_nat (digits n - k) in
      let low := n / unit * unit in
      let high := low + unit in
      match roundsTo n low, roundsTo n high with
      | true, true =>
          if n - low <? high - n then low
          else if high - n <? n - low then high
          else if Z.even (low / unit) then low else high
      | true, false => low
      | false, true => high
      | false, false => shortest fuel' (S k) n
      end
  end.

Fixpoint dropZeros (fuel : nat) (x : Z) : Z :=
  match fuel with
  | O => x
  | S fuel' => if x mod 10 =? 0 then dropZeros fuel' (x / 10) else x
  end.

Definition exponential (n : Z) : string :=
  let x := shortest (digits n) 1 n in
  let exponent := string_of_Z (Z.of_nat (digits x - 1)) in
  match string_of_Z (dropZeros (digits x) x) with
  | String d EmptyString => String d ("e+" ++ exponent)
  | String d more => String d ("." ++ more ++ "e+" ++ exponent)
  | EmptyString => EmptyString
  end.

Definition numberToString (n : Z) : string :=
  let sign := if n <? 0 then "-" else "" in
  let a := Z.abs n in
  if a <? 2 ^ 53 then string_of_Z n
  else if a <? 10 ^ 21 then sign ++ string_of_Z (shortest (digits a) 1 a)
  else sign ++ exponential a.

(** [String(v)], when the conversion returns: see [stringOf]. *)
Fixpoint toString (v : Value) : string :=
  match v with
  | VUndefined => "undefined"
  | VNull => "null"
  | VBool true => "true"
  | VBool false => "false"
  | VNum n => numberToString n
  | VStr s => s
  | VArr items =>
      join "," (map (fun x => if is_nullish x then "" else toString x) items)
  | VObj _ => "[object Object]"
  end.

(** Whether [String(v)] returns.  The conversion of an object calls its
    [toString]: the one of [Object.prototype], unless the object has an own
    property of that name, which is no function (functions are no values
    here); then [valueOf] is tried and gives no primitive, and the
    conversion throws.  The string of an array is made of the strings of
    its items. *)
Fixpoint printable (v : Value) : bool :=
  match v with
  | VArr items => forallb (fun x => if is_nullish x then true else printable x) items
  | VObj props => match lookup "toString" props with Some _ => false | None => true end
  | _ => true
  end.

(** [String(v)], and the conversion of a computed key [[v]]. *)
Definition stringOf (v : Value) : outcome string :=
  if printable v then Ok (toString v)
  else Throw (TypeError "Cannot convert object to primitive value").

(** [a === b].  Primitives compare by value.  Arrays and objects compare by
    identity, and the two sides of every comparison in the adapter and in
    the store come from different allocations (a stored document and a
    selector), so they are never the same object. *)
Definition strictEq (a b : Value) : bool :=
  match a, b with
  | VUndefined, VUndefined => true
  | VNull, VNull => true
  | VBool x, VBool y => Bool.eqb x y
  | VNum x, VNum y => Z.eqb x y
  | VStr x, VStr y => String.eqb x y
  | _, _ => false
  end.

(** [a < b].  Two strings compare by code units.  Otherwise both sides
    are made numbers: a number is itself, [true] is 1, [false] and [null]
    are 0, and [undefined] is [NaN], which is smaller than nothing.  The
    number of a string, and the primitive of an array or an object, are not
    modelled: [comparable] tells the pairs on which [lt] is JavaScript's
    [<]; on the others it is [false]. *)
Fixpoint string_ltb (a b : string) : bool :=
  match a, b with
  | EmptyString, EmptyString => false
  | EmptyString, String _ _ => true
  | String _ _, EmptyString => false
  | String x a', String y b' =>
      if (nat_of_ascii x <? nat_of_ascii y)%nat then true
      else if (nat_of_ascii y <? nat_of_ascii x)%nat then false
      else string_ltb a' b'
  end.

Definition toNumber (v : Value) : option Z :=
  match v with
  | VNum n => Some n
  | VBool true => Some 1
  | VBool false => Some 0
  | VNull => Some 0
  | _ => None
  end.

Definition lt (a b : Value) : bool :=
  match a, b with
  | VStr x, VStr y => string_ltb x y
  | _, _ =>
      match toNumber a, toNumber b with
      | Some x, Some y => Z.ltb x y
      | _, _ => false
      end
  end.

Definition comparable (a b : Value) : bool :=
  match a, b with
  | VArr _, _ | VObj _, _ | _, VArr _ | _, VObj _ => false
  | VStr _, VStr _ => true
  | VStr _, VUndefined | VUndefined, VStr _ => true
  | VStr _, _ | _, VStr _ => false
  | _, _ => true
  end.

(** [Array.prototype.sort] with a comparator: a stable sort, here by
    insertion.  The sorted order of the elements is what every engine
    gives when the comparator orders them consistently: [cmp a b] and
    [cmp b a] are of opposite signs, or both 0, for every two of the
    elements, and the order is transitive.  For another comparator
    JavaScript leaves the order to the engine, and this function gives one
    of the possible orders. *)
Fixpoint insertSorted {A} (cmp : A -> A -> Z) (x : A) (sorted : list A) : list A :=
  match sorted with
  | [] => [x]
  | y :: rest =>
      if cmp x y <=? 0 then x :: sorted else y :: insertSorted cmp x rest
  end.

Definition sortWith {A} (cmp : A -> A -> Z) (l : list A) : list A :=
  fold_right (insertSorted cmp) [] l.

End JS.

Import JS.

(** Sequencing of code that may throw. *)
Notation "x <-! m ;; k" := (obind m (fun x => k))
  (at level 61, m at next level, right associativity).

Fixpoint mapM {A B} (f : A -> outcome B) (l : list A) : outcome (list B) :=
  match l with
  | [] => Ok []
  | x :: rest =>
      y <-! f x ;;
      ys <-! mapM f rest ;;
      Ok (y :: ys)
  end.

(** ** The condition normalizer and the selector compiler ([index.ts]) *)

Module Compiler.

(** The [switch (operator)] of [convertWhereArrayToRecord]: the key under
    which the condition's value is filed.  An operator that is not one of
    the known strings is kept as it is. *)
Definition opKey (operator : Value) : Value :=
  match operator with
  | VStr "eq" | VStr "equals" => VStr "equals"
  | VStr "ne" | VStr "not" => VStr "not"
  | VStr "in" => VStr "in"
  | VStr "not_in" | VStr "notIn" => VStr "notIn"
  | VStr "gt" => VStr "gt"
  | VStr "gte" => VStr "gte"
  | VStr "lt" => VStr "lt"
  | VStr "lte" => VStr "lte"
  | VStr "contains" => VStr "contains"
  | VStr "starts_with" | VStr "startsWith" => VStr "startsWith"
  | VStr "ends_with" | VStr "endsWith" => VStr "endsWith"
  | other => other
  end.

(** [{ [field]: { [opKey]: value } }]; a computed key is the string of its
    value, and is an own property whatever the string.  The key of the outer
    object is converted first. *)
Definition conditionObj (condition : Value) : outcome Value :=
  let field := get condition "field" in
  let operator := get condition "operator" in
  let value := get condition "value" in
  key <-! stringOf field ;;
  op <-! stringOf (opKey operator) ;;
  Ok (VObj [(key, VObj [(op, value)])]).

(** The first loop: keep the conditions whose [field] is truthy.  Reading
    [field] of a null or undefined element throws. *)
Fixpoint keepWithField (whereArray : list Value) : outcome (list Value) :=
  match whereArray with
  | [] => Ok []
  | condition :: rest =>
      field <-! getE condition "field" ;;
      kept <-! keepWithField rest ;;
      Ok (if truthy field then condition :: kept else kept)
  end.

(** Closing an open OR group: a group of one goes in bare. *)
Definition closeOrGroup (finalConditions : list Value)
    (currentOrGroup : option (list Value)) : list Value :=
  match currentOrGroup with
  | None => finalConditions
  | Some [one] => finalConditions ++ [one]
  | Some group => finalConditions ++ [VObj [("OR", VArr group)]]
  end.

(** The second loop, with its two variables [finalConditions] and
    [currentOrGroup]; the result is the pair after the last condition. *)
Fixpoint groupLoop (conditions : list Value) (finalConditions : list Value)
    (currentOrGroup : option (list Value))
  : outcome (list Value * option (list Value)) :=
  match conditions with
  | [] => Ok (finalConditions, currentOrGroup)
  | condition :: rest =>
      obj <-! conditionObj condition ;;
      if strictEq (get condition "connector") (VStr "OR") then
        groupLoop rest finalConditions
          (Some (match currentOrGroup with
                 | None => [obj]
                 | Some group => group ++ [obj]
                 end))
      else
        groupLoop rest (closeOrGroup finalConditions currentOrGroup ++ [obj]) None
  end.

(** [convertWhereArrayToRecord]; [None] is its [null]. *)
Definition convertWhereArrayToRecord (whereArray : Value) : outcome (option Value) :=
  match whereArray with
  | VArr items =>
      conditions <-! keepWithField items ;;
      match conditions with
      | [] => Ok None
      | _ =>
          looped <-! groupLoop conditions [] None ;;
          match closeOrGroup (fst looped) (snd looped) with
          | [] => Ok None
          | [only] => Ok (Some only)
          | several => Ok (Some (VObj [("AND", VArr several)]))
          end
      end
  | _ => Ok None
  end.

(** The characters of the class [[.*+?^${}()|[\]\\]]. *)
Definition isRegexMeta (c : ascii) : bool :=
  match c with
  | "."%char | "*"%char | "+"%char | "?"%char | "^"%char | "$"%char
  | "{"%char | "}"%char | "("%char | ")"%char | "|"%char
  | "["%char | "]"%char | "\"%char => true
  | _ => false
  end.

(** [value.replace(/[.*+?^${}()|[\]\\]/g, "\\$&")]: every match of the
    class is replaced by a backslash and the match. *)
Fixpoint escapeRegex (value : string) : string :=
  match value with
  | EmptyString => EmptyString
  | String c rest =>
      if isRegexMeta c then String "\"%char (String c (escapeRegex rest))
      else String c (escapeRegex rest)
  end.

(** One round of the inner loop of [convertWhereToSelector]: the operator
    [op] with its value is filed into [operators].  The pattern operators
    convert their value to a string; an operator that is none of the known
    ones is assigned under its own name. *)
Definition addOperator (operators : list (string * Value)) (op : string)
    (opValue : Value) : outcome (list (string * Value)) :=
  if String.eqb op "equals" then Ok (assign "$eq" opValue operators)
  else if String.eqb op "not" then Ok (assign "$ne" opValue operators)
  else if String.eqb op "in" then Ok (assign "$in" opValue operators)
  else if String.eqb op "notIn" then Ok (assign "$nin" opValue operators)
  else if String.eqb op "gt" then Ok (assign "$gt" opValue operators)
  else if String.eqb op "gte" then Ok (assign "$gte" opValue operators)
  else if String.eqb op "lt" then Ok (assign "$lt" opValue operators)
  else if String.eqb op "lte" then Ok (assign "$lte" opValue operators)
  else if String.eqb op "contains" then
    containsPattern <-! stringOf opValue ;;
    Ok (assign "$regex" (VStr (".*" ++ escapeRegex containsPattern ++ ".*")) operators)
  else if String.eqb op "startsWith" then
    startsPattern <-! stringOf opValue ;;
    Ok (assign "$regex" (VStr ("^" ++ escapeRegex startsPattern ++ ".*")) operators)
  else if String.eqb op "endsWith" then
    endsPattern <-! stringOf opValue ;;
    Ok (assign "$regex" (VStr (".*" ++ escapeRegex endsPattern ++ "$")) operators)
  else Ok (put op opValue operators).

Fixpoint convertOperatorsFrom (operators : list (string * Value))
    (entries : list (string * Value)) : outcome (list (string * Value)) :=
  match entries with
  | [] => Ok operators
  | (op, opValue) :: rest =>
      operators <-! addOperator operators op opValue ;;
      convertOperatorsFrom operators rest
  end.

Definition convertOperators (entries : list (string * Value))
  : outcome (list (string * Value)) :=
  convertOperatorsFrom [] entries.

(** [convertWhereToSelector].  The function calls itself on the items of an
    [AND] or [OR] array, and, for an array, goes on with the record that
    [convertWhereArrayToRecord] made of it, which is no part of its
    argument: the recursion is run on fuel.  [selector[key] = ...] is an
    assignment under a computed key ([put]); the result is the selector's
    own properties, which are what is sent to the store. *)
Fixpoint convertWhereToSelector_fuel (fuel : nat) (where_ : Value) : outcome Value :=
  match fuel with
  | O => OutOfFuel
  | S fuel' =>
      converted <-! (if isArray where_ then convertWhereArrayToRecord where_
                     else Ok (Some where_)) ;;
      match converted with
      | None => Ok (VObj [])
      | Some (VObj whereRecord) =>
          selector <-!
            (fix entries (l : list (string * Value)) (selector : list (string * Value))
               : outcome (list (string * Value)) :=
               match l with
               | [] => Ok selector
               | (key, value) :: rest =>
                   if (String.eqb key "AND" || String.eqb key "OR")%bool then
                     match value with
                     | VArr items =>
                         subs <-! mapM (convertWhereToSelector_fuel fuel') items ;;
                         entries rest
                           (assign (if String.eqb key "AND" then "$and" else "$or")
                                   (VArr subs) selector)
                     | _ => entries rest selector
                     end
                   else if String.eqb key "id" then
                     entries rest (assign "_id" value selector)
                   else
                     match value with
                     | VObj ops =>
                         operators <-! convertOperators ops ;;
                         match operators with
                         | [] => entries rest (put key value selector)
                         | _ => entries rest (put key (VObj operators) selector)
                         end
                     | _ => entries rest (put key value selector)
                     end
               end) whereRecord [] ;;
          Ok (VObj selector)
      | Some _ => Ok (VObj [])
      end
  end.

(** Nesting depth of arrays and objects. *)
Fixpoint height (v : Value) : nat :=
  match v with
  | VArr items => S (fold_right (fun x acc => Nat.max (height x) acc) O items)
  | VObj props => S (fold_right (fun kv acc => Nat.max (height (snd kv)) acc) O props)
  | _ => O
  end.

Definition convertWhereToSelector (where_ : Value) : outcome Value :=
  convertWhereToSelector_fuel (4 + height where_) where_.

End Compiler.

(** ** The in-memory store ([mock-couchdb.ts]) *)

Module Mock.

(** [Array.prototype.every] and [some] over a callback that may throw: the
    walk stops at the first element that decides the result. *)
Fixpoint every {A} (f : A -> outcome bool) (l : list A) : outcome bool :=
  match l with
  | [] => Ok true
  | x :: rest =>
      match f x with
      | Ok true => every f rest
      | other => other
      end
  end.

Fixpoint some {A} (f : A -> outcome bool) (l : list A) : outcome bool :=
  match l with
  | [] => Ok false
  | x :: rest =>
      match f x with
      | Ok false => some f rest
      | other => other
      end
  end.

(** [array.includes(x)]. *)
Definition includes (items : list Value) (x : Value) : bool :=
  existsb (fun y => strictEq y x) items.

(** [a <= b] as the store uses it, on two numbers or two strings. *)
Definition le (a b : Value) : bool := (lt a b || strictEq a b)%bool.

Definition sameKind (a b : Value) : bool :=
  match a, b with
  | VNum _, VNum _ => true
  | VStr _, VStr _ => true
  | _, _ => false
  end.

Definition defined (v : Value) : bool :=
  match v with VUndefined => false | _ => true end.

Section Matcher.

(** [new RegExp(pattern).test(subject)]: the JavaScript engine's regular
    expressions, which may reject the pattern. *)
Variable regexTest : string -> string -> outcome bool.

(** The test of one selector entry whose value is an operator object, given
    the document's value for the key; [nested] is the result of matching the
    document's value against the operator object as a selector, used when no
    known operator is present.  [Ok true] lets the walk go on to the next
    key, [Ok false] is [return false]. *)
Definition matchOperators (docValue : Value) (operatorValue : Value)
    (nested : outcome bool) : outcome bool :=
  let op := get operatorValue in
  if defined (op "$eq") then Ok (strictEq docValue (op "$eq"))
  else if defined (op "$ne") then Ok (negb (strictEq docValue (op "$ne")))
  else if defined (op "$in") then
    Ok (match op "$in" with
        | VArr items => includes items docValue
        | _ => false
        end)
  else if defined (op "$nin") then
    Ok (match op "$nin" with
        | VArr items => negb (includes items docValue)
        | _ => true
        end)
  else if (defined (op "$gt") && negb (is_nullish (op "$gt")))%bool then
    Ok (negb (sameKind docValue (op "$gt") && le docValue (op "$gt")))
  else if (defined (op "$gte") && negb (is_nullish (op "$gte")))%bool then
    Ok (negb (sameKind docValue (op "$gte") && lt docValue (op "$gte")))
  else if (defined (op "$lt") && negb (is_nullish (op "$lt")))%bool then
    Ok (negb (sameKind docValue (op "$lt") && le (op "$lt") docValue))
  else if (defined (op "$lte") && negb (is_nullish (op "$lte")))%bool then
    Ok (negb (sameKind docValue (op "$lte") && lt (op "$lte") docValue))
  else if defined (op "$regex") then
    regexTest (toString (op "$regex")) (toString docValue)
  else nested.

(** [matchesSelector(doc, selector)].  The walk over the selector's entries
    returns at the first [$and] or [$or] key with that key's verdict, and
    otherwise at the first key whose test fails.  A selector is an object;
    for a number or a boolean [Object.entries] is empty, for null and
    undefined it throws, and a string or an array in the place of a selector
    is not followed. *)
Fixpoint matchesSelector (doc selector : Value) {struct selector} : outcome bool :=
  match selector with
  | VObj props =>
      (fix entries (l : list (string * Value)) : outcome bool :=
         match l with
         | [] => Ok true
         | (key, value) :: rest =>
             if String.eqb key "$and" then
               match value with
               | VArr subs => every (matchesSelector doc) subs
               | _ => Ok false
               end
             else if String.eqb key "$or" then
               match value with
               | VArr subs => some (matchesSelector doc) subs
               | _ => Ok false
               end
             else
               docValue <-! getE doc key ;;
               passed <-!
                 (match value with
                  | VObj _ =>
                      matchOperators docValue value (matchesSelector docValue value)
                  | _ => Ok (strictEq docValue value)
                  end) ;;
               if passed then entries rest else Ok false
         end) props
  | VUndefined | VNull =>
      Throw (TypeError "Cannot convert undefined or null to object")
  | VBool _ | VNum _ => Ok true
  | VStr _ | VArr _ => Throw (TypeError "selector is not an object")
  end.

(** [filterDocs]. *)
Fixpoint filterDocs (docs : list Value) (selector : Value) : outcome (list Value) :=
  match docs with
  | [] => Ok []
  | doc :: rest =>
      keep <-! matchesSelector doc selector ;;
      kept <-! filterDocs rest selector ;;
      Ok (if keep then doc :: kept else kept)
  end.

End Matcher.

End Mock.


(** ** Code that talks to the store

    An adapter operation awaits one store call after the other; between two
    of them other clients may write.  The store is therefore any state
    machine: a call maps the state before it to a result, or a thrown error,
    and the state after it. *)

Definition M (St A : Type) : Type := St -> outcome A * St.

Definition ret {St A} (a : A) : M St A := fun s => (Ok a, s).

Definition throw {St A} (e : JsError) : M St A := fun s => (Throw e, s).

Definition lift {St A} (o : outcome A) : M St A := fun s => (o, s).

Definition bind {St A B} (m : M St A) (k : A -> M St B) : M St B :=
  fun s =>
    match m s with
    | (Ok a, s') => k a s'
    | (Throw e, s') => (Throw e, s')
    | (OutOfFuel, s') => (OutOfFuel, s')
    end.

(** [try { body } catch (error) { handler }]: what the body did to the store
    before it threw stays done. *)
Definition tryCatch {St A} (body : M St A) (handler : JsError -> M St A) : M St A :=
  fun s =>
    match body s with
    | (Throw e, s') => handler e s'
    | other => other
    end.

Notation "x <- m ;; k" := (bind m (fun x => k))
  (at level 61, m at next level, right associativity).

(** ** The store's interface (nano) *)

Module Nano.

(** [{ ok, id, rev }]. *)
Record InsertResponse : Type := {
  id : Value;
  rev : string
}.

(** [{ selector, limit?, skip?, sort?, bookmark? }]; an entry of [sort] is
    the one-key object [{ [field]: direction }]. *)
Record MangoQuery : Type := {
  selector : Value;
  limit : option Z;
  skip : option Z;
  sort : option (list (string * string));
  bookmark : option string
}.

(** [{ docs, bookmark? }]. *)
Record FindResponse : Type := {
  docs : list Value;
  next : option string
}.

(** [DocumentScope]: the handle of one database. *)
Record DocumentScope (St : Type) : Type := {
  insert : Value -> M St InsertResponse;
  get : Value -> M St Value;
  find : MangoQuery -> M St FindResponse;
  destroy : Value -> Value -> M St unit
}.
Arguments insert {St}.
Arguments get {St}.
Arguments find {St}.
Arguments destroy {St}.

(** [ServerScope]: [couch.db.get], [couch.db.create] and [couch.use]. *)
Record ServerScope (St : Type) : Type := {
  db_get : string -> M St unit;
  db_create : string -> M St unit;
  use : string -> M St (DocumentScope St)
}.
Arguments db_get {St}.
Arguments db_create {St}.
Arguments use {St}.

End Nano.

(** ** The in-memory store, continued: [MockCouchDB] *)

Module MockCouchDB.
Import Mock.

(** A JavaScript [Map] in insertion order; keys are compared as [Map] does
    for strings and numbers. *)
Fixpoint mapGet {A} (k : Value) (m : list (Value * A)) : option A :=
  match m with
  | [] => None
  | (k', v) :: rest => if strictEq k' k then Some v else mapGet k rest
  end.

Fixpoint mapSet {A} (k : Value) (v : A) (m : list (Value * A)) : list (Value * A) :=
  match m with
  | [] => [(k, v)]
  | (k', v') :: rest =>
      if strictEq k' k then (k', v) :: rest else (k', v') :: mapSet k v rest
  end.

Fixpoint mapDelete {A} (k : Value) (m : list (Value * A)) : list (Value * A) :=
  match m with
  | [] => []
  | (k', v') :: rest =>
      if strictEq k' k then rest else (k', v') :: mapDelete k rest
  end.

(** The fields [databases] and [revCounter], and the number of random
    strings drawn so far. *)
Record State : Type := {
  databases : list (Value * list (Value * Value));
  revCounter : list (Value * Z);
  draws : nat
}.

Definition empty : State := {| databases := []; revCounter := []; draws := O |}.

Definition databaseNotFound : JsError := mkError (Some 404) None "Database not found".
Definition documentNotFound : JsError := mkError (Some 404) None "Document not found".
Definition documentConflict : JsError := mkError (Some 409) None "Document conflict".

(** [array.slice(start)] and [array.slice(0, end)]. *)
Definition sliceFrom {A} (start : Z) (l : list A) : list A :=
  let len := Z.of_nat (length l) in
  skipn (Z.to_nat (if start <? 0 then Z.max (len + start) 0 else start)) l.

Definition sliceTo {A} (end_ : Z) (l : list A) : list A :=
  let len := Z.of_nat (length l) in
  firstn (Z.to_nat (if end_ <? 0 then Z.max (len + end_) 0 else end_)) l.

(** The comparator of [sortDocs]. *)
Fixpoint compareBy (sort : list (string * string)) (a b : Value) : Z :=
  match sort with
  | [] => 0
  | (field, direction) :: rest =>
      let aVal := get a field in
      let bVal := get b field in
      let comparison :=
        if is_nullish aVal then 1
        else if is_nullish bVal then -1
        else if lt aVal bVal then -1
        else if lt bVal aVal then 1
        else 0 in
      if negb (comparison =? 0) then
        if String.eqb direction "desc" then - comparison else comparison
      else compareBy rest a b
  end.

Section Store.

(** The engine's regular expressions, and what the mock draws from the
    clock and from [Math.random]: the string
    [Math.random().toString(36).substring(7)] of the n-th draw, and
    [Date.now()] at that draw. *)
Variable regexTest : string -> string -> outcome bool.
Variable random : nat -> string.
Variable now : nat -> Z.

Definition database (name : string) (s : State) : list (Value * Value) :=
  match mapGet (VStr name) (databases s) with
  | Some db => db
  | None => []
  end.

Definition withDatabase (name : string) (db : list (Value * Value)) (s : State) : State :=
  {| databases := mapSet (VStr name) db (databases s);
     revCounter := revCounter s;
     draws := draws s |}.

(** [getRev]. *)
Definition getRev (docId : Value) (s : State) : string * State :=
  let count :=
    (match mapGet docId (revCounter s) with
     | Some c => if c =? 0 then 0 else c
     | None => 0
     end) + 1 in
  ((string_of_Z count ++ "-" ++ random (draws s))%string,
   {| databases := databases s;
      revCounter := mapSet docId count (revCounter s);
      draws := S (draws s) |}).

Definition insert (name : string) (doc : Value) : M State Nano.InsertResponse :=
  fun s =>
    let '(docId, s) :=
      if truthy (get doc "_id") then (get doc "_id", s)
      else (VStr ("doc_" ++ string_of_Z (now (draws s)) ++ "_" ++ random (draws s))%string,
            {| databases := databases s; revCounter := revCounter s;
               draws := S (draws s) |}) in
    let existing := mapGet docId (database name s) in
    let stale :=
      match existing with
      | Some stored =>
          (truthy (get doc "_rev")
           && negb (strictEq (get doc "_rev") (get stored "_rev")))%bool
      | None => false
      end in
    if stale then (Throw documentConflict, s)
    else
      let '(rev, s) := getRev docId s in
      let document :=
        VObj (assign "_rev" (VStr rev) (assign "_id" docId (props_of doc))) in
      (Ok {| Nano.id := docId; Nano.rev := rev |},
       withDatabase name (mapSet docId document (database name s)) s).

Definition get (name : string) (docId : Value) : M State Value :=
  fun s =>
    match mapGet docId (database name s) with
    | Some doc => (Ok (VObj (props_of doc)), s)
    | None => (Throw documentNotFound, s)
    end.

Definition find (name : string) (query : Nano.MangoQuery) : M State Nano.FindResponse :=
  fun s =>
    let docs := map snd (database name s) in
    let filtered :=
      match Nano.selector query with
      | VObj (_ :: _) => filterDocs regexTest docs (Nano.selector query)
      | _ => Ok docs
      end in
    match filtered with
    | Ok docs =>
        let docs :=
          match Nano.sort query with
          | Some (item :: items) => sortWith (compareBy (item :: items)) docs
          | _ => docs
          end in
        let docs :=
          match Nano.skip query with
          | Some n => if n =? 0 then docs else sliceFrom n docs
          | None => docs
          end in
        let docs :=
          match Nano.limit query with
          | Some n => if n =? 0 then docs else sliceTo n docs
          | None => docs
          end in
        (Ok {| Nano.docs := docs;
               Nano.next := match docs with
                            | [] => None
                            | _ => Some "mock_bookmark"
                            end |}, s)
    | Throw e => (Throw e, s)
    | OutOfFuel => (OutOfFuel, s)
    end.

Definition destroy (name : string) (docId rev : Value) : M State unit :=
  fun s =>
    match mapGet docId (database name s) with
    | None => (Throw documentNotFound, s)
    | Some doc =>
        if negb (strictEq (JS.get doc "_rev") rev) then (Throw documentConflict, s)
        else (Ok tt, withDatabase name (mapDelete docId (database name s)) s)
    end.

(** [use(dbName)]: the database is made if it is not there, and the handle
    works on the database of that name. *)
Definition use (name : string) : M State (Nano.DocumentScope State) :=
  fun s =>
    (Ok {| Nano.insert := insert name;
           Nano.get := get name;
           Nano.find := find name;
           Nano.destroy := destroy name |},
     match mapGet (VStr name) (databases s) with
     | Some _ => s
     | None => withDatabase name [] s
     end).

Definition db_get (name : string) : M State unit :=
  fun s =>
    match mapGet (VStr name) (databases s) with
    | Some _ => (Ok tt, s)
    | None => (Throw databaseNotFound, s)
    end.

Definition db_create (name : string) : M State unit :=
  fun s =>
    (Ok tt,
     match mapGet (VStr name) (databases s) with
     | Some _ => s
     | None => withDatabase name [] s
     end).

Definition server : Nano.ServerScope State :=
  {| Nano.db_get := db_get; Nano.db_create := db_create; Nano.use := use |}.

End Store.

End MockCouchDB.

(** ** The adapter ([couchdbAdapter] of [index.ts]) *)

Module Adapter.
Import Compiler.

(** [CouchDBAdapterConfig]; an absent [useModelAsDatabase] is [false], and
    the logging options have no effect on what the adapter does. *)
Record CouchDBAdapterConfig : Type := {
  url : string;
  database : option string;
  useModelAsDatabase : bool
}.

(** What Better-Auth's adapter factory passes in; taken as total functions. *)
Record Host : Type := {
  getModelName : string -> string;
  getDefaultModelName : string -> string;
  getFieldName : string -> string -> string;
  transformInput : Value -> string -> string -> Value;
  transformOutput : Value -> string -> Value;
  transformWhereClause : Value -> string -> Value
}.

(** An entry of [orderBy]. *)
Record SortBy : Type := {
  field : string;
  direction : string
}.

(** [a || b]. *)
Definition orElse (a b : Value) : Value := if truthy a then a else b.

(** [a ?? b]. *)
Definition coalesce (a b : Value) : Value := if is_nullish a then b else a.

(** [cleanDocumentForTransform]. *)
Definition cleanDocumentForTransform (doc : Value) : Value :=
  let cleaned := VObj (props_of doc) in
  let cleaned := delete cleaned "_rev" in
  let cleaned := delete cleaned "betterAuthModel" in
  if truthy (get cleaned "_id") then set cleaned "id" (get cleaned "_id") else cleaned.

(** [mergeOriginalFields]: [key in result] also sees what [result]
    inherits, and [result[key] = ...] is an assignment under a computed
    key. *)
Definition mergeOriginalFields (transformed original : Value) : Value :=
  fold_left
    (fun result kv =>
       let key := fst kv in
       if (negb (String.eqb key "_id") && negb (String.eqb key "_rev")
           && negb (String.eqb key "betterAuthModel") && negb (String.eqb key "id"))%bool
       then
         if (negb (in_ result key) || readsUndefined result key)%bool
         then VObj (put key (get original key) (props_of result))
         else result
       else result)
    (props_of original)
    (VObj (props_of transformed)).

Section Operations.

Context {St : Type}.
Variable couch : Nano.ServerScope St.
Variable config : CouchDBAdapterConfig.
Variable host : Host.

(** [getDatabase]. *)
Definition getDatabase (model : string) : M St (Nano.DocumentScope St) :=
  let dbName :=
    if useModelAsDatabase config then model
    else match database config with
         | Some name => if String.eqb name "" then "better_auth" else name
         | None => "better_auth"
         end in
  _ <- tryCatch (Nano.db_get couch dbName)
         (fun error =>
            if status_is error 404 then Nano.db_create couch dbName
            else throw error) ;;
  if useModelAsDatabase config then Nano.use couch model
  else Nano.use couch dbName.

(** The three lines that follow every fetch of a document:
    [cleanDocumentForTransform], [transformOutput], [mergeOriginalFields]. *)
Definition decode (model : string) (doc : Value) : Value :=
  let cleaned := cleanDocumentForTransform doc in
  let transformed := transformOutput host cleaned (getDefaultModelName host model) in
  mergeOriginalFields transformed cleaned.

(** [{ ...data, ...baseTransformed }], [_id] set from [id], and the
    discriminator under the shared database. *)
Definition encode (model : string) (data : Value) : Value :=
  let baseTransformed := transformInput host data (getDefaultModelName host model) "create" in
  let transformedData := VObj (spread (props_of data) (props_of baseTransformed)) in
  let transformedData :=
    if (negb (truthy (get transformedData "_id")) && truthy (get transformedData "id"))%bool
    then set transformedData "_id" (get transformedData "id")
    else transformedData in
  if negb (useModelAsDatabase config)
  then set transformedData "betterAuthModel" (VStr (getModelName host model))
  else transformedData.

(** A write as [create] and [update] do it: [db.insert(doc)], then
    [db.get(response.id)], and the fetched document decoded. *)
Definition insertAndFetch (db : Nano.DocumentScope St) (model : string) (doc : Value)
  : M St Value :=
  response <- Nano.insert db doc ;;
  fullDoc <- Nano.get db (Nano.id response) ;;
  ret (decode model fullDoc).

(** The inner [try] block of [create]: the existing document is fetched and
    removed, and the insert tried again. *)
Definition create_replace (db : Nano.DocumentScope St) (model : string)
    (transformedData : Value) : M St Value :=
  existing <- Nano.get db (get transformedData "_id") ;;
  _ <- Nano.destroy db (get transformedData "_id")
         (orElse (get existing "_rev") (VStr "")) ;;
  insertAndFetch db model transformedData.

Definition create (data : Value) (model : string) : M St Value :=
  db <- getDatabase (getModelName host model) ;;
  let transformedData := encode model data in
  tryCatch
    (insertAndFetch db model transformedData)
    (fun error =>
       if (status_is error 409 && truthy (get transformedData "_id"))%bool then
         tryCatch (create_replace db model transformedData)
           (fun retryError => throw retryError)
       else throw error).

(** [transformedWhere.find((c) => c.field === 'id' || c.field === '_id')]. *)
Fixpoint findIdCondition (conditions : list Value) : outcome (option Value) :=
  match conditions with
  | [] => Ok None
  | c :: rest =>
      f <-! getE c "field" ;;
      if (strictEq f (VStr "id") || strictEq f (VStr "_id"))%bool then Ok (Some c)
      else findIdCondition rest
  end.

(** [typeof idVal === 'object' && idVal !== null
     ? String(idVal.equals ?? idVal.$eq ?? idVal) : String(idVal)]. *)
Definition idOf (idVal : Value) : outcome Value :=
  match idVal with
  | VObj _ | VArr _ =>
      docId <-! stringOf (coalesce (get idVal "equals") (coalesce (get idVal "$eq") idVal)) ;;
      Ok (VStr docId)
  | _ =>
      docId <-! stringOf idVal ;;
      Ok (VStr docId)
  end.

(** [Array.isArray(transformedWhere) ? convertWhereArrayToRecord(transformedWhere)
     : transformedWhere], with [null] as the value it is. *)
Definition whereRecordOf (transformedWhere : Value) : outcome Value :=
  if isArray transformedWhere then
    r <-! convertWhereArrayToRecord transformedWhere ;;
    Ok (match r with Some record => record | None => VNull end)
  else Ok transformedWhere.

(** The identifier that [update] and [delete] read off the where clause
    before they ask the store: the value of an [id] or [_id] condition, then
    the [id] or [_id] of the where record.  [VUndefined] when there is none. *)
Definition idFromWhere (transformedWhere : Value) : outcome Value :=
  docId <-!
    (match transformedWhere with
     | VArr conditions =>
         idCondition <-! findIdCondition conditions ;;
         match idCondition with
         | Some c =>
             if truthy (get c "value") then
               docId <-! stringOf (get c "value") ;;
               Ok (VStr docId)
             else Ok VUndefined
         | None => Ok VUndefined
         end
     | _ => Ok VUndefined
     end) ;;
  if negb (truthy docId) then
    whereRecord <-! whereRecordOf transformedWhere ;;
    if truthy (get whereRecord "id") then idOf (get whereRecord "id")
    else if truthy (get whereRecord "_id") then idOf (get whereRecord "_id")
    else Ok docId
  else Ok docId.

(** The selector of a where clause with, under the shared database, the
    discriminator set on it: [selector.betterAuthModel = getModelName(model)]. *)
Definition modelSelector (transformedWhere : Value) (model : string) : outcome Value :=
  selector <-! convertWhereToSelector transformedWhere ;;
  Ok (if negb (useModelAsDatabase config)
      then set selector "betterAuthModel" (VStr (getModelName host model))
      else selector).

Definition query (selector : Value) (limit : option Z) : Nano.MangoQuery :=
  {| Nano.selector := selector; Nano.limit := limit; Nano.skip := None;
     Nano.sort := None; Nano.bookmark := None |}.

(** [{ ...existing, ...transformedData, _id: existing._id, _rev: existing._rev }]. *)
Definition merge (existing transformedData : Value) : Value :=
  set (set (VObj (spread (props_of existing) (props_of transformedData)))
           "_id" (get existing "_id"))
      "_rev" (get existing "_rev").

(** [existing.betterAuthModel && existing.betterAuthModel !== getModelName(model)]
    under the shared database. *)
Definition otherModel (doc : Value) (model : string) : bool :=
  (negb (useModelAsDatabase config)
   && truthy (get doc "betterAuthModel")
   && negb (strictEq (get doc "betterAuthModel") (VStr (getModelName host model))))%bool.

(** The part of [update] that finds the document's identifier. *)
Definition update_resolve (db : Nano.DocumentScope St) (model : string)
    (transformedWhere : Value) : M St Value :=
  docId <- lift (idFromWhere transformedWhere) ;;
  if negb (truthy docId) then
    selector <- lift (modelSelector transformedWhere model) ;;
    result <- Nano.find db (query selector (Some 1)) ;;
    match Nano.docs result with
    | [] => throw (NewError ("Document not found for update in model " ++ model))
    | first :: _ => ret (get first "_id")
    end
  else ret docId.

(** The [try] block of [update] and its [catch]. *)
Definition update_write (db : Nano.DocumentScope St) (model : string)
    (docId transformedData : Value) : M St Value :=
  tryCatch
    (existing <- Nano.get db docId ;;
     if otherModel existing model then
       throw (NewError ("Document not found for update in model " ++ model))
     else insertAndFetch db model (merge existing transformedData))
    (fun error =>
       if status_is error 404 then
         throw (NewError ("Document not found: " ++ toString docId))
       else if status_is error 409 then
         existing <- Nano.get db docId ;;
         insertAndFetch db model (merge existing transformedData)
       else throw error).

(** [update]; [data] is [args.update ?? args.data]. *)
Definition update (data_ update_ : Value) (model : string) (where_ : Value) : M St Value :=
  let data := coalesce update_ data_ in
  db <- getDatabase (getModelName host model) ;;
  let transformedWhere := transformWhereClause host where_ (getDefaultModelName host model) in
  let transformedData := transformInput host data (getDefaultModelName host model) "update" in
  docId <- update_resolve db model transformedWhere ;;
  update_write db model docId transformedData.

(** The loop of [updateMany] over the documents found. *)
Fixpoint updateMany_loop (db : Nano.DocumentScope St) (transformedData : Value)
    (docs : list Value) (updatedCount : Z) : M St Z :=
  match docs with
  | [] => ret updatedCount
  | couchDoc :: rest =>
      updatedCount' <-
        tryCatch
          (_ <- Nano.insert db (merge couchDoc transformedData) ;;
           ret (updatedCount + 1))
          (fun error =>
             if negb (status_is error 409) then throw error
             else ret updatedCount) ;;
      updateMany_loop db transformedData rest updatedCount'
  end.

Definition updateMany (data_ update_ : Value) (model : string) (where_ : Value) : M St Z :=
  let data := coalesce update_ data_ in
  db <- getDatabase (getModelName host model) ;;
  let transformedWhere := transformWhereClause host where_ (getDefaultModelName host model) in
  if negb (truthy data) then
    throw (NewError "updateMany requires data or update parameter")
  else
    let transformedData := transformInput host data (getDefaultModelName host model) "update" in
    selector <- lift (modelSelector transformedWhere model) ;;
    result <- Nano.find db (query selector None) ;;
    updateMany_loop db transformedData (Nano.docs result) 0.

(** The part of [delete] that finds the document's identifier; [None] when
    the store finds no document for the where clause, on which [delete]
    returns. *)
Definition delete_resolve (db : Nano.DocumentScope St) (model : string)
    (transformedWhere : Value) : M St (option Value) :=
  docId <- lift (idFromWhere transformedWhere) ;;
  if negb (truthy docId) then
    selector <- lift (modelSelector transformedWhere model) ;;
    result <- Nano.find db (query selector (Some 1)) ;;
    match Nano.docs result with
    | [] => ret None
    | first :: _ => ret (Some (get first "_id"))
    end
  else ret (Some docId).

(** The [try] block of [delete] and its [catch]. *)
Definition delete_remove (db : Nano.DocumentScope St) (model : string) (docId : Value)
  : M St unit :=
  tryCatch
    (if negb (truthy docId) then ret tt
     else
       doc <- Nano.get db docId ;;
       if otherModel doc model then ret tt
       else Nano.destroy db (get doc "_id") (orElse (get doc "_rev") (VStr "")))
    (fun error =>
       if status_is error 404 then ret tt else throw error).

(** [delete]. *)
Definition delete (model : string) (where_ : Value) : M St unit :=
  db <- getDatabase (getModelName host model) ;;
  let transformedWhere := transformWhereClause host where_ (getDefaultModelName host model) in
  resolved <- delete_resolve db model transformedWhere ;;
  match resolved with
  | None => ret tt
  | Some docId => delete_remove db model docId
  end.

(** The loop of [deleteMany]. *)
Fixpoint deleteMany_loop (db : Nano.DocumentScope St) (docs : list Value)
    (deletedCount : Z) : M St Z :=
  match docs with
  | [] => ret deletedCount
  | couchDoc :: rest =>
      deletedCount' <-
        tryCatch
          (_ <- Nano.destroy db (get couchDoc "_id")
                  (orElse (get couchDoc "_rev") (VStr "")) ;;
           ret (deletedCount + 1))
          (fun error =>
             if negb (status_is error 404) then throw error
             else ret deletedCount) ;;
      deleteMany_loop db rest deletedCount'
  end.

Definition deleteMany (model : string) (where_ : Value) : M St Z :=
  db <- getDatabase (getModelName host model) ;;
  let transformedWhere := transformWhereClause host where_ (getDefaultModelName host model) in
  selector <- lift (modelSelector transformedWhere model) ;;
  result <- Nano.find db (query selector None) ;;
  deleteMany_loop db (Nano.docs result) 0.

(** [findOne]; [None] is its [null]. *)
Definition findOne (where_ : Value) (model : string) : M St (option Value) :=
  db <- getDatabase (getModelName host model) ;;
  let transformedWhere := transformWhereClause host where_ (getDefaultModelName host model) in
  tryCatch
    (whereRecord <- lift (whereRecordOf transformedWhere) ;;
     if truthy (get whereRecord "id") then
       let docId := VStr (toString (get whereRecord "id")) in
       doc <- Nano.get db docId ;;
       if otherModel doc model then ret None
       else ret (Some (decode model doc))
     else
       selector <- lift (modelSelector transformedWhere model) ;;
       result <- Nano.find db (query selector (Some 1)) ;;
       match Nano.docs result with
       | [] => ret None
       | first :: _ => ret (Some (decode model first))
       end)
    (fun error =>
       if status_is error 404 then ret None else throw error).

(** [findMany]'s selector: under the shared database the discriminator is
    pushed onto an existing [$and] array, or joined with a non-empty selector
    in a new [$and], or set on an empty selector. *)
Definition findManySelector (selector : Value) (model : string) : Value :=
  if negb (useModelAsDatabase config) then
    let tag := VObj [("betterAuthModel", VStr (getModelName host model))] in
    match get selector "$and" with
    | VArr subs => set selector "$and" (VArr (subs ++ [tag]))
    | _ =>
        match props_of selector with
        | [] => set selector "betterAuthModel" (VStr (getModelName host model))
        | _ => VObj [("$and", VArr [selector; tag])]
        end
    end
  else selector.

(** The comparator of the in-memory sort. *)
Fixpoint compareDocs (model : string) (orderBy : list SortBy) (a b : Value) : Z :=
  match orderBy with
  | [] => 0
  | order :: rest =>
      let field := getFieldName host model (field order) in
      let aVal := get a field in
      let bVal := get b field in
      let comparison :=
        if is_nullish aVal then 1
        else if is_nullish bVal then -1
        else if lt aVal bVal then -1
        else if lt bVal aVal then 1
        else 0 in
      if negb (comparison =? 0) then
        if String.eqb (direction order) "desc" then - comparison else comparison
      else compareDocs model rest a b
  end.

Definition is_no_usable_index (error : JsError) : bool :=
  (status_is error 400 && error_is error "no_usable_index")%bool.

(** [findMany]; [orderBy] is [args.orderBy || (sortBy ? [sortBy] : undefined)]. *)
Definition findMany (where_ : Value) (model : string) (limit offset : option Z)
    (orderBy_ : option (list SortBy)) (sortBy : option SortBy) : M St (list Value) :=
  let orderBy :=
    match orderBy_ with
    | Some l => Some l
    | None => match sortBy with Some s => Some [s] | None => None end
    end in
  db <- getDatabase (getModelName host model) ;;
  let transformedWhere := transformWhereClause host where_ (getDefaultModelName host model) in
  selector <- lift (convertWhereToSelector transformedWhere) ;;
  let selector := findManySelector selector model in
  let sort :=
    match orderBy with
    | Some (o :: os) =>
        Some (map (fun order =>
                     (getFieldName host model (field order),
                      if String.eqb (direction order) "desc" then "desc" else "asc"))
                  (o :: os))
    | _ => None
    end in
  let query :=
    {| Nano.selector := selector; Nano.limit := limit; Nano.skip := offset;
       Nano.sort := sort; Nano.bookmark := None |} in
  fetched <-
    tryCatch
      (result <- Nano.find db query ;;
       ret (result, false, false))
      (fun error =>
         if is_no_usable_index error then
           let queryWithoutSortSkip :=
             {| Nano.selector := selector; Nano.limit := limit; Nano.skip := None;
                Nano.sort := None; Nano.bookmark := None |} in
           result <- Nano.find db queryWithoutSortSkip ;;
           ret (result,
                match sort with Some _ => true | None => false end,
                match offset with Some n => negb (n =? 0) | None => false end)
         else throw error) ;;
  let '(result, needsInMemorySort, needsInMemoryOffset) := fetched in
  let docs := Nano.docs result in
  let docs :=
    match orderBy with
    | Some (o :: os) =>
        if needsInMemorySort then sortWith (compareDocs model (o :: os)) docs else docs
    | _ => docs
    end in
  let docs :=
    match offset with
    | Some n =>
        if (needsInMemoryOffset && (0 <? n))%bool then skipn (Z.to_nat n) docs else docs
    | None => docs
    end in
  ret (map (fun doc => decode model doc) docs).

Definition pageSize : Z := 1000.

(** The [while (true)] of [count], on fuel: one unit per page requested. *)
Fixpoint count_loop (fuel : nat) (db : Nano.DocumentScope St) (selector : Value)
    (total : Z) (bookmark : option string) : M St Z :=
  match fuel with
  | O => fun s => (OutOfFuel, s)
  | S fuel' =>
      result <- Nano.find db
        {| Nano.selector := selector; Nano.limit := Some pageSize; Nano.skip := None;
           Nano.sort := None;
           Nano.bookmark :=
             match bookmark with
             | Some b => if String.eqb b "" then None else Some b
             | None => None
             end |} ;;
      let total := total + Z.of_nat (length (Nano.docs result)) in
      match Nano.next result, Nano.docs result with
      | None, _ => ret total
      | Some b, [] => ret total
      | Some b, _ :: _ =>
          if String.eqb b "" then ret total
          else count_loop fuel' db selector total (Some b)
      end
  end.

Definition count (fuel : nat) (where_ : Value) (model : string) : M St Z :=
  db <- getDatabase (getModelName host model) ;;
  let transformedWhere := transformWhereClause host where_ (getDefaultModelName host model) in
  selector <- lift (modelSelector transformedWhere model) ;;
  count_loop fuel db selector 0 None.

End Operations.

End Adapter.

(** ** A scripted store

    A store for the examples: it answers the calls it gets with the replies
    of a script, one after the other and whatever the arguments, and keeps a
    log of the calls.  A reply of the wrong kind for the call, or a call
    after the script's end, throws. *)

Module Scripted.

Inductive Call : Type :=
| DbGet (name : string)
| DbCreate (name : string)
| Get (database : string) (id : Value)
| Insert (database : string) (doc : Value)
| Find (database : string) (query : Nano.MangoQuery)
| Destroy (database : string) (id rev : Value).

Inductive Reply : Type :=
| Done
| Inserted (id rev : string)
| Document (doc : Value)
| Found (docs : list Value) (next : option string)
| Fails (e : JsError).

Record State : Type := {
  script : list Reply;
  log : list Call
}.

Definition offScript : JsError := TypeError "the script has no such reply".

(** One call: the call is logged, the next reply is taken off the script and
    read by [read]. *)
Definition answer {A} (call : Call) (read : Reply -> outcome A) : M State A :=
  fun s =>
    match script s with
    | [] => (Throw offScript, {| script := []; log := log s ++ [call] |})
    | reply :: rest => (read reply, {| script := rest; log := log s ++ [call] |})
    end.

Definition readDone (r : Reply) : outcome unit :=
  match r with
  | Done => Ok tt
  | Fails e => Throw e
  | _ => Throw offScript
  end.

Definition readInserted (r : Reply) : outcome Nano.InsertResponse :=
  match r with
  | Inserted id rev => Ok {| Nano.id := VStr id; Nano.rev := rev |}
  | Fails e => Throw e
  | _ => Throw offScript
  end.

Definition readDocument (r : Reply) : outcome Value :=
  match r with
  | Document doc => Ok doc
  | Fails e => Throw e
  | _ => Throw offScript
  end.

Definition readFound (r : Reply) : outcome Nano.FindResponse :=
  match r with
  | Found docs next => Ok {| Nano.docs := docs; Nano.next := next |}
  | Fails e => Throw e
  | _ => Throw offScript
  end.

Definition scope (database : string) : Nano.DocumentScope State :=
  {| Nano.insert := fun doc => answer (Insert database doc) readInserted;
     Nano.get := fun id => answer (Get database id) readDocument;
     Nano.find := fun query => answer (Find database query) readFound;
     Nano.destroy := fun id rev => answer (Destroy database id rev) readDone |}.

Definition server : Nano.ServerScope State :=
  {| Nano.db_get := fun name => answer (DbGet name) readDone;
     Nano.db_create := fun name => answer (DbCreate name) readDone;
     Nano.use := fun name => ret (scope name) |}.

Definition start (replies : list Reply) : State :=
  {| script := replies; log := [] |}.

(** The errors of the store that the adapter tells apart. *)
Definition notFound : JsError := mkError (Some 404) (Some "not_found") "missing".
Definition conflict : JsError :=
  mkError (Some 409) (Some "conflict") "Document update conflict.".
Definition noUsableIndex : JsError :=
  mkError (Some 400) (Some "no_usable_index") "No index exists for this sort".

(** A host that renames nothing. *)
Definition plainHost : Adapter.Host :=
  {| Adapter.getModelName := fun model => model;
     Adapter.getDefaultModelName := fun model => model;
     Adapter.getFieldName := fun model field => field;
     Adapter.transformInput := fun data model action => data;
     Adapter.transformOutput := fun doc model => doc;
     Adapter.transformWhereClause := fun where_ model => where_ |}.

Definition sharedConfig : Adapter.CouchDBAdapterConfig :=
  {| Adapter.url := "http://localhost:5984";
     Adapter.database := None;
     Adapter.useModelAsDatabase := false |}.

(** A stored user, and the same user after another client's write. *)
Definition user1 : Value :=
  VObj [("_id", VStr "u1"); ("_rev", VStr "1-a"); ("betterAuthModel", VStr "user");
        ("name", VStr "Ann"); ("email", VStr "ann@example.org")].

Definition user1' : Value :=
  VObj [("_id", VStr "u1"); ("_rev", VStr "2-b"); ("betterAuthModel", VStr "user");
        ("name", VStr "Ann"); ("email", VStr "ann@example.com")].

Definition byId (id : string) : Value :=
  VArr [VObj [("field", VStr "_id"); ("operator", VStr "eq");
              ("value", VStr id); ("connector", VStr "AND")]].

Definition newName : Value := VObj [("name", VStr "Anna")].

Definition admins : Value :=
  VArr [VObj [("field", VStr "role"); ("operator", VStr "eq");
              ("value", VStr "admin"); ("connector", VStr "AND")]].

Definition admin (id rev : string) : Value :=
  VObj [("_id", VStr id); ("_rev", VStr rev); ("betterAuthModel", VStr "user");
        ("role", VStr "admin")].

(** Three people, one of them without an age. *)
Definition aged30 : Value := VObj [("_id", VStr "a"); ("age", VNum 30)].
Definition ageless : Value := VObj [("_id", VStr "b")].
Definition aged25 : Value := VObj [("_id", VStr "c"); ("age", VNum 25)].

Definition byAge (direction : string) : list Adapter.SortBy :=
  [{| Adapter.field := "age"; Adapter.direction := direction |}].

End Scripted.

(** ** The in-memory store in the examples *)

Module MockExamples.

(** A stand-in for [Math.random] and the clock, and for the regular
    expressions, which the examples do not reach. *)
Definition random (n : nat) : string := "r".
Definition now (n : nat) : Z := 0.
Definition engine (pattern subject : string) : outcome bool :=
  Throw (mkError None None ("Invalid regular expression: " ++ pattern)).

Definition server : Nano.ServerScope MockCouchDB.State :=
  MockCouchDB.server engine random now.

(** The shared database with the user [u1] in it. *)
Definition oneUser : MockCouchDB.State :=
  {| MockCouchDB.databases :=
       [(VStr "better_auth", [(VStr "u1", Scripted.user1)])];
     MockCouchDB.revCounter := [(VStr "u1", 1)];
     MockCouchDB.draws := 1%nat |}.



End MockExamples.
(** ** Reference definitions used in the statements *)

Module Reference.
Import Compiler Mock Adapter.

(** A field name that the compiler files as a field: truthy, none of the
    keys [AND], [OR] and [id] that [convertWhereToSelector] treats apart,
    and not [__proto__], under which an assignment makes no property. *)
Definition ordinaryField (field : string) : bool :=
  negb (String.eqb field "" || String.eqb field "AND"
        || String.eqb field "OR" || String.eqb field "id"
        || String.eqb field "__proto__").

(** Reading a pattern back as the literal text it matches: a backslash makes
    the next character literal, any other character of the class
    [isRegexMeta] is an operator of the pattern and makes the reading fail. *)
Fixpoint literalOf (pattern : string) : option string :=
  match pattern with
  | EmptyString => Some EmptyString
  | String c rest =>
      if Ascii.eqb c "\"%char then
        match rest with
        | EmptyString => None
        | String c' rest' => option_map (String c') (literalOf rest')
        end
      else if isRegexMeta c then None
      else option_map (String c) (literalOf rest)
  end.


(** A condition tagged with the connector [OR]. *)
Definition isOr (condition : Value) : bool :=
  strictEq (get condition "connector") (VStr "OR").

(** The grouping of a condition sequence: every maximal run of consecutive
    conditions tagged [OR] is one group, every other condition is a group of
    its own. *)
Fixpoint orGroups (conditions : list Value) : list (list Value) :=
  match conditions with
  | [] => []
  | c :: rest =>
      if isOr c then
        match rest with
        | c' :: _ =>
            if isOr c' then
              match orGroups rest with
              | g :: gs => (c :: g) :: gs
              | [] => [[c]]
              end
            else [c] :: orGroups rest
        | [] => [[c]]
        end
      else [c] :: orGroups rest
  end.

Section WhereSemantics.

Variable regexTest : string -> string -> outcome bool.

(** Compiling a where clause and matching a document against the selector. *)
Definition matchesWhere (doc where_ : Value) : outcome bool :=
  selector <-! convertWhereToSelector where_ ;;
  matchesSelector regexTest doc selector.

End WhereSemantics.

(** A field name that is filed as a field and matched as one: ordinary,
    not one of the store's keys [$and] and [$or], and no name under which a
    document has an inherited property. *)
Definition plainField (field : string) : bool :=
  (ordinaryField field
   && negb (String.eqb field "$and") && negb (String.eqb field "$or")
   && negb (objectPrototypeName field))%bool.

(** The comparison operators of Better-Auth, under either spelling, and
    those among them that order values. *)
Definition comparison (operator : string) : bool :=
  (String.eqb operator "eq" || String.eqb operator "equals"
   || String.eqb operator "ne" || String.eqb operator "not"
   || String.eqb operator "in"
   || String.eqb operator "not_in" || String.eqb operator "notIn"
   || String.eqb operator "gt" || String.eqb operator "gte"
   || String.eqb operator "lt" || String.eqb operator "lte")%bool.

Definition ordering (operator : string) : bool :=
  (String.eqb operator "gt" || String.eqb operator "gte"
   || String.eqb operator "lt" || String.eqb operator "lte")%bool.

(** [docValue] is one of the items of the list [value]. *)
Definition member (docValue value : Value) : bool :=
  match value with
  | VArr items => existsb (fun item => strictEq item docValue) items
  | _ => false
  end.

(** What a comparison says of a document's value [docValue], read off the
    operator: equal to the condition's value, different from it, one of its
    items, none of them, greater, at least, smaller, at most. *)
Definition compares (operator : string) (docValue value : Value) : bool :=
  if (String.eqb operator "eq" || String.eqb operator "equals")%bool then
    strictEq docValue value
  else if (String.eqb operator "ne" || String.eqb operator "not")%bool then
    negb (strictEq docValue value)
  else if String.eqb operator "in" then member docValue value
  else if (String.eqb operator "not_in" || String.eqb operator "notIn")%bool then
    negb (member docValue value)
  else if String.eqb operator "gt" then lt value docValue
  else if String.eqb operator "gte" then (lt value docValue || strictEq value docValue)%bool
  else if String.eqb operator "lt" then lt docValue value
  else if String.eqb operator "lte" then (lt docValue value || strictEq docValue value)%bool
  else false.

(** What a condition says of a document: its comparison, of the document's
    value of its field. *)
Definition evalCondition (doc condition : Value) : bool :=
  match get condition "field", get condition "operator" with
  | VStr field, VStr operator =>
      compares operator (get doc field) (get condition "value")
  | _, _ => false
  end.

(** The boolean expression of a sequence: the conjunction over its groups of
    the disjunction of each group's conditions. *)
Definition evalSequence (doc : Value) (conditions : list Value) : bool :=
  forallb (fun group => existsb (evalCondition doc) group) (orGroups conditions).

(** The conditions that the expression is read off: a comparison on a plain
    field, given by name, with a defined value; and, where the comparison
    orders values, a document whose value of the field is a number when the
    condition's is, and a string when the condition's is. *)
Definition standard (doc condition : Value) : bool :=
  match get condition "field", get condition "operator" with
  | VStr field, VStr operator =>
      (plainField field && comparison operator
       && defined (get condition "value")
       && (negb (ordering operator)
           || sameKind (get doc field) (get condition "value")))%bool
  | _, _ => false
  end.

(** Conditions as Better-Auth hands them over. *)
Definition condition (field operator : string) (value : Value) (connector : string)
  : Value :=
  VObj [("field", VStr field); ("operator", VStr operator);
        ("value", value); ("connector", VStr connector)].

(** The sequence of the specification's example, [A = 1], then [B = 2]
    tagged [OR], then [C = 3] tagged [AND]; and the same with the first
    condition tagged [OR] as well. *)
Definition exampleSequence : Value :=
  VArr [condition "A" "eq" (VNum 1) "AND";
        condition "B" "eq" (VNum 2) "OR";
        condition "C" "eq" (VNum 3) "AND"].

Definition exampleSequenceTagged : Value :=
  VArr [condition "A" "eq" (VNum 1) "OR";
        condition "B" "eq" (VNum 2) "OR";
        condition "C" "eq" (VNum 3) "AND"].

(** The characters the specification names as regex metacharacters. *)
Definition namedMetacharacters : list ascii :=
  list_ascii_of_string ".*+?^${}()|[]\".

(** An engine for the examples in which no pattern is ever tested. *)
Definition noRegExp (pattern subject : string) : outcome bool :=
  Throw (mkError None None ("Invalid regular expression: " ++ pattern)).

Section Batch.

Context {St : Type}.
Variable db : Nano.DocumentScope St.
Variable transformedData : Value.

(** The writes of a batch, one document after the other.
    [Writes docs s n result s'] : starting in state [s], the documents of
    [docs] are written in order, each as the merge of the new values over
    it; [n] of the writes succeed; a write rejected with a conflict is
    passed over; the first write that fails otherwise ends the batch with
    its error as [result]; [s'] is the state after the last write tried. *)
Inductive Writes : list Value -> St -> Z -> outcome unit -> St -> Prop :=
| Writes_done (s : St) :
    Writes [] s 0 (Ok tt) s
| Writes_written (doc : Value) (rest : list Value) (s s' s'' : St)
    (response : Nano.InsertResponse) (n : Z) (result : outcome unit) :
    Nano.insert db (merge doc transformedData) s = (Ok response, s') ->
    Writes rest s' n result s'' ->
    Writes (doc :: rest) s (n + 1) result s''
| Writes_conflict (doc : Value) (rest : list Value) (s s' s'' : St)
    (e : JsError) (n : Z) (result : outcome unit) :
    Nano.insert db (merge doc transformedData) s = (Throw e, s') ->
    status_is e 409 = true ->
    Writes rest s' n result s'' ->
    Writes (doc :: rest) s n result s''
| Writes_failed (doc : Value) (rest : list Value) (s s' : St) (e : JsError) :
    Nano.insert db (merge doc transformedData) s = (Throw e, s') ->
    status_is e 409 = false ->
    Writes (doc :: rest) s 0 (Throw e) s'.

End Batch.

Section NotFound.

Context {St : Type}.
Variable config : CouchDBAdapterConfig.
Variable host : Host.
Variable db : Nano.DocumentScope St.
Variable model : string.
Variable transformedWhere : Value.

(** The not-found outcomes of a [delete] that starts, with its database at
    hand, in state [s0]; [s'] is the state in which the store is left.
    Either the where clause names no identifier and the store finds no
    document for it; or the fetch of the resolved identifier fails with
    404; or the fetch succeeds, the document is the model's, and its removal
    fails with 404. *)
Inductive NotFound (s0 : St) : St -> Prop :=
| NoMatch (docId selector : Value) (found : Nano.FindResponse) (s1 : St) :
    idFromWhere transformedWhere = Ok docId ->
    truthy docId = false ->
    modelSelector config host transformedWhere model = Ok selector ->
    Nano.find db (query selector (Some 1)) s0 = (Ok found, s1) ->
    Nano.docs found = [] ->
    NotFound s0 s1
| FetchFails (docId : Value) (e : JsError) (s1 s2 : St) :
    delete_resolve config host db model transformedWhere s0 = (Ok (Some docId), s1) ->
    truthy docId = true ->
    Nano.get db docId s1 = (Throw e, s2) ->
    status_is e 404 = true ->
    NotFound s0 s2
| RemoveFails (docId doc : Value) (e : JsError) (s1 s2 s3 : St) :
    delete_resolve config host db model transformedWhere s0 = (Ok (Some docId), s1) ->
    truthy docId = true ->
    Nano.get db docId s1 = (Ok doc, s2) ->
    otherModel config host doc model = false ->
    Nano.destroy db (get doc "_id") (orElse (get doc "_rev") (VStr "")) s2
    = (Throw e, s3) ->
    status_is e 404 = true ->
    NotFound s0 s3.

(** A store whose look-ups and failed removals leave it as it is. *)
Definition quiet : Prop :=
  (forall id s r s', Nano.get db id s = (r, s') -> s' = s)
  /\ (forall q s r s', Nano.find db q s = (r, s') -> s' = s)
  /\ (forall id rev s e s', Nano.destroy db id rev s = (Throw e, s') -> s' = s).

End NotFound.

Section Paging.

Context {St : Type}.
Variable db : Nano.DocumentScope St.
Variable selector : Value.

(** The request for one page. *)
Definition pageQuery (bookmark : option string) : Nano.MangoQuery :=
  {| Nano.selector := selector; Nano.limit := Some pageSize; Nano.skip := None;
     Nano.sort := None; Nano.bookmark := bookmark |}.

(** A store that hands out the documents matching the selector in pages.
    [Paged bookmark s n docs s'] : asked from state [s] on, with the
    cursor at [bookmark], the store hands out [docs] in [n] pages and is
    then in state [s'].  Every page but the last is non-empty and comes
    with the bookmark that the next request carries; the last page comes
    without a bookmark or is empty. *)
Inductive Paged : option string -> St -> nat -> list Value -> St -> Prop :=
| Paged_last (bookmark : option string) (s s' : St) (page : list Value)
    (next : option string) :
    Nano.find db (pageQuery bookmark) s
    = (Ok {| Nano.docs := page; Nano.next := next |}, s') ->
    next = None \/ next = Some "" \/ page = [] ->
    Paged bookmark s 1 page s'
| Paged_more (bookmark : option string) (s s' s'' : St) (page rest : list Value)
    (b : string) (n : nat) :
    Nano.find db (pageQuery bookmark) s
    = (Ok {| Nano.docs := page; Nano.next := Some b |}, s') ->
    page <> [] ->
    b <> "" ->
    Paged (Some b) s' n rest s'' ->
    Paged bookmark s (S n) (page ++ rest) s''.

End Paging.

Section Fallback.

Variable host : Host.
Variable model : string.

(** [args.orderBy || (sortBy ? [sortBy] : undefined)], with no order as the
    empty list. *)
Definition effectiveOrder (orderBy_ : option (list SortBy)) (sortBy : option SortBy)
  : list SortBy :=
  match orderBy_ with
  | Some l => l
  | None => match sortBy with Some s => [s] | None => [] end
  end.

(** The [sort] of the query for an order. *)
Definition sortOf (order : list SortBy) : option (list (string * string)) :=
  match order with
  | [] => None
  | _ =>
      Some (map (fun o => (getFieldName host model (field o),
                           if String.eqb (direction o) "desc" then "desc" else "asc"))
                order)
  end.

(** What the fallback does in memory with the documents fetched: the sort,
    when there is an order, and then the slice from a positive offset. *)
Definition inMemory (order : list SortBy) (offset : option Z) (docs : list Value)
  : list Value :=
  let sorted :=
    match order with
    | [] => docs
    | _ => sortWith (compareDocs host model order) docs
    end in
  match offset with
  | Some n => if 0 <? n then skipn (Z.to_nat n) sorted else sorted
  | None => sorted
  end.

(** The value a document is sorted by under a sort key, and whether it is
    missing or null. *)
Definition sortValue (o : SortBy) (doc : Value) : Value :=
  get doc (getFieldName host model (field o)).

Definition missing (o : SortBy) (doc : Value) : Prop :=
  is_nullish (sortValue o doc) = true.

Definition present (o : SortBy) (doc : Value) : Prop :=
  is_nullish (sortValue o doc) = false.

(** The slice from a positive offset. *)
Definition fromOffset (offset : option Z) (docs : list Value) : list Value :=
  match offset with
  | Some n => if 0 <? n then skipn (Z.to_nat n) docs else docs
  | None => docs
  end.

(** The values that [<] orders as numbers, and as strings. *)
Definition numberLike (v : Value) : bool :=
  match v with VNum _ | VBool _ => true | _ => false end.

Definition stringLike (v : Value) : bool :=
  match v with VStr _ => true | _ => false end.

(** Documents that the comparator orders consistently under a sort key:
    they are objects, read under a name that is none of the inherited ones;
    at most one of them lacks a value; and the values are all numbers or
    booleans, or all strings. *)
Definition sortable (o : SortBy) (docs : list Value) : bool :=
  (negb (objectPrototypeName (getFieldName host model (field o)))
   && forallb isPlainObject docs
   && (length (filter (fun d => is_nullish (sortValue o d)) docs) <=? 1)%nat
   && (forallb (fun d => is_nullish (sortValue o d) || numberLike (sortValue o d)) docs
       || forallb (fun d => is_nullish (sortValue o d) || stringLike (sortValue o d))
            docs))%bool.

(** [a] is not after [b] under the order.  Ascending, a document with a
    value precedes one without, and the smaller value precedes; descending,
    a document without a value precedes one with, and the greater value
    precedes; two values of which neither is smaller leave it to the next
    sort key; and with no sort key left nothing is asked. *)
Fixpoint precedes (order : list SortBy) (a b : Value) : Prop :=
  match order with
  | [] => True
  | o :: rest =>
      let tie :=
        lt (sortValue o a) (sortValue o b) = false
        /\ lt (sortValue o b) (sortValue o a) = false in
      if String.eqb (direction o) "desc"
      then (missing o a /\ present o b)
           \/ (present o a /\ present o b
               /\ lt (sortValue o b) (sortValue o a) = true)
           \/ (present o a /\ present o b /\ tie /\ precedes rest a b)
      else (present o a /\ missing o b)
           \/ (present o a /\ present o b
               /\ lt (sortValue o a) (sortValue o b) = true)
           \/ (present o a /\ present o b /\ tie /\ precedes rest a b)
  end.

End Fallback.

Section Isolating.

Context {St : Type}.

(** The store's matching of a document against a selector. *)
Variable matches : Value -> Value -> bool.

(** A handle whose [find] answers with documents that match the selector
    asked for, and a server that gives out such handles only. *)
Definition answersMatch (db : Nano.DocumentScope St) : Prop :=
  forall q s r s',
    Nano.find db q s = (Ok r, s') ->
    Forall (fun doc => matches doc (Nano.selector q) = true) (Nano.docs r).

Definition soundStore (couch : Nano.ServerScope St) : Prop :=
  forall name s db s',
    Nano.use couch name s = (Ok db, s') -> answersMatch db.

End Isolating.

(** A document that carries the discriminator of a model. *)
Definition stampedFor (host : Host) (model : string) (doc : Value) : Prop :=
  get doc "betterAuthModel" = VStr (getModelName host model).

(** A where clause whose record has no key [__proto__]: compiling it
    leaves the selector's prototype alone. *)
Definition withoutProto (transformedWhere : Value) : Prop :=
  forall record,
    whereRecordOf transformedWhere = Ok record -> has record "__proto__" = false.

(** A matcher that looks at nothing but the discriminator: the entries of
    a selector are conjoined, and so are the members of [$and]; every other
    entry is taken to hold. *)
Fixpoint matchesDiscriminator (doc selector : Value) : bool :=
  match selector with
  | VObj props =>
      (fix entries (l : list (string * Value)) : bool :=
         match l with
         | [] => true
         | (key, value) :: rest =>
             ((if String.eqb key "betterAuthModel" then
                 match value with
                 | VStr _ => strictEq (get doc key) value
                 | _ => true
                 end
               else if String.eqb key "$and" then
                 match value with
                 | VArr subs => forallb (matchesDiscriminator doc) subs
                 | _ => true
                 end
               else true)
              && entries rest)%bool
         end) props
  | _ => true
  end.

(** Two laws of Mango selectors, for the store's matching [matches] of a
    document against a selector: the entries of a selector are conjoined, so
    that a document matching the selector agrees with its [betterAuthModel]
    entry; and the members of [$and] are conjoined. *)
Definition conjoinsFields (matches : Value -> Value -> bool) : Prop :=
  forall doc props m,
    matches doc (VObj props) = true ->
    lookup "betterAuthModel" props = Some (VStr m) ->
    get doc "betterAuthModel" = VStr m.

Definition conjoinsAnd (matches : Value -> Value -> bool) : Prop :=
  forall doc props subs sub,
    matches doc (VObj props) = true ->
    lookup "$and" props = Some (VArr subs) ->
    In sub subs ->
    matches doc sub = true.

End Reference.


(** ** A store that conjoins

    A store for the examples, of one list of documents: [find] answers with
    the documents that [matchesDiscriminator] accepts for the selector, in
    one page; [get] looks a document up by its [_id]; [insert] appends, and
    [destroy] removes by [_id].  Every database name gives this list. *)

Module Conjoining.
Import Reference.

Definition find (q : Nano.MangoQuery) : M (list Value) Nano.FindResponse :=
  fun s =>
    (Ok {| Nano.docs := filter (fun doc => matchesDiscriminator doc (Nano.selector q)) s;
           Nano.next := None |}, s).

Definition fetch (id : Value) : M (list Value) Value :=
  fun s =>
    match List.find (fun doc => strictEq (get doc "_id") id) s with
    | Some doc => (Ok doc, s)
    | None => (Throw Scripted.notFound, s)
    end.

Definition insert (doc : Value) : M (list Value) Nano.InsertResponse :=
  fun s => (Ok {| Nano.id := get doc "_id"; Nano.rev := "1-a" |}, s ++ [doc]).

Definition destroy (id rev : Value) : M (list Value) unit :=
  fun s => (Ok tt, filter (fun doc => negb (strictEq (get doc "_id") id)) s).

Definition scope : Nano.DocumentScope (list Value) :=
  {| Nano.insert := insert; Nano.get := fetch; Nano.find := find;
     Nano.destroy := destroy |}.

Definition server : Nano.ServerScope (list Value) :=
  {| Nano.db_get := fun name => ret tt;
     Nano.db_create := fun name => ret tt;
     Nano.use := fun name => ret scope |}.

(** A session, beside the user [u1]. *)
Definition session1 : Value :=
  VObj [("_id", VStr "s1"); ("_rev", VStr "1-a"); ("betterAuthModel", VStr "session");
        ("userId", VStr "u1")].

End Conjoining.
(** ** Definitions used in the proofs *)

Module Auxiliary.
Import Compiler Mock Adapter Reference.

(** The condition object of a condition whose keys convert to strings. *)
Definition recordOf (c : Value) : Value :=
  VObj [(toString (get c "field"),
         VObj [(toString (opKey (get c "operator")), get c "value")])].

Definition keyed (c : Value) : bool :=
  (printable (get c "field") && printable (opKey (get c "operator")))%bool.

(** The selector of one condition, whatever its field: compiling it throws
    when a pattern operator has a value that does not convert. *)
Definition leaf (c : Value) : outcome Value :=
  convertWhereToSelector_fuel 1 (recordOf c).

Definition leafSelector (c : Value) : Value :=
  match leaf c with
  | Ok selector => selector
  | _ => VObj []
  end.

(** What a group leaves in [finalConditions], and its selector. *)
Definition wrap (g : list Value) : Value :=
  match g with
  | [c] => recordOf c
  | _ => VObj [("OR", VArr (map recordOf g))]
  end.

Definition group (g : list Value) : outcome Value :=
  match g with
  | [c] => leaf c
  | _ => subs <-! mapM leaf g ;; Ok (VObj [("$or", VArr subs)])
  end.

Definition groupSelector (g : list Value) : Value :=
  match g with
  | [c] => leafSelector c
  | _ => VObj [("$or", VArr (map leafSelector g))]
  end.

(** Whether a sequence starts with a condition that is not tagged [OR]. *)
Definition startsAnd (tail : list Value) : bool :=
  match tail with
  | [] => true
  | c :: _ => negb (isOr c)
  end.

(** The conditions that the second loop leaves, once the last group is closed. *)
Definition finish (p : list Value * option (list Value)) : list Value :=
  closeOrGroup (fst p) (snd p).

(** The selector of a sequence of kept conditions, from its groups: the
    keys of the conditions are converted first, one condition after the
    other, and then the groups are compiled. *)
Definition sequence (conds : list Value) : outcome Value :=
  _ <-! mapM conditionObj conds ;;
  match orGroups conds with
  | [] => Ok (VObj [])
  | [g] => group g
  | gs => subs <-! mapM group gs ;; Ok (VObj [("$and", VArr subs)])
  end.

Definition sequenceSelector (conds : list Value) : Value :=
  match orGroups conds with
  | [] => VObj []
  | [g] => groupSelector g
  | gs => VObj [("$and", VArr (map groupSelector gs))]
  end.

(** A condition that the first loop keeps: its field is truthy. *)
Definition kept (c : Value) : Prop :=
  exists field, getE c "field" = Ok field /\ truthy field = true.

(** The verdict of the comparator of the in-memory sort on two values,
    before the direction is looked at. *)
Definition three (x y : Value) : Z :=
  if is_nullish x then 1
  else if is_nullish y then -1
  else if lt x y then -1
  else if lt y x then 1
  else 0.

(** The two kinds of values that a sort key orders: strings, and numbers
    with booleans. *)
Definition inKind (strings : bool) (v : Value) : bool :=
  if strings then stringLike v else numberLike v.

Definition classed (strings : bool) (v : Value) : bool :=
  (is_nullish v || inKind strings v)%bool.

Section Sorting.

Variable host : Host.
Variable model : string.

(** The kind of the values of the documents under a sort key. *)
Definition kindOf (docs : list Value) (o : SortBy) : bool :=
  forallb (fun d => is_nullish (sortValue host model o d)
                    || stringLike (sortValue host model o d))%bool docs.

(** A document whose values are of the kinds of the sort keys. *)
Definition fits (kinds : SortBy -> bool) (order : list SortBy) (d : Value) : Prop :=
  forall o, In o order -> classed (kinds o) (sortValue host model o d) = true.

(** Two documents of which, under every sort key, one has a value. *)
Definition apart (order : list SortBy) (a b : Value) : Prop :=
  forall o, In o order ->
    is_nullish (sortValue host model o a) = false
    \/ is_nullish (sortValue host model o b) = false.

End Sorting.

End Auxiliary.
(** ** Definitions used in the statements of the further properties *)

Module Vocabulary.
Import Compiler Mock Adapter Reference Auxiliary.

(** The Mango operator that stands for a comparison operator of
    Better-Auth, under either of its spellings. *)
Definition mangoOperator (operator : string) : option string :=
  if (String.eqb operator "eq" || String.eqb operator "equals")%bool then Some "$eq"
  else if (String.eqb operator "ne" || String.eqb operator "not")%bool then Some "$ne"
  else if String.eqb operator "in" then Some "$in"
  else if (String.eqb operator "not_in" || String.eqb operator "notIn")%bool
  then Some "$nin"
  else if String.eqb operator "gt" then Some "$gt"
  else if String.eqb operator "gte" then Some "$gte"
  else if String.eqb operator "lt" then Some "$lt"
  else if String.eqb operator "lte" then Some "$lte"
  else None.

(** The operators that are compiled to a pattern. *)
Definition patternOperator (operator : string) : bool :=
  (String.eqb operator "contains"
   || String.eqb operator "starts_with" || String.eqb operator "startsWith"
   || String.eqb operator "ends_with" || String.eqb operator "endsWith")%bool.

(** The key of the operator in the selector: the Mango operator, or the
    operator's own name when it is none of Better-Auth's. *)
Definition selectorKey (operator : string) : string :=
  match mangoOperator operator with
  | Some m => m
  | None => operator
  end.

(** A condition that the compiler can file: it has no field, and is left
    out; or its field and its operator convert to the keys of the condition
    object, and its value to the string of a pattern ([String] throws on an
    object whose [toString] is no function). *)
Definition convertible (c : Value) : bool :=
  (negb (truthy (get c "field"))
   || (keyed c && printable (get c "value")))%bool.

(** A string without a character of the class that [escapeRegex] escapes. *)
Fixpoint plain (v : string) : bool :=
  match v with
  | EmptyString => true
  | String c rest => (negb (isRegexMeta c) && plain rest)%bool
  end.

(** The keys of Better-Auth's where records that the compiler translates. *)
Definition betterAuthKey (key : string) : bool :=
  (String.eqb key "id" || String.eqb key "AND" || String.eqb key "OR")%bool.

(** A property list without a key that the compiler translates. *)
Definition translated (props : list (string * Value)) : Prop :=
  forall k, betterAuthKey k = true -> lookup k props = None.

(** The keys that [mergeOriginalFields] leaves to the transformed document. *)
Definition internalKey (key : string) : bool :=
  (String.eqb key "_id" || String.eqb key "_rev"
   || String.eqb key "betterAuthModel" || String.eqb key "id")%bool.

(** A field value that names the identifier. *)
Definition names (field : Value) : bool :=
  (strictEq field (VStr "id") || strictEq field (VStr "_id"))%bool.

(** A value that is no array and no object: two such values are the same
    value exactly when [===] says so. *)
Definition scalar (v : Value) : bool :=
  match v with
  | VArr _ | VObj _ => false
  | _ => true
  end.

(** A revision as the store hands it out: a non-empty string. *)
Definition revision (v : Value) : bool :=
  match v with
  | VStr r => negb (String.eqb r "")
  | _ => false
  end.

(** A [Map]: no key occurs twice. *)
Fixpoint uniqueKeys {A} (m : list (Value * A)) : Prop :=
  match m with
  | [] => True
  | (k, _) :: rest => MockCouchDB.mapGet k rest = None /\ uniqueKeys rest
  end.

(** An entry of a database as [insert] leaves it: the key is truthy, and
    the document is an object that carries the key as [_id], and a
    revision. *)
Definition keyedBy (entry : Value * Value) : Prop :=
  truthy (fst entry) = true
  /\ isPlainObject (snd entry) = true
  /\ get (snd entry) "_id" = fst entry
  /\ revision (get (snd entry) "_rev") = true.

(** The verdict of the store's matcher on a document, as a boolean: a
    failure of the matcher counts as no match. *)
Definition isMatch (regexTest : string -> string -> outcome bool)
    (selector doc : Value) : bool :=
  match matchesSelector regexTest doc selector with
  | Ok true => true
  | _ => false
  end.

(** The states of the in-memory store that its operations lead to: the
    map of databases and every database are maps, and every entry of a
    database is as [insert] leaves it. *)
Definition wellKeyed (s : MockCouchDB.State) : Prop :=
  uniqueKeys (MockCouchDB.databases s)
  /\ Forall (fun entry => uniqueKeys (snd entry) /\ Forall keyedBy (snd entry))
       (MockCouchDB.databases s).

(** The document that [insert] stores for [doc] under [docId] with the
    revision [rev]: [{ ...doc, _id: docId, _rev: rev }]. *)
Definition storedAs (docId : Value) (rev : string) (doc : Value) : Value :=
  VObj (assign "_rev" (VStr rev) (assign "_id" docId (props_of doc))).

(** Whether [find] keeps a document for a selector: a selector that is
    no object with a key keeps every document. *)
Definition selects (regexTest : string -> string -> outcome bool)
    (selector doc : Value) : bool :=
  match selector with
  | VObj (_ :: _) => isMatch regexTest selector doc
  | _ => true
  end.

(** An entry of a database after a batch of updates with [data]: the entry
    keeps its key, and its document is merged with [data] and stored with a
    new revision if [f] picks it, and is as before if not. *)
Definition updatedTo (f : Value -> bool) (data : Value) (e e' : Value * Value) : Prop :=
  fst e' = fst e
  /\ if f (snd e)
     then exists rev, snd e' = storedAs (fst e) rev (merge (snd e) data)
     else snd e' = snd e.

(** The name of the database that [getDatabase] works on. *)
Definition databaseName (config : CouchDBAdapterConfig) (model : string) : string :=
  if useModelAsDatabase config then model
  else match database config with
       | Some name => if String.eqb name "" then "better_auth" else name
       | None => "better_auth"
       end.

(** The store with the database [name] in it: made empty if it is not there. *)
Definition ensure (name : string) (s : MockCouchDB.State) : MockCouchDB.State :=
  match MockCouchDB.mapGet (VStr name) (MockCouchDB.databases s) with
  | Some _ => s
  | None => MockCouchDB.withDatabase name [] s
  end.

(** Whether a stored document is one of the model's for the selectors:
    under the shared database its discriminator is the model's name. *)
Definition ofModel (config : CouchDBAdapterConfig) (host : Host) (model : string)
    (doc : Value) : bool :=
  (useModelAsDatabase config
   || strictEq (get doc "betterAuthModel") (VStr (getModelName host model)))%bool.

(** The where clause [_id = i] and the selector that look-ups by it send. *)
Definition byIdSelector (config : CouchDBAdapterConfig) (host : Host)
    (model i : string) : Value :=
  if negb (useModelAsDatabase config)
  then VObj [("_id", VObj [("$eq", VStr i)]);
             ("betterAuthModel", VStr (getModelName host model))]
  else VObj [("_id", VObj [("$eq", VStr i)])].

(** The field [k] of [{ ...a, ...b }]. *)
Definition spreadGet (a b : Value) (k : string) : Value :=
  match lookup k (rev (props_of b)) with
  | Some v => v
  | None => get (VObj (props_of a)) k
  end.

Section Removing.

Context {St : Type}.
Variable db : Nano.DocumentScope St.

(** The removals of a batch, one document after the other.
    [Removals docs s n result s'] : starting in state [s], the documents of
    [docs] are removed in order, each under its [_id] with its [_rev] (or
    the empty string); [n] of the removals succeed; a removal that fails
    with 404 is passed over; the first removal that fails otherwise ends the
    batch with its error as [result]; [s'] is the state after the last
    removal tried. *)
Inductive Removals : list Value -> St -> Z -> outcome unit -> St -> Prop :=
| Removals_done (s : St) :
    Removals [] s 0 (Ok tt) s
| Removals_removed (doc : Value) (rest : list Value) (s s' s'' : St)
    (n : Z) (result : outcome unit) :
    Nano.destroy db (get doc "_id") (orElse (get doc "_rev") (VStr "")) s
    = (Ok tt, s') ->
    Removals rest s' n result s'' ->
    Removals (doc :: rest) s (n + 1) result s''
| Removals_gone (doc : Value) (rest : list Value) (s s' s'' : St)
    (e : JsError) (n : Z) (result : outcome unit) :
    Nano.destroy db (get doc "_id") (orElse (get doc "_rev") (VStr "")) s
    = (Throw e, s') ->
    status_is e 404 = true ->
    Removals rest s' n result s'' ->
    Removals (doc :: rest) s n result s''
| Removals_failed (doc : Value) (rest : list Value) (s s' : St) (e : JsError) :
    Nano.destroy db (get doc "_id") (orElse (get doc "_rev") (VStr "")) s
    = (Throw e, s') ->
    status_is e 404 = false ->
    Removals (doc :: rest) s 0 (Throw e) s'.

End Removing.

End Vocabulary.
(** ** Properties of the compiler *)

Module CompilerFacts.
Import Compiler Mock Reference Auxiliary.

Lemma isRegexMeta_backslash : isRegexMeta "\"%char = true.
Proof. reflexivity. Qed.

Lemma literalOf_escapeRegex (v : string) : literalOf (escapeRegex v) = Some v.
Proof.
  induction v as [| c rest IH]; [reflexivity |].
  cbn [escapeRegex].
  destruct (isRegexMeta c) eqn:Hmeta.
  - cbn [literalOf]. rewrite Ascii.eqb_refl, IH. reflexivity.
  - cbn [literalOf].
    destruct (Ascii.eqb c "\"%char) eqn:Hb.
    + apply Ascii.eqb_eq in Hb. subst c. discriminate Hmeta.
    + rewrite Hmeta, IH. reflexivity.
Qed.

(** *** Conversions to strings, and assignments *)

Definition unconvertible : JsError :=
  TypeError "Cannot convert object to primitive value".

Lemma stringOf_printable (v : Value) :
  printable v = true -> stringOf v = Ok (toString v).
Proof. intros H. unfold stringOf. now rewrite H. Qed.

Lemma stringOf_unprintable (v : Value) :
  printable v = false -> stringOf v = Throw unconvertible.
Proof. intros H. unfold stringOf. now rewrite H. Qed.

Lemma stringOf_ok (v : Value) (s : string) :
  stringOf v = Ok s -> printable v = true /\ s = toString v.
Proof.
  unfold stringOf. destruct (printable v); [| discriminate].
  intros H. injection H as <-. now split.
Qed.

Lemma put_other (k : string) (v : Value) (props : list (string * Value)) :
  String.eqb k "__proto__" = false -> put k v props = assign k v props.
Proof. intros H. unfold put. now rewrite H. Qed.

Lemma conditionObj_keyed (c : Value) :
  keyed c = true -> conditionObj c = Ok (recordOf c).
Proof.
  unfold keyed, conditionObj, recordOf. intros H.
  apply andb_true_iff in H. destruct H as [Hf Ho].
  now rewrite (stringOf_printable _ Hf), (stringOf_printable _ Ho).
Qed.

Lemma conditionObj_unkeyed (c : Value) :
  keyed c = false -> conditionObj c = Throw unconvertible.
Proof.
  unfold keyed, conditionObj. intros H.
  destruct (printable (get c "field")) eqn:Hf.
  - cbn [andb] in H. rewrite (stringOf_printable _ Hf), (stringOf_unprintable _ H).
    reflexivity.
  - now rewrite (stringOf_unprintable _ Hf).
Qed.

Lemma mapM_conditionObj_keyed (conds : list Value) :
  forallb keyed conds = true -> mapM conditionObj conds = Ok (map recordOf conds).
Proof.
  induction conds as [| c conds IH]; [reflexivity |].
  cbn [forallb mapM map]. intros H. apply andb_true_iff in H. destruct H as [Hc H].
  now rewrite (conditionObj_keyed c Hc), (IH H).
Qed.

Lemma mapM_conditionObj_unkeyed (conds : list Value) :
  forallb keyed conds = false -> mapM conditionObj conds = Throw unconvertible.
Proof.
  induction conds as [| c conds IH]; [discriminate |].
  cbn [forallb mapM]. intros H.
  destruct (keyed c) eqn:Hc.
  - cbn [andb] in H. now rewrite (conditionObj_keyed c Hc), (IH H).
  - now rewrite (conditionObj_unkeyed c Hc).
Qed.

(** The selector of one condition object [{ field: { key: value } }] of an
    ordinary field: the entry's operator object is translated, and is the
    entry's value when the translation leaves nothing. *)
Lemma convert_record_ordinary (fuel : nat) (field key : string) (value : Value) :
  ordinaryField field = true ->
  convertWhereToSelector_fuel (S fuel) (VObj [(field, VObj [(key, value)])])
  = (operators <-! addOperator [] key value ;;
     Ok (VObj [(field, match operators with
                       | [] => VObj [(key, value)]
                       | _ => VObj operators
                       end)])).
Proof.
  unfold ordinaryField. intros H.
  apply negb_true_iff in H.
  apply orb_false_iff in H. destruct H as [H Hproto].
  apply orb_false_iff in H. destruct H as [H Hid].
  apply orb_false_iff in H. destruct H as [H Hor].
  apply orb_false_iff in H. destruct H as [_ Hand].
  cbn [convertWhereToSelector_fuel isArray obind].
  rewrite Hand, Hor, Hid. cbn [orb].
  unfold convertOperators. cbn [convertOperatorsFrom].
  destruct (addOperator [] key value) as [operators | e |]; cbn [obind];
    try reflexivity.
  rewrite !(put_other field _ _ Hproto).
  destruct operators; reflexivity.
Qed.

(** *** The condition sequence *)

(** For an array, the compiler goes on with the record made of it. *)
Lemma convert_array_step (fuel : nat) (items : list Value) (r : list (string * Value)) :
  convertWhereArrayToRecord (VArr items) = Ok (Some (VObj r)) ->
  convertWhereToSelector_fuel (S fuel) (VArr items)
  = convertWhereToSelector_fuel (S fuel) (VObj r).
Proof.
  intros H. cbn [convertWhereToSelector_fuel isArray]. rewrite H. reflexivity.
Qed.

Lemma convert_array_none (fuel : nat) (items : list Value) :
  convertWhereArrayToRecord (VArr items) = Ok None ->
  convertWhereToSelector_fuel (S fuel) (VArr items) = Ok (VObj []).
Proof.
  intros H. cbn [convertWhereToSelector_fuel isArray]. rewrite H. reflexivity.
Qed.

Lemma convert_array_throw (fuel : nat) (items : list Value) (e : JsError) :
  convertWhereArrayToRecord (VArr items) = Throw e ->
  convertWhereToSelector_fuel (S fuel) (VArr items) = Throw e.
Proof.
  intros H. cbn [convertWhereToSelector_fuel isArray]. rewrite H. reflexivity.
Qed.

(** A condition object is compiled without a call of the compiler on a
    part of it: any fuel will do. *)
Lemma convert_recordOf (fuel : nat) (c : Value) :
  convertWhereToSelector_fuel (S fuel) (recordOf c) = leaf c.
Proof.
  unfold leaf, recordOf.
  cbn [convertWhereToSelector_fuel isArray obind].
  destruct (String.eqb (toString (get c "field")) "AND"
            || String.eqb (toString (get c "field")) "OR")%bool; [reflexivity |].
  destruct (String.eqb (toString (get c "field")) "id"); reflexivity.
Qed.

Lemma mapM_recordOf (fuel : nat) (g : list Value) :
  mapM (convertWhereToSelector_fuel (S fuel)) (map recordOf g) = mapM leaf g.
Proof.
  induction g as [| c g IH]; [reflexivity |].
  cbn [map mapM]. now rewrite convert_recordOf, IH.
Qed.

Lemma convert_or (fuel : nat) (g : list Value) :
  convertWhereToSelector_fuel (S (S fuel)) (VObj [("OR", VArr (map recordOf g))])
  = (subs <-! mapM leaf g ;; Ok (VObj [("$or", VArr subs)])).
Proof.
  remember (S fuel) as n eqn:Hn.
  cbn [convertWhereToSelector_fuel isArray obind String.eqb Ascii.eqb Bool.eqb orb].
  subst n. rewrite mapM_recordOf.
  destruct (mapM leaf g); reflexivity.
Qed.

Lemma convert_wrap (fuel : nat) (g : list Value) :
  convertWhereToSelector_fuel (S (S fuel)) (wrap g) = group g.
Proof.
  destruct g as [| c [| c' g]].
  - apply (convert_or fuel []).
  - apply convert_recordOf.
  - apply (convert_or fuel (c :: c' :: g)).
Qed.

Lemma mapM_wrap (fuel : nat) (gs : list (list Value)) :
  mapM (convertWhereToSelector_fuel (S (S fuel))) (map wrap gs) = mapM group gs.
Proof.
  induction gs as [| g gs IH]; [reflexivity |].
  cbn [map mapM]. now rewrite convert_wrap, IH.
Qed.

Lemma convert_and (fuel : nat) (gs : list (list Value)) :
  convertWhereToSelector_fuel (S (S (S fuel))) (VObj [("AND", VArr (map wrap gs))])
  = (subs <-! mapM group gs ;; Ok (VObj [("$and", VArr subs)])).
Proof.
  remember (S (S fuel)) as n eqn:Hn.
  cbn [convertWhereToSelector_fuel isArray obind String.eqb Ascii.eqb Bool.eqb orb].
  subst n. rewrite mapM_wrap.
  destruct (mapM group gs); reflexivity.
Qed.

(** The state machine of [convertWhereArrayToRecord] computes [orGroups]. *)

Lemma orGroups_run (g tail : list Value) :
  g <> [] -> forallb isOr g = true -> startsAnd tail = true ->
  orGroups (g ++ tail) = g :: orGroups tail.
Proof.
  intros Hne Hor Htail.
  induction g as [| x g IH]; [congruence |].
  cbn [forallb] in Hor. apply andb_true_iff in Hor. destruct Hor as [Hx Hg].
  destruct g as [| y g'].
  - cbn [app orGroups]. rewrite Hx.
    destruct tail as [| c rest]; [reflexivity |].
    cbn [startsAnd] in Htail. apply negb_true_iff in Htail. rewrite Htail.
    reflexivity.
  - assert (Hy : isOr y = true).
    { cbn [forallb] in Hg. apply andb_true_iff in Hg. tauto. }
    change ((x :: y :: g') ++ tail) with (x :: ((y :: g') ++ tail)).
    change (orGroups (x :: ((y :: g') ++ tail)))
      with (if isOr x then
              match (y :: g') ++ tail with
              | c' :: _ =>
                  if isOr c' then
                    match orGroups ((y :: g') ++ tail) with
                    | g0 :: gs => (x :: g0) :: gs
                    | [] => [[x]]
                    end
                  else [x] :: orGroups ((y :: g') ++ tail)
              | [] => [[x]]
              end
            else [x] :: orGroups ((y :: g') ++ tail)).
    rewrite Hx. rewrite (IH ltac:(discriminate) Hg).
    cbn [app]. rewrite Hy. reflexivity.
Qed.

Lemma closeOrGroup_some (fin g : list Value) :
  closeOrGroup fin (Some (map recordOf g)) = fin ++ [wrap g].
Proof.
  destruct g as [| c [| c' g]]; reflexivity.
Qed.

Lemma groupLoop_orGroups (conds : list Value) :
  forallb keyed conds = true ->
  forall fin,
    (exists p, groupLoop conds fin None = Ok p
               /\ finish p = fin ++ map wrap (orGroups conds))
    /\ forall g, g <> [] -> forallb isOr g = true ->
         exists p, groupLoop conds fin (Some (map recordOf g)) = Ok p
                   /\ finish p = fin ++ map wrap (orGroups (g ++ conds)).
Proof.
  induction conds as [| c rest IH]; intros Hkeyed fin.
  - split.
    + eexists; split; [reflexivity |]. cbn. now rewrite app_nil_r.
    + intros g Hne Hor. eexists; split; [reflexivity |].
      unfold finish. cbn [fst snd].
      rewrite closeOrGroup_some, orGroups_run by (try reflexivity; assumption).
      reflexivity.
  - cbn [forallb] in Hkeyed. apply andb_true_iff in Hkeyed.
    destruct Hkeyed as [Hc Hrest]. specialize (IH Hrest).
    split.
    + cbn [groupLoop]. rewrite (conditionObj_keyed c Hc). cbn [obind]. fold (isOr c).
      destruct (isOr c) eqn:Hor.
      * destruct (IH fin) as [_ IHs].
        specialize (IHs [c] ltac:(discriminate)).
        cbn [forallb andb app map] in IHs. rewrite Hor in IHs.
        apply IHs. reflexivity.
      * destruct (IH (closeOrGroup fin None ++ [recordOf c])) as [[p [Hp Hfin]] _].
        exists p. split; [exact Hp |].
        rewrite Hfin. cbn [closeOrGroup orGroups map]. rewrite Hor.
        cbn [map]. rewrite <- app_assoc. reflexivity.
    + intros g Hne Hg. cbn [groupLoop]. rewrite (conditionObj_keyed c Hc).
      cbn [obind]. fold (isOr c).
      destruct (isOr c) eqn:Hor.
      * destruct (IH fin) as [_ IHs].
        specialize (IHs (g ++ [c])).
        rewrite map_app in IHs. cbn [map] in IHs.
        destruct IHs as [p [Hp Hfin]].
        -- destruct g; discriminate.
        -- rewrite forallb_app, Hg. cbn. now rewrite Hor.
        -- exists p. split; [exact Hp |]. now rewrite Hfin, <- app_assoc.
      * destruct (IH (closeOrGroup fin (Some (map recordOf g)) ++ [recordOf c]))
          as [[p [Hp Hfin]] _].
        exists p. split; [exact Hp |].
        rewrite Hfin, closeOrGroup_some.
        rewrite orGroups_run by (try assumption; cbn; now rewrite Hor).
        cbn [orGroups map]. rewrite Hor. cbn [map wrap].
        rewrite <- !app_assoc. reflexivity.
Qed.

Lemma groupLoop_unkeyed (conds : list Value) :
  forallb keyed conds = false ->
  forall fin current, groupLoop conds fin current = Throw unconvertible.
Proof.
  induction conds as [| c rest IH]; [discriminate |].
  cbn [forallb groupLoop]. intros H fin current.
  destruct (keyed c) eqn:Hc.
  - cbn [andb] in H. rewrite (conditionObj_keyed c Hc). cbn [obind].
    destruct (strictEq (get c "connector") (VStr "OR")); now apply IH.
  - now rewrite (conditionObj_unkeyed c Hc).
Qed.

Lemma convertWhereArrayToRecord_kept (items conds : list Value) :
  keepWithField items = Ok conds ->
  convertWhereArrayToRecord (VArr items)
  = (_ <-! mapM conditionObj conds ;;
     Ok (match map wrap (orGroups conds) with
         | [] => None
         | [only] => Some only
         | several => Some (VObj [("AND", VArr several)])
         end)).
Proof.
  intros H. unfold convertWhereArrayToRecord. rewrite H. cbn [obind].
  destruct conds as [| c rest]; [reflexivity |].
  destruct (forallb keyed (c :: rest)) eqn:Hkeyed.
  - rewrite (mapM_conditionObj_keyed _ Hkeyed). cbn [obind].
    destruct (proj1 (groupLoop_orGroups (c :: rest) Hkeyed [])) as [p [Hp Hfin]].
    rewrite Hp. cbn [obind]. unfold finish in Hfin. cbn [app] in Hfin.
    rewrite Hfin.
    destruct (map wrap (orGroups (c :: rest))) as [| a [| b l]]; reflexivity.
  - rewrite (mapM_conditionObj_unkeyed _ Hkeyed).
    now rewrite (groupLoop_unkeyed _ Hkeyed).
Qed.

Lemma wrap_is_object (g : list Value) : exists r, wrap g = VObj r.
Proof. destruct g as [| c [| c' g]]; eexists; reflexivity. Qed.

Lemma convert_sequence (fuel : nat) (items conds : list Value) :
  keepWithField items = Ok conds ->
  convertWhereToSelector_fuel (S (S (S fuel))) (VArr items) = sequence conds.
Proof.
  intros H. apply convertWhereArrayToRecord_kept in H. unfold sequence.
  destruct (mapM conditionObj conds) as [objs | e |] eqn:Hobjs; cbn [obind] in *.
  - destruct (orGroups conds) as [| g [| g' gs]].
    + now apply convert_array_none.
    + cbn [map] in H. destruct (wrap_is_object g) as [r Hr].
      rewrite Hr in H. rewrite (convert_array_step _ _ _ H), <- Hr.
      apply convert_wrap.
    + rewrite (convert_array_step _ _ _ H).
      apply (convert_and fuel (g :: g' :: gs)).
  - now apply convert_array_throw.
  - cbn [convertWhereToSelector_fuel isArray]. now rewrite H.
Qed.

Lemma convert_sequence_throw (fuel : nat) (items : list Value) (e : JsError) :
  keepWithField items = Throw e ->
  convertWhereToSelector_fuel (S fuel) (VArr items) = Throw e.
Proof.
  intros H. apply convert_array_throw.
  unfold convertWhereArrayToRecord. now rewrite H.
Qed.

Lemma keepWithField_total (items : list Value) : keepWithField items <> OutOfFuel.
Proof.
  induction items as [| c rest IH]; [discriminate |].
  cbn [keepWithField].
  destruct c; cbn [getE obind]; try discriminate;
    destruct (keepWithField rest); cbn [obind]; congruence.
Qed.

Lemma keepWithField_kept (items conds : list Value) :
  keepWithField items = Ok conds -> Forall kept conds.
Proof.
  revert conds. induction items as [| c rest IH]; intros conds H.
  - injection H as <-. constructor.
  - cbn [keepWithField] in H.
    destruct (getE c "field") as [field | |] eqn:Hf; try discriminate.
    cbn [obind] in H.
    destruct (keepWithField rest) as [k | |]; try discriminate.
    cbn [obind] in H. injection H as <-.
    specialize (IH k eq_refl).
    destruct (truthy field) eqn:Ht; [| assumption].
    constructor; [| assumption]. exists field. split; assumption.
Qed.

Lemma keepWithField_single (c : Value) : kept c -> keepWithField [c] = Ok [c].
Proof.
  intros [field [Hf Ht]]. cbn [keepWithField]. rewrite Hf. cbn [obind].
  now rewrite Ht.
Qed.

Lemma orGroups_single (c : Value) : orGroups [c] = [[c]].
Proof. cbn. destruct (isOr c); reflexivity. Qed.

Lemma orGroups_members (conds : list Value) :
  forall g c, In g (orGroups conds) -> In c g -> In c conds.
Proof.
  induction conds as [| x rest IH]; intros g c Hg Hc; [destruct Hg |].
  cbn [orGroups] in Hg.
  destruct (isOr x).
  - destruct rest as [| y rest'].
    + destruct Hg as [<- | []]. exact Hc.
    + destruct (isOr y).
      * destruct (orGroups (y :: rest')) as [| g0 gs] eqn:E.
        -- destruct Hg as [<- | []]. destruct Hc as [<- | []]. now left.
        -- destruct Hg as [<- | Hg].
           ++ destruct Hc as [<- | Hc]; [now left |].
              right. apply (IH g0 c); [now left | exact Hc].
           ++ right. apply (IH g c); [now right | exact Hc].
      * destruct Hg as [<- | Hg].
        -- destruct Hc as [<- | []]. now left.
        -- right. now apply (IH g c).
  - destruct Hg as [<- | Hg].
    + destruct Hc as [<- | []]. now left.
    + right. now apply (IH g c).
Qed.

(** *** Matching the compiled sequence *)

Lemma every_map {A B} (f : B -> outcome bool) (h : A -> B) (l : list A) :
  every f (map h l) = every (fun x => f (h x)) l.
Proof.
  induction l as [| x l IH]; [reflexivity |].
  cbn [map every]. rewrite IH. reflexivity.
Qed.

Lemma some_map {A B} (f : B -> outcome bool) (h : A -> B) (l : list A) :
  some f (map h l) = some (fun x => f (h x)) l.
Proof.
  induction l as [| x l IH]; [reflexivity |].
  cbn [map some]. rewrite IH. reflexivity.
Qed.

Lemma every_ext_in {A} (f h : A -> outcome bool) (l : list A) :
  (forall x, In x l -> f x = h x) -> every f l = every h l.
Proof.
  induction l as [| x l IH]; intros H; [reflexivity |].
  cbn [every]. rewrite (H x (or_introl eq_refl)), IH; [reflexivity |].
  intros y Hy. apply H. now right.
Qed.

Lemma some_ext_in {A} (f h : A -> outcome bool) (l : list A) :
  (forall x, In x l -> f x = h x) -> some f l = some h l.
Proof.
  induction l as [| x l IH]; intros H; [reflexivity |].
  cbn [some]. rewrite (H x (or_introl eq_refl)), IH; [reflexivity |].
  intros y Hy. apply H. now right.
Qed.

Lemma every_single {A} (f : A -> outcome bool) (x : A) : every f [x] = f x.
Proof. cbn. destruct (f x) as [[|] | |]; reflexivity. Qed.

Lemma some_single {A} (f : A -> outcome bool) (x : A) : some f [x] = f x.
Proof. cbn. destruct (f x) as [[|] | |]; reflexivity. Qed.

Lemma mapM_ok_in {A B} (f : A -> outcome B) (h : A -> B) (l : list A) :
  (forall x, In x l -> f x = Ok (h x)) -> mapM f l = Ok (map h l).
Proof.
  induction l as [| x l IH]; intros H; [reflexivity |].
  cbn [mapM map]. rewrite (H x (or_introl eq_refl)), IH; [reflexivity |].
  intros y Hy. apply H. now right.
Qed.

Lemma every_ok {A} (f : A -> bool) (l : list A) :
  every (fun x => Ok (f x)) l = Ok (forallb f l).
Proof.
  induction l as [| x l IH]; [reflexivity |].
  cbn [every forallb]. destruct (f x); [exact IH | reflexivity].
Qed.

Lemma some_ok {A} (f : A -> bool) (l : list A) :
  some (fun x => Ok (f x)) l = Ok (existsb f l).
Proof.
  induction l as [| x l IH]; [reflexivity |].
  cbn [some existsb]. destruct (f x); [reflexivity | exact IH].
Qed.

(** When every condition compiles, the selector of the sequence is made of
    the selectors of its conditions. *)
Lemma group_ok (g : list Value) :
  (forall c, In c g -> leaf c = Ok (leafSelector c)) ->
  group g = Ok (groupSelector g).
Proof.
  intros H. destruct g as [| c [| c' g]].
  - reflexivity.
  - apply H. now left.
  - unfold group, groupSelector. now rewrite (mapM_ok_in leaf leafSelector _ H).
Qed.

Lemma sequence_ok (conds : list Value) :
  forallb keyed conds = true ->
  (forall c, In c conds -> leaf c = Ok (leafSelector c)) ->
  sequence conds = Ok (sequenceSelector conds).
Proof.
  intros Hkeyed Hleaf. unfold sequence, sequenceSelector.
  rewrite (mapM_conditionObj_keyed _ Hkeyed). cbn [obind].
  assert (Hgroup : forall g, In g (orGroups conds) -> group g = Ok (groupSelector g)).
  { intros g Hg. apply group_ok. intros c Hc. apply Hleaf.
    now apply (orGroups_members conds g c). }
  destruct (orGroups conds) as [| g [| g' gs]] eqn:E.
  - reflexivity.
  - apply Hgroup. now left.
  - now rewrite (mapM_ok_in group groupSelector _ Hgroup).
Qed.

Section Matching.

Variable regexTest : string -> string -> outcome bool.

Lemma matches_group (doc : Value) (g : list Value) :
  matchesSelector regexTest doc (groupSelector g)
  = some (fun c => matchesSelector regexTest doc (leafSelector c)) g.
Proof.
  destruct g as [| c [| c' g]].
  - reflexivity.
  - now rewrite some_single.
  - unfold groupSelector.
    change (matchesSelector regexTest doc
              (VObj [("$or", VArr (map leafSelector (c :: c' :: g)))]))
      with (some (matchesSelector regexTest doc) (map leafSelector (c :: c' :: g))).
    apply some_map.
Qed.

(** The selector of a sequence matches as the conjunction, over the groups,
    of the disjunction of the selectors of the group's conditions. *)
Lemma matches_sequence (doc : Value) (conds : list Value) :
  matchesSelector regexTest doc (sequenceSelector conds)
  = every (fun g => some (fun c => matchesSelector regexTest doc (leafSelector c)) g)
      (orGroups conds).
Proof.
  unfold sequenceSelector.
  destruct (orGroups conds) as [| g [| g' gs]] eqn:E.
  - reflexivity.
  - rewrite every_single. apply matches_group.
  - change (matchesSelector regexTest doc
              (VObj [("$and", VArr (map groupSelector (g :: g' :: gs)))]))
      with (every (matchesSelector regexTest doc) (map groupSelector (g :: g' :: gs))).
    rewrite every_map. apply every_ext_in. intros x _. apply matches_group.
Qed.

End Matching.

Lemma convertWhereToSelector_fuel_object (fuel : nat) (where_ selector : Value) :
  convertWhereToSelector_fuel fuel where_ = Ok selector ->
  exists props, selector = VObj props.
Proof.
  destruct fuel as [| fuel]; [discriminate |].
  cbn [convertWhereToSelector_fuel].
  destruct (if isArray where_ then convertWhereArrayToRecord where_ else Ok (Some where_))
    as [[[] |] | |]; cbn [obind]; try discriminate;
    try (intros H; injection H as <-; eexists; reflexivity).
  match goal with
  | |- obind ?m _ = _ -> _ => destruct m as [sel | |]
  end; cbn [obind]; try discriminate.
  intros H; injection H as <-. eexists; reflexivity.
Qed.

Lemma convertWhereToSelector_object (where_ selector : Value) :
  convertWhereToSelector where_ = Ok selector -> exists props, selector = VObj props.
Proof. apply convertWhereToSelector_fuel_object. Qed.

(** The fuel of [convertWhereToSelector] is enough for every argument: the
    compiler returns or throws. *)
Lemma addOperator_total (operators : list (string * Value)) (op : string) (v : Value) :
  addOperator operators op v <> OutOfFuel.
Proof.
  unfold addOperator, stringOf.
  repeat match goal with
         | |- context [if ?b then _ else _] => destruct b
         end; discriminate.
Qed.

Lemma convertOperatorsFrom_total (entries operators : list (string * Value)) :
  convertOperatorsFrom operators entries <> OutOfFuel.
Proof.
  revert operators. induction entries as [| [op v] rest IH]; intros operators;
    [discriminate |].
  cbn [convertOperatorsFrom].
  pose proof (addOperator_total operators op v) as H.
  destruct (addOperator operators op v); cbn [obind]; [apply IH | discriminate | congruence].
Qed.

Lemma leaf_total (c : Value) : leaf c <> OutOfFuel.
Proof.
  unfold leaf, recordOf.
  cbn [convertWhereToSelector_fuel isArray obind].
  destruct (String.eqb (toString (get c "field")) "AND"
            || String.eqb (toString (get c "field")) "OR")%bool; [discriminate |].
  destruct (String.eqb (toString (get c "field")) "id"); [discriminate |].
  unfold convertOperators.
  pose proof (convertOperatorsFrom_total
                [(toString (opKey (get c "operator")), get c "value")] []) as H.
  destruct (convertOperatorsFrom _ _) as [[| o os] | e |]; cbn [obind];
    try discriminate. congruence.
Qed.

Lemma mapM_total {A B} (f : A -> outcome B) (l : list A) :
  (forall x, In x l -> f x <> OutOfFuel) -> mapM f l <> OutOfFuel.
Proof.
  induction l as [| x rest IH]; intros H; [discriminate |].
  cbn [mapM].
  destruct (f x) eqn:E; cbn [obind]; try discriminate.
  - destruct (mapM f rest) eqn:E'; cbn [obind]; try discriminate.
    apply IH. intros y Hy. apply H. now right.
  - intros _. apply (H x); [now left | exact E].
Qed.

Lemma height_item (items : list Value) (x : Value) :
  In x items -> (height x < height (VArr items))%nat.
Proof.
  cbn [height]. induction items as [| y rest IH]; [contradiction |].
  intros [-> | Hin]; cbn [fold_right]; [lia |].
  specialize (IH Hin). lia.
Qed.

Lemma height_prop (props : list (string * Value)) (kv : string * Value) :
  In kv props -> (height (snd kv) < height (VObj props))%nat.
Proof.
  cbn [height]. induction props as [| y rest IH]; [contradiction |].
  intros [-> | Hin]; cbn [fold_right]; [lia |].
  specialize (IH Hin). lia.
Qed.

Lemma mapM_conditionObj_total (conds : list Value) :
  mapM conditionObj conds <> OutOfFuel.
Proof.
  destruct (forallb keyed conds) eqn:H.
  - now rewrite (mapM_conditionObj_keyed _ H).
  - now rewrite (mapM_conditionObj_unkeyed _ H).
Qed.

Lemma group_total (g : list Value) : group g <> OutOfFuel.
Proof.
  assert (H : mapM leaf g <> OutOfFuel).
  { apply mapM_total. intros c _. apply leaf_total. }
  destruct g as [| c [| c' g]].
  - discriminate.
  - apply leaf_total.
  - unfold group. destruct (mapM leaf (c :: c' :: g)); cbn [obind];
      [discriminate | discriminate | congruence].
Qed.

Lemma sequence_total (conds : list Value) : sequence conds <> OutOfFuel.
Proof.
  unfold sequence.
  pose proof (mapM_conditionObj_total conds) as H.
  destruct (mapM conditionObj conds); cbn [obind]; [| discriminate | congruence].
  assert (Hg : mapM group (orGroups conds) <> OutOfFuel).
  { apply mapM_total. intros g _. apply group_total. }
  destruct (orGroups conds) as [| g [| g' gs]].
  - discriminate.
  - apply group_total.
  - destruct (mapM group (g :: g' :: gs)); cbn [obind];
      [discriminate | discriminate | congruence].
Qed.

Lemma convertWhereToSelector_fuel_total (fuel : nat) (where_ : Value) :
  (height where_ + 3 <= fuel)%nat ->
  convertWhereToSelector_fuel fuel where_ <> OutOfFuel.
Proof.
  revert where_. induction fuel as [| fuel IH]; intros where_ Hfuel; [lia |].
  destruct where_ as [| | b | z | s | items | props];
    try (cbn [convertWhereToSelector_fuel isArray obind]; discriminate).
  - destruct fuel as [| [| fuel]]; [lia | lia |].
    destruct (keepWithField items) as [conds | e |] eqn:E.
    + rewrite (convert_sequence _ items conds E). apply sequence_total.
    + now rewrite (convert_sequence_throw _ items e E).
    + now apply keepWithField_total in E.
  - cbn [convertWhereToSelector_fuel isArray obind].
    assert (Hprops : forall kv, In kv props -> (height (snd kv) + 4 <= S fuel)%nat).
    { intros kv Hin. apply height_prop in Hin. lia. }
    clear Hfuel.
    match goal with
    | |- obind (?loop props ?acc) _ <> _ =>
        enough (Hloop : forall selector, loop props selector <> OutOfFuel);
        [ specialize (Hloop acc); destruct (loop props acc);
          cbn [obind]; congruence |]
    end.
    induction props as [| [key value] rest IHrest]; intros selector;
      [discriminate |].
    assert (Hrest : forall kv, In kv rest -> (height (snd kv) + 4 <= S fuel)%nat).
    { intros kv Hin. apply Hprops. now right. }
    specialize (IHrest Hrest).
    destruct (String.eqb key "AND" || String.eqb key "OR")%bool.
    + destruct value as [| | b | z | s | items | ops]; try apply IHrest.
      destruct (mapM (convertWhereToSelector_fuel fuel) items) as [subs | e |] eqn:E;
        cbn [obind]; [apply IHrest | discriminate |].
      exfalso. revert E. apply mapM_total. intros x Hx. apply IH.
      apply height_item in Hx.
      specialize (Hprops (key, VArr items) (or_introl eq_refl)).
      cbn [snd] in Hprops. lia.
    + destruct (String.eqb key "id"); [apply IHrest |].
      destruct value as [| | b | z | s | items | ops]; try apply IHrest.
      pose proof (convertOperatorsFrom_total ops []) as Hops.
      unfold convertOperators.
      destruct (convertOperatorsFrom [] ops) as [[| o os] | e |]; cbn [obind];
        [apply IHrest | apply IHrest | discriminate | congruence].
Qed.

Lemma convertWhereToSelector_total (where_ : Value) :
  convertWhereToSelector where_ <> OutOfFuel.
Proof. apply convertWhereToSelector_fuel_total. lia. Qed.

Lemma leaf_ordinary (c : Value) (field : string) :
  get c "field" = VStr field -> ordinaryField field = true ->
  leaf c
  = (operators <-! addOperator [] (toString (opKey (get c "operator"))) (get c "value") ;;
     Ok (VObj [(field,
                match operators with
                | [] => VObj [(toString (opKey (get c "operator")), get c "value")]
                | _ => VObj operators
                end)])).
Proof.
  intros Hf Ho. unfold leaf, recordOf. rewrite Hf. cbn [toString].
  now rewrite (convert_record_ordinary 0 field _ _ Ho).
Qed.

Lemma ordinary_kept (c : Value) (field : string) :
  get c "field" = VStr field -> ordinaryField field = true -> kept c.
Proof.
  intros Hf Ho. exists (VStr field). split.
  - destruct c; try discriminate Hf. cbn [getE]. now rewrite Hf.
  - unfold ordinaryField in Ho. apply negb_true_iff in Ho.
    repeat (apply orb_false_iff in Ho; destruct Ho as [Ho ?]).
    cbn [truthy]. now rewrite Ho.
Qed.

Lemma convert_single (c : Value) :
  kept c -> keyed c = true -> convertWhereToSelector (VArr [c]) = leaf c.
Proof.
  intros H Hk. unfold convertWhereToSelector. cbn [Nat.add].
  rewrite (convert_sequence _ [c] [c] (keepWithField_single c H)).
  unfold sequence. cbn [mapM]. rewrite (conditionObj_keyed c Hk). cbn [obind].
  now rewrite orGroups_single.
Qed.

(** *** A condition by its operator *)

Lemma nat_of_ascii_inj (a b : ascii) : nat_of_ascii a = nat_of_ascii b -> a = b.
Proof.
  intros H. rewrite <- (ascii_nat_embedding a), <- (ascii_nat_embedding b).
  now rewrite H.
Qed.

Lemma string_ltb_compare (a b : string) :
  negb (string_ltb a b || String.eqb a b) = string_ltb b a.
Proof.
  revert b. induction a as [| x a IH]; intros [| y b]; try reflexivity.
  cbn [string_ltb String.eqb].
  destruct (nat_of_ascii x <? nat_of_ascii y)%nat eqn:E1.
  - apply Nat.ltb_lt in E1.
    assert (E2 : (nat_of_ascii y <? nat_of_ascii x)%nat = false)
      by (apply Nat.ltb_ge; lia).
    now rewrite E2.
  - apply Nat.ltb_ge in E1.
    destruct (nat_of_ascii y <? nat_of_ascii x)%nat eqn:E2.
    + apply Nat.ltb_lt in E2.
      destruct (Ascii.eqb x y) eqn:E3.
      * apply Ascii.eqb_eq in E3. subst. lia.
      * reflexivity.
    + apply Nat.ltb_ge in E2.
      assert (x = y) by (apply nat_of_ascii_inj; lia). subst y.
      rewrite Ascii.eqb_refl. apply IH.
Qed.

(** On two numbers or two strings, not [a <= b] is [b < a]. *)
Lemma not_le_lt (a b : Value) :
  sameKind a b = true -> negb (le a b) = lt b a.
Proof.
  destruct a, b; try discriminate; intros _; unfold le; cbn [lt toNumber strictEq].
  - destruct (n <? n0) eqn:E1, (n =? n0) eqn:E2, (n0 <? n) eqn:E3; cbn; try reflexivity;
      try apply Z.ltb_lt in E1; try apply Z.ltb_ge in E1;
      try apply Z.eqb_eq in E2; try apply Z.eqb_neq in E2;
      try apply Z.ltb_lt in E3; try apply Z.ltb_ge in E3; lia.
  - apply string_ltb_compare.
Qed.

Lemma not_lt_le (a b : Value) :
  sameKind a b = true -> negb (lt a b) = le b a.
Proof.
  intros H.
  assert (H' : sameKind b a = true) by (destruct a, b; try discriminate; reflexivity).
  rewrite <- (not_le_lt b a H'). now rewrite negb_involutive.
Qed.

Lemma sameKind_sym (a b : Value) : sameKind a b = sameKind b a.
Proof. destruct a, b; reflexivity. Qed.

(** The spellings that [opKey] rewrites. *)
Lemma opKey_changes (op : string) :
  opKey (VStr op) = VStr op
  \/ In op ["eq"; "ne"; "not_in"; "starts_with"; "ends_with"].
Proof.
  unfold opKey.
  repeat match goal with
         | |- context [match ?s with EmptyString => _ | String _ _ => _ end] =>
             is_var s; destruct s as [| ? ?]
         | |- context [match ?a with Ascii _ _ _ _ _ _ _ _ => _ end] =>
             is_var a; destruct a as [? ? ? ? ? ? ? ?]
         | |- context [if ?b then _ else _] => is_var b; destruct b
         end;
    first [ left; reflexivity | right; cbn; tauto ].
Qed.

Lemma opKey_string (op : string) : exists key, opKey (VStr op) = VStr key.
Proof.
  destruct (opKey_changes op) as [H | H].
  - now exists op.
  - cbn [In] in H.
    destruct H as [<- | [<- | [<- | [<- | [<- | []]]]]]; eexists; reflexivity.
Qed.

Lemma opKey_printable (operator : Value) :
  printable (opKey operator) = printable operator.
Proof.
  destruct operator; try reflexivity.
  destruct (opKey_string s) as [key ->]. reflexivity.
Qed.

Section Leaves.

Variable regexTest : string -> string -> outcome bool.

Lemma matches_field (props : list (string * Value)) (f : string)
    (ops : list (string * Value)) :
  String.eqb f "$and" = false -> String.eqb f "$or" = false ->
  matchesSelector regexTest (VObj props) (VObj [(f, VObj ops)])
  = matchOperators regexTest (get (VObj props) f) (VObj ops)
      (matchesSelector regexTest (get (VObj props) f) (VObj ops)).
Proof.
  intros Hand Hor.
  change (matchesSelector regexTest (VObj props) (VObj [(f, VObj ops)]))
    with (if String.eqb f "$and" then Ok false
          else if String.eqb f "$or" then Ok false
          else
            docValue <-! getE (VObj props) f ;;
            passed <-! matchOperators regexTest docValue (VObj ops)
                         (matchesSelector regexTest docValue (VObj ops)) ;;
            if passed then Ok true else Ok false).
  rewrite Hand, Hor. cbn [getE obind].
  destruct (matchOperators _ _ _ _) as [[|] | |]; reflexivity.
Qed.

(** The operator object that a comparison is compiled to is tested as the
    comparison says, whatever a nested match would give. *)
Lemma comparison_compiled (op : string) (docValue v : Value) :
  comparison op = true ->
  defined v = true ->
  (ordering op = true -> sameKind docValue v = true) ->
  exists operators,
    addOperator [] (toString (opKey (VStr op))) v = Ok operators
    /\ operators <> []
    /\ forall nested, matchOperators regexTest docValue (VObj operators) nested
       = Ok (compares op docValue v).
Proof.
  intros Hop Hdef Hkind. unfold comparison in Hop. unfold compares.
  repeat match type of Hop with
         | (_ || String.eqb op ?lit)%bool = true =>
             let E := fresh "E" in
             destruct (String.eqb op lit) eqn:E;
             [ clear Hop | rewrite orb_false_r in Hop ]
         | String.eqb op ?lit = true =>
             let E := fresh "E" in
             destruct (String.eqb op lit) eqn:E; [clear Hop | discriminate Hop]
         end.
  all: match goal with
    | E : String.eqb ?o _ = true |- _ => apply String.eqb_eq in E; subst o
    end.
  all: cbn [String.eqb Ascii.eqb Bool.eqb orb].
  all: eexists; (split; [reflexivity | split; [discriminate |]]); intros nested.
  all: unfold matchOperators; cbn [get lookup assign String.eqb Ascii.eqb Bool.eqb defined].
  all: rewrite ?Hdef; cbn [andb negb].
  all: try reflexivity.
  all: try (destruct v; reflexivity).
  all: specialize (Hkind eq_refl);
    assert (Hkind' : sameKind v docValue = true) by (now rewrite sameKind_sym);
    assert (Hnull : is_nullish v = false)
      by (destruct v; try reflexivity; destruct docValue; discriminate Hkind);
    rewrite Hnull, Hkind; cbn [negb andb]; f_equal.
  - now rewrite (not_lt_le v docValue Hkind').
  - now rewrite (not_le_lt v docValue Hkind').
  - now rewrite (not_lt_le docValue v Hkind).
  - now rewrite (not_le_lt docValue v Hkind).
Qed.

(** A standard condition: it is kept, its keys convert, it compiles, and
    its selector matches a document exactly when the condition holds of
    it. *)
Lemma leaf_standard (props : list (string * Value)) (c : Value) :
  standard (VObj props) c = true ->
  kept c /\ keyed c = true
  /\ leaf c = Ok (leafSelector c)
  /\ matchesSelector regexTest (VObj props) (leafSelector c)
     = Ok (evalCondition (VObj props) c).
Proof.
  unfold standard, evalCondition.
  destruct (get c "field") as [| | | | f | |] eqn:Hf; try discriminate.
  destruct (get c "operator") as [| | | | op | |] eqn:Hop; try discriminate.
  intros H.
  apply andb_true_iff in H. destruct H as [H Hkind].
  apply andb_true_iff in H. destruct H as [H Hdef].
  apply andb_true_iff in H. destruct H as [Hplain Hcmp].
  unfold plainField in Hplain.
  apply andb_true_iff in Hplain. destruct Hplain as [Hplain Hown].
  apply andb_true_iff in Hplain. destruct Hplain as [Hplain Hor].
  apply andb_true_iff in Hplain. destruct Hplain as [Hord Hand].
  apply negb_true_iff in Hor, Hand.
  assert (Hk : ordering op = true -> sameKind (get (VObj props) f) (get c "value") = true).
  { intros Ho. rewrite Ho in Hkind. exact Hkind. }
  destruct (comparison_compiled op (get (VObj props) f) (get c "value") Hcmp Hdef Hk)
    as [operators [Hadd [Hne Hmatch]]].
  assert (Hleaf : leaf c = Ok (VObj [(f, VObj operators)])).
  { rewrite (leaf_ordinary c f Hf Hord), Hop, Hadd. cbn [obind].
    destruct operators; [congruence | reflexivity]. }
  split; [exact (ordinary_kept c f Hf Hord) |].
  split.
  { unfold keyed. rewrite Hf, Hop, opKey_printable. reflexivity. }
  unfold leafSelector. rewrite Hleaf. split; [reflexivity |].
  rewrite (matches_field props f operators Hand Hor).
  apply Hmatch.
Qed.

End Leaves.

Lemma standard_sequence (regexTest : string -> string -> outcome bool)
    (props : list (string * Value)) (items : list Value) :
  Forall (fun c => standard (VObj props) c = true) items ->
  matchesWhere regexTest (VObj props) (VArr items)
  = Ok (evalSequence (VObj props) items).
Proof.
  intros Hall.
  assert (Hkeep : keepWithField items = Ok items).
  { induction Hall as [| c items Hc _ IH]; [reflexivity |].
    destruct (leaf_standard regexTest props c Hc) as [[field [Hf Ht]] _].
    cbn [keepWithField]. rewrite Hf, IH. cbn [obind]. now rewrite Ht. }
  assert (Hkeyed : forallb keyed items = true).
  { apply forallb_forall. intros c Hc. rewrite Forall_forall in Hall.
    now destruct (leaf_standard regexTest props c (Hall c Hc)) as [_ [Hk _]]. }
  assert (Hleaf : forall c, In c items -> leaf c = Ok (leafSelector c)).
  { intros c Hc. rewrite Forall_forall in Hall.
    now destruct (leaf_standard regexTest props c (Hall c Hc)) as [_ [_ [Hl _]]]. }
  unfold matchesWhere, convertWhereToSelector. cbn [Nat.add].
  rewrite (convert_sequence _ items items Hkeep), (sequence_ok items Hkeyed Hleaf).
  cbn [obind]. rewrite matches_sequence. unfold evalSequence.
  rewrite <- every_ok. apply every_ext_in. intros g Hg.
  rewrite <- some_ok. apply some_ext_in. intros c Hc.
  rewrite Forall_forall in Hall.
  destruct (leaf_standard regexTest props c
              (Hall c (orGroups_members items g c Hg Hc))) as [_ [_ [_ Hm]]].
  exact Hm.
Qed.

(** *** The sequence and the string operators *)

(** C1 (as amended).  For every flat sequence of standard conditions - a
    comparison ([eq], [ne], [in], [not_in], [gt], [gte], [lt], [lte]) on a
    plain field, with a defined value, the document's value being of the
    condition's type where the comparison orders values - compiling the
    sequence and matching a document against the selector gives the value
    of the sequence's boolean expression: the conjunction, over the maximal
    runs of consecutive conditions tagged [OR] and the single remaining
    conditions, of the disjunction of the run's conditions, each condition
    being what its operator says of the document's value of its field.  A
    condition's connector tags the condition itself.  In particular the
    sequence [A = 1] tagged [OR], [B = 2] tagged [OR], [C = 3] tagged [AND]
    matches a document with [A = 1, C = 3] and one with [B = 2, C = 3] but
    not one with only [A = 1].  A condition on [id] is outside: it is
    compiled to the entry [_id] with its operator left as it is, which does
    not match the document of that identifier. *)
Theorem compiled_sequence_matches_grouped_expression :
  (forall regexTest props items,
      Forall (fun c => standard (VObj props) c = true) items ->
      matchesWhere regexTest (VObj props) (VArr items)
      = Ok (evalSequence (VObj props) items))
  /\ (forall regexTest,
        matchesWhere regexTest (VObj [("A", VNum 1); ("C", VNum 3)]) exampleSequenceTagged
        = Ok true
        /\ matchesWhere regexTest (VObj [("B", VNum 2); ("C", VNum 3)]) exampleSequenceTagged
           = Ok true
        /\ matchesWhere regexTest (VObj [("A", VNum 1)]) exampleSequenceTagged
           = Ok false)
  /\ (forall regexTest,
        convertWhereToSelector (VArr [condition "id" "eq" (VStr "u1") "AND"])
        = Ok (VObj [("_id", VObj [("equals", VStr "u1")])])
        /\ matchesWhere regexTest (VObj [("_id", VStr "u1"); ("id", VStr "u1")])
             (VArr [condition "id" "eq" (VStr "u1") "AND"])
           = Ok false).
Proof.
  split; [| split].
  - intros regexTest props items. apply standard_sequence.
  - intros regexTest. repeat split; reflexivity.
  - intros regexTest. split; reflexivity.
Qed.

(** A person of thirty who is not called Bob: older than eighteen, or
    called Ann. *)
Lemma compiled_sequence_witness :
  matchesWhere noRegExp (VObj [("age", VNum 30); ("name", VStr "Eve")])
    (VArr [condition "age" "gt" (VNum 18) "OR";
           condition "name" "eq" (VStr "Ann") "OR";
           condition "name" "ne" (VStr "Bob") "AND"])
  = Ok true.
Proof.
  apply (proj1 compiled_sequence_matches_grouped_expression noRegExp
           [("age", VNum 30); ("name", VStr "Eve")]
           [condition "age" "gt" (VNum 18) "OR";
            condition "name" "eq" (VStr "Ann") "OR";
            condition "name" "ne" (VStr "Bob") "AND"]).
  repeat constructor.
Defined.

(** C1, as the specification states it, fails: the sequence [A = 1], then
    [B = 2] tagged [OR], then [C = 3] tagged [AND] compiles to the
    conjunction of the three conditions, and a document with [A = 1] and
    [C = 3] does not match. *)
Lemma example_sequence_rejects_A1_C3 :
  convertWhereToSelector exampleSequence
  = Ok (VObj [("$and", VArr [VObj [("A", VObj [("$eq", VNum 1)])];
                             VObj [("B", VObj [("$eq", VNum 2)])];
                             VObj [("C", VObj [("$eq", VNum 3)])]])])
  /\ matchesWhere noRegExp (VObj [("A", VNum 1); ("C", VNum 3)]) exampleSequence
     = Ok false.
Proof. split; reflexivity. Qed.

Lemma isRegexMeta_named (ch : ascii) :
  isRegexMeta ch = true <-> In ch namedMetacharacters.
Proof.
  split.
  - destruct ch as [[|] [|] [|] [|] [|] [|] [|] [|]]; intros H;
      try discriminate H; cbn; tauto.
  - intros H. cbn in H.
    repeat (destruct H as [<- | H]; [reflexivity |]). destruct H.
Qed.

(** C7 (as amended).  A condition on an ordinary field - a non-empty name
    other than [id], [AND], [OR] and [__proto__] - that uses contains,
    startsWith or endsWith with the string value [v] compiles to the
    selector that maps the field to the [$regex] pattern [.*esc(v).*],
    [^esc(v).*] or [.*esc(v)$]; [esc] puts a backslash before each of the
    fourteen metacharacters, so that the escaped text reads back as the
    literal [v] with no metacharacter left bare. *)
Theorem string_operators_compile_to_escaped_patterns
    (c : Value) (field v : string) :
  get c "field" = VStr field ->
  ordinaryField field = true ->
  get c "value" = VStr v ->
  (get c "operator" = VStr "contains" ->
   convertWhereToSelector (VArr [c])
   = Ok (VObj [(field, VObj [("$regex", VStr (".*" ++ escapeRegex v ++ ".*"))])]))
  /\ (get c "operator" = VStr "startsWith" \/ get c "operator" = VStr "starts_with" ->
      convertWhereToSelector (VArr [c])
      = Ok (VObj [(field, VObj [("$regex", VStr ("^" ++ escapeRegex v ++ ".*"))])]))
  /\ (get c "operator" = VStr "endsWith" \/ get c "operator" = VStr "ends_with" ->
      convertWhereToSelector (VArr [c])
      = Ok (VObj [(field, VObj [("$regex", VStr (".*" ++ escapeRegex v ++ "$"))])]))
  /\ literalOf (escapeRegex v) = Some v
  /\ (forall ch, isRegexMeta ch = true <-> In ch namedMetacharacters).
Proof.
  intros Hf Ho Hv.
  assert (Hc : forall op,
             get c "operator" = VStr op ->
             convertWhereToSelector (VArr [c])
             = (operators <-! addOperator [] (toString (opKey (VStr op))) (VStr v) ;;
                Ok (VObj [(field,
                           match operators with
                           | [] => VObj [(toString (opKey (VStr op)), VStr v)]
                           | _ => VObj operators
                           end)]))).
  { intros op Hop.
    rewrite (convert_single c (ordinary_kept c field Hf Ho)).
    - now rewrite (leaf_ordinary c field Hf Ho), Hop, Hv.
    - unfold keyed. rewrite Hf, Hop, opKey_printable. reflexivity. }
  repeat split.
  - intros Hop. now rewrite (Hc _ Hop).
  - intros [Hop | Hop]; now rewrite (Hc _ Hop).
  - intros [Hop | Hop]; now rewrite (Hc _ Hop).
  - apply literalOf_escapeRegex.
  - apply isRegexMeta_named.
  - apply isRegexMeta_named.
Qed.

Lemma string_operators_witness :
  convertWhereToSelector (VArr [condition "email" "contains" (VStr "a.b*") "AND"])
  = Ok (VObj [("email", VObj [("$regex", VStr ".*a\.b\*.*")])]).
Proof.
  exact (proj1 (string_operators_compile_to_escaped_patterns
                  (condition "email" "contains" (VStr "a.b*") "AND")
                  "email" "a.b*" eq_refl eq_refl eq_refl) eq_refl).
Defined.

(** C7, as the specification states it, fails: a condition on [id] keeps
    its operator, with the value as it is, and so does no escaping; and a
    condition on [__proto__] leaves nothing in the selector. *)
Lemma pattern_on_id_is_not_compiled :
  convertWhereToSelector (VArr [condition "id" "contains" (VStr "a.b*") "AND"])
  = Ok (VObj [("_id", VObj [("contains", VStr "a.b*")])])
  /\ convertWhereToSelector (VArr [condition "__proto__" "contains" (VStr "a.b*") "AND"])
     = Ok (VObj []).
Proof. split; reflexivity. Qed.

End CompilerFacts.
(** ** Properties of the adapter *)

Module AdapterFacts.
Import Compiler Adapter Reference Auxiliary CompilerFacts.

Section Running.

Context {St : Type}.

Lemma bind_ok {A B} (m : M St A) (k : A -> M St B) (s s' : St) (a : A) :
  m s = (Ok a, s') -> bind m k s = k a s'.
Proof. intros H. unfold bind. now rewrite H. Qed.

Lemma bind_throw {A B} (m : M St A) (k : A -> M St B) (s s' : St) (e : JsError) :
  m s = (Throw e, s') -> bind m k s = (Throw e, s').
Proof. intros H. unfold bind. now rewrite H. Qed.

Lemma tryCatch_ok {A} (body : M St A) (h : JsError -> M St A) (s s' : St) (a : A) :
  body s = (Ok a, s') -> tryCatch body h s = (Ok a, s').
Proof. intros H. unfold tryCatch. now rewrite H. Qed.

Lemma tryCatch_throw {A} (body : M St A) (h : JsError -> M St A) (s s' : St)
    (e : JsError) :
  body s = (Throw e, s') -> tryCatch body h s = h e s'.
Proof. intros H. unfold tryCatch. now rewrite H. Qed.

End Running.

(** *** Objects *)

Lemma lookup_assign_same (k : string) (v : Value) (props : list (string * Value)) :
  lookup k (assign k v props) = Some v.
Proof.
  induction props as [| [k' v'] rest IH]; cbn [assign lookup].
  - now rewrite String.eqb_refl.
  - destruct (String.eqb k' k) eqn:E; cbn [lookup]; rewrite E; [reflexivity | exact IH].
Qed.

Lemma lookup_assign_other (k k' : string) (v : Value) (props : list (string * Value)) :
  k <> k' -> lookup k' (assign k v props) = lookup k' props.
Proof.
  intros Hne.
  induction props as [| [k0 v0] rest IH]; cbn [assign lookup].
  - apply String.eqb_neq in Hne. now rewrite Hne.
  - destruct (String.eqb k0 k) eqn:E; cbn [lookup].
    + apply String.eqb_eq in E. subst k0.
      apply String.eqb_neq in Hne. now rewrite Hne.
    + now rewrite IH.
Qed.

Lemma get_assign_same (o : list (string * Value)) (k : string) (v : Value) :
  get (VObj (assign k v o)) k = v.
Proof. cbn [get]. now rewrite lookup_assign_same. Qed.

Lemma get_assign_other (o : list (string * Value)) (k k' : string) (v : Value) :
  k <> k' -> get (VObj (assign k v o)) k' = get (VObj o) k'.
Proof. intros H. cbn [get]. now rewrite lookup_assign_other. Qed.

(** [{ ...a, ...b }]: for each key the last entry of [b] wins over [a]. *)
Lemma lookup_spread (k : string) (a b : list (string * Value)) :
  lookup k (spread a b)
  = match lookup k (rev b) with
    | Some v => Some v
    | None => lookup k a
    end.
Proof.
  unfold spread. revert a.
  induction b as [| [k0 v0] b IH]; intros a; [reflexivity |].
  cbn [fold_left fst snd rev]. rewrite IH.
  assert (Happ : forall l, lookup k (l ++ [(k0, v0)])
                           = match lookup k l with
                             | Some v => Some v
                             | None => if String.eqb k0 k then Some v0 else None
                             end).
  { induction l as [| [k1 v1] l IHl]; cbn [app lookup]; [reflexivity |].
    destruct (String.eqb k1 k); [reflexivity | exact IHl]. }
  rewrite Happ.
  destruct (lookup k (rev b)); [reflexivity |].
  destruct (String.eqb k0 k) eqn:E.
  - apply String.eqb_eq in E. subst k0. apply lookup_assign_same.
  - apply String.eqb_neq in E. now apply lookup_assign_other.
Qed.

(** The merged document keeps the identifier and the revision of the
    document it is merged over, and otherwise prefers the new values. *)
Lemma merge_pins (existing transformedData : Value) :
  get (merge existing transformedData) "_id" = get existing "_id"
  /\ get (merge existing transformedData) "_rev" = get existing "_rev".
Proof.
  unfold merge. split.
  - cbn [set]. rewrite get_assign_other by discriminate. apply get_assign_same.
  - cbn [set]. apply get_assign_same.
Qed.

Lemma merge_field (existing transformedData : Value) (k : string) :
  k <> "_id" -> k <> "_rev" ->
  get (merge existing transformedData) k
  = match lookup k (rev (props_of transformedData)) with
    | Some v => v
    | None => get (VObj (props_of existing)) k
    end.
Proof.
  intros H1 H2. unfold merge. cbn [set].
  rewrite get_assign_other by congruence.
  rewrite get_assign_other by congruence.
  cbn [get]. rewrite lookup_spread.
  destruct (lookup k (rev (props_of transformedData))); reflexivity.
Qed.

Lemma status_409_not_404 (e : JsError) : status_is e 409 = true -> status_is e 404 = false.
Proof.
  unfold status_is. destruct (statusCode e) as [c |]; [| discriminate].
  intros H. apply Z.eqb_eq in H. now subst c.
Qed.

Section Conflicts.

Context {St : Type}.
Variable couch : Nano.ServerScope St.
Variable config : CouchDBAdapterConfig.
Variable host : Host.

(** The retry of [update_write], once the first write has met a conflict:
    whatever the second write does is the result. *)
Lemma update_write_conflict (db : Nano.DocumentScope St) (model : string)
    (docId transformedData existing existing' : Value) (e : JsError)
    (s1 s2 s3 s4 : St) :
  Nano.get db docId s1 = (Ok existing, s2) ->
  otherModel config host existing model = false ->
  Nano.insert db (merge existing transformedData) s2 = (Throw e, s3) ->
  status_is e 409 = true ->
  Nano.get db docId s3 = (Ok existing', s4) ->
  update_write config host db model docId transformedData s1
  = insertAndFetch host db model (merge existing' transformedData) s4.
Proof.
  intros Hget Hmodel Hins H409 Hget'.
  unfold update_write.
  assert (Hbody :
    bind (Nano.get db docId)
      (fun existing0 =>
         if otherModel config host existing0 model
         then throw (NewError ("Document not found for update in model " ++ model))
         else insertAndFetch host db model (merge existing0 transformedData)) s1
    = (Throw e, s3)).
  { rewrite (bind_ok _ _ _ _ _ Hget), Hmodel. unfold insertAndFetch.
    now apply bind_throw. }
  rewrite (tryCatch_throw _ _ _ _ _ Hbody).
  rewrite (status_409_not_404 e H409), H409.
  now rewrite (bind_ok _ _ _ _ _ Hget').
Qed.

(** C3.  When the write of an [update] is rejected with a conflict (409),
    the operation fetches the document again, merges the new values over the
    fresh document with [_id] and [_rev] pinned to it, and writes once more.
    An error of this second write, a second conflict included, is the
    operation's error, and the store is left as that write left it: nothing
    is tried after it.  When the second write succeeds the document is
    fetched and decoded.  In the document written the second time every
    other field has the new value where the update gives one, and the fresh
    document's value where it gives none. *)
Theorem update_retries_once_on_conflict
    (data_ update_ : Value) (model : string) (where_ : Value)
    (db : Nano.DocumentScope St) (docId existing existing' : Value) (e : JsError)
    (s s0 s1 s2 s3 s4 : St) :
  let transformedData :=
    transformInput host (coalesce update_ data_) (getDefaultModelName host model)
      "update" in
  getDatabase couch config (getModelName host model) s = (Ok db, s0) ->
  update_resolve config host db model
    (transformWhereClause host where_ (getDefaultModelName host model)) s0
  = (Ok docId, s1) ->
  Nano.get db docId s1 = (Ok existing, s2) ->
  otherModel config host existing model = false ->
  Nano.insert db (merge existing transformedData) s2 = (Throw e, s3) ->
  status_is e 409 = true ->
  Nano.get db docId s3 = (Ok existing', s4) ->
  (forall e' s5,
      Nano.insert db (merge existing' transformedData) s4 = (Throw e', s5) ->
      update couch config host data_ update_ model where_ s = (Throw e', s5))
  /\ (forall response s5 fullDoc s6,
        Nano.insert db (merge existing' transformedData) s4 = (Ok response, s5) ->
        Nano.get db (Nano.id response) s5 = (Ok fullDoc, s6) ->
        update couch config host data_ update_ model where_ s
        = (Ok (decode host model fullDoc), s6))
  /\ get (merge existing' transformedData) "_id" = get existing' "_id"
  /\ get (merge existing' transformedData) "_rev" = get existing' "_rev"
  /\ (forall k, k <> "_id" -> k <> "_rev" ->
        get (merge existing' transformedData) k
        = match lookup k (rev (props_of transformedData)) with
          | Some v => v
          | None => get (VObj (props_of existing')) k
          end).
Proof.
  intros transformedData Hdb Hres Hget Hmodel Hins H409 Hget'.
  assert (Hrun :
    update couch config host data_ update_ model where_ s
    = insertAndFetch host db model (merge existing' transformedData) s4).
  { unfold update.
    rewrite (bind_ok _ _ _ _ _ Hdb), (bind_ok _ _ _ _ _ Hres).
    now apply (update_write_conflict db model docId _ existing existing' e s1 s2 s3 s4). }
  repeat split.
  - intros e' s5 Hins'. rewrite Hrun. now apply bind_throw.
  - intros response s5 fullDoc s6 Hins' Hfull. rewrite Hrun. unfold insertAndFetch.
    rewrite (bind_ok _ _ _ _ _ Hins'). now rewrite (bind_ok _ _ _ _ _ Hfull).
  - apply merge_pins.
  - apply merge_pins.
  - now apply merge_field.
Qed.

End Conflicts.

Section Creating.

Context {St : Type}.
Variable couch : Nano.ServerScope St.
Variable config : CouchDBAdapterConfig.
Variable host : Host.

Lemma tryCatch_rethrow {A} (body : M St A) (s : St) :
  tryCatch body (fun retryError => throw retryError) s = body s.
Proof.
  unfold tryCatch, throw. destruct (body s) as [[a | e |] s']; reflexivity.
Qed.

Lemma status_and_id (e : JsError) (id : Value) :
  status_is e 409 = true -> truthy id = true ->
  (status_is e 409 && truthy id)%bool = true.
Proof. intros -> ->. reflexivity. Qed.

(** C4.  When the insert of a [create] fails with a conflict (409) and the
    encoded input carries an [_id], the operation fetches the document
    stored under that [_id], removes it with its current revision, inserts
    once more and returns the fetched and decoded result; whatever fails on
    the way (the fetch, the removal, the second insert or the last fetch)
    is the operation's error, with nothing tried after it.  A failure of the
    first insert that is no conflict, or a conflict without an [_id], is the
    operation's error as it is. *)
Theorem create_replaces_on_conflict
    (data : Value) (model : string) (db : Nano.DocumentScope St) (e : JsError)
    (s s0 s1 : St) :
  let transformedData := encode config host model data in
  let id := get transformedData "_id" in
  getDatabase couch config (getModelName host model) s = (Ok db, s0) ->
  Nano.insert db transformedData s0 = (Throw e, s1) ->
  (status_is e 409 = true -> truthy id = true ->
   (forall existing s2 s3 response s4 fullDoc s5,
       Nano.get db id s1 = (Ok existing, s2) ->
       Nano.destroy db id (orElse (get existing "_rev") (VStr "")) s2 = (Ok tt, s3) ->
       Nano.insert db transformedData s3 = (Ok response, s4) ->
       Nano.get db (Nano.id response) s4 = (Ok fullDoc, s5) ->
       create couch config host data model s = (Ok (decode host model fullDoc), s5))
   /\ (forall e' s2,
         Nano.get db id s1 = (Throw e', s2) ->
         create couch config host data model s = (Throw e', s2))
   /\ (forall existing s2 e' s3,
         Nano.get db id s1 = (Ok existing, s2) ->
         Nano.destroy db id (orElse (get existing "_rev") (VStr "")) s2 = (Throw e', s3) ->
         create couch config host data model s = (Throw e', s3))
   /\ (forall existing s2 s3 e' s4,
         Nano.get db id s1 = (Ok existing, s2) ->
         Nano.destroy db id (orElse (get existing "_rev") (VStr "")) s2 = (Ok tt, s3) ->
         Nano.insert db transformedData s3 = (Throw e', s4) ->
         create couch config host data model s = (Throw e', s4))
   /\ (forall existing s2 s3 response s4 e' s5,
         Nano.get db id s1 = (Ok existing, s2) ->
         Nano.destroy db id (orElse (get existing "_rev") (VStr "")) s2 = (Ok tt, s3) ->
         Nano.insert db transformedData s3 = (Ok response, s4) ->
         Nano.get db (Nano.id response) s4 = (Throw e', s5) ->
         create couch config host data model s = (Throw e', s5)))
  /\ ((status_is e 409 && truthy id)%bool = false ->
      create couch config host data model s = (Throw e, s1)).
Proof.
  intros transformedData id Hdb Hins.
  assert (Hfirst : insertAndFetch host db model transformedData s0 = (Throw e, s1)).
  { unfold insertAndFetch. now apply bind_throw. }
  split.
  - intros H409 Hid.
    assert (Hrun : create couch config host data model s
                   = create_replace host db model transformedData s1).
    { unfold create. rewrite (bind_ok _ _ _ _ _ Hdb).
      fold transformedData. rewrite (tryCatch_throw _ _ _ _ _ Hfirst).
      fold id. rewrite (status_and_id e id H409 Hid).
      apply tryCatch_rethrow. }
    rewrite Hrun. unfold create_replace, insertAndFetch. fold id.
    repeat split.
    + intros existing s2 s3 response s4 fullDoc s5 H1 H2 H3 H4.
      rewrite (bind_ok _ _ _ _ _ H1), (bind_ok _ _ _ _ _ H2),
        (bind_ok _ _ _ _ _ H3), (bind_ok _ _ _ _ _ H4). reflexivity.
    + intros e' s2 H1. now apply bind_throw.
    + intros existing s2 e' s3 H1 H2.
      rewrite (bind_ok _ _ _ _ _ H1). now apply bind_throw.
    + intros existing s2 s3 e' s4 H1 H2 H3.
      rewrite (bind_ok _ _ _ _ _ H1), (bind_ok _ _ _ _ _ H2). now apply bind_throw.
    + intros existing s2 s3 response s4 e' s5 H1 H2 H3 H4.
      rewrite (bind_ok _ _ _ _ _ H1), (bind_ok _ _ _ _ _ H2),
        (bind_ok _ _ _ _ _ H3). now apply bind_throw.
  - intros Hno. unfold create. rewrite (bind_ok _ _ _ _ _ Hdb).
    fold transformedData. rewrite (tryCatch_throw _ _ _ _ _ Hfirst).
    fold id. now rewrite Hno.
Qed.

End Creating.

Section Batches.

Context {St : Type}.
Variable couch : Nano.ServerScope St.
Variable config : CouchDBAdapterConfig.
Variable host : Host.

Lemma updateMany_loop_writes (db : Nano.DocumentScope St) (transformedData : Value)
    (docs : list Value) (s s' : St) (n : Z) (result : outcome unit) :
  Writes db transformedData docs s n result s' ->
  forall updatedCount,
    updateMany_loop db transformedData docs updatedCount s
    = (match result with
       | Ok _ => Ok (updatedCount + n)
       | Throw e => Throw e
       | OutOfFuel => OutOfFuel
       end, s').
Proof.
  induction 1 as [s | doc rest s s' s'' response n result Hins _ IH
                  | doc rest s s' s'' e n result Hins H409 _ IH
                  | doc rest s s' e Hins H409]; intros updatedCount.
  - cbn. now rewrite Z.add_0_r.
  - cbn [updateMany_loop]. unfold bind at 1, tryCatch, bind at 1.
    rewrite Hins. cbn [ret]. rewrite IH.
    destruct result; [| reflexivity | reflexivity].
    do 2 f_equal. lia.
  - cbn [updateMany_loop]. unfold bind at 1, tryCatch, bind at 1.
    rewrite Hins. rewrite H409. cbn [negb ret]. apply IH.
  - cbn [updateMany_loop]. unfold bind at 1, tryCatch, bind at 1.
    rewrite Hins. rewrite H409. reflexivity.
Qed.

(** Every batch is described by [Writes], as long as each insert returns or
    throws. *)
Lemma Writes_total (db : Nano.DocumentScope St) (transformedData : Value) :
  (forall doc s, fst (Nano.insert db doc s) <> OutOfFuel) ->
  forall docs s, exists n result s', Writes db transformedData docs s n result s'.
Proof.
  intros Hreturns docs.
  induction docs as [| doc rest IH]; intros s.
  - exists 0, (Ok tt), s. constructor.
  - destruct (Nano.insert db (merge doc transformedData) s) as [[response | e |] s1] eqn:Hins.
    + destruct (IH s1) as [n [result [s' Hw]]].
      exists (n + 1), result, s'. now apply (Writes_written _ _ _ _ _ s1 _ response).
    + destruct (status_is e 409) eqn:H409.
      * destruct (IH s1) as [n [result [s' Hw]]].
        exists n, result, s'. now apply (Writes_conflict _ _ _ _ _ s1 _ e).
      * exists 0, (Throw e), s1. now apply Writes_failed.
    + exfalso. apply (Hreturns (merge doc transformedData) s). now rewrite Hins.
Qed.

(** C5.  [updateMany] writes the documents the store found one after the
    other, each on its own.  A write rejected with a conflict (409) is
    passed over and not counted; a write that fails otherwise ends the
    operation with that error; and when no write fails otherwise, the number
    returned is the number of writes that succeeded. *)
Theorem updateMany_counts_successful_writes
    (data_ update_ : Value) (model : string) (where_ : Value)
    (db : Nano.DocumentScope St) (selector : Value) (found : Nano.FindResponse)
    (n : Z) (result : outcome unit) (s s0 s1 s2 : St) :
  let transformedData :=
    transformInput host (coalesce update_ data_) (getDefaultModelName host model)
      "update" in
  getDatabase couch config (getModelName host model) s = (Ok db, s0) ->
  truthy (coalesce update_ data_) = true ->
  modelSelector config host
    (transformWhereClause host where_ (getDefaultModelName host model)) model
  = Ok selector ->
  Nano.find db (query selector None) s0 = (Ok found, s1) ->
  Writes db transformedData (Nano.docs found) s1 n result s2 ->
  updateMany couch config host data_ update_ model where_ s
  = (match result with
     | Ok _ => Ok n
     | Throw e => Throw e
     | OutOfFuel => OutOfFuel
     end, s2).
Proof.
  intros transformedData Hdb Hdata Hsel Hfind Hwrites.
  unfold updateMany. rewrite (bind_ok _ _ _ _ _ Hdb), Hdata. cbn [negb].
  rewrite Hsel. unfold lift at 1. unfold bind at 1.
  rewrite (bind_ok _ _ _ _ _ Hfind).
  exact (updateMany_loop_writes db _ _ _ _ _ _ Hwrites 0).
Qed.

End Batches.

Section Deleting.

Context {St : Type}.
Variable couch : Nano.ServerScope St.
Variable config : CouchDBAdapterConfig.
Variable host : Host.

Lemma delete_resolve_quiet (db : Nano.DocumentScope St) (model : string)
    (transformedWhere : Value) (s s' : St) (r : outcome (option Value)) :
  quiet db ->
  delete_resolve config host db model transformedWhere s = (r, s') -> s' = s.
Proof.
  intros [_ [Hfind _]]. unfold delete_resolve, bind, lift, ret, throw.
  destruct (idFromWhere transformedWhere) as [docId | e |];
    try (intros H; now injection H).
  destruct (negb (truthy docId)); [| intros H; now injection H].
  destruct (modelSelector config host transformedWhere model) as [selector | e |];
    try (intros H; now injection H).
  destruct (Nano.find db (query selector (Some 1)) s) as [[found | e |] s1] eqn:E;
    apply Hfind in E; subst s1;
    try (intros H; now injection H).
  destruct (Nano.docs found); intros H; now injection H.
Qed.

Lemma NotFound_quiet (db : Nano.DocumentScope St) (model : string)
    (transformedWhere : Value) (s0 s' : St) :
  quiet db ->
  NotFound config host db model transformedWhere s0 s' -> s' = s0.
Proof.
  intros Hquiet Hnf. pose proof Hquiet as [Hget [Hfind Hdestroy]].
  destruct Hnf as [docId selector found s1 Hid Hfalsy Hsel Hfound Hnone
                  | docId e s1 s2 Hres Htruthy Hfetch H404
                  | docId doc e s1 s2 s3 Hres Htruthy Hfetch Hmodel Hdel H404].
  - now apply Hfind in Hfound.
  - apply (delete_resolve_quiet _ _ _ _ _ _ Hquiet) in Hres. subst s1.
    now apply Hget in Hfetch.
  - apply (delete_resolve_quiet _ _ _ _ _ _ Hquiet) in Hres. subst s1.
    apply Hget in Hfetch. subst s2. now apply Hdestroy in Hdel.
Qed.

(** C6.  A [delete] that meets a not-found outcome (the filter matches no
    document, or the fetch or the removal of the resolved identifier fails
    with 404) returns successfully, and the adapter writes nothing: the
    store is left as its own look-ups and its failed removal left it.  Over
    a store that these leave as it is, with the database at hand, the state
    is unchanged, and the delete can be repeated with the same successful
    return and the same unchanged state. *)
Theorem delete_not_found_is_success
    (model : string) (where_ : Value) (db : Nano.DocumentScope St) (s s0 s' : St) :
  getDatabase couch config (getModelName host model) s = (Ok db, s0) ->
  NotFound config host db model
    (transformWhereClause host where_ (getDefaultModelName host model)) s0 s' ->
  delete couch config host model where_ s = (Ok tt, s')
  /\ (quiet db -> s0 = s ->
      s' = s
      /\ bind (delete couch config host model where_)
           (fun _ => delete couch config host model where_) s = (Ok tt, s)).
Proof.
  intros Hdb Hnf.
  assert (Hrun : delete couch config host model where_ s = (Ok tt, s')).
  { unfold delete. rewrite (bind_ok _ _ _ _ _ Hdb).
    destruct Hnf as [docId selector found s1 Hid Hfalsy Hsel Hfind Hnone
                    | docId e s1 s2 Hres Htruthy Hget H404
                    | docId doc e s1 s2 s3 Hres Htruthy Hget Hmodel Hdel H404].
    - assert (Hres : delete_resolve config host db model
                       (transformWhereClause host where_ (getDefaultModelName host model))
                       s0 = (Ok None, s1)).
      { unfold delete_resolve, bind, lift. rewrite Hid, Hfalsy. cbn [negb].
        rewrite Hsel, Hfind, Hnone. reflexivity. }
      now rewrite (bind_ok _ _ _ _ _ Hres).
    - rewrite (bind_ok _ _ _ _ _ Hres). unfold delete_remove.
      rewrite Htruthy. cbn [negb].
      assert (Hbody :
        bind (Nano.get db docId)
          (fun doc =>
             if otherModel config host doc model then ret tt
             else Nano.destroy db (get doc "_id") (orElse (get doc "_rev") (VStr "")))
          s1 = (Throw e, s2)) by now apply bind_throw.
      rewrite (tryCatch_throw _ _ _ _ _ Hbody). now rewrite H404.
    - rewrite (bind_ok _ _ _ _ _ Hres). unfold delete_remove.
      rewrite Htruthy. cbn [negb].
      assert (Hbody :
        bind (Nano.get db docId)
          (fun doc =>
             if otherModel config host doc model then ret tt
             else Nano.destroy db (get doc "_id") (orElse (get doc "_rev") (VStr "")))
          s1 = (Throw e, s3)).
      { rewrite (bind_ok _ _ _ _ _ Hget), Hmodel. exact Hdel. }
      rewrite (tryCatch_throw _ _ _ _ _ Hbody). now rewrite H404. }
  split; [exact Hrun |].
  intros Hquiet Hsame. subst s0.
  pose proof (NotFound_quiet db model _ s s' Hquiet Hnf) as Hs. subst s'.
  split; [reflexivity |].
  rewrite (bind_ok _ _ _ _ _ Hrun). exact Hrun.
Qed.

End Deleting.

Section Counting.

Context {St : Type}.
Variable couch : Nano.ServerScope St.
Variable config : CouchDBAdapterConfig.
Variable host : Host.

Lemma count_loop_paged (db : Nano.DocumentScope St) (selector : Value)
    (bookmark : option string) (s s' : St) (n : nat) (docs : list Value) :
  Paged db selector bookmark s n docs s' ->
  (bookmark = None \/ exists b, bookmark = Some b /\ b <> "") ->
  forall fuel total,
    (n <= fuel)%nat ->
    count_loop fuel db selector total bookmark s
    = (Ok (total + Z.of_nat (length docs)), s').
Proof.
  induction 1 as [bookmark s s' page next Hfind Hstop
                 | bookmark s s' s'' page rest b n Hfind Hpage Hb _ IH];
    intros Hbm fuel total Hfuel.
  - destruct fuel as [| fuel]; [lia |].
    cbn [count_loop].
    assert (Hq : match bookmark with
                 | Some b => if String.eqb b "" then None else Some b
                 | None => None
                 end = bookmark).
    { destruct Hbm as [-> | [b [-> Hne]]]; [reflexivity |].
      apply String.eqb_neq in Hne. now rewrite Hne. }
    rewrite Hq. fold (pageQuery selector bookmark).
    rewrite (bind_ok _ _ _ _ _ Hfind). cbn [Nano.docs Nano.next].
    destruct Hstop as [-> | [-> | ->]].
    + reflexivity.
    + destruct page; reflexivity.
    + destruct next; reflexivity.
  - destruct fuel as [| fuel]; [lia |].
    cbn [count_loop].
    assert (Hq : match bookmark with
                 | Some b => if String.eqb b "" then None else Some b
                 | None => None
                 end = bookmark).
    { destruct Hbm as [-> | [b0 [-> Hne]]]; [reflexivity |].
      apply String.eqb_neq in Hne. now rewrite Hne. }
    rewrite Hq. fold (pageQuery selector bookmark).
    rewrite (bind_ok _ _ _ _ _ Hfind). cbn [Nano.docs Nano.next].
    destruct page as [| d page]; [congruence |].
    pose proof Hb as Hb'. apply String.eqb_neq in Hb'. rewrite Hb'.
    rewrite IH.
    + rewrite length_app, Nat2Z.inj_add. do 2 f_equal. lia.
    + right. exists b. split; [reflexivity | assumption].
    + lia.
Qed.

(** C8.  Over a store that hands out the [N] documents matching the
    selector in pages along a continuation bookmark, the paging loop of
    [count] ends (it stops at the page that comes without a bookmark or
    with no document) and the total returned is [N], however many pages
    there are: given fuel for the pages, [count] returns [N]. *)
Theorem count_follows_pages
    (model : string) (where_ : Value) (db : Nano.DocumentScope St)
    (selector : Value) (pages : nat) (matching : list Value) (s s0 s' : St) :
  getDatabase couch config (getModelName host model) s = (Ok db, s0) ->
  modelSelector config host
    (transformWhereClause host where_ (getDefaultModelName host model)) model
  = Ok selector ->
  Paged db selector None s0 pages matching s' ->
  forall fuel, (pages <= fuel)%nat ->
    count couch config host fuel where_ model s
    = (Ok (Z.of_nat (length matching)), s').
Proof.
  intros Hdb Hsel Hpaged fuel Hfuel.
  unfold count. rewrite (bind_ok _ _ _ _ _ Hdb), Hsel.
  unfold lift at 1. unfold bind at 1.
  now rewrite (count_loop_paged db selector None s0 s' pages matching Hpaged
                 (or_introl eq_refl) fuel 0 Hfuel).
Qed.

End Counting.

(** *** The in-memory sort *)

Lemma insertSorted_perm {A} (cmp : A -> A -> Z) (x : A) (l : list A) :
  Permutation (insertSorted cmp x l) (x :: l).
Proof.
  induction l as [| y l IH]; cbn [insertSorted]; [reflexivity |].
  destruct (cmp x y <=? 0); [reflexivity |].
  rewrite IH. apply perm_swap.
Qed.

Lemma sortWith_perm {A} (cmp : A -> A -> Z) (l : list A) :
  Permutation (sortWith cmp l) l.
Proof.
  induction l as [| x l IH]; [reflexivity |].
  cbn [sortWith fold_right]. fold (sortWith cmp l).
  rewrite insertSorted_perm. now constructor.
Qed.

(** A symmetric relation that holds of every two elements of a list, the
    earlier and the later, holds so of every permutation of it. *)
Lemma pairs_perm {A} (ok : A -> A -> Prop) (l l' : list A) :
  (forall a b, ok a b -> ok b a) ->
  Permutation l l' -> StronglySorted ok l -> StronglySorted ok l'.
Proof.
  intros Hsym Hperm. induction Hperm as [| x l l' Hp IH | x y l | l l' l'' _ IH1 _ IH2].
  - auto.
  - intros H. apply StronglySorted_inv in H. destruct H as [H Hx].
    constructor; [auto |].
    rewrite Forall_forall in *. intros z Hz. apply Hx.
    now apply (Permutation_in _ (Permutation_sym Hp)).
  - intros H. apply StronglySorted_inv in H. destruct H as [H Hy].
    apply StronglySorted_inv in H. destruct H as [H Hx].
    inversion Hy as [| ? ? Hyx Hyl]; subst.
    constructor; [constructor; assumption |].
    constructor; [now apply Hsym | assumption].
  - auto.
Qed.

Lemma pairs_both {A} (R1 R2 : A -> A -> Prop) (l : list A) :
  StronglySorted R1 l -> StronglySorted R2 l ->
  StronglySorted (fun a b => R1 a b /\ R2 a b) l.
Proof.
  induction l as [| x l IH]; intros H1 H2; [constructor |].
  apply StronglySorted_inv in H1, H2. destruct H1 as [H1 Hx1], H2 as [H2 Hx2].
  constructor; [auto |].
  rewrite Forall_forall in *. auto.
Qed.

Lemma pairs_weaken {A} (R R' : A -> A -> Prop) (l : list A) :
  (forall a b, R a b -> R' a b) -> StronglySorted R l -> StronglySorted R' l.
Proof.
  intros Himp H. induction H as [| x l _ IH Hx]; constructor; [exact IH |].
  rewrite Forall_forall in *. auto.
Qed.

(** Insertion keeps a list sorted when the comparator is total and
    transitive on the elements at hand, each compared with the others
    only. *)
Lemma insertSorted_sorted {A} (cmp : A -> A -> Z) (P : A -> Prop) (ok : A -> A -> Prop) :
  (forall a b, ok a b -> ok b a) ->
  (forall a b, P a -> P b -> ok a b -> 0 < cmp a b -> cmp b a <= 0) ->
  (forall a b c, P a -> P b -> P c -> ok a b -> ok b c -> ok a c ->
                 cmp a b <= 0 -> cmp b c <= 0 -> cmp a c <= 0) ->
  forall x l, P x -> Forall P l -> Forall (ok x) l -> StronglySorted ok l ->
    StronglySorted (fun a b => cmp a b <= 0) l ->
    StronglySorted (fun a b => cmp a b <= 0) (insertSorted cmp x l).
Proof.
  intros Hsym Htotal Htrans x l Hx Hl Hokx Hok Hsorted.
  induction Hsorted as [| y l Hs IH Hy]; cbn [insertSorted].
  - constructor; constructor.
  - inversion Hl as [| ? ? Py Pl]; subst.
    inversion Hokx as [| ? ? Hxy Hxl]; subst.
    apply StronglySorted_inv in Hok. destruct Hok as [Hokl Hyl].
    destruct (cmp x y <=? 0) eqn:E.
    + apply Z.leb_le in E.
      constructor; [now constructor |].
      constructor; [exact E |].
      rewrite Forall_forall in *. intros z Hz.
      apply (Htrans x y z); auto.
    + apply Z.leb_gt in E.
      constructor; [now apply IH |].
      rewrite (Forall_forall (fun b => cmp y b <= 0)).
      intros z Hz.
      apply (Permutation_in _ (insertSorted_perm cmp x l)) in Hz.
      destruct Hz as [<- | Hz].
      * apply Htotal; auto.
      * rewrite Forall_forall in Hy. now apply Hy.
Qed.

Lemma sortWith_sorted {A} (cmp : A -> A -> Z) (P : A -> Prop) (ok : A -> A -> Prop) :
  (forall a b, ok a b -> ok b a) ->
  (forall a b, P a -> P b -> ok a b -> 0 < cmp a b -> cmp b a <= 0) ->
  (forall a b c, P a -> P b -> P c -> ok a b -> ok b c -> ok a c ->
                 cmp a b <= 0 -> cmp b c <= 0 -> cmp a c <= 0) ->
  forall l, Forall P l -> StronglySorted ok l ->
    StronglySorted (fun a b => cmp a b <= 0) (sortWith cmp l).
Proof.
  intros Hsym Htotal Htrans l Hl Hok.
  induction Hl as [| x l Hx Hl IH]; [constructor |].
  apply StronglySorted_inv in Hok. destruct Hok as [Hokl Hokx].
  cbn [sortWith fold_right]. fold (sortWith cmp l).
  apply (insertSorted_sorted cmp P ok Hsym Htotal Htrans); auto.
  - rewrite Forall_forall in *. intros z Hz.
    apply Hl. now apply (Permutation_in _ (sortWith_perm cmp l)).
  - rewrite Forall_forall in *. intros z Hz.
    apply Hokx. now apply (Permutation_in _ (sortWith_perm cmp l)).
  - apply (pairs_perm ok l); auto. apply Permutation_sym, sortWith_perm.
Qed.

(** *** The order of strings, and of the values of a kind *)

Lemma string_ltb_trans (a b c : string) :
  string_ltb a b = true -> string_ltb b c = true -> string_ltb a c = true.
Proof.
  revert b c. induction a as [| x a IH]; intros [| y b] [| z c];
    cbn [string_ltb]; try discriminate; try reflexivity.
  destruct (Nat.ltb_spec (nat_of_ascii x) (nat_of_ascii y));
    destruct (Nat.ltb_spec (nat_of_ascii y) (nat_of_ascii x));
    destruct (Nat.ltb_spec (nat_of_ascii y) (nat_of_ascii z));
    destruct (Nat.ltb_spec (nat_of_ascii z) (nat_of_ascii y));
    destruct (Nat.ltb_spec (nat_of_ascii x) (nat_of_ascii z));
    destruct (Nat.ltb_spec (nat_of_ascii z) (nat_of_ascii x));
    try discriminate; try reflexivity; try lia.
  apply IH.
Qed.

Lemma string_ltb_asym (a b : string) :
  string_ltb a b = true -> string_ltb b a = false.
Proof.
  intros H. rewrite <- (string_ltb_compare a b), H. reflexivity.
Qed.

Lemma string_ltb_total (a b : string) :
  string_ltb a b = false -> string_ltb b a = false -> a = b.
Proof.
  intros H1 H2. rewrite <- (string_ltb_compare a b), H1 in H2.
  cbn [orb] in H2. apply negb_false_iff in H2. now apply String.eqb_eq.
Qed.

(** On the values of a kind [<] is a strict weak order. *)
Lemma lt_strict (k : bool) (x y z : Value) :
  inKind k x = true -> inKind k y = true -> inKind k z = true ->
  (lt x y && lt y x)%bool = false
  /\ (lt x y && lt y z && negb (lt x z))%bool = false
  /\ (lt x z && negb (lt x y) && negb (lt y z))%bool = false.
Proof.
  destruct k; cbn [inKind].
  - destruct x as [| | ? | ? | a | ? | ?]; try discriminate.
    destruct y as [| | ? | ? | b | ? | ?]; try discriminate.
    destruct z as [| | ? | ? | c | ? | ?]; try discriminate.
    intros _ _ _. cbn [lt].
    destruct (string_ltb a b) eqn:Eab, (string_ltb b a) eqn:Eba,
             (string_ltb b c) eqn:Ebc, (string_ltb a c) eqn:Eac;
      cbn [andb negb]; repeat split; try reflexivity; exfalso.
    all: try (rewrite (string_ltb_asym a b Eab) in Eba; discriminate).
    all: try (rewrite (string_ltb_trans a b c Eab Ebc) in Eac; discriminate).
    all: destruct (string_ltb c b) eqn:Ecb;
      [| rewrite (string_ltb_total b c Ebc Ecb) in *; congruence ].
    all: try (rewrite (string_ltb_total a b Eab Eba) in *; congruence).
    all: pose proof (string_ltb_trans c b a Ecb Eba) as Hca;
      rewrite (string_ltb_asym c a Hca) in Eac; discriminate.
  - assert (Hnum : forall v, numberLike v = true -> exists n, toNumber v = Some n
                             /\ forall s, v <> VStr s).
    { intros [| | [|] | n | s | |]; try discriminate; intros _;
        eexists; (split; [reflexivity | discriminate]). }
    intros Hx Hy Hz.
    destruct (Hnum x Hx) as [n [En Sn]], (Hnum y Hy) as [m [Em Sm]],
             (Hnum z Hz) as [p [Ep Sp]].
    assert (Hlt : forall u v i j, toNumber u = Some i -> toNumber v = Some j ->
                                  lt u v = (i <? j)).
    { intros u v i j Ei Ej. unfold lt. rewrite Ei, Ej.
      destruct u; try reflexivity. destruct v; try reflexivity. discriminate Ei. }
    rewrite (Hlt x y n m En Em), (Hlt y x m n Em En), (Hlt y z m p Em Ep),
            (Hlt x z n p En Ep).
    destruct (Z.ltb_spec n m), (Z.ltb_spec m n), (Z.ltb_spec m p), (Z.ltb_spec n p);
      cbn [andb negb]; repeat split; try reflexivity; lia.
Qed.

Lemma three_anti (k : bool) (x y : Value) :
  classed k x = true -> classed k y = true ->
  is_nullish x = false \/ is_nullish y = false ->
  three y x = - three x y.
Proof.
  unfold classed, three. intros Hx Hy Hxy.
  destruct (is_nullish x) eqn:Nx, (is_nullish y) eqn:Ny; cbn [orb] in *;
    try reflexivity.
  - destruct Hxy; discriminate.
  - destruct (lt_strict k x y y Hx Hy Hy) as [Ha _].
    destruct (lt x y), (lt y x); cbn in *; try reflexivity; discriminate.
Qed.

Lemma three_trans (k : bool) (x y z : Value) :
  classed k x = true -> classed k y = true -> classed k z = true ->
  (is_nullish x = false \/ is_nullish y = false) ->
  (is_nullish y = false \/ is_nullish z = false) ->
  (is_nullish x = false \/ is_nullish z = false) ->
  three x y <= 0 -> three y z <= 0 ->
  three x z <= 0 /\ (three x z = 0 -> three x y = 0 /\ three y z = 0).
Proof.
  unfold classed, three. intros Hx Hy Hz Hxy Hyz Hxz.
  destruct (is_nullish x) eqn:Nx, (is_nullish y) eqn:Ny, (is_nullish z) eqn:Nz;
    cbn [orb] in *; try lia.
  destruct (lt_strict k x y z Hx Hy Hz) as [A1 [T1 C1]].
  destruct (lt_strict k z y x Hz Hy Hx) as [A2 [T2 C2]].
  destruct (lt_strict k x z y Hx Hz Hy) as [A3 [T3 C3]].
  destruct (lt_strict k y x z Hy Hx Hz) as [A4 [T4 C4]].
  destruct (lt x y), (lt y x), (lt y z), (lt z y), (lt x z), (lt z x);
    cbn in *; try discriminate; lia.
Qed.

Section Comparator.

Variable host : Host.
Variable model : string.

Lemma compareDocs_cons (o : SortBy) (rest : list SortBy) (a b : Value) :
  compareDocs host model (o :: rest) a b
  = if negb (three (sortValue host model o a) (sortValue host model o b) =? 0)
    then if String.eqb (direction o) "desc"
         then - three (sortValue host model o a) (sortValue host model o b)
         else three (sortValue host model o a) (sortValue host model o b)
    else compareDocs host model rest a b.
Proof. reflexivity. Qed.

Lemma fits_tail (kinds : SortBy -> bool) (o : SortBy) (rest : list SortBy) (d : Value) :
  fits host model kinds (o :: rest) d ->
  classed (kinds o) (sortValue host model o d) = true /\ fits host model kinds rest d.
Proof.
  intros H. split; [apply H; now left |]. intros o' Ho'. apply H. now right.
Qed.

Lemma apart_tail (o : SortBy) (rest : list SortBy) (a b : Value) :
  apart host model (o :: rest) a b ->
  (is_nullish (sortValue host model o a) = false
   \/ is_nullish (sortValue host model o b) = false)
  /\ apart host model rest a b.
Proof.
  intros H. split; [apply H; now left |]. intros o' Ho'. apply H. now right.
Qed.

Lemma apart_sym (order : list SortBy) (a b : Value) :
  apart host model order a b -> apart host model order b a.
Proof. intros H o Ho. destruct (H o Ho); auto. Qed.

Lemma compareDocs_anti (kinds : SortBy -> bool) (order : list SortBy) (a b : Value) :
  fits host model kinds order a -> fits host model kinds order b ->
  apart host model order a b ->
  compareDocs host model order b a = - compareDocs host model order a b.
Proof.
  induction order as [| o rest IH]; intros Fa Fb Hab; [reflexivity |].
  apply fits_tail in Fa, Fb. destruct Fa as [Ca Fa], Fb as [Cb Fb].
  apply apart_tail in Hab. destruct Hab as [Nab Hab].
  rewrite !compareDocs_cons, (IH Fa Fb Hab), (three_anti _ _ _ Ca Cb Nab).
  generalize (three (sortValue host model o a) (sortValue host model o b)).
  intros t.
  destruct (Z.eqb_spec (- t) 0), (Z.eqb_spec t 0); cbn [negb]; try lia.
  destruct (String.eqb (direction o) "desc"); lia.
Qed.

Lemma compareDocs_trans (kinds : SortBy -> bool) (order : list SortBy) (a b c : Value) :
  fits host model kinds order a -> fits host model kinds order b ->
  fits host model kinds order c ->
  apart host model order a b -> apart host model order b c ->
  apart host model order a c ->
  compareDocs host model order a b <= 0 -> compareDocs host model order b c <= 0 ->
  compareDocs host model order a c <= 0.
Proof.
  induction order as [| o rest IH]; intros Fa Fb Fc Hab Hbc Hac; [cbn; lia |].
  apply fits_tail in Fa, Fb, Fc.
  destruct Fa as [Ca Fa], Fb as [Cb Fb], Fc as [Cc Fc].
  apply apart_tail in Hab, Hbc, Hac.
  destruct Hab as [Nab Hab], Hbc as [Nbc Hbc], Hac as [Nac Hac].
  specialize (IH Fa Fb Fc Hab Hbc Hac).
  rewrite !compareDocs_cons.
  assert (Nba : is_nullish (sortValue host model o b) = false
                \/ is_nullish (sortValue host model o a) = false) by tauto.
  assert (Ncb : is_nullish (sortValue host model o c) = false
                \/ is_nullish (sortValue host model o b) = false) by tauto.
  assert (Nca : is_nullish (sortValue host model o c) = false
                \/ is_nullish (sortValue host model o a) = false) by tauto.
  pose proof (three_anti _ _ _ Ca Cb Nab) as Aab.
  pose proof (three_anti _ _ _ Cb Cc Nbc) as Abc.
  pose proof (three_anti _ _ _ Ca Cc Nac) as Aac.
  pose proof (three_trans _ _ _ _ Ca Cb Cc Nab Nbc Nac) as Tabc.
  pose proof (three_trans _ _ _ _ Cc Cb Ca Ncb Nba Nca) as Tcba.
  revert IH Aab Abc Aac Tabc Tcba.
  generalize (three (sortValue host model o a) (sortValue host model o b)).
  generalize (three (sortValue host model o b) (sortValue host model o c)).
  generalize (three (sortValue host model o a) (sortValue host model o c)).
  generalize (three (sortValue host model o b) (sortValue host model o a)).
  generalize (three (sortValue host model o c) (sortValue host model o b)).
  generalize (three (sortValue host model o c) (sortValue host model o a)).
  generalize (compareDocs host model rest a b).
  generalize (compareDocs host model rest b c).
  generalize (compareDocs host model rest a c).
  intros rac rbc rab tca tcb tba tac tbc tab IH Aab Abc Aac Tabc Tcba.
  destruct (Z.eqb_spec tab 0), (Z.eqb_spec tbc 0), (Z.eqb_spec tac 0); cbn [negb];
    destruct (String.eqb (direction o) "desc"); lia.
Qed.

(** What the comparator's verdict says of two documents. *)
Lemma compareDocs_precedes (order : list SortBy) (a b : Value) :
  apart host model order a b ->
  compareDocs host model order a b <= 0 ->
  precedes host model order a b.
Proof.
  induction order as [| o rest IH]; intros Hab; [intros _; exact I |].
  apply apart_tail in Hab. destruct Hab as [Nab Hab].
  rewrite compareDocs_cons. cbn [precedes]. unfold three, missing, present.
  destruct (is_nullish (sortValue host model o a)) eqn:Na.
  - destruct Nab as [N | Nb]; [discriminate |]. rewrite Nb.
    change (negb (1 =? 0)) with true. cbn iota.
    destruct (String.eqb (direction o) "desc"); [| lia].
    intros _. left. auto.
  - destruct (is_nullish (sortValue host model o b)) eqn:Nb.
    + change (negb (-1 =? 0)) with true. cbn iota.
      destruct (String.eqb (direction o) "desc"); [lia |].
      intros _. left. auto.
    + destruct (lt (sortValue host model o a) (sortValue host model o b)) eqn:L1.
      * change (negb (-1 =? 0)) with true. cbn iota.
        destruct (String.eqb (direction o) "desc"); [lia |].
        intros _. right. left. auto.
      * destruct (lt (sortValue host model o b) (sortValue host model o a)) eqn:L2.
        -- change (negb (1 =? 0)) with true. cbn iota.
           destruct (String.eqb (direction o) "desc"); [| lia].
           intros _. right. left. auto.
        -- change (negb (0 =? 0)) with false. cbn iota.
           intros H. specialize (IH Hab H).
           destruct (String.eqb (direction o) "desc"); right; right; auto.
Qed.

(** Of documents of which at most one fails a test, no two fail it. *)
Lemma single_apart {A} (f : A -> bool) (l : list A) :
  (length (filter f l) <= 1)%nat ->
  StronglySorted (fun a b => f a = false \/ f b = false) l.
Proof.
  induction l as [| x l IH]; intros H; [constructor |].
  cbn [filter] in H. destruct (f x) eqn:E.
  - cbn [length] in H.
    assert (H0 : filter f l = []) by (destruct (filter f l); [reflexivity | cbn in H; lia]).
    constructor.
    + apply IH. rewrite H0. cbn. lia.
    + rewrite Forall_forall. intros z Hz. right.
      destruct (f z) eqn:Ez; [| reflexivity].
      assert (Hin : In z (filter f l)) by (apply filter_In; auto).
      rewrite H0 in Hin. destruct Hin.
  - constructor; [now apply IH |].
    rewrite Forall_forall. intros z _. now left.
Qed.

Lemma pairs_all {A B} (R : B -> A -> A -> Prop) (keys : list B) (l : list A) :
  (forall o, In o keys -> StronglySorted (R o) l) ->
  StronglySorted (fun a b => forall o, In o keys -> R o a b) l.
Proof.
  induction l as [| x l IH]; intros H; [constructor |].
  constructor.
  - apply IH. intros o Ho. specialize (H o Ho).
    now apply StronglySorted_inv in H.
  - rewrite Forall_forall. intros z Hz o Ho. specialize (H o Ho).
    apply StronglySorted_inv in H. destruct H as [_ H].
    rewrite Forall_forall in H. auto.
Qed.

Lemma sortable_fits (order : list SortBy) (docs : list Value) :
  Forall (fun o => sortable host model o docs = true) order ->
  Forall (fits host model (kindOf host model docs) order) docs
  /\ StronglySorted (apart host model order) docs.
Proof.
  intros H. rewrite Forall_forall in H. split.
  - rewrite Forall_forall. intros d Hd o Ho. specialize (H o Ho).
    unfold sortable in H.
    apply andb_true_iff in H. destruct H as [H Hkind].
    unfold classed, inKind.
    destruct (kindOf host model docs o) eqn:E; unfold kindOf in E.
    + rewrite forallb_forall in E. exact (E d Hd).
    + rewrite E, orb_false_r in Hkind.
      rewrite forallb_forall in Hkind. exact (Hkind d Hd).
  - apply (pairs_all
             (fun o a b => is_nullish (sortValue host model o a) = false
                           \/ is_nullish (sortValue host model o b) = false)).
    intros o Ho. specialize (H o Ho). unfold sortable in H.
    apply andb_true_iff in H. destruct H as [H _].
    apply andb_true_iff in H. destruct H as [_ H].
    apply Nat.leb_le in H.
    exact (single_apart (fun d => is_nullish (sortValue host model o d)) docs H).
Qed.

(** The sort puts sortable documents in the order of the sort keys. *)
Lemma sortWith_precedes (order : list SortBy) (docs : list Value) :
  Forall (fun o => sortable host model o docs = true) order ->
  StronglySorted (precedes host model order) (sortWith (compareDocs host model order) docs).
Proof.
  intros H. destruct (sortable_fits order docs H) as [Hfits Hapart].
  apply (pairs_weaken
           (fun a b => compareDocs host model order a b <= 0 /\ apart host model order a b)).
  { intros a b [Hc Hab]. now apply compareDocs_precedes. }
  apply pairs_both.
  - apply (sortWith_sorted (compareDocs host model order)
             (fits host model (kindOf host model docs) order)
             (apart host model order)); auto.
    + apply apart_sym.
    + intros a b Fa Fb Hab Hpos.
      rewrite (compareDocs_anti _ order a b Fa Fb Hab). lia.
    + intros a b c. apply compareDocs_trans.
  - apply (pairs_perm (apart host model order) docs); auto.
    + apply apart_sym.
    + apply Permutation_sym, sortWith_perm.
Qed.

End Comparator.

Section FallingBack.

Context {St : Type}.
Variable couch : Nano.ServerScope St.
Variable config : CouchDBAdapterConfig.
Variable host : Host.

Lemma findMany_fallback
    (where_ : Value) (model : string) (offset : option Z)
    (orderBy_ : option (list SortBy)) (sortBy : option SortBy)
    (db : Nano.DocumentScope St) (selector : Value) (e : JsError)
    (found : Nano.FindResponse) (s s0 s1 s2 : St) :
  let order := effectiveOrder orderBy_ sortBy in
  let selector' := findManySelector config host selector model in
  getDatabase couch config (getModelName host model) s = (Ok db, s0) ->
  convertWhereToSelector
    (transformWhereClause host where_ (getDefaultModelName host model))
  = Ok selector ->
  Nano.find db
    {| Nano.selector := selector'; Nano.limit := None; Nano.skip := offset;
       Nano.sort := sortOf host model order; Nano.bookmark := None |} s0
  = (Throw e, s1) ->
  is_no_usable_index e = true ->
  Nano.find db
    {| Nano.selector := selector'; Nano.limit := None; Nano.skip := None;
       Nano.sort := None; Nano.bookmark := None |} s1
  = (Ok found, s2) ->
  findMany couch config host where_ model None offset orderBy_ sortBy s
  = (Ok (map (decode host model) (inMemory host model order offset (Nano.docs found))),
     s2).
Proof.
  intros order selector' Hdb Hsel Hfail Hidx Hagain.
  unfold findMany. rewrite (bind_ok _ _ _ _ _ Hdb), Hsel.
  unfold lift at 1. unfold bind at 1. fold selector'.
  assert (Hsort :
    match match orderBy_ with
          | Some l => Some l
          | None => match sortBy with Some s => Some [s] | None => None end
          end with
    | Some (o :: os) =>
        Some (map (fun order0 =>
                     (getFieldName host model (field order0),
                      if String.eqb (direction order0) "desc" then "desc" else "asc"))
                  (o :: os))
    | _ => None
    end = sortOf host model order).
  { unfold order, effectiveOrder, sortOf.
    destruct orderBy_ as [[| o os] |]; [reflexivity | reflexivity |].
    destruct sortBy; reflexivity. }
  rewrite Hsort.
  unfold bind at 1.
  rewrite (tryCatch_throw _ _ _ _ _ (bind_throw _ _ _ _ _ Hfail)).
  rewrite Hidx. rewrite (bind_ok _ _ _ _ _ Hagain). cbn [ret].
  unfold ret. do 3 f_equal.
  unfold inMemory, order, effectiveOrder, sortOf.
  destruct orderBy_ as [[| o os] |]; [| | destruct sortBy];
    destruct offset as [n |]; try reflexivity;
    destruct (n =? 0) eqn:E0; cbn [negb andb]; try reflexivity;
    apply Z.eqb_eq in E0; subst n; reflexivity.
Qed.

(** C2 (as amended).  When the store rejects the query of a [findMany]
    without a limit for want of an index (400, [no_usable_index]), the
    result is made of the documents that the store returns for the same
    selector without sort and skip: they are sorted in memory and then
    sliced from the requested (positive) offset, and each is decoded.  The
    sorted list holds the same documents; with no sort key it is the list
    as the store returned it; and of any two of its documents the earlier
    precedes the later under the sort keys: ascending unless the direction
    is [desc], the smaller value first when ascending and the greater when
    descending, a document whose value is missing or null after one with a
    value when ascending and before it when descending, and two values
    of which neither is smaller ordered by the next sort key.  This is for
    documents that the comparator orders consistently under every sort
    key - at most one lacks the value, and the values are all strings, or
    all numbers and booleans - and for a where clause without a key
    [__proto__]. *)
Theorem findMany_sorts_in_memory_without_index
    (where_ : Value) (model : string) (offset : option Z)
    (orderBy_ : option (list SortBy)) (sortBy : option SortBy)
    (db : Nano.DocumentScope St) (selector : Value) (e : JsError)
    (found : Nano.FindResponse) (s s0 s1 s2 : St) :
  let order := effectiveOrder orderBy_ sortBy in
  let selector' := findManySelector config host selector model in
  getDatabase couch config (getModelName host model) s = (Ok db, s0) ->
  withoutProto (transformWhereClause host where_ (getDefaultModelName host model)) ->
  convertWhereToSelector
    (transformWhereClause host where_ (getDefaultModelName host model))
  = Ok selector ->
  Nano.find db
    {| Nano.selector := selector'; Nano.limit := None; Nano.skip := offset;
       Nano.sort := sortOf host model order; Nano.bookmark := None |} s0
  = (Throw e, s1) ->
  is_no_usable_index e = true ->
  Nano.find db
    {| Nano.selector := selector'; Nano.limit := None; Nano.skip := None;
       Nano.sort := None; Nano.bookmark := None |} s1
  = (Ok found, s2) ->
  Forall (fun o => sortable host model o (Nano.docs found) = true) order ->
  exists sorted,
    findMany couch config host where_ model None offset orderBy_ sortBy s
    = (Ok (map (decode host model) (fromOffset offset sorted)), s2)
    /\ Permutation sorted (Nano.docs found)
    /\ StronglySorted (precedes host model order) sorted
    /\ (order = [] -> sorted = Nano.docs found).
Proof.
  intros order selector' Hdb _ Hsel Hfail Hidx Hagain Hsortable.
  exists (match order with
          | [] => Nano.docs found
          | _ => sortWith (compareDocs host model order) (Nano.docs found)
          end).
  split; [| split; [| split]].
  - exact (findMany_fallback where_ model offset orderBy_ sortBy db
             selector e found s s0 s1 s2 Hdb Hsel Hfail Hidx Hagain).
  - destruct order; [reflexivity | apply sortWith_perm].
  - destruct order as [| o rest] eqn:E.
    + clear. induction (Nano.docs found) as [| d l IH]; constructor; [exact IH |].
      rewrite Forall_forall. intros; exact I.
    + now apply sortWith_precedes.
  - intros ->. reflexivity.
Qed.

End FallingBack.

Section Unstamped.

Context {St : Type}.
Variable couch : Nano.ServerScope St.
Variable config : CouchDBAdapterConfig.
Variable host : Host.

Lemma otherModel_true (doc : Value) (model : string) :
  otherModel config host doc model = true <->
  useModelAsDatabase config = false
  /\ truthy (get doc "betterAuthModel") = true
  /\ strictEq (get doc "betterAuthModel") (VStr (getModelName host model)) = false.
Proof.
  unfold otherModel.
  rewrite !andb_true_iff, !negb_true_iff. tauto.
Qed.



End Unstamped.

Section Isolation.

Context {St : Type}.
Variable couch : Nano.ServerScope St.
Variable config : CouchDBAdapterConfig.
Variable host : Host.

(** The store's matching of a document against a selector. *)
Variable matches : Value -> Value -> bool.

Lemma encode_stamps (model : string) (data : Value) :
  useModelAsDatabase config = false ->
  get (encode config host model data) "betterAuthModel"
  = VStr (getModelName host model).
Proof.
  intros Hshared. unfold encode. rewrite Hshared. cbn [negb].
  match goal with
  | |- get (set ?o _ _) _ = _ => destruct o eqn:E
  end;
    try (destruct (negb _ && _)%bool in E; discriminate E).
  cbn [set]. apply get_assign_same.
Qed.

(** The handle that [getDatabase] returns is one that the server gave out. *)
Lemma getDatabase_use (name : string) (db : Nano.DocumentScope St) (s s0 : St) :
  getDatabase couch config name s = (Ok db, s0) ->
  exists n s1, Nano.use couch n s1 = (Ok db, s0).
Proof.
  unfold getDatabase, bind, tryCatch.
  match goal with
  | |- context [Nano.db_get couch ?n s] => set (dbName := n)
  end.
  destruct (Nano.db_get couch dbName s) as [[[] | e |] s1].
  - intros H. destruct (useModelAsDatabase config); eauto.
  - destruct (status_is e 404).
    + destruct (Nano.db_create couch dbName s1) as [[[] | e' |] s2]; try discriminate.
      intros H. destruct (useModelAsDatabase config); eauto.
    + unfold throw. discriminate.
  - discriminate.
Qed.

Lemma modelSelector_stamped (doc transformedWhere selector : Value) (model : string) :
  conjoinsFields matches ->
  useModelAsDatabase config = false ->
  modelSelector config host transformedWhere model = Ok selector ->
  matches doc selector = true ->
  stampedFor host model doc.
Proof.
  intros Hfields Hshared. unfold modelSelector. rewrite Hshared.
  destruct (convertWhereToSelector transformedWhere) as [sel | |] eqn:E;
    cbn [obind negb]; try discriminate.
  destruct (convertWhereToSelector_object _ _ E) as [props ->].
  intros H. injection H as <-. cbn [set]. intros Hm.
  apply (Hfields doc _ _ Hm). apply lookup_assign_same.
Qed.

Lemma findManySelector_stamped (doc transformedWhere selector : Value) (model : string) :
  conjoinsFields matches -> conjoinsAnd matches ->
  useModelAsDatabase config = false ->
  convertWhereToSelector transformedWhere = Ok selector ->
  matches doc (findManySelector config host selector model) = true ->
  stampedFor host model doc.
Proof.
  intros Hfields Hand Hshared Hsel.
  destruct (convertWhereToSelector_object _ _ Hsel) as [props ->].
  unfold findManySelector. rewrite Hshared. cbn [negb].
  set (tag := VObj [("betterAuthModel", VStr (getModelName host model))]).
  assert (Htag : matches doc tag = true -> stampedFor host model doc).
  { intros H. apply (Hfields doc _ _ H). reflexivity. }
  assert (Hvia : forall p subs,
             lookup "$and" p = Some (VArr subs) -> In tag subs ->
             matches doc (VObj p) = true -> stampedFor host model doc).
  { intros p subs Hl Hin H. apply Htag. exact (Hand doc p subs tag H Hl Hin). }
  destruct (get (VObj props) "$and") as [| | | | | subs |] eqn:Eand;
    try (destruct props as [| p props'];
         [ cbn [props_of set]; intros H; apply (Hfields doc _ _ H); reflexivity
         | cbn [props_of];
           apply (Hvia _ [VObj (p :: props'); tag]); [reflexivity | right; now left] ]).
  cbn [set]. apply (Hvia _ (subs ++ [tag])).
  - apply lookup_assign_same.
  - apply in_or_app. right. now left.
Qed.

Lemma skipn_within {A} (n : nat) (l : list A) : incl (skipn n l) l.
Proof.
  intros x Hx. rewrite <- (firstn_skipn n l). apply in_or_app. now right.
Qed.

Lemma sortWith_within {A} (cmp : A -> A -> Z) (l : list A) : incl (sortWith cmp l) l.
Proof. intros x Hx. exact (Permutation_in _ (sortWith_perm cmp l) Hx). Qed.

(** What [findMany] returns is made of documents of an answer of the
    store to a query with [findMany]'s selector. *)
Lemma findMany_returns (where_ : Value) (model : string) (limit offset : option Z)
    (orderBy_ : option (list SortBy)) (sortBy : option SortBy)
    (results : list Value) (s s' : St) :
  findMany couch config host where_ model limit offset orderBy_ sortBy s
  = (Ok results, s') ->
  exists db s0 selector q s1 found docs,
    getDatabase couch config (getModelName host model) s = (Ok db, s0)
    /\ convertWhereToSelector
         (transformWhereClause host where_ (getDefaultModelName host model))
       = Ok selector
    /\ Nano.selector q = findManySelector config host selector model
    /\ Nano.find db q s1 = (Ok found, s')
    /\ incl docs (Nano.docs found)
    /\ results = map (decode host model) docs.
Proof.
  unfold findMany. unfold bind at 1.
  destruct (getDatabase couch config (getModelName host model) s)
    as [[db | e |] s0] eqn:Hdb; try discriminate.
  unfold lift at 1. unfold bind at 1.
  destruct (convertWhereToSelector _) as [selector | e |] eqn:Hsel; try discriminate.
  unfold bind at 1. unfold tryCatch. unfold bind at 1.
  match goal with
  | |- context [Nano.find db ?q s0] => set (q1 := q)
  end.
  destruct (Nano.find db q1 s0) as [[found | e |] s1] eqn:Hfind.
  - unfold ret. intros H. injection H as <- <-.
    exists db, s0, selector, q1, s0, found, (Nano.docs found).
    repeat split; auto.
    + apply incl_refl.
    + do 2 f_equal.
      destruct orderBy_ as [[| o os] |]; [| | destruct sortBy];
        destruct offset; reflexivity.
  - destruct (is_no_usable_index e); [| discriminate].
    unfold bind at 1.
    match goal with
    | |- context [Nano.find db ?q s1] => set (q2 := q)
    end.
    destruct (Nano.find db q2 s1) as [[found | e' |] s2] eqn:Hagain; try discriminate.
    unfold ret. intros H. injection H as <- <-.
    eexists db, s0, selector, q2, s1, found, _.
    split; [reflexivity |]. split; [reflexivity |]. split; [reflexivity |].
    split; [exact Hagain |]. split; [| reflexivity].
    assert (Hskipped : forall (b : bool) n l,
               incl l (Nano.docs found) ->
               incl (if b then skipn n l else l) (Nano.docs found)).
    { intros [|] n l Hl; [| exact Hl].
      exact (incl_tran (skipn_within n l) Hl). }
    destruct orderBy_ as [[| o os] |]; [| | destruct sortBy];
      destruct offset; cbv beta iota zeta;
      repeat first [apply incl_refl | apply sortWith_within | apply Hskipped].
  - discriminate.
Qed.

(** What [findOne] returns is a document that the store gave for the
    identifier, and that passed the check of the model; or the first
    document of the store's answer to [findOne]'s selector. *)
Lemma findOne_returns (where_ : Value) (model : string) (r : Value) (s s' : St) :
  findOne couch config host where_ model s = (Ok (Some r), s') ->
  exists db s0 doc,
    getDatabase couch config (getModelName host model) s = (Ok db, s0)
    /\ r = decode host model doc
    /\ ((exists i, Nano.get db i s0 = (Ok doc, s')
                   /\ otherModel config host doc model = false)
        \/ (exists selector found,
              modelSelector config host
                (transformWhereClause host where_ (getDefaultModelName host model)) model
              = Ok selector
              /\ Nano.find db (query selector (Some 1)) s0 = (Ok found, s')
              /\ head (Nano.docs found) = Some doc)).
Proof.
  unfold findOne. unfold bind at 1.
  destruct (getDatabase couch config (getModelName host model) s)
    as [[db | e |] s0] eqn:Hdb; try discriminate.
  unfold tryCatch.
  match goal with
  | |- match ?body s0 with _ => _ end = _ -> _ => destruct (body s0) as [[res | e |] s1] eqn:Hbody
  end.
  - intros H. injection H as -> ->.
    revert Hbody. unfold lift at 1. unfold bind at 1.
    destruct (whereRecordOf _) as [whereRecord | e |]; try discriminate.
    destruct (truthy (get whereRecord "id")).
    + unfold bind at 1.
      destruct (Nano.get db _ s0) as [[doc | e |] s1] eqn:Hget; try discriminate.
      destruct (otherModel config host doc model) eqn:Hother; [discriminate |].
      unfold ret. intros H. injection H as <- <-.
      exists db, s0, doc. split; [reflexivity |]. split; [reflexivity |].
      left. eauto.
    + unfold lift at 1. unfold bind at 1.
      destruct (modelSelector _ _ _ _) as [selector | e |] eqn:Hsel; try discriminate.
      unfold bind at 1.
      destruct (Nano.find db _ s0) as [[found | e |] s1] eqn:Hfind; try discriminate.
      destruct (Nano.docs found) as [| first rest] eqn:Hdocs; [discriminate |].
      unfold ret. intros H. injection H as <- <-.
      exists db, s0, first. split; [reflexivity |]. split; [reflexivity |].
      right. exists selector, found. rewrite Hdocs. auto.
  - destruct (status_is e 404); discriminate.
  - discriminate.
Qed.

(** The total that the paging loop returns is the number of documents of
    the pages that the store handed out. *)
Lemma count_loop_pages (db : Nano.DocumentScope St) (selector : Value) (fuel : nat) :
  forall total bookmark s n s',
    (bookmark = None \/ exists b, bookmark = Some b /\ b <> "") ->
    count_loop fuel db selector total bookmark s = (Ok n, s') ->
    exists pages docs,
      Paged db selector bookmark s pages docs s'
      /\ n = total + Z.of_nat (length docs).
Proof.
  induction fuel as [| fuel IH]; intros total bookmark s n s' Hbm; [discriminate |].
  cbn [count_loop].
  assert (Hq : match bookmark with
               | Some b => if String.eqb b "" then None else Some b
               | None => None
               end = bookmark).
  { destruct Hbm as [-> | [b [-> Hne]]]; [reflexivity |].
    apply String.eqb_neq in Hne. now rewrite Hne. }
  rewrite Hq. fold (pageQuery selector bookmark). unfold bind at 1.
  destruct (Nano.find db (pageQuery selector bookmark) s)
    as [[[page next] | e |] s1] eqn:Hfind; try discriminate.
  cbn [Nano.docs Nano.next].
  destruct next as [b |].
  - destruct page as [| d page].
    + unfold ret. intros H. injection H as <- <-.
      exists 1%nat, []. split; [| reflexivity].
      eapply Paged_last; [exact Hfind | auto].
    + destruct (String.eqb b "") eqn:Eb.
      * unfold ret. intros H. injection H as <- <-.
        exists 1%nat, (d :: page). split; [| reflexivity].
        apply String.eqb_eq in Eb. subst b.
        eapply Paged_last; [exact Hfind | auto].
      * apply String.eqb_neq in Eb. intros H.
        destruct (IH _ (Some b) s1 n s' (or_intror (ex_intro _ b (conj eq_refl Eb))) H)
          as [pages [docs [Hpaged ->]]].
        exists (S pages), ((d :: page) ++ docs). split.
        -- eapply Paged_more; [exact Hfind | discriminate | exact Eb | exact Hpaged].
        -- rewrite length_app, Nat2Z.inj_add. lia.
  - unfold ret. intros H. injection H as <- <-.
    exists 1%nat, page. split; [| reflexivity].
    eapply Paged_last; [exact Hfind | auto].
Qed.

Lemma Paged_matching (db : Nano.DocumentScope St) (selector : Value)
    (bookmark : option string) (s s' : St) (n : nat) (docs : list Value) :
  answersMatch matches db ->
  Paged db selector bookmark s n docs s' ->
  Forall (fun doc => matches doc selector = true) docs.
Proof.
  intros Hsound. induction 1 as [bookmark s s' page next Hfind _
                                | bookmark s s' s'' page rest b n Hfind _ _ _ IH].
  - exact (Hsound _ _ _ _ Hfind).
  - apply Forall_app. split; [exact (Hsound _ _ _ _ Hfind) | exact IH].
Qed.

(** C9 (as amended).  Under the shared database every document written by
    [create] is stamped with [betterAuthModel], the name of its model.
    Over a store whose [find] answers with documents that match the
    selector asked for, where matching conjoins the entries of a selector
    and the members of [$and], and for a where clause without a key
    [__proto__]: the documents that [findMany] returns for a model [M2]
    come from an answer of the store to a selector that only documents
    stamped for [M2] match; the document that [findOne] returns was fetched
    by its identifier and passed the check of its stamp, or is the first of
    such an answer; and the total of [count] is the number of documents of
    the pages of such answers.  Hence, the names of [M1] and [M2] being
    different and that of [M1] not empty, no document stamped for [M1] is
    returned by [findMany] or [findOne] for [M2], or counted by [count]:
    a look-up by identifier that fetches one returns nothing. *)
Theorem discriminator_isolates_models (M1 M2 : string) (data : Value) :
  useModelAsDatabase config = false ->
  getModelName host M1 <> getModelName host M2 ->
  getModelName host M1 <> "" ->
  conjoinsFields matches ->
  conjoinsAnd matches ->
  soundStore matches couch ->
  get (encode config host M1 data) "betterAuthModel" = VStr (getModelName host M1)
  /\ (forall db response fullDoc s s0 s1 s2,
        getDatabase couch config (getModelName host M1) s = (Ok db, s0) ->
        Nano.insert db (encode config host M1 data) s0 = (Ok response, s1) ->
        Nano.get db (Nano.id response) s1 = (Ok fullDoc, s2) ->
        create couch config host data M1 s = (Ok (decode host M1 fullDoc), s2))
  /\ (forall where_ limit offset orderBy_ sortBy results s s',
        withoutProto (transformWhereClause host where_ (getDefaultModelName host M2)) ->
        findMany couch config host where_ M2 limit offset orderBy_ sortBy s
        = (Ok results, s') ->
        exists db s0 q s1 found docs,
          getDatabase couch config (getModelName host M2) s = (Ok db, s0)
          /\ Nano.find db q s1 = (Ok found, s')
          /\ (forall doc, matches doc (Nano.selector q) = true -> stampedFor host M2 doc)
          /\ incl docs (Nano.docs found)
          /\ results = map (decode host M2) docs
          /\ Forall (fun doc => stampedFor host M2 doc /\ ~ stampedFor host M1 doc) docs)
  /\ (forall where_ result s s',
        withoutProto (transformWhereClause host where_ (getDefaultModelName host M2)) ->
        findOne couch config host where_ M2 s = (Ok (Some result), s') ->
        exists db s0 doc,
          getDatabase couch config (getModelName host M2) s = (Ok db, s0)
          /\ ((exists i, Nano.get db i s0 = (Ok doc, s'))
              \/ (exists q found,
                    Nano.find db q s0 = (Ok found, s')
                    /\ head (Nano.docs found) = Some doc
                    /\ (forall d, matches d (Nano.selector q) = true ->
                                  stampedFor host M2 d)))
          /\ result = decode host M2 doc
          /\ ~ stampedFor host M1 doc)
  /\ (forall where_ db whereRecord doc s s0 s1,
        getDatabase couch config (getModelName host M2) s = (Ok db, s0) ->
        whereRecordOf (transformWhereClause host where_ (getDefaultModelName host M2))
        = Ok whereRecord ->
        truthy (get whereRecord "id") = true ->
        printable (get whereRecord "id") = true ->
        Nano.get db (VStr (toString (get whereRecord "id"))) s0 = (Ok doc, s1) ->
        stampedFor host M1 doc ->
        findOne couch config host where_ M2 s = (Ok None, s1))
  /\ (forall fuel where_ n s s',
        withoutProto (transformWhereClause host where_ (getDefaultModelName host M2)) ->
        count couch config host fuel where_ M2 s = (Ok n, s') ->
        exists db s0 selector pages docs,
          getDatabase couch config (getModelName host M2) s = (Ok db, s0)
          /\ Paged db selector None s0 pages docs s'
          /\ (forall doc, matches doc selector = true -> stampedFor host M2 doc)
          /\ n = Z.of_nat (length docs)
          /\ Forall (fun doc => stampedFor host M2 doc /\ ~ stampedFor host M1 doc) docs).
Proof.
  intros Hshared Hne Hnonempty Hfields Hand Hsound.
  assert (Hother : forall doc, stampedFor host M2 doc -> ~ stampedFor host M1 doc).
  { unfold stampedFor. intros doc H2 H1. rewrite H2 in H1. congruence. }
  assert (Hdb : forall name db s s0,
             getDatabase couch config name s = (Ok db, s0) -> answersMatch matches db).
  { intros name db s s0 H. destruct (getDatabase_use name db s s0 H) as [n [s1 Huse]].
    exact (Hsound n s1 db s0 Huse). }
  split; [now apply encode_stamps |].
  split.
  { intros db response fullDoc s s0 s1 s2 Hget Hins Hfetch.
    unfold create. rewrite (bind_ok _ _ _ _ _ Hget).
    apply tryCatch_ok. unfold insertAndFetch.
    now rewrite (bind_ok _ _ _ _ _ Hins), (bind_ok _ _ _ _ _ Hfetch). }
  split.
  { intros where_ limit offset orderBy_ sortBy results s s' _ Hrun.
    destruct (findMany_returns _ _ _ _ _ _ _ _ _ Hrun)
      as [db [s0 [selector [q [s1 [found [docs [Hget [Hsel [Hq [Hfind [Hincl ->]]]]]]]]]]]].
    assert (Hstamped : forall doc, matches doc (Nano.selector q) = true ->
                                   stampedFor host M2 doc).
    { intros doc. rewrite Hq.
      exact (findManySelector_stamped doc _ selector M2 Hfields Hand Hshared Hsel). }
    exists db, s0, q, s1, found, docs. repeat split; auto.
    pose proof (Hdb _ _ _ _ Hget _ _ _ _ Hfind) as Hall.
    rewrite Forall_forall in *. intros doc Hdoc.
    assert (H2 : stampedFor host M2 doc) by (apply Hstamped, Hall, Hincl, Hdoc).
    split; [exact H2 | now apply Hother]. }
  split.
  { intros where_ result s s' _ Hrun.
    destruct (findOne_returns _ _ _ _ _ Hrun)
      as [db [s0 [doc [Hget [-> [[i [Hfetch Hcheck]] | [selector [found [Hsel [Hfind Hhead]]]]]]]]]].
    - exists db, s0, doc. split; [exact Hget |].
      split; [left; now exists i |]. split; [reflexivity |].
      unfold stampedFor. intros H1.
      unfold otherModel in Hcheck. rewrite Hshared, H1 in Hcheck.
      cbn [negb andb truthy strictEq] in Hcheck.
      apply String.eqb_neq in Hnonempty, Hne. now rewrite Hnonempty, Hne in Hcheck.
    - assert (Hstamped : forall d, matches d selector = true -> stampedFor host M2 d).
      { intros d. exact (modelSelector_stamped d _ selector M2 Hfields Hshared Hsel). }
      exists db, s0, doc. split; [exact Hget |]. split.
      + right. exists (query selector (Some 1)), found. auto.
      + split; [reflexivity |]. apply Hother, Hstamped.
        pose proof (Hdb _ _ _ _ Hget _ _ _ _ Hfind) as Hall.
        rewrite Forall_forall in Hall. apply Hall.
        destruct (Nano.docs found); [discriminate |].
        injection Hhead as ->. now left. }
  split.
  { intros where_ db whereRecord doc s s0 s1 Hget Hwr Hid _ Hfetch Hdoc.
    unfold findOne. rewrite (bind_ok _ _ _ _ _ Hget), Hwr.
    apply tryCatch_ok. unfold lift at 1. unfold bind at 1. rewrite Hid.
    rewrite (bind_ok _ _ _ _ _ Hfetch).
    assert (Hcheck : otherModel config host doc M2 = true).
    { apply otherModel_true. rewrite Hdoc. cbn [truthy strictEq].
      apply String.eqb_neq in Hnonempty, Hne. rewrite Hnonempty, Hne. auto. }
    now rewrite Hcheck. }
  intros fuel where_ n s s' _ Hrun.
  revert Hrun. unfold count. unfold bind at 1.
  destruct (getDatabase couch config (getModelName host M2) s)
    as [[db | e |] s0] eqn:Hget; try discriminate.
  unfold lift at 1. unfold bind at 1.
  destruct (modelSelector _ _ _ _) as [selector | e |] eqn:Hsel; try discriminate.
  intros Hrun.
  destruct (count_loop_pages db selector fuel 0 None s0 n s' (or_introl eq_refl) Hrun)
    as [pages [docs [Hpaged ->]]].
  assert (Hstamped : forall d, matches d selector = true -> stampedFor host M2 d).
  { intros d. exact (modelSelector_stamped d _ selector M2 Hfields Hshared Hsel). }
  exists db, s0, selector, pages, docs. repeat split; auto.
  pose proof (Paged_matching db selector None s0 s' pages docs (Hdb _ _ _ _ Hget) Hpaged)
    as Hall.
  rewrite Forall_forall in *. intros doc Hdoc.
  assert (H2 : stampedFor host M2 doc) by (apply Hstamped, Hall, Hdoc).
  split; [exact H2 | now apply Hother].
Qed.

End Isolation.

(** An update of [u1] that meets two conflicts in a row: the store sees the
    look-up of the database, a fetch, a write, a second fetch and a second
    write, and the second conflict is the result. *)
Lemma update_retries_once_witness :
  update Scripted.server Scripted.sharedConfig Scripted.plainHost
    VUndefined Scripted.newName "user" (Scripted.byId "u1")
    (Scripted.start [Scripted.Done;
                     Scripted.Document Scripted.user1;
                     Scripted.Fails Scripted.conflict;
                     Scripted.Document Scripted.user1';
                     Scripted.Fails Scripted.conflict])
  = (Throw Scripted.conflict,
     {| Scripted.script := [];
        Scripted.log :=
          [Scripted.DbGet "better_auth";
           Scripted.Get "better_auth" (VStr "u1");
           Scripted.Insert "better_auth"
             (VObj [("_id", VStr "u1"); ("_rev", VStr "1-a");
                    ("betterAuthModel", VStr "user"); ("name", VStr "Anna");
                    ("email", VStr "ann@example.org")]);
           Scripted.Get "better_auth" (VStr "u1");
           Scripted.Insert "better_auth"
             (VObj [("_id", VStr "u1"); ("_rev", VStr "2-b");
                    ("betterAuthModel", VStr "user"); ("name", VStr "Anna");
                    ("email", VStr "ann@example.com")])] |}).
Proof.
  pose proof
    (fun db docId existing existing' e s0 s1 s2 s3 s4 H1 H2 H3 H4 H5 H6 H7 =>
       proj1 (update_retries_once_on_conflict Scripted.server
                Scripted.sharedConfig Scripted.plainHost
                VUndefined Scripted.newName "user" (Scripted.byId "u1")
                db docId existing existing' e
                (Scripted.start [Scripted.Done;
                                 Scripted.Document Scripted.user1;
                                 Scripted.Fails Scripted.conflict;
                                 Scripted.Document Scripted.user1';
                                 Scripted.Fails Scripted.conflict])
                s0 s1 s2 s3 s4 H1 H2 H3 H4 H5 H6 H7)) as retry.
  eapply retry; reflexivity.
Defined.

(** A create of a user whose [_id] is taken: the store sees the first
    insert, the fetch of the stored document, its removal with the stored
    revision, the second insert and the last fetch. *)
Lemma create_replaces_witness :
  create Scripted.server Scripted.sharedConfig Scripted.plainHost
    (VObj [("_id", VStr "u1"); ("name", VStr "Anna")]) "user"
    (Scripted.start [Scripted.Done;
                     Scripted.Fails Scripted.conflict;
                     Scripted.Document Scripted.user1;
                     Scripted.Done;
                     Scripted.Inserted "u1" "1-c";
                     Scripted.Document
                       (VObj [("_id", VStr "u1"); ("_rev", VStr "1-c");
                              ("name", VStr "Anna");
                              ("betterAuthModel", VStr "user")])])
  = (Ok (VObj [("_id", VStr "u1"); ("name", VStr "Anna"); ("id", VStr "u1")]),
     {| Scripted.script := [];
        Scripted.log :=
          [Scripted.DbGet "better_auth";
           Scripted.Insert "better_auth"
             (VObj [("_id", VStr "u1"); ("name", VStr "Anna");
                    ("betterAuthModel", VStr "user")]);
           Scripted.Get "better_auth" (VStr "u1");
           Scripted.Destroy "better_auth" (VStr "u1") (VStr "1-a");
           Scripted.Insert "better_auth"
             (VObj [("_id", VStr "u1"); ("name", VStr "Anna");
                    ("betterAuthModel", VStr "user")]);
           Scripted.Get "better_auth" (VStr "u1")] |}).
Proof.
  pose proof
    (fun db e s0 s1 H1 H2 H3 H4 existing s2 s3 response s4 =>
       proj1 (proj1 (create_replaces_on_conflict Scripted.server
                       Scripted.sharedConfig Scripted.plainHost
                       (VObj [("_id", VStr "u1"); ("name", VStr "Anna")]) "user"
                       db e
                       (Scripted.start [Scripted.Done;
                          Scripted.Fails Scripted.conflict;
                          Scripted.Document Scripted.user1;
                          Scripted.Done;
                          Scripted.Inserted "u1" "1-c";
                          Scripted.Document
                            (VObj [("_id", VStr "u1"); ("_rev", VStr "1-c");
                                   ("name", VStr "Anna");
                                   ("betterAuthModel", VStr "user")])])
                       s0 s1 H1 H2) H3 H4) existing s2 s3 response s4
         (VObj [("_id", VStr "u1"); ("_rev", VStr "1-c");
                ("name", VStr "Anna"); ("betterAuthModel", VStr "user")]))
    as replace.
  eapply replace; reflexivity.
Defined.

(** A batch over three documents whose second write meets a conflict: all
    three writes are tried in order, and two are counted. *)
Lemma updateMany_counts_witness :
  updateMany Scripted.server Scripted.sharedConfig Scripted.plainHost
    VUndefined (VObj [("active", VBool false)]) "user" Scripted.admins
    (Scripted.start [Scripted.Done;
                     Scripted.Found [Scripted.admin "u1" "1-a";
                                     Scripted.admin "u2" "1-b";
                                     Scripted.admin "u3" "1-c"] None;
                     Scripted.Inserted "u1" "2-a";
                     Scripted.Fails Scripted.conflict;
                     Scripted.Inserted "u3" "2-c"])
  = (Ok 2,
     {| Scripted.script := [];
        Scripted.log :=
          [Scripted.DbGet "better_auth";
           Scripted.Find "better_auth"
             (query (VObj [("role", VObj [("$eq", VStr "admin")]);
                           ("betterAuthModel", VStr "user")]) None);
           Scripted.Insert "better_auth"
             (VObj [("_id", VStr "u1"); ("_rev", VStr "1-a");
                    ("betterAuthModel", VStr "user"); ("role", VStr "admin");
                    ("active", VBool false)]);
           Scripted.Insert "better_auth"
             (VObj [("_id", VStr "u2"); ("_rev", VStr "1-b");
                    ("betterAuthModel", VStr "user"); ("role", VStr "admin");
                    ("active", VBool false)]);
           Scripted.Insert "better_auth"
             (VObj [("_id", VStr "u3"); ("_rev", VStr "1-c");
                    ("betterAuthModel", VStr "user"); ("role", VStr "admin");
                    ("active", VBool false)])] |}).
Proof.
  pose proof
    (fun db selector found s0 s1 s2 =>
       updateMany_counts_successful_writes Scripted.server
         Scripted.sharedConfig Scripted.plainHost
         VUndefined (VObj [("active", VBool false)]) "user" Scripted.admins
         db selector found (0 + 1 + 1) (Ok tt)
         (Scripted.start [Scripted.Done;
                          Scripted.Found [Scripted.admin "u1" "1-a";
                                          Scripted.admin "u2" "1-b";
                                          Scripted.admin "u3" "1-c"] None;
                          Scripted.Inserted "u1" "2-a";
                          Scripted.Fails Scripted.conflict;
                          Scripted.Inserted "u3" "2-c"])
         s0 s1 s2) as batch.
  eapply batch; try reflexivity.
  eapply Writes_written; [reflexivity |].
  eapply Writes_conflict; [reflexivity | reflexivity |].
  eapply Writes_written; [reflexivity |].
  apply Writes_done.
Defined.

(** The in-memory store's look-ups and failed removals leave it as it is. *)
Lemma mock_quiet (regexTest : string -> string -> outcome bool)
    (random : nat -> string) (now : nat -> Z) (name : string) :
  quiet {| Nano.insert := MockCouchDB.insert random now name;
           Nano.get := MockCouchDB.get name;
           Nano.find := MockCouchDB.find regexTest name;
           Nano.destroy := MockCouchDB.destroy name |}.
Proof.
  unfold quiet. cbn [Nano.get Nano.find Nano.destroy]. split; [| split].
  - intros id s r s'. unfold MockCouchDB.get.
    destruct (MockCouchDB.mapGet id _); intros H; now injection H.
  - intros q s r s'. unfold MockCouchDB.find.
    destruct (match Nano.selector q with
              | VObj (_ :: _) => _
              | _ => _
              end) as [docs | e |]; intros H; now injection H.
  - intros id rev s e s'. unfold MockCouchDB.destroy.
    destruct (MockCouchDB.mapGet id _) as [doc |]; [| intros H; now injection H].
    destruct (negb _); intros H; [now injection H | discriminate H].
Qed.

(** Deleting an identifier that the in-memory store does not hold: the
    delete returns, the store is as it was, and so it is after a second
    delete. *)
Lemma delete_not_found_witness :
  delete MockExamples.server Scripted.sharedConfig Scripted.plainHost
    "user" (Scripted.byId "ghost") MockExamples.oneUser
  = (Ok tt, MockExamples.oneUser)
  /\ bind (delete MockExamples.server Scripted.sharedConfig Scripted.plainHost
             "user" (Scripted.byId "ghost"))
        (fun _ => delete MockExamples.server Scripted.sharedConfig
                    Scripted.plainHost "user" (Scripted.byId "ghost"))
        MockExamples.oneUser
     = (Ok tt, MockExamples.oneUser).
Proof.
  pose proof
    (fun Hdb Hnf =>
       delete_not_found_is_success MockExamples.server Scripted.sharedConfig
         Scripted.plainHost "user" (Scripted.byId "ghost")
         {| Nano.insert := MockCouchDB.insert MockExamples.random MockExamples.now
                             "better_auth";
            Nano.get := MockCouchDB.get "better_auth";
            Nano.find := MockCouchDB.find MockExamples.engine "better_auth";
            Nano.destroy := MockCouchDB.destroy "better_auth" |}
         MockExamples.oneUser MockExamples.oneUser MockExamples.oneUser Hdb Hnf) as gone.
  edestruct gone as [once twice].
  - reflexivity.
  - eapply FetchFails; reflexivity.
  - split; [exact once |].
    exact (proj2 (twice (mock_quiet _ _ _ _) eq_refl)).
Defined.

(** Counting 1500 documents that the store hands out as a page of 1000, a
    page of 500 and an empty page: three requests, each with the bookmark
    of the page before it, and the total is 1500. *)
Lemma count_follows_pages_witness :
  count Scripted.server Scripted.sharedConfig Scripted.plainHost
    3 Scripted.admins "user"
    (Scripted.start [Scripted.Done;
                     Scripted.Found (repeat (Scripted.admin "u" "1-a") 1000) (Some "p1");
                     Scripted.Found (repeat (Scripted.admin "u" "1-a") 500) (Some "p2");
                     Scripted.Found [] (Some "p3")])
  = (Ok 1500,
     {| Scripted.script := [];
        Scripted.log :=
          [Scripted.DbGet "better_auth";
           Scripted.Find "better_auth"
             (pageQuery (VObj [("role", VObj [("$eq", VStr "admin")]);
                               ("betterAuthModel", VStr "user")]) None);
           Scripted.Find "better_auth"
             (pageQuery (VObj [("role", VObj [("$eq", VStr "admin")]);
                               ("betterAuthModel", VStr "user")]) (Some "p1"));
           Scripted.Find "better_auth"
             (pageQuery (VObj [("role", VObj [("$eq", VStr "admin")]);
                               ("betterAuthModel", VStr "user")]) (Some "p2"))] |}).
Proof.
  pose proof
    (fun db selector s0 s' Hdb Hsel Hpaged =>
       count_follows_pages Scripted.server Scripted.sharedConfig Scripted.plainHost
         "user" Scripted.admins db selector 3
         (repeat (Scripted.admin "u" "1-a") 1000
          ++ repeat (Scripted.admin "u" "1-a") 500 ++ [])
         (Scripted.start [Scripted.Done;
            Scripted.Found (repeat (Scripted.admin "u" "1-a") 1000) (Some "p1");
            Scripted.Found (repeat (Scripted.admin "u" "1-a") 500) (Some "p2");
            Scripted.Found [] (Some "p3")])
         s0 s' Hdb Hsel Hpaged 3%nat (le_n 3)) as pages.
  eapply pages; try reflexivity.
  eapply Paged_more; [reflexivity | discriminate | discriminate |].
  eapply Paged_more; [reflexivity | discriminate | discriminate |].
  eapply Paged_last; [reflexivity | right; right; reflexivity].
Defined.

(** C2, as the specification states it, fails: sorted in memory by age
    descending, the document without an age comes first, not last. *)
Lemma descending_sort_puts_missing_first :
  findMany Scripted.server Scripted.sharedConfig Scripted.plainHost
    (VArr []) "user" None None (Some (Scripted.byAge "desc")) None
    (Scripted.start [Scripted.Done;
                     Scripted.Fails Scripted.noUsableIndex;
                     Scripted.Found [Scripted.aged30; Scripted.ageless; Scripted.aged25]
                       None])
  = (Ok [VObj [("_id", VStr "b"); ("id", VStr "b")];
         VObj [("_id", VStr "a"); ("age", VNum 30); ("id", VStr "a")];
         VObj [("_id", VStr "c"); ("age", VNum 25); ("id", VStr "c")]],
     {| Scripted.script := [];
        Scripted.log :=
          [Scripted.DbGet "better_auth";
           Scripted.Find "better_auth"
             {| Nano.selector := VObj [("betterAuthModel", VStr "user")];
                Nano.limit := None; Nano.skip := None;
                Nano.sort := Some [("age", "desc")]; Nano.bookmark := None |};
           Scripted.Find "better_auth"
             {| Nano.selector := VObj [("betterAuthModel", VStr "user")];
                Nano.limit := None; Nano.skip := None;
                Nano.sort := None; Nano.bookmark := None |}] |}).
Proof. reflexivity. Qed.

(** The same three documents sorted by age ascending and sliced from
    offset 1: the document without an age is last. *)
Lemma findMany_sorts_in_memory_witness :
  exists sorted,
    findMany Scripted.server Scripted.sharedConfig Scripted.plainHost
      (VArr []) "user" None (Some 1) (Some (Scripted.byAge "asc")) None
      (Scripted.start [Scripted.Done;
                       Scripted.Fails Scripted.noUsableIndex;
                       Scripted.Found [Scripted.aged30; Scripted.ageless; Scripted.aged25]
                         None])
    = (Ok (map (decode Scripted.plainHost "user") (fromOffset (Some 1) sorted)),
       {| Scripted.script := [];
          Scripted.log :=
            [Scripted.DbGet "better_auth";
             Scripted.Find "better_auth"
               {| Nano.selector := VObj [("betterAuthModel", VStr "user")];
                  Nano.limit := None; Nano.skip := Some 1;
                  Nano.sort := Some [("age", "asc")]; Nano.bookmark := None |};
             Scripted.Find "better_auth"
               {| Nano.selector := VObj [("betterAuthModel", VStr "user")];
                  Nano.limit := None; Nano.skip := None;
                  Nano.sort := None; Nano.bookmark := None |}] |})
    /\ Permutation sorted [Scripted.aged30; Scripted.ageless; Scripted.aged25]
    /\ StronglySorted (precedes Scripted.plainHost "user" (Scripted.byAge "asc")) sorted
    /\ (Scripted.byAge "asc" = [] ->
        sorted = [Scripted.aged30; Scripted.ageless; Scripted.aged25]).
Proof.
  pose proof
    (fun db selector e s0 s1 s2 H1 H2 H3 H4 H5 H6 H7 =>
       findMany_sorts_in_memory_without_index Scripted.server
         Scripted.sharedConfig Scripted.plainHost
         (VArr []) "user" (Some 1) (Some (Scripted.byAge "asc")) None
         db selector e
         {| Nano.docs := [Scripted.aged30; Scripted.ageless; Scripted.aged25];
            Nano.next := None |}
         (Scripted.start [Scripted.Done;
            Scripted.Fails Scripted.noUsableIndex;
            Scripted.Found [Scripted.aged30; Scripted.ageless; Scripted.aged25]
              None])
         s0 s1 s2 H1 H2 H3 H4 H5 H6 H7) as fallback.
  eapply fallback.
  - reflexivity.
  - intros record Hrecord. cbv in Hrecord. injection Hrecord as <-. reflexivity.
  - reflexivity.
  - reflexivity.
  - reflexivity.
  - reflexivity.
  - repeat constructor.
Defined.


(** The matcher of the examples obeys the two laws. *)
Lemma strictEq_string (a : Value) (m : string) :
  strictEq a (VStr m) = true -> a = VStr m.
Proof.
  destruct a; cbn [strictEq]; try discriminate.
  intros H. apply String.eqb_eq in H. now subst.
Qed.

Lemma matchesDiscriminator_cons (doc : Value) (key : string) (value : Value)
    (rest : list (string * Value)) :
  matchesDiscriminator doc (VObj ((key, value) :: rest))
  = ((if String.eqb key "betterAuthModel" then
        match value with
        | VStr _ => strictEq (get doc key) value
        | _ => true
        end
      else if String.eqb key "$and" then
        match value with
        | VArr subs => forallb (matchesDiscriminator doc) subs
        | _ => true
        end
      else true)
     && matchesDiscriminator doc (VObj rest))%bool.
Proof. reflexivity. Qed.

Lemma matchesDiscriminator_fields : conjoinsFields matchesDiscriminator.
Proof.
  intros doc props m.
  induction props as [| [key value] rest IH]; [discriminate 2 |].
  rewrite matchesDiscriminator_cons. cbn [lookup].
  intros H Hl. apply andb_true_iff in H. destruct H as [Hhere Hrest].
  destruct (String.eqb key "betterAuthModel") eqn:E.
  - apply String.eqb_eq in E. subst key. injection Hl as ->.
    now apply strictEq_string.
  - now apply IH.
Qed.

Lemma matchesDiscriminator_and : conjoinsAnd matchesDiscriminator.
Proof.
  intros doc props subs sub.
  induction props as [| [key value] rest IH]; [discriminate 2 |].
  rewrite matchesDiscriminator_cons. cbn [lookup].
  intros H Hl Hin. apply andb_true_iff in H. destruct H as [Hhere Hrest].
  destruct (String.eqb key "$and") eqn:E.
  - apply String.eqb_eq in E. subst key. injection Hl as ->.
    cbn [String.eqb Ascii.eqb Bool.eqb] in Hhere.
    rewrite forallb_forall in Hhere. now apply Hhere.
  - now apply IH.
Qed.

(** The store of one list answers with documents that match. *)
Lemma conjoining_sound : soundStore matchesDiscriminator Conjoining.server.
Proof.
  intros name s db s' Huse. injection Huse as <- <-.
  intros q s0 r s1 Hfind. injection Hfind as <- <-.
  cbn [Nano.docs]. rewrite Forall_forall. intros doc Hdoc.
  apply filter_In in Hdoc. tauto.
Qed.

(** A store that holds the user [u1] and the session [s1], asked for
    sessions: [create] stamps a user; [findMany] and [findOne] by the
    user's name find no session; [findOne] by the user's identifier returns
    nothing; and [count] counts the one session. *)
Lemma discriminator_isolates_witness :
  get (encode Scripted.sharedConfig Scripted.plainHost "user"
         (VObj [("id", VStr "u1"); ("name", VStr "Ann")])) "betterAuthModel"
  = VStr "user"
  /\ (exists db s0 q s1 found docs,
        getDatabase Conjoining.server Scripted.sharedConfig "session"
          [Scripted.user1; Conjoining.session1]
        = (Ok db, s0)
        /\ Nano.find db q s1 = (Ok found, [Scripted.user1; Conjoining.session1])
        /\ (forall doc, matchesDiscriminator doc (Nano.selector q) = true ->
                        stampedFor Scripted.plainHost "session" doc)
        /\ incl docs (Nano.docs found)
        /\ [VObj [("_id", VStr "s1"); ("userId", VStr "u1"); ("id", VStr "s1")]]
           = map (decode Scripted.plainHost "session") docs
        /\ Forall (fun doc => stampedFor Scripted.plainHost "session" doc
                              /\ ~ stampedFor Scripted.plainHost "user" doc) docs)
  /\ findOne Conjoining.server Scripted.sharedConfig Scripted.plainHost
       (VObj [("id", VStr "u1")]) "session" [Scripted.user1; Conjoining.session1]
     = (Ok None, [Scripted.user1; Conjoining.session1])
  /\ (exists db s0 selector pages docs,
        getDatabase Conjoining.server Scripted.sharedConfig "session"
          [Scripted.user1; Conjoining.session1]
        = (Ok db, s0)
        /\ Paged db selector None s0 pages docs [Scripted.user1; Conjoining.session1]
        /\ (forall doc, matchesDiscriminator doc selector = true ->
                        stampedFor Scripted.plainHost "session" doc)
        /\ 1 = Z.of_nat (length docs)
        /\ Forall (fun doc => stampedFor Scripted.plainHost "session" doc
                              /\ ~ stampedFor Scripted.plainHost "user" doc) docs).
Proof.
  destruct (discriminator_isolates_models Conjoining.server
              Scripted.sharedConfig Scripted.plainHost matchesDiscriminator
              "user" "session" (VObj [("id", VStr "u1"); ("name", VStr "Ann")])
              eq_refl ltac:(discriminate) ltac:(discriminate)
              matchesDiscriminator_fields matchesDiscriminator_and conjoining_sound)
    as [stamped [_ [many [_ [lookedUp counted]]]]].
  split; [exact stamped | split; [| split]].
  - apply (many (VArr []) None None None None _
             [Scripted.user1; Conjoining.session1]
             [Scripted.user1; Conjoining.session1]).
    + intros record Hrecord. cbv in Hrecord. injection Hrecord as <-. reflexivity.
    + reflexivity.
  - eapply (lookedUp (VObj [("id", VStr "u1")]) _ _ Scripted.user1); reflexivity.
  - apply (counted 2%nat (VArr []) 1
             [Scripted.user1; Conjoining.session1]
             [Scripted.user1; Conjoining.session1]).
    + intros record Hrecord. cbv in Hrecord. injection Hrecord as <-. reflexivity.
    + reflexivity.
Defined.

(** *** The adapter over the in-memory store *)

(** The in-memory store answers every page request with the same documents
    and the bookmark [mock_bookmark]: with a matching document in the store
    the loop of [count] asks for page after page, whatever the fuel. *)
Lemma count_loop_over_the_mock (fuel : nat) (total : Z) (bookmark : option string) :
  count_loop fuel
    {| Nano.insert := MockCouchDB.insert MockExamples.random MockExamples.now
                        "better_auth";
       Nano.get := MockCouchDB.get "better_auth";
       Nano.find := MockCouchDB.find MockExamples.engine "better_auth";
       Nano.destroy := MockCouchDB.destroy "better_auth" |}
    (VObj [("betterAuthModel", VStr "user")]) total bookmark MockExamples.oneUser
  = (OutOfFuel, MockExamples.oneUser).
Proof.
  revert total bookmark.
  induction fuel as [| fuel IH]; intros total bookmark; [reflexivity |].
  cbn [count_loop]. unfold bind at 1.
  cbn [Nano.find].
  assert (Hfind : forall q,
    Nano.selector q = VObj [("betterAuthModel", VStr "user")] ->
    Nano.sort q = None -> Nano.skip q = None -> Nano.limit q = Some pageSize ->
    MockCouchDB.find MockExamples.engine "better_auth" q MockExamples.oneUser
    = (Ok {| Nano.docs := [Scripted.user1]; Nano.next := Some "mock_bookmark" |},
       MockExamples.oneUser)).
  { intros q Hsel Hsort Hskip Hlimit. unfold MockCouchDB.find.
    rewrite Hsel, Hsort, Hskip, Hlimit. reflexivity. }
  rewrite Hfind by reflexivity.
  cbn [Nano.next Nano.docs String.eqb Ascii.eqb Bool.eqb].
  apply IH.
Qed.

Lemma count_over_the_mock (fuel : nat) :
  count MockExamples.server Scripted.sharedConfig Scripted.plainHost fuel
    (VArr []) "user" MockExamples.oneUser
  = (OutOfFuel, MockExamples.oneUser).
Proof.
  unfold count.
  rewrite (bind_ok _ _ _ _ _
             (eq_refl : getDatabase MockExamples.server Scripted.sharedConfig
                          "user" MockExamples.oneUser = (Ok _, MockExamples.oneUser))).
  unfold bind, lift. cbn -[count_loop].
  apply count_loop_over_the_mock.
Qed.

(** C9, as the specification states it, fails over the repository's
    in-memory store, whose matcher returns at the first [$and] or [$or] key
    of a selector and does not look at the keys beside it: the user that
    [create] stores is found by a [findOne] for sessions with an [OR] of two
    conditions. *)
Lemma findOne_over_the_mock_crosses_models :
  exists stored,
    create MockExamples.server Scripted.sharedConfig Scripted.plainHost
      (VObj [("id", VStr "u1"); ("name", VStr "Ann")]) "user" MockCouchDB.empty
    = (Ok (VObj [("id", VStr "u1"); ("name", VStr "Ann"); ("_id", VStr "u1")]), stored)
    /\ MockCouchDB.database "better_auth" stored
       = [(VStr "u1",
           VObj [("id", VStr "u1"); ("name", VStr "Ann"); ("_id", VStr "u1");
                 ("betterAuthModel", VStr "user"); ("_rev", VStr "1-r")])]
    /\ modelSelector Scripted.sharedConfig Scripted.plainHost
         (VArr [condition "name" "eq" (VStr "Ann") "OR";
                condition "email" "eq" (VStr "nobody") "OR"]) "session"
       = Ok (VObj [("$or", VArr [VObj [("name", VObj [("$eq", VStr "Ann")])];
                                 VObj [("email", VObj [("$eq", VStr "nobody")])]]);
                   ("betterAuthModel", VStr "session")])
    /\ findOne MockExamples.server Scripted.sharedConfig Scripted.plainHost
         (VArr [condition "name" "eq" (VStr "Ann") "OR";
                condition "email" "eq" (VStr "nobody") "OR"])
         "session" stored
       = (Ok (Some (VObj [("id", VStr "u1"); ("name", VStr "Ann"); ("_id", VStr "u1")])),
          stored).
Proof.
  exists {| MockCouchDB.databases :=
              [(VStr "better_auth",
                [(VStr "u1",
                  VObj [("id", VStr "u1"); ("name", VStr "Ann"); ("_id", VStr "u1");
                        ("betterAuthModel", VStr "user"); ("_rev", VStr "1-r")])])];
            MockCouchDB.revCounter := [(VStr "u1", 1)];
            MockCouchDB.draws := 1%nat |}.
  repeat split; reflexivity.
Qed.

End AdapterFacts.

(** ** Further properties of the compiler *)

Module CompilerLaws.
Import Compiler Mock Reference Auxiliary Vocabulary CompilerFacts.

(** *** [escapeRegex] *)

Lemma escapeRegex_app (a b : string) :
  escapeRegex (a ++ b) = (escapeRegex a ++ escapeRegex b)%string.
Proof.
  induction a as [| c a IH]; [reflexivity |].
  cbn [String.append escapeRegex]. rewrite IH.
  destruct (isRegexMeta c); reflexivity.
Qed.

Lemma escapeRegex_plain (v : string) : plain v = true -> escapeRegex v = v.
Proof.
  induction v as [| c v IH]; [reflexivity |].
  cbn [plain escapeRegex]. intros H. apply andb_true_iff in H.
  destruct H as [Hc Hv]. apply negb_true_iff in Hc.
  now rewrite Hc, (IH Hv).
Qed.

Lemma escapeRegex_injective (a b : string) :
  escapeRegex a = escapeRegex b -> a = b.
Proof.
  intros H. apply (f_equal literalOf) in H.
  rewrite !literalOf_escapeRegex in H. now injection H.
Qed.

Lemma escapeRegex_length (v : string) :
  (String.length v <= String.length (escapeRegex v) <= 2 * String.length v)%nat.
Proof.
  induction v as [| c v IH]; [cbn; lia |].
  cbn [escapeRegex]. destruct (isRegexMeta c); cbn [String.length]; lia.
Qed.

(** X1.  [escapeRegex] works character by character: the escape of a
    concatenation is the concatenation of the escapes; a string without a
    character of the escaped class is left as it is; two different strings
    have different escapes; and the escape is at least as long as the
    string and at most twice as long. *)
Theorem escapeRegex_is_an_injective_homomorphism :
  (forall a b, escapeRegex (a ++ b) = (escapeRegex a ++ escapeRegex b)%string)
  /\ (forall v, plain v = true -> escapeRegex v = v)
  /\ (forall a b, escapeRegex a = escapeRegex b -> a = b)
  /\ (forall v, (String.length v <= String.length (escapeRegex v)
                 <= 2 * String.length v)%nat).
Proof.
  split; [| split; [| split]].
  - exact escapeRegex_app.
  - exact escapeRegex_plain.
  - exact escapeRegex_injective.
  - exact escapeRegex_length.
Qed.

(** A name without metacharacters is its own escape; two values with the
    same escape are the same value. *)
Lemma escapeRegex_witness :
  escapeRegex "ann" = "ann"
  /\ (escapeRegex "a.b" = escapeRegex "a.b" -> "a.b" = "a.b").
Proof.
  split.
  - exact (proj1 (proj2 escapeRegex_is_an_injective_homomorphism) "ann" eq_refl).
  - exact (proj1 (proj2 (proj2 escapeRegex_is_an_injective_homomorphism)) "a.b" "a.b").
Defined.

(** *** Where arrays *)

(** The selector of a where array is read off the conditions that the first
    loop keeps. *)
Lemma convertWhereToSelector_array (items : list Value) :
  convertWhereToSelector (VArr items)
  = (conds <-! keepWithField items ;; sequence conds).
Proof.
  unfold convertWhereToSelector. cbn [Nat.add].
  destruct (keepWithField items) as [conds | e |] eqn:E; cbn [obind].
  - now apply convert_sequence.
  - now apply convert_sequence_throw.
  - now apply keepWithField_total in E.
Qed.

Lemma keepWithField_skip (pre post : list Value) (c : Value) :
  is_nullish c = false -> truthy (get c "field") = false ->
  keepWithField (pre ++ c :: post) = keepWithField (pre ++ post).
Proof.
  intros Hc Hf. induction pre as [| p pre IH].
  - cbn [app keepWithField].
    assert (Hget : getE c "field" = Ok (get c "field")) by (destruct c; easy).
    rewrite Hget. cbn [obind]. rewrite Hf.
    destruct (keepWithField post); reflexivity.
  - cbn [app keepWithField]. now rewrite IH.
Qed.

Lemma keepWithField_none (items : list Value) :
  Forall (fun c => is_nullish c = false /\ truthy (get c "field") = false) items ->
  keepWithField items = Ok [].
Proof.
  induction 1 as [| c items [Hc Hf] _ IH]; [reflexivity |].
  cbn [keepWithField].
  assert (Hget : getE c "field" = Ok (get c "field")) by (destruct c; easy).
  rewrite Hget, IH. cbn [obind]. now rewrite Hf.
Qed.

(** X2.  A condition without a field (its [field] is missing, empty or
    otherwise falsy) takes no part in the selector: the where array compiles
    as it does without the condition, wherever the condition stands; and an
    array of such conditions compiles to the empty selector, as the empty
    array does. *)
Theorem conditions_without_field_are_ignored :
  (forall pre post c,
      is_nullish c = false -> truthy (get c "field") = false ->
      convertWhereToSelector (VArr (pre ++ c :: post))
      = convertWhereToSelector (VArr (pre ++ post)))
  /\ (forall items,
        Forall (fun c => is_nullish c = false /\ truthy (get c "field") = false) items ->
        convertWhereToSelector (VArr items) = Ok (VObj [])).
Proof.
  split.
  - intros pre post c Hc Hf. rewrite !convertWhereToSelector_array.
    now rewrite keepWithField_skip.
  - intros items H. rewrite convertWhereToSelector_array.
    now rewrite (keepWithField_none items H).
Qed.

(** A condition without a field between two conditions on [A] and [C]. *)
Lemma conditions_without_field_witness :
  convertWhereToSelector
    (VArr ([condition "A" "eq" (VNum 1) "AND"]
           ++ VObj [("operator", VStr "eq"); ("value", VNum 2)]
           :: [condition "C" "eq" (VNum 3) "AND"]))
  = convertWhereToSelector
      (VArr ([condition "A" "eq" (VNum 1) "AND"]
             ++ [condition "C" "eq" (VNum 3) "AND"])).
Proof.
  exact (proj1 conditions_without_field_are_ignored
           [condition "A" "eq" (VNum 1) "AND"] [condition "C" "eq" (VNum 3) "AND"]
           (VObj [("operator", VStr "eq"); ("value", VNum 2)]) eq_refl eq_refl).
Defined.

Lemma keepWithField_nullish (items : list Value) :
  existsb is_nullish items = true ->
  exists e, keepWithField items = Throw e /\ statusCode e = None.
Proof.
  induction items as [| c items IH]; [discriminate |].
  cbn [existsb keepWithField]. intros H.
  destruct (is_nullish c) eqn:Hc.
  - destruct c; try discriminate Hc; cbn [getE obind]; eexists; split; reflexivity.
  - cbn [orb] in H. destruct (IH H) as [e [He Hs]].
    assert (Hget : getE c "field" = Ok (get c "field")) by (destruct c; easy).
    rewrite Hget, He. cbn [obind]. exists e. split; [reflexivity | exact Hs].
Qed.

Lemma keepWithField_sound (items : list Value) :
  existsb is_nullish items = false ->
  exists conds,
    keepWithField items = Ok conds
    /\ forall c, In c conds <-> In c items /\ truthy (get c "field") = true.
Proof.
  induction items as [| c items IH]; [exists []; split; [reflexivity | cbn; tauto] |].
  cbn [existsb keepWithField]. intros H. apply orb_false_iff in H.
  destruct H as [Hc H]. destruct (IH H) as [conds [Hconds Hin]].
  assert (Hget : getE c "field" = Ok (get c "field")) by (destruct c; easy).
  rewrite Hget, Hconds. cbn [obind].
  destruct (truthy (get c "field")) eqn:Hf; eexists; (split; [reflexivity |]);
    intros c'; cbn [In]; rewrite ?Hin; split.
  - intros [<- | [Hc' Hf']]; auto.
  - intros [[<- | Hc'] Hf']; auto.
  - intros [Hc' Hf']; auto.
  - intros [[<- | Hc'] Hf']; [congruence | auto].
Qed.

(** A condition whose keys and value convert compiles. *)
Lemma leaf_convertible (c : Value) :
  keyed c = true -> printable (get c "value") = true ->
  leaf c = Ok (leafSelector c).
Proof.
  intros Hk Hv. unfold leafSelector.
  destruct (leaf c) as [selector | e |] eqn:E; [reflexivity | | now apply leaf_total in E].
  exfalso. revert E. unfold leaf, recordOf.
  cbn [convertWhereToSelector_fuel isArray obind].
  destruct (String.eqb (toString (get c "field")) "AND"
            || String.eqb (toString (get c "field")) "OR")%bool; [discriminate |].
  destruct (String.eqb (toString (get c "field")) "id"); [discriminate |].
  unfold convertOperators. cbn [convertOperatorsFrom].
  unfold addOperator. rewrite (stringOf_printable _ Hv). cbn [obind].
  repeat match goal with
         | |- context [if ?b then _ else _] => destruct b
         end; cbn [obind assign];
    repeat match goal with
           | |- context [match ?l with [] => _ | _ :: _ => _ end] => destruct l
           end; cbn [obind]; discriminate.
Qed.

(** X3.  Compiling a where array throws when one of its entries is null
    or undefined (reading the entry's [field] fails); the error carries no
    status code.  An array without such an entry compiles to a selector
    when every entry that has a field converts: its field and operator to
    the keys of the condition object, and its value to a string.  It throws
    a [TypeError] when the field or the operator of an entry with a field
    does not convert to a key. *)
Theorem where_array_compiles_unless_an_entry_is_nullish (items : list Value) :
  (existsb is_nullish items = true ->
   exists e, convertWhereToSelector (VArr items) = Throw e /\ statusCode e = None)
  /\ (existsb is_nullish items = false ->
      forallb convertible items = true ->
      exists selector, convertWhereToSelector (VArr items) = Ok selector)
  /\ (existsb is_nullish items = false ->
      (exists c, In c items /\ truthy (get c "field") = true /\ keyed c = false) ->
      convertWhereToSelector (VArr items) = Throw unconvertible).
Proof.
  rewrite convertWhereToSelector_array. split; [| split]; intros H.
  - destruct (keepWithField_nullish items H) as [e [He Hs]].
    exists e. rewrite He. split; [reflexivity | exact Hs].
  - intros Hall. destruct (keepWithField_sound items H) as [conds [Hconds Hin]].
    rewrite Hconds. cbn [obind]. exists (sequenceSelector conds).
    assert (Hc : forall c, In c conds ->
                           keyed c = true /\ printable (get c "value") = true).
    { intros c Hc. apply Hin in Hc. destruct Hc as [Hc Hf].
      rewrite forallb_forall in Hall. specialize (Hall c Hc).
      unfold convertible in Hall. rewrite Hf in Hall. cbn [negb orb] in Hall.
      now apply andb_true_iff in Hall. }
    apply sequence_ok.
    + apply forallb_forall. intros c Hin'. now apply Hc.
    + intros c Hin'. destruct (Hc c Hin'). now apply leaf_convertible.
  - intros [c [Hc [Hf Hk]]]. destruct (keepWithField_sound items H) as [conds [Hconds Hin]].
    rewrite Hconds. cbn [obind]. unfold sequence.
    rewrite mapM_conditionObj_unkeyed; [reflexivity |].
    destruct (forallb keyed conds) eqn:E; [| reflexivity].
    rewrite forallb_forall in E. rewrite (E c) in Hk; [discriminate |].
    apply Hin. auto.
Qed.

(** An array with a null entry; one with a number for an entry; and one
    with a field that does not convert to a key. *)
Lemma where_array_nullish_witness :
  (exists e, convertWhereToSelector (VArr [condition "A" "eq" (VNum 1) "AND"; VNull])
             = Throw e /\ statusCode e = None)
  /\ (exists selector,
         convertWhereToSelector (VArr [condition "A" "eq" (VNum 1) "AND"; VNum 7])
         = Ok selector)
  /\ convertWhereToSelector
       (VArr [VObj [("field", VObj [("toString", VNum 1)]); ("operator", VStr "eq");
                    ("value", VNum 1)]])
     = Throw unconvertible.
Proof.
  split; [| split].
  - exact (proj1 (where_array_compiles_unless_an_entry_is_nullish
                    [condition "A" "eq" (VNum 1) "AND"; VNull]) eq_refl).
  - exact (proj1 (proj2 (where_array_compiles_unless_an_entry_is_nullish
                           [condition "A" "eq" (VNum 1) "AND"; VNum 7]))
             eq_refl eq_refl).
  - apply (proj2 (proj2 (where_array_compiles_unless_an_entry_is_nullish
                           [VObj [("field", VObj [("toString", VNum 1)]);
                                  ("operator", VStr "eq"); ("value", VNum 1)]]))
             eq_refl).
    eexists. split; [now left | split; reflexivity].
Defined.

(** *** Operators *)

Lemma addOperator_comparison (op : string) (v : Value) :
  patternOperator op = false -> String.eqb op "__proto__" = false ->
  addOperator [] (toString (opKey (VStr op))) v = Ok [(selectorKey op, v)].
Proof.
  intros Hp Hproto.
  destruct (opKey_changes op) as [Hsame | Hin].
  - rewrite Hsame. cbn [toString].
    unfold patternOperator in Hp.
    unfold addOperator, selectorKey, mangoOperator.
    repeat match goal with
           | |- context [String.eqb op ?lit] =>
               let E := fresh "E" in
               destruct (String.eqb op lit) eqn:E;
               [ apply String.eqb_eq in E; subst op;
                 first [ discriminate Hp | discriminate Hsame | reflexivity ] |]
           end.
    now rewrite (put_other op v [] Hproto).
  - cbn [In] in Hin.
    destruct Hin as [<- | [<- | [<- | [<- | [<- | []]]]]];
      first [ discriminate Hp | reflexivity ].
Qed.

(** X4.  A condition on an ordinary field whose operator is no pattern
    operator compiles to [{ field: { key: value } }]: the key is the Mango
    operator of a comparison operator ([eq] and [equals] give [$eq], [ne]
    and [not] give [$ne], [in] gives [$in], [not_in] and [notIn] give
    [$nin], [gt], [gte], [lt], [lte] give theirs), and the operator's own
    name for any other operator; the value is passed on as it is. *)
Theorem comparison_operators_compile_to_mango (c : Value) (f op : string) :
  get c "field" = VStr f -> ordinaryField f = true ->
  get c "operator" = VStr op -> patternOperator op = false ->
  convertWhereToSelector (VArr [c])
  = Ok (VObj [(f, VObj [(selectorKey op, get c "value")])]).
Proof.
  intros Hf Ho Hop Hp.
  rewrite (convert_single c (ordinary_kept c f Hf Ho)).
  - rewrite (leaf_ordinary c f Hf Ho), Hop.
    destruct (String.eqb op "__proto__") eqn:Hproto.
    + apply String.eqb_eq in Hproto. subst op. reflexivity.
    + now rewrite (addOperator_comparison op _ Hp Hproto).
  - unfold keyed. rewrite Hf, Hop, opKey_printable. reflexivity.
Qed.

(** [age not_in [1, 2]], and an operator that Better-Auth does not have. *)
Lemma comparison_operators_witness :
  convertWhereToSelector (VArr [condition "age" "not_in" (VArr [VNum 1; VNum 2]) "AND"])
  = Ok (VObj [("age", VObj [("$nin", VArr [VNum 1; VNum 2])])])
  /\ convertWhereToSelector (VArr [condition "age" "$exists" (VBool true) "AND"])
     = Ok (VObj [("age", VObj [("$exists", VBool true)])]).
Proof.
  split.
  - exact (comparison_operators_compile_to_mango
             (condition "age" "not_in" (VArr [VNum 1; VNum 2]) "AND") "age" "not_in"
             eq_refl eq_refl eq_refl eq_refl).
  - exact (comparison_operators_compile_to_mango
             (condition "age" "$exists" (VBool true) "AND") "age" "$exists"
             eq_refl eq_refl eq_refl eq_refl).
Defined.

(** *** Where records *)

Lemma translated_assign (k : string) (v : Value) (props : list (string * Value)) :
  betterAuthKey k = false -> translated props -> translated (assign k v props).
Proof.
  intros Hk Hp k' Hk'. rewrite AdapterFacts.lookup_assign_other; [now apply Hp |].
  intros ->. congruence.
Qed.

Lemma translated_put (k : string) (v : Value) (props : list (string * Value)) :
  betterAuthKey k = false -> translated props -> translated (put k v props).
Proof.
  intros Hk Hp. unfold put.
  destruct (String.eqb k "__proto__" && _)%bool; [exact Hp |].
  now apply translated_assign.
Qed.

Lemma convertWhereToSelector_fuel_keys (fuel : nat) (where_ selector : Value) :
  convertWhereToSelector_fuel fuel where_ = Ok selector ->
  translated (props_of selector).
Proof.
  destruct fuel as [| fuel]; [discriminate |].
  cbn [convertWhereToSelector_fuel].
  destruct (if isArray where_ then convertWhereArrayToRecord where_ else Ok (Some where_))
    as [[[| | b | z | s | items | props] |] | |]; cbn [obind]; try discriminate;
    try (intros H; injection H as <-; intros k _; reflexivity).
  match goal with
  | |- obind (?loop props _) _ = _ -> _ =>
      assert (Hloop : forall l a out,
                 loop l a = Ok out -> translated a -> translated out)
  end.
  { induction l as [| [key value] rest IH]; intros acc out H Hacc.
    - injection H as <-. exact Hacc.
    - cbn beta iota in H.
      destruct (String.eqb key "AND" || String.eqb key "OR")%bool eqn:Eao.
      + destruct value as [| | b | z | s | items | ops]; try (now apply (IH acc out)).
        destruct (mapM (convertWhereToSelector_fuel fuel) items) as [subs | |];
          cbn [obind] in H; try discriminate.
        apply (IH _ out H). apply translated_assign; [| exact Hacc].
        destruct (String.eqb key "AND"); reflexivity.
      + destruct (String.eqb key "id") eqn:Eid.
        * apply (IH _ out H). now apply translated_assign.
        * assert (Hkey : betterAuthKey key = false).
          { unfold betterAuthKey. rewrite Eid. cbn [orb]. exact Eao. }
          destruct value as [| | b | z | s | items | ops];
            try (apply (IH _ out H); now apply translated_put).
          destruct (convertOperators ops) as [[| o os] | |];
            cbn [obind] in H; try discriminate;
            apply (IH _ out H); now apply translated_put. }
  match goal with
  | |- obind ?m _ = _ -> _ => destruct m as [sel | |] eqn:E
  end; cbn [obind]; try discriminate.
  intros H; injection H as <-. cbn [props_of].
  apply (Hloop _ _ _ E). intros k _. reflexivity.
Qed.

(** X5.  Whatever the where clause, an array or a record, the selector
    compiled from it has none of the keys [id], [AND] and [OR] of
    Better-Auth: the identifier of a where record is filed under [_id],
    with its value as it is, and the connectives under [$and] and [$or]. *)
Theorem compiled_selectors_carry_no_better_auth_keys :
  (forall where_ selector,
      convertWhereToSelector where_ = Ok selector ->
      forall k, betterAuthKey k = true -> has selector k = false)
  /\ (forall v, convertWhereToSelector (VObj [("id", v)]) = Ok (VObj [("_id", v)])).
Proof.
  split.
  - intros where_ selector H k Hk.
    pose proof (convertWhereToSelector_fuel_keys _ _ _ H k Hk) as Hnone.
    destruct selector; try reflexivity. cbn [props_of] in Hnone.
    cbn [has]. now rewrite Hnone.
  - intros v. reflexivity.
Qed.

(** A condition on [id] in a where array: the selector has no [id]. *)
Lemma compiled_selectors_witness :
  has (VObj [("_id", VObj [("equals", VStr "u1")])]) "id" = false.
Proof.
  exact (proj1 compiled_selectors_carry_no_better_auth_keys
           (VArr [condition "id" "eq" (VStr "u1") "AND"])
           (VObj [("_id", VObj [("equals", VStr "u1")])]) eq_refl "id" eq_refl).
Defined.

(** More fuel does not change a result. *)
Lemma mapM_agree {A B} (f g : A -> outcome B) (l : list A) :
  (forall x, In x l -> f x <> OutOfFuel -> g x = f x) ->
  mapM f l <> OutOfFuel -> mapM g l = mapM f l.
Proof.
  induction l as [| x rest IH]; intros Hx H; [reflexivity |].
  cbn [mapM] in *.
  assert (Hfx : f x <> OutOfFuel).
  { intros E. rewrite E in H. now apply H. }
  rewrite (Hx x (or_introl eq_refl) Hfx).
  destruct (f x) as [y | e |]; cbn [obind] in *; [| reflexivity | congruence].
  assert (Hrest : mapM f rest <> OutOfFuel).
  { intros E. rewrite E in H. now apply H. }
  rewrite IH; [reflexivity | | exact Hrest].
  intros z Hz. apply Hx. now right.
Qed.

Lemma convertWhereToSelector_fuel_more (n : nat) :
  forall m where_,
    (n <= m)%nat ->
    convertWhereToSelector_fuel n where_ <> OutOfFuel ->
    convertWhereToSelector_fuel m where_ = convertWhereToSelector_fuel n where_.
Proof.
  induction n as [| n IH]; intros m where_ Hle Hn; [now contradiction Hn |].
  destruct m as [| m]; [lia |].
  assert (Hnm : (n <= m)%nat) by lia. clear Hle.
  revert Hn. cbn [convertWhereToSelector_fuel].
  destruct (if isArray where_ then convertWhereArrayToRecord where_ else Ok (Some where_))
    as [[[| | b | z | s | items | props] |] | |]; cbn [obind]; try reflexivity.
  match goal with
  | |- obind (?ln props _) _ <> _ -> obind (?lm props _) _ = _ =>
      assert (Hloop : forall l a, ln l a <> OutOfFuel -> lm l a = ln l a)
  end.
  { induction l as [| [key value] rest IHl]; intros a H; [reflexivity |].
    cbn beta iota in *.
    destruct (String.eqb key "AND" || String.eqb key "OR")%bool.
    - destruct value as [| | b | z | s | items | ops]; try (now apply IHl).
      assert (Hitems : mapM (convertWhereToSelector_fuel n) items <> OutOfFuel).
      { intros E. rewrite E in H. now apply H. }
      rewrite (mapM_agree (convertWhereToSelector_fuel n) (convertWhereToSelector_fuel m));
        [| intros x _ Hx; now apply IH | exact Hitems].
      destruct (mapM (convertWhereToSelector_fuel n) items) as [subs | e |];
        cbn [obind] in *; [now apply IHl | reflexivity | congruence].
    - destruct (String.eqb key "id"); [now apply IHl |].
      destruct value as [| | b | z | s | items | ops]; try (now apply IHl).
      destruct (convertOperators ops) as [[| o os] | |]; cbn [obind] in *;
        first [now apply IHl | reflexivity | congruence]. }
  intros H.
  match goal with
  | |- obind (?lm props ?a) _ = obind (?ln props ?a) _ =>
      assert (Hn : ln props a <> OutOfFuel);
      [ intros E; rewrite E in H; now apply H | rewrite (Hloop props a Hn) ]
  end.
  reflexivity.
Qed.

Lemma convertWhereToSelector_fuel_enough (fuel : nat) (where_ : Value) :
  (height where_ + 3 <= fuel)%nat ->
  convertWhereToSelector_fuel fuel where_ = convertWhereToSelector where_.
Proof.
  intros H. unfold convertWhereToSelector.
  destruct (Nat.le_ge_cases fuel (4 + height where_)) as [Hle | Hge].
  - symmetry. apply convertWhereToSelector_fuel_more; [exact Hle |].
    now apply convertWhereToSelector_fuel_total.
  - apply convertWhereToSelector_fuel_more; [exact Hge |].
    apply convertWhereToSelector_fuel_total. lia.
Qed.

Lemma mapM_ext_in {A B} (f g : A -> outcome B) (l : list A) :
  (forall x, In x l -> f x = g x) -> mapM f l = mapM g l.
Proof.
  induction l as [| x rest IH]; intros H; [reflexivity |].
  cbn [mapM]. rewrite (H x (or_introl eq_refl)), IH; [reflexivity |].
  intros y Hy. apply H. now right.
Qed.

Lemma convert_connective (key : string) (items : list Value) :
  key = "AND" \/ key = "OR" ->
  convertWhereToSelector (VObj [(key, VArr items)])
  = (subs <-! mapM convertWhereToSelector items ;;
     Ok (VObj [(if String.eqb key "AND" then "$and" else "$or", VArr subs)])).
Proof.
  intros Hkey. unfold convertWhereToSelector at 1.
  remember (height (VObj [(key, VArr items)])) as h eqn:Hh.
  cbn [Nat.add convertWhereToSelector_fuel isArray obind].
  assert (Hk : (String.eqb key "AND" || String.eqb key "OR")%bool = true)
    by (destruct Hkey; subst key; reflexivity).
  rewrite Hk.
  rewrite (mapM_ext_in (convertWhereToSelector_fuel (S (S (S h)))) convertWhereToSelector).
  - destruct (mapM convertWhereToSelector items); reflexivity.
  - intros x Hx. apply convertWhereToSelector_fuel_enough.
    apply height_item in Hx. subst h. cbn [height fold_right snd] in *. lia.
Qed.

(** X6.  A where record [{ AND: items }] compiles to [{ $and: [...] }] over
    the selectors of its items, each compiled as a where clause of its own,
    in order; likewise [OR] and [$or].  The first item that fails to
    compile fails the record.  An [AND] or [OR] whose value is no array is
    left out of the selector. *)
Theorem connectives_compile_member_by_member :
  (forall items,
      convertWhereToSelector (VObj [("AND", VArr items)])
      = (subs <-! mapM convertWhereToSelector items ;;
         Ok (VObj [("$and", VArr subs)])))
  /\ (forall items,
        convertWhereToSelector (VObj [("OR", VArr items)])
        = (subs <-! mapM convertWhereToSelector items ;;
           Ok (VObj [("$or", VArr subs)])))
  /\ (forall key v,
        key = "AND" \/ key = "OR" -> isArray v = false ->
        convertWhereToSelector (VObj [(key, v)]) = Ok (VObj [])).
Proof.
  split; [| split].
  - intros items. now rewrite (convert_connective "AND" items (or_introl eq_refl)).
  - intros items. now rewrite (convert_connective "OR" items (or_intror eq_refl)).
  - intros key v Hkey Hv. unfold convertWhereToSelector.
    cbn [Nat.add convertWhereToSelector_fuel isArray obind].
    assert (Hk : (String.eqb key "AND" || String.eqb key "OR")%bool = true)
      by (destruct Hkey; subst key; reflexivity).
    rewrite Hk. destruct v; try reflexivity. discriminate Hv.
Qed.

(** An [AND] with a string for a value. *)
Lemma connectives_witness :
  convertWhereToSelector (VObj [("AND", VStr "all")]) = Ok (VObj []).
Proof.
  exact (proj2 (proj2 connectives_compile_member_by_member)
           "AND" (VStr "all") (or_introl eq_refl) eq_refl).
Defined.

End CompilerLaws.

(** ** Properties of the document helpers *)

Module DocumentLaws.
Import Compiler Mock Adapter Reference Auxiliary Vocabulary AdapterFacts.

Lemma lookup_remove_same (k : string) (props : list (string * Value)) :
  lookup k (remove k props) = None.
Proof.
  induction props as [| [k' v] rest IH]; [reflexivity |].
  cbn [remove]. destruct (String.eqb k' k) eqn:E; [exact IH |].
  cbn [lookup]. now rewrite E.
Qed.

Lemma lookup_remove_other (k k' : string) (props : list (string * Value)) :
  k <> k' -> lookup k' (remove k props) = lookup k' props.
Proof.
  intros Hne. induction props as [| [k0 v] rest IH]; [reflexivity |].
  cbn [remove lookup].
  destruct (String.eqb k0 k) eqn:E.
  - apply String.eqb_eq in E. subst k0.
    rewrite (proj2 (String.eqb_neq k k') Hne). exact IH.
  - cbn [lookup]. now rewrite IH.
Qed.

Lemma get_remove_same (k : string) (props : list (string * Value)) :
  get (VObj (remove k props)) k = VUndefined.
Proof. cbn [get]. now rewrite lookup_remove_same. Qed.

Lemma get_remove_other (k k' : string) (props : list (string * Value)) :
  k <> k' -> get (VObj (remove k props)) k' = get (VObj props) k'.
Proof. intros H. cbn [get]. now rewrite lookup_remove_other. Qed.

(** X7.  [cleanDocumentForTransform] hides the store's bookkeeping: the
    result has no [_rev] and no [betterAuthModel]; its [id] is the
    document's [_id] when that is truthy, and the document's own [id]
    otherwise; every other field, [_id] included, is the document's. *)
Theorem cleanDocumentForTransform_hides_bookkeeping (doc : Value) :
  get (cleanDocumentForTransform doc) "_rev" = VUndefined
  /\ get (cleanDocumentForTransform doc) "betterAuthModel" = VUndefined
  /\ get (cleanDocumentForTransform doc) "id"
     = (if truthy (get (VObj (props_of doc)) "_id")
        then get (VObj (props_of doc)) "_id" else get (VObj (props_of doc)) "id")
  /\ (forall k, k <> "_rev" -> k <> "betterAuthModel" -> k <> "id" ->
        get (cleanDocumentForTransform doc) k = get (VObj (props_of doc)) k).
Proof.
  unfold cleanDocumentForTransform. cbv zeta. cbn [JS.delete].
  assert (Hid : get (VObj (remove "betterAuthModel" (remove "_rev" (props_of doc)))) "_id"
                = get (VObj (props_of doc)) "_id").
  { rewrite get_remove_other by discriminate. now rewrite get_remove_other by discriminate. }
  rewrite Hid.
  destruct (truthy (get (VObj (props_of doc)) "_id")); cbn [set].
  - repeat split.
    + rewrite get_assign_other by discriminate.
      rewrite get_remove_other by discriminate. apply get_remove_same.
    + rewrite get_assign_other by discriminate. apply get_remove_same.
    + apply get_assign_same.
    + intros k H1 H2 H3. rewrite get_assign_other by congruence.
      rewrite get_remove_other by congruence. now rewrite get_remove_other by congruence.
  - repeat split.
    + rewrite get_remove_other by discriminate. apply get_remove_same.
    + apply get_remove_same.
    + rewrite get_remove_other by discriminate. now rewrite get_remove_other by discriminate.
    + intros k H1 H2 H3.
      rewrite get_remove_other by congruence. now rewrite get_remove_other by congruence.
Qed.

(** The stored user [u1]: its name comes back. *)
Lemma cleanDocumentForTransform_witness :
  get (cleanDocumentForTransform Scripted.user1) "name"
  = get (VObj (props_of Scripted.user1)) "name".
Proof.
  apply (proj2 (proj2 (proj2 (cleanDocumentForTransform_hides_bookkeeping
                                Scripted.user1)))); discriminate.
Defined.

Lemma in_reads (result : Value) (key : string) :
  (negb (in_ result key) || readsUndefined result key)%bool = readsUndefined result key.
Proof.
  destruct result; try reflexivity. cbn [in_ has readsUndefined].
  destruct (lookup key props) as [x |]; cbn [orb negb].
  - reflexivity.
  - destruct (objectPrototypeName key); reflexivity.
Qed.

Lemma reads_get (props : list (string * Value)) (key : string) :
  readsUndefined (VObj props) key = true -> get (VObj props) key = VUndefined.
Proof.
  cbn [readsUndefined get]. destruct (lookup key props) as [x |]; [| reflexivity].
  destruct x; try discriminate. reflexivity.
Qed.

Lemma reads_put (props : list (string * Value)) (key : string) (v : Value) :
  readsUndefined (VObj props) key = true -> put key v props = assign key v props.
Proof.
  cbn [readsUndefined]. unfold put. intros H.
  destruct (String.eqb key "__proto__") eqn:E; [| reflexivity].
  apply String.eqb_eq in E. subst key.
  destruct (lookup "__proto__" props); [reflexivity | discriminate].
Qed.

Lemma reads_assign_other (props : list (string * Value)) (key k : string) (v : Value) :
  key <> k ->
  readsUndefined (VObj (assign key v props)) k = readsUndefined (VObj props) k.
Proof.
  intros H. cbn [readsUndefined]. now rewrite lookup_assign_other.
Qed.

Lemma internal_guard (key : string) :
  (negb (String.eqb key "_id") && negb (String.eqb key "_rev")
   && negb (String.eqb key "betterAuthModel") && negb (String.eqb key "id"))%bool
  = negb (internalKey key).
Proof.
  unfold internalKey.
  destruct (String.eqb key "_id"), (String.eqb key "_rev"),
    (String.eqb key "betterAuthModel"), (String.eqb key "id"); reflexivity.
Qed.

(** The loop of [mergeOriginalFields] over the keys [l], field by field. *)
Lemma fill_fields (original : Value) (l : list (string * Value)) :
  forall props k,
    get (fold_left
           (fun result kv =>
              let key := fst kv in
              if (negb (String.eqb key "_id") && negb (String.eqb key "_rev")
                  && negb (String.eqb key "betterAuthModel")
                  && negb (String.eqb key "id"))%bool
              then
                if (negb (in_ result key) || readsUndefined result key)%bool
                then VObj (put key (get original key) (props_of result))
                else result
              else result)
           l (VObj props)) k
    = if (negb (internalKey k) && readsUndefined (VObj props) k
          && existsb (fun kv => String.eqb (fst kv) k) l)%bool
      then get original k
      else get (VObj props) k.
Proof.
  induction l as [| [key v] rest IH]; intros props k.
  - cbn [fold_left existsb]. now rewrite andb_false_r.
  - cbn [fold_left existsb fst].
    rewrite internal_guard, in_reads.
    destruct (internalKey key) eqn:Hkey; cbn [negb andb].
    + rewrite IH.
      destruct (String.eqb key k) eqn:E; [| reflexivity].
      apply String.eqb_eq in E. subst k. rewrite Hkey. reflexivity.
    + destruct (readsUndefined (VObj props) key) eqn:Hu.
      * cbn [props_of]. rewrite (reads_put props key _ Hu), IH.
        destruct (String.eqb key k) eqn:E.
        -- apply String.eqb_eq in E. subst k. rewrite Hkey, Hu.
           rewrite get_assign_same. cbn [negb andb orb].
           destruct (readsUndefined (VObj (assign key (get original key) props)) key
                     && existsb (fun kv => String.eqb (fst kv) key) rest)%bool;
             reflexivity.
        -- apply String.eqb_neq in E.
           rewrite get_assign_other by exact E.
           rewrite (reads_assign_other props key k _ E). reflexivity.
      * rewrite IH.
        destruct (String.eqb key k) eqn:E; [| reflexivity].
        apply String.eqb_eq in E. subst k. rewrite Hu.
        now rewrite andb_false_r.
Qed.

Lemma lookup_absent (k : string) (props : list (string * Value)) :
  existsb (fun kv => String.eqb (fst kv) k) props = false -> lookup k props = None.
Proof.
  induction props as [| [k' v] rest IH]; [reflexivity |].
  cbn [existsb lookup fst]. intros H. apply orb_false_iff in H.
  destruct H as [-> H]. now apply IH.
Qed.

(** X8.  [mergeOriginalFields], field by field, on the fields that the
    documents have of their own: the keys [_id], [_rev], [betterAuthModel]
    and [id] are the transformed document's; any other field is the
    original's when the transformed document reads [undefined] under its
    name - it has [undefined] there, or has no such field and inherits
    none of the name - and the transformed document's otherwise.  So a
    field of the original under a name that every object inherits
    ([constructor], [toString], ...) is not copied. *)
Theorem mergeOriginalFields_fills_what_is_missing (transformed original : Value)
    (k : string) :
  get (mergeOriginalFields transformed original) k
  = if internalKey k then get (VObj (props_of transformed)) k
    else if readsUndefined (VObj (props_of transformed)) k
         then get (VObj (props_of original)) k
         else get (VObj (props_of transformed)) k.
Proof.
  unfold mergeOriginalFields. rewrite fill_fields.
  destruct (internalKey k); cbn [negb andb]; [reflexivity |].
  destruct (readsUndefined (VObj (props_of transformed)) k) eqn:Hu;
    cbn [andb]; [| reflexivity].
  destruct (existsb (fun kv => String.eqb (fst kv) k) (props_of original)) eqn:Hin.
  - destruct original; reflexivity.
  - rewrite (reads_get _ _ Hu).
    cbn [get]. now rewrite (lookup_absent _ _ Hin).
Qed.

(** A document of the store with a field [constructor] and a field
    [email], merged into a transformed document that has neither: the
    [email] is copied, the [constructor] is not. *)
Lemma mergeOriginalFields_witness :
  get (mergeOriginalFields
         (VObj [("name", VStr "Ann")])
         (VObj [("constructor", VStr "x"); ("email", VStr "ann@example.org")]))
      "constructor"
  = VUndefined
  /\ get (mergeOriginalFields
            (VObj [("name", VStr "Ann")])
            (VObj [("constructor", VStr "x"); ("email", VStr "ann@example.org")]))
         "email"
     = VStr "ann@example.org".
Proof.
  split.
  - exact (mergeOriginalFields_fills_what_is_missing
             (VObj [("name", VStr "Ann")])
             (VObj [("constructor", VStr "x"); ("email", VStr "ann@example.org")])
             "constructor").
  - exact (mergeOriginalFields_fills_what_is_missing
             (VObj [("name", VStr "Ann")])
             (VObj [("constructor", VStr "x"); ("email", VStr "ann@example.org")])
             "email").
Defined.

End DocumentLaws.

(** ** Properties of the in-memory store *)

Module StoreLaws.
Import Compiler Mock Adapter Reference Auxiliary Vocabulary AdapterFacts.
Import MockCouchDB.

(** *** Keys and maps *)

Lemma strictEq_eq (a b : Value) : strictEq a b = true -> a = b.
Proof.
  destruct a, b; try discriminate; cbn [strictEq]; intros H; try reflexivity.
  - apply Bool.eqb_prop in H. now subst.
  - apply Z.eqb_eq in H. now subst.
  - apply String.eqb_eq in H. now subst.
Qed.

Lemma strictEq_refl (a : Value) : scalar a = true -> strictEq a a = true.
Proof.
  destruct a; try discriminate; intros _; cbn [strictEq]; try reflexivity.
  - apply Bool.eqb_reflx.
  - apply Z.eqb_refl.
  - apply String.eqb_refl.
Qed.

Lemma strictEq_sym (a b : Value) : strictEq a b = strictEq b a.
Proof.
  destruct a, b; try reflexivity; cbn [strictEq].
  - destruct b, b0; reflexivity.
  - apply Z.eqb_sym.
  - apply String.eqb_sym.
Qed.

Section Maps.

Context {A : Type}.

Lemma mapGet_mapSet_same (k : Value) (v : A) (m : list (Value * A)) :
  scalar k = true -> mapGet k (mapSet k v m) = Some v.
Proof.
  intros Hk. induction m as [| [k0 v0] rest IH]; cbn [mapSet mapGet].
  - now rewrite strictEq_refl.
  - destruct (strictEq k0 k) eqn:E; cbn [mapGet]; rewrite E; [reflexivity | exact IH].
Qed.

Lemma mapGet_mapSet_other (k k' : Value) (v : A) (m : list (Value * A)) :
  strictEq k k' = false -> mapGet k' (mapSet k v m) = mapGet k' m.
Proof.
  intros Hne. induction m as [| [k0 v0] rest IH]; cbn [mapSet mapGet].
  - now rewrite Hne.
  - destruct (strictEq k0 k) eqn:E; cbn [mapGet].
    + apply strictEq_eq in E. subst k0. now rewrite Hne.
    + now rewrite IH.
Qed.

Lemma mapGet_mapDelete_other (k k' : Value) (m : list (Value * A)) :
  strictEq k k' = false -> mapGet k' (mapDelete k m) = mapGet k' m.
Proof.
  intros Hne. induction m as [| [k0 v0] rest IH]; cbn [mapDelete mapGet]; [reflexivity |].
  destruct (strictEq k0 k) eqn:E; cbn [mapGet].
  - apply strictEq_eq in E. subst k0. now rewrite Hne.
  - now rewrite IH.
Qed.

Lemma mapGet_mapDelete_same (k : Value) (m : list (Value * A)) :
  uniqueKeys m -> mapGet k (mapDelete k m) = None.
Proof.
  induction m as [| [k0 v0] rest IH]; cbn [mapDelete mapGet uniqueKeys]; [reflexivity |].
  intros [Hk0 Hrest].
  destruct (strictEq k0 k) eqn:E; cbn [mapGet].
  - apply strictEq_eq in E. now subst k0.
  - rewrite E. now apply IH.
Qed.

Lemma uniqueKeys_mapSet (k : Value) (v : A) (m : list (Value * A)) :
  uniqueKeys m -> uniqueKeys (mapSet k v m).
Proof.
  induction m as [| [k0 v0] rest IH]; cbn [mapSet uniqueKeys].
  - intros _. split; [reflexivity | exact I].
  - intros [Hk0 Hrest]. destruct (strictEq k0 k) eqn:E; cbn [uniqueKeys].
    + split; assumption.
    + split; [| now apply IH].
      rewrite mapGet_mapSet_other; [exact Hk0 |].
      now rewrite strictEq_sym.
Qed.

Lemma uniqueKeys_mapDelete (k : Value) (m : list (Value * A)) :
  uniqueKeys m -> uniqueKeys (mapDelete k m).
Proof.
  induction m as [| [k0 v0] rest IH]; cbn [mapDelete uniqueKeys]; [easy |].
  intros [Hk0 Hrest]. destruct (strictEq k0 k) eqn:E; cbn [uniqueKeys].
  - exact Hrest.
  - split; [| now apply IH].
    rewrite mapGet_mapDelete_other; [exact Hk0 |].
    now rewrite strictEq_sym.
Qed.

Lemma mapGet_In (k : Value) (v : A) (m : list (Value * A)) :
  mapGet k m = Some v -> In (k, v) m.
Proof.
  induction m as [| [k0 v0] rest IH]; cbn [mapGet]; [discriminate |].
  destruct (strictEq k0 k) eqn:E.
  - intros H. injection H as ->. apply strictEq_eq in E. subst. now left.
  - intros H. right. now apply IH.
Qed.

End Maps.

(** *** Documents *)

Section Documents.

Variable regexTest : string -> string -> outcome bool.
Variable random : nat -> string.
Variable now : nat -> Z.

Lemma database_withDatabase (name : string) (db : list (Value * Value)) (s : State) :
  database name (withDatabase name db s) = db.
Proof.
  unfold database, withDatabase. cbn [databases].
  now rewrite mapGet_mapSet_same.
Qed.

Lemma database_withDatabase_other (name name' : string) (db : list (Value * Value))
    (s : State) :
  name <> name' -> database name' (withDatabase name db s) = database name' s.
Proof.
  intros H. unfold database, withDatabase. cbn [databases].
  rewrite mapGet_mapSet_other; [reflexivity |].
  cbn [strictEq]. now apply String.eqb_neq.
Qed.

(** What insert does, spelled out. *)
Lemma insert_ok (name : string) (doc : Value) (s s' : State) (r : Nano.InsertResponse) :
  insert random now name doc s = (Ok r, s') ->
  database name s'
  = mapSet (Nano.id r) (storedAs (Nano.id r) (Nano.rev r) doc) (database name s)
  /\ Nano.id r = (if truthy (JS.get doc "_id") then JS.get doc "_id" else Nano.id r)
  /\ (truthy (JS.get doc "_id") = false -> exists g, Nano.id r = VStr g)
  /\ (forall name', name <> name' -> database name' s' = database name' s).
Proof.
  unfold insert.
  destruct (truthy (JS.get doc "_id")) eqn:Hid.
  - match goal with
    | |- context [if ?c then _ else _] => destruct c
    end; [discriminate |].
    unfold getRev. intros H. injection H as <- <-. cbn [Nano.id Nano.rev].
    split; [| split; [| split]].
    + now rewrite database_withDatabase.
    + reflexivity.
    + discriminate.
    + intros name' Hn. now rewrite database_withDatabase_other.
  - match goal with
    | |- context [if ?c then _ else _] => destruct c
    end; [discriminate |].
    unfold getRev. intros H. injection H as <- <-. cbn [Nano.id Nano.rev].
    split; [| split; [| split]].
    + now rewrite database_withDatabase.
    + reflexivity.
    + intros _. eexists; reflexivity.
    + intros name' Hn. now rewrite database_withDatabase_other.
Qed.


Lemma get_stored (docId : Value) (rev : string) (doc : Value) :
  JS.get (storedAs docId rev doc) "_id" = docId
  /\ JS.get (storedAs docId rev doc) "_rev" = VStr rev
  /\ (forall k, k <> "_id" -> k <> "_rev" ->
        JS.get (storedAs docId rev doc) k = JS.get (VObj (props_of doc)) k).
Proof.
  unfold storedAs. split; [| split].
  - rewrite get_assign_other by discriminate. apply get_assign_same.
  - apply get_assign_same.
  - intros k H1 H2. rewrite get_assign_other by congruence.
    now rewrite get_assign_other by congruence.
Qed.

Lemma insert_id_scalar (name : string) (doc : Value) (s s' : State)
    (r : Nano.InsertResponse) :
  scalar (JS.get doc "_id") = true ->
  insert random now name doc s = (Ok r, s') ->
  scalar (Nano.id r) = true.
Proof.
  intros Hs H. destruct (insert_ok _ _ _ _ _ H) as [_ [Hid [Hgen _]]].
  destruct (truthy (JS.get doc "_id")) eqn:Ht.
  - now rewrite Hid.
  - destruct (Hgen eq_refl) as [g ->]. reflexivity.
Qed.

(** X9.  A document that [insert] has stored is what [get] returns under
    the identifier of the response: it carries that identifier as [_id] and
    the response's revision as [_rev], and every other field of the
    document inserted.  The identifier is the document's [_id] when that is
    truthy.  (For an [_id] that is no array and no object.) *)
Theorem insert_then_get (name : string) (doc : Value) (s s' : State)
    (r : Nano.InsertResponse) :
  scalar (JS.get doc "_id") = true ->
  insert random now name doc s = (Ok r, s') ->
  exists stored,
    get name (Nano.id r) s' = (Ok stored, s')
    /\ JS.get stored "_id" = Nano.id r
    /\ JS.get stored "_rev" = VStr (Nano.rev r)
    /\ (forall k, k <> "_id" -> k <> "_rev" ->
          JS.get stored k = JS.get (VObj (props_of doc)) k)
    /\ (truthy (JS.get doc "_id") = true -> Nano.id r = JS.get doc "_id").
Proof.
  intros Hs H.
  pose proof (insert_id_scalar _ _ _ _ _ Hs H) as Hid.
  destruct (insert_ok _ _ _ _ _ H) as [Hdb [Hsame _]].
  exists (storedAs (Nano.id r) (Nano.rev r) doc).
  destruct (get_stored (Nano.id r) (Nano.rev r) doc) as [G1 [G2 G3]].
  split; [| split; [| split; [| split]]]; try assumption.
  - unfold get. rewrite Hdb, (mapGet_mapSet_same _ _ _ Hid). reflexivity.
  - intros Ht. now rewrite Ht in Hsame.
Qed.

(** X10.  [insert] fails only with a conflict (409), and only for a
    document that carries a [_rev] other than the [_rev] of the document
    stored under its identifier; the databases are then as they were.  A
    document without [_rev] is always stored, over whatever is there, and
    so is a document with the stored [_rev]. *)
Theorem insert_conflicts_only_on_a_stale_revision (name : string) (doc : Value)
    (s : State) :
  (truthy (JS.get doc "_rev") = false ->
   exists r s', insert random now name doc s = (Ok r, s'))
  /\ (forall stored,
        mapGet (JS.get doc "_id") (database name s) = Some stored ->
        truthy (JS.get doc "_id") = true ->
        strictEq (JS.get doc "_rev") (JS.get stored "_rev") = true ->
        exists r s', insert random now name doc s = (Ok r, s'))
  /\ (forall e s',
        insert random now name doc s = (Throw e, s') ->
        e = documentConflict
        /\ databases s' = databases s
        /\ truthy (JS.get doc "_rev") = true
        /\ exists docId stored,
             mapGet docId (database name s) = Some stored
             /\ strictEq (JS.get doc "_rev") (JS.get stored "_rev") = false).
Proof.
  split; [| split].
  - intros Hrev. unfold insert. rewrite Hrev.
    destruct (truthy (JS.get doc "_id")); cbn [andb];
      match goal with
      | |- context [match ?m with Some _ => false | None => false end] =>
          replace (match m with Some _ => false | None => false end) with false
            by (destruct m; reflexivity)
      end; unfold getRev; eexists; eexists; reflexivity.
  - intros stored Hget Hid Heq. unfold insert. rewrite Hid, Hget, Heq.
    rewrite andb_false_r. unfold getRev. eexists; eexists; reflexivity.
  - intros e s'. unfold insert.
    destruct (truthy (JS.get doc "_id")) eqn:Hid.
    + destruct (mapGet (JS.get doc "_id") (database name s)) as [stored |] eqn:Hget.
      * destruct (truthy (JS.get doc "_rev")) eqn:Hrev; cbn [andb].
        -- destruct (strictEq (JS.get doc "_rev") (JS.get stored "_rev")) eqn:Heq;
             cbn [negb]; [unfold getRev; discriminate |].
           intros H; injection H as <- <-.
           repeat split. exists (JS.get doc "_id"), stored. now split.
        -- unfold getRev. discriminate.
      * unfold getRev. discriminate.
    + match goal with
      | |- context [mapGet ?k ?d] => destruct (mapGet k d) as [stored |] eqn:Hget
      end.
      * destruct (truthy (JS.get doc "_rev")) eqn:Hrev; cbn [andb].
        -- destruct (strictEq (JS.get doc "_rev") (JS.get stored "_rev")) eqn:Heq;
             cbn [negb]; [unfold getRev; discriminate |].
           intros H; injection H as <- <-.
           repeat split. eexists; exists stored. split; [exact Hget | exact Heq].
        -- unfold getRev. discriminate.
      * unfold getRev. discriminate.
Qed.

(** X11.  After a [destroy] that succeeds, [get] of the identifier fails
    with 404 and every other identifier has the document it had.  A
    [destroy] fails with 404 when there is no document under the
    identifier and with 409 when the stored [_rev] is not the revision
    given; the store is then as it was. *)
Theorem destroy_removes_the_document (name : string) (docId rev : Value) (s : State) :
  uniqueKeys (database name s) ->
  (forall s',
      destroy name docId rev s = (Ok tt, s') ->
      get name docId s' = (Throw documentNotFound, s')
      /\ (forall k, strictEq docId k = false ->
            fst (get name k s') = fst (get name k s)))
  /\ (forall e s',
        destroy name docId rev s = (Throw e, s') ->
        s' = s
        /\ (e = documentNotFound /\ mapGet docId (database name s) = None
            \/ e = documentConflict
               /\ exists stored,
                    mapGet docId (database name s) = Some stored
                    /\ strictEq (JS.get stored "_rev") rev = false)).
Proof.
  intros Hu. split.
  - intros s'. unfold destroy.
    destruct (mapGet docId (database name s)) as [stored |] eqn:Hget; [| discriminate].
    destruct (negb (strictEq (JS.get stored "_rev") rev)); [discriminate |].
    intros H; injection H as <-. split.
    + unfold get. rewrite database_withDatabase.
      now rewrite (mapGet_mapDelete_same _ _ Hu).
    + intros k Hk. unfold get. rewrite database_withDatabase.
      rewrite (mapGet_mapDelete_other _ _ _ Hk).
      destruct (mapGet k (database name s)); reflexivity.
  - intros e s'. unfold destroy.
    destruct (mapGet docId (database name s)) as [stored |] eqn:Hget.
    + destruct (strictEq (JS.get stored "_rev") rev) eqn:Heq; cbn [negb]; [discriminate |].
      intros H; injection H as <- <-. split; [reflexivity |].
      right. split; [reflexivity |]. exists stored. now split.
    + intros H; injection H as <- <-. split; [reflexivity |]. now left.
Qed.

End Documents.

(** The user [u2] inserted beside [u1]: the fetch returns him, with his name. *)
Lemma insert_then_get_witness :
  exists stored,
    get "better_auth" (VStr "u2")
      (snd (insert MockExamples.random MockExamples.now "better_auth"
              (VObj [("_id", VStr "u2"); ("name", VStr "Bob")]) MockExamples.oneUser))
    = (Ok stored,
       snd (insert MockExamples.random MockExamples.now "better_auth"
              (VObj [("_id", VStr "u2"); ("name", VStr "Bob")]) MockExamples.oneUser))
    /\ JS.get stored "name" = VStr "Bob".
Proof.
  pose proof
    (fun r s' H =>
       insert_then_get MockExamples.random MockExamples.now "better_auth"
         (VObj [("_id", VStr "u2"); ("name", VStr "Bob")]) MockExamples.oneUser s' r
         eq_refl H) as fetched.
  edestruct fetched as [stored [Hget [_ [_ [Hfields _]]]]]; [reflexivity |].
  exists stored. split; [exact Hget |].
  rewrite Hfields; [reflexivity | discriminate | discriminate].
Defined.

(** A write of [u1] with a revision that is not the stored one, and a write
    of [u1] without a revision. *)
Lemma insert_conflicts_witness :
  (exists r s',
      insert MockExamples.random MockExamples.now "better_auth"
        (VObj [("_id", VStr "u1"); ("name", VStr "Anna")]) MockExamples.oneUser
      = (Ok r, s'))
  /\ databases
       (snd (insert MockExamples.random MockExamples.now "better_auth"
               (VObj [("_id", VStr "u1"); ("_rev", VStr "0-z")]) MockExamples.oneUser))
     = databases MockExamples.oneUser.
Proof.
  split.
  - exact (proj1 (insert_conflicts_only_on_a_stale_revision
                    MockExamples.random MockExamples.now "better_auth"
                    (VObj [("_id", VStr "u1"); ("name", VStr "Anna")])
                    MockExamples.oneUser) eq_refl).
  - exact (proj1 (proj2
             (proj2 (proj2 (insert_conflicts_only_on_a_stale_revision
                              MockExamples.random MockExamples.now "better_auth"
                              (VObj [("_id", VStr "u1"); ("_rev", VStr "0-z")])
                              MockExamples.oneUser))
                documentConflict MockExamples.oneUser eq_refl))).
Defined.

(** The removal of [u1] with its revision, and with another. *)
Lemma destroy_removes_witness :
  get "better_auth" (VStr "u1")
    (snd (destroy "better_auth" (VStr "u1") (VStr "1-a") MockExamples.oneUser))
  = (Throw documentNotFound,
     snd (destroy "better_auth" (VStr "u1") (VStr "1-a") MockExamples.oneUser))
  /\ snd (destroy "better_auth" (VStr "u1") (VStr "9-z") MockExamples.oneUser)
     = MockExamples.oneUser.
Proof.
  assert (Hu : uniqueKeys (database "better_auth" MockExamples.oneUser))
    by (cbn; tauto).
  destruct (destroy_removes_the_document "better_auth" (VStr "u1") (VStr "1-a")
              MockExamples.oneUser Hu) as [removed _].
  destruct (destroy_removes_the_document "better_auth" (VStr "u1") (VStr "9-z")
              MockExamples.oneUser Hu) as [_ refused].
  split.
  - exact (proj1 (removed _ eq_refl)).
  - exact (proj1 (refused _ _ eq_refl)).
Defined.

(** *** The states the store reaches *)

Section Invariant.

Variable regexTest : string -> string -> outcome bool.
Variable random : nat -> string.
Variable now : nat -> Z.

Lemma append_dash (a b : string) : revision (VStr (a ++ "-" ++ b)) = true.
Proof. destruct a; reflexivity. Qed.

Lemma database_keyed (name : string) (s : State) :
  wellKeyed s ->
  uniqueKeys (database name s) /\ Forall keyedBy (database name s).
Proof.
  intros [_ Hall]. unfold database.
  destruct (mapGet (VStr name) (databases s)) as [db |] eqn:E.
  - apply mapGet_In in E. rewrite Forall_forall in Hall.
    exact (Hall _ E).
  - split; [exact I | constructor].
Qed.

Lemma Forall_mapSet_snd {A} (P : A -> Prop) (k : Value) (v : A) (m : list (Value * A)) :
  Forall (fun entry => P (snd entry)) m -> P v ->
  Forall (fun entry => P (snd entry)) (mapSet k v m).
Proof.
  intros Hm Hv. induction Hm as [| [k0 v0] rest H0 Hrest IH]; cbn [mapSet].
  - constructor; [exact Hv | constructor].
  - destruct (strictEq k0 k); constructor; assumption.
Qed.

Lemma Forall_mapSet_keyed (k : Value) (v : Value) (m : list (Value * Value)) :
  Forall keyedBy m -> keyedBy (k, v) -> Forall keyedBy (mapSet k v m).
Proof.
  intros Hm Hv. induction Hm as [| [k0 v0] rest H0 Hrest IH]; cbn [mapSet].
  - constructor; [exact Hv | constructor].
  - destruct (strictEq k0 k) eqn:E.
    + apply strictEq_eq in E. subst k0. constructor; assumption.
    + constructor; assumption.
Qed.

Lemma Forall_mapDelete {A} (P : Value * A -> Prop) (k : Value) (m : list (Value * A)) :
  Forall P m -> Forall P (mapDelete k m).
Proof.
  induction 1 as [| [k0 v0] rest H0 Hrest IH]; cbn [mapDelete]; [constructor |].
  destruct (strictEq k0 k); [exact Hrest | constructor; assumption].
Qed.

Lemma wellKeyed_withDatabase (name : string) (db : list (Value * Value)) (s : State) :
  wellKeyed s -> uniqueKeys db -> Forall keyedBy db ->
  wellKeyed (withDatabase name db s).
Proof.
  intros [Hu Hall] Hdb Hk. split; cbn [withDatabase databases].
  - now apply uniqueKeys_mapSet.
  - apply (Forall_mapSet_snd (fun d => uniqueKeys d /\ Forall keyedBy d));
      [exact Hall | now split].
Qed.

Lemma wellKeyed_counters (s : State) (counters : list (Value * Z)) (n : nat) :
  wellKeyed s ->
  wellKeyed {| databases := databases s; revCounter := counters; draws := n |}.
Proof. intros H. exact H. Qed.

Lemma insert_wellKeyed (name : string) (doc : Value) (s s' : State)
    (r : outcome Nano.InsertResponse) :
  wellKeyed s -> insert random now name doc s = (r, s') -> wellKeyed s'.
Proof.
  intros Hs. unfold insert.
  set (p := if truthy (JS.get doc "_id") then _ else _).
  assert (Hp : wellKeyed (snd p) /\ truthy (fst p) = true
               /\ database name (snd p) = database name s).
  { subst p. destruct (truthy (JS.get doc "_id")) eqn:Hid; cbn [fst snd].
    - split; [exact Hs | split; [exact Hid | reflexivity]].
    - split; [exact Hs | split; [reflexivity | reflexivity]]. }
  destruct p as [docId s1]. cbn [fst snd] in Hp. destruct Hp as [Hs1 [Hid Hdb]].
  match goal with
  | |- context [if ?c then _ else _] => destruct c
  end.
  - intros H; injection H as <- <-. exact Hs1.
  - unfold getRev. intros H; injection H as <- <-.
    destruct (database_keyed name s1 Hs1) as [Hu Hk].
    apply wellKeyed_withDatabase.
    + apply wellKeyed_counters. exact Hs1.
    + now apply uniqueKeys_mapSet.
    + apply Forall_mapSet_keyed; [exact Hk |].
      split; [exact Hid | split; [reflexivity | split]]; cbn [fst snd].
      * rewrite get_assign_other by discriminate. apply get_assign_same.
      * rewrite get_assign_same. apply append_dash.
Qed.

Lemma destroy_wellKeyed (name : string) (docId rev : Value) (s s' : State)
    (r : outcome unit) :
  wellKeyed s -> destroy name docId rev s = (r, s') -> wellKeyed s'.
Proof.
  intros Hs. unfold destroy.
  destruct (mapGet docId (database name s)) as [stored |];
    [| intros H; injection H as <- <-; exact Hs].
  destruct (negb _); intros H; injection H as <- <-; [exact Hs |].
  destruct (database_keyed name s Hs) as [Hu Hk].
  apply wellKeyed_withDatabase; [exact Hs | |].
  - now apply uniqueKeys_mapDelete.
  - now apply Forall_mapDelete.
Qed.

Lemma ensure_wellKeyed (name : string) (s : State) :
  wellKeyed s ->
  wellKeyed (match mapGet (VStr name) (databases s) with
             | Some _ => s
             | None => withDatabase name [] s
             end).
Proof.
  intros Hs. destruct (mapGet (VStr name) (databases s)); [exact Hs |].
  apply wellKeyed_withDatabase; [exact Hs | exact I | constructor].
Qed.

Lemma find_state (name : string) (q : Nano.MangoQuery) (s s' : State)
    (r : outcome Nano.FindResponse) :
  find regexTest name q s = (r, s') -> s' = s.
Proof.
  unfold find.
  destruct (match Nano.selector q with
            | VObj (_ :: _) => _
            | _ => _
            end) as [docs | e |]; intros H; now injection H.
Qed.

Lemma get_state (name : string) (docId : Value) (s s' : State) (r : outcome Value) :
  get name docId s = (r, s') -> s' = s.
Proof.
  unfold get. destruct (mapGet docId (database name s)); intros H; now injection H.
Qed.

(** X12.  The store keeps its maps in order: from the empty store on,
    after every [insert], [destroy], [use] and [db.create], whether it
    succeeds or fails, no database and no identifier occurs twice, every
    identifier is truthy, and every stored document is an object that
    carries its key as [_id] and a non-empty string as [_rev].  [db.get],
    [get] and [find] leave the store as it is. *)
Theorem store_operations_keep_the_maps_in_order :
  wellKeyed empty
  /\ (forall name doc s r s',
        wellKeyed s -> insert random now name doc s = (r, s') -> wellKeyed s')
  /\ (forall name docId rev s r s',
        wellKeyed s -> destroy name docId rev s = (r, s') -> wellKeyed s')
  /\ (forall name s r s', wellKeyed s -> use regexTest random now name s = (r, s') -> wellKeyed s')
  /\ (forall name s r s', wellKeyed s -> db_create name s = (r, s') -> wellKeyed s')
  /\ (forall name s r s', db_get name s = (r, s') -> s' = s)
  /\ (forall name docId s r s', get name docId s = (r, s') -> s' = s)
  /\ (forall name q s r s', find regexTest name q s = (r, s') -> s' = s).
Proof.
  split; [| split; [| split; [| split; [| split; [| split; [| split]]]]]].
  - split; [exact I | constructor].
  - intros name doc s r s'. apply insert_wellKeyed.
  - intros name docId rev s r s'. apply destroy_wellKeyed.
  - intros name s r s' Hs H. unfold use in H. injection H as <- <-.
    now apply ensure_wellKeyed.
  - intros name s r s' Hs H. unfold db_create in H. injection H as <- <-.
    now apply ensure_wellKeyed.
  - intros name s r s'. unfold db_get.
    destruct (mapGet (VStr name) (databases s)); intros H; now injection H.
  - intros name docId s r s'. apply get_state.
  - intros name q s r s'. apply find_state.
Qed.

End Invariant.

Lemma oneUser_wellKeyed : wellKeyed MockExamples.oneUser.
Proof.
  split.
  - cbn. tauto.
  - repeat constructor.
Qed.

(** The store with the user [u1], after a write of [u2]. *)
Lemma store_operations_witness :
  wellKeyed
    (snd (insert MockExamples.random MockExamples.now "better_auth"
            (VObj [("_id", VStr "u2"); ("name", VStr "Bob")]) MockExamples.oneUser)).
Proof.
  exact (proj1 (proj2 (store_operations_keep_the_maps_in_order
                         MockExamples.engine MockExamples.random MockExamples.now))
           "better_auth" (VObj [("_id", VStr "u2"); ("name", VStr "Bob")])
           MockExamples.oneUser _ _ oneUser_wellKeyed eq_refl).
Defined.

(** *** [find] *)

Section Finding.

Variable regexTest : string -> string -> outcome bool.

Lemma filterDocs_kept (selector : Value) (docs kept : list Value) :
  filterDocs regexTest docs selector = Ok kept ->
  incl kept docs
  /\ Forall (fun d => matchesSelector regexTest d selector = Ok true) kept
  /\ (length kept <= length docs)%nat.
Proof.
  revert kept. induction docs as [| d docs IH]; intros kept H.
  - injection H as <-. split; [easy | split; [constructor | reflexivity]].
  - cbn [filterDocs] in H.
    destruct (matchesSelector regexTest d selector) as [keep | |] eqn:Hd; try discriminate.
    cbn [obind] in H.
    destruct (filterDocs regexTest docs selector) as [k | |]; try discriminate.
    cbn [obind] in H. injection H as <-.
    destruct (IH k eq_refl) as [Hincl [Hall Hlen]].
    destruct keep.
    + split; [| split].
      * intros x [<- | Hx]; [now left | right; now apply Hincl].
      * constructor; assumption.
      * cbn [length]. lia.
    + split; [| split].
      * intros x Hx. right. now apply Hincl.
      * exact Hall.
      * cbn [length]. lia.
Qed.

Lemma filterDocs_complete (selector : Value) (docs kept : list Value) (d : Value) :
  filterDocs regexTest docs selector = Ok kept ->
  In d docs -> matchesSelector regexTest d selector = Ok true -> In d kept.
Proof.
  revert kept. induction docs as [| x docs IH]; intros kept H Hin Hd; [destruct Hin |].
  cbn [filterDocs] in H.
  destruct (matchesSelector regexTest x selector) as [keep | |] eqn:Hx; try discriminate.
  cbn [obind] in H.
  destruct (filterDocs regexTest docs selector) as [k | |]; try discriminate.
  cbn [obind] in H. injection H as <-.
  destruct Hin as [-> | Hin].
  - rewrite Hd in Hx. injection Hx as <-. now left.
  - specialize (IH k eq_refl Hin Hd). destruct keep; [now right | exact IH].
Qed.

Lemma skipn_incl {A} (k : nat) (l : list A) : incl (skipn k l) l.
Proof.
  intros x Hx. rewrite <- (firstn_skipn k l). apply in_or_app. now right.
Qed.

Lemma firstn_incl {A} (k : nat) (l : list A) : incl (firstn k l) l.
Proof.
  intros x Hx. rewrite <- (firstn_skipn k l). apply in_or_app. now left.
Qed.

Lemma sliceFrom_incl {A} (n : Z) (l : list A) : incl (sliceFrom n l) l.
Proof. apply skipn_incl. Qed.

Lemma sliceTo_incl {A} (n : Z) (l : list A) : incl (sliceTo n l) l.
Proof. apply firstn_incl. Qed.

Lemma sliceTo_length {A} (n : Z) (l : list A) :
  0 < n -> Z.of_nat (length (sliceTo n l)) <= n.
Proof.
  intros Hn. unfold sliceTo.
  destruct (n <? 0) eqn:E; [apply Z.ltb_lt in E; lia |].
  pose proof (firstn_le_length (Z.to_nat n) l). lia.
Qed.

Lemma incl_Forall {A} (P : A -> Prop) (l l' : list A) :
  incl l l' -> Forall P l' -> Forall P l.
Proof.
  intros Hincl H. rewrite Forall_forall in *. intros x Hx. apply H. now apply Hincl.
Qed.

(** X13.  [find] leaves the store as it is.  Every document it returns is
    stored in the database and, for a selector with at least one key,
    matches the selector; a positive [limit] bounds their number.  Without
    a (non-zero) [limit] and [skip], every stored document that matches
    the selector, an object, is returned; a [limit] or [skip] of 0 counts
    as none. *)
Theorem find_returns_stored_matching_documents
    (name : string) (q : Nano.MangoQuery) (s s' : State) (r : Nano.FindResponse) :
  find regexTest name q s = (Ok r, s') ->
  s' = s
  /\ incl (Nano.docs r) (map snd (database name s))
  /\ (forall p ps,
        Nano.selector q = VObj (p :: ps) ->
        Forall (fun d => matchesSelector regexTest d (Nano.selector q) = Ok true)
          (Nano.docs r))
  /\ (forall n, Nano.limit q = Some n -> 0 < n -> Z.of_nat (length (Nano.docs r)) <= n)
  /\ (isPlainObject (Nano.selector q) = true ->
      Nano.limit q = None \/ Nano.limit q = Some 0 ->
      Nano.skip q = None \/ Nano.skip q = Some 0 ->
      forall d,
        In d (map snd (database name s)) ->
        (forall p ps, Nano.selector q = VObj (p :: ps) ->
                      matchesSelector regexTest d (Nano.selector q) = Ok true) ->
        In d (Nano.docs r)).
Proof.
  unfold find.
  set (all := map snd (database name s)).
  set (filtered := match Nano.selector q with
                   | VObj (_ :: _) => filterDocs regexTest all (Nano.selector q)
                   | _ => Ok all
                   end).
  destruct filtered as [docs | e |] eqn:Hf; try discriminate.
  set (sorted := match Nano.sort q with
                 | Some (item :: items) => sortWith (compareBy (item :: items)) docs
                 | _ => docs
                 end).
  set (skipped := match Nano.skip q with
                  | Some n => if n =? 0 then sorted else sliceFrom n sorted
                  | None => sorted
                  end).
  set (limited := match Nano.limit q with
                  | Some n => if n =? 0 then skipped else sliceTo n skipped
                  | None => skipped
                  end).
  intros H. injection H as <- <-. cbn [Nano.docs].
  assert (Hsorted : Permutation sorted docs).
  { subst sorted. destruct (Nano.sort q) as [[| item items] |];
      [reflexivity | apply sortWith_perm | reflexivity]. }
  assert (Hskipped : incl skipped sorted).
  { subst skipped. destruct (Nano.skip q) as [n |]; [| apply incl_refl].
    destruct (n =? 0); [apply incl_refl | apply sliceFrom_incl]. }
  assert (Hlimited : incl limited skipped).
  { subst limited. destruct (Nano.limit q) as [n |]; [| apply incl_refl].
    destruct (n =? 0); [apply incl_refl | apply sliceTo_incl]. }
  assert (Hdocs : incl limited docs).
  { intros x Hx. apply (Permutation_in _ Hsorted). apply Hskipped. now apply Hlimited. }
  split; [reflexivity |]. split; [| split; [| split]].
  - intros x Hx. apply Hdocs in Hx.
    subst filtered. destruct (Nano.selector q) as [| | | | | | [| p ps]];
      try (injection Hf as <-; exact Hx).
    now apply (proj1 (filterDocs_kept _ _ _ Hf)).
  - intros p ps Hsel. apply (incl_Forall _ _ _ Hdocs).
    subst filtered. rewrite Hsel in Hf. rewrite Hsel.
    now apply (filterDocs_kept _ _ _ Hf).
  - intros n Hn Hpos. subst limited. rewrite Hn.
    destruct (n =? 0) eqn:E; [apply Z.eqb_eq in E; lia |].
    now apply sliceTo_length.
  - intros _ Hlimit Hskip d Hd Hmatch.
    assert (Hl : limited = skipped).
    { subst limited. destruct Hlimit as [-> | ->]; reflexivity. }
    assert (Hk : skipped = sorted).
    { subst skipped. destruct Hskip as [-> | ->]; reflexivity. }
    rewrite Hl, Hk. apply (Permutation_in _ (Permutation_sym Hsorted)).
    subst filtered. destruct (Nano.selector q) as [| | | | | | [| p ps]] eqn:Hsel;
      try (injection Hf as <-; exact Hd).
    apply (filterDocs_complete _ _ _ _ Hf Hd). now apply (Hmatch p ps).
Qed.

End Finding.

(** A query for the users, one at most, on the store with the user [u1]. *)
Lemma find_returns_witness :
  snd (find MockExamples.engine "better_auth"
         (query (VObj [("betterAuthModel", VStr "user")]) (Some 1)) MockExamples.oneUser)
  = MockExamples.oneUser.
Proof.
  pose proof
    (fun r s' H =>
       proj1 (find_returns_stored_matching_documents MockExamples.engine "better_auth"
                (query (VObj [("betterAuthModel", VStr "user")]) (Some 1))
                MockExamples.oneUser s' r H)) as unchanged.
  eapply unchanged. reflexivity.
Defined.

(** *** Selectors *)

Section Selectors.

Variable regexTest : string -> string -> outcome bool.

Local Abbreviation matches := (matchesSelector regexTest).

Lemma matches_cons (doc : Value) (key : string) (value : Value)
    (rest : list (string * Value)) :
  String.eqb key "$and" = false -> String.eqb key "$or" = false ->
  matches doc (VObj ((key, value) :: rest))
  = (b <-! matches doc (VObj [(key, value)]) ;;
     if b then matches doc (VObj rest) else Ok false).
Proof.
  intros Hand Hor. cbn [matchesSelector]. rewrite Hand, Hor.
  destruct (getE doc key) as [docValue | e |]; cbn [obind]; try reflexivity.
  destruct (match value with
            | VObj _ => _
            | _ => _
            end) as [[|] | e |]; reflexivity.
Qed.

Lemma matches_equal (doc : Value) (key : string) (value : Value) :
  is_nullish doc = false ->
  String.eqb key "$and" = false -> String.eqb key "$or" = false ->
  scalar value = true -> defined value = true ->
  matches doc (VObj [(key, value)]) = Ok (strictEq (JS.get doc key) value)
  /\ matches doc (VObj [(key, VObj [("$eq", value)])])
     = Ok (strictEq (JS.get doc key) value).
Proof.
  intros Hdoc Hand Hor Hs Hd.
  assert (Hget : getE doc key = Ok (JS.get doc key)) by (destruct doc; easy).
  split.
  - cbn [matchesSelector]. rewrite Hand, Hor, Hget. cbn [obind].
    destruct value; try discriminate Hs; cbn [obind];
      match goal with |- (if ?b then _ else _) = _ => destruct b end; reflexivity.
  - cbn [matchesSelector]. rewrite Hand, Hor, Hget. cbn [obind].
    unfold matchOperators. cbn [JS.get lookup String.eqb Ascii.eqb Bool.eqb].
    rewrite Hd. cbn [obind].
    destruct (strictEq (JS.get doc key) value); reflexivity.
Qed.

(** X14.  How the in-memory store reads a selector.  The empty selector
    matches every document.  The entries of a selector are conjoined, one
    after the other, up to the first [$and] or [$or]: that key gives the
    verdict (every member, or some member, matches) and the entries after it
    are not looked at.  And on a field, a value that is no object and no
    array stands for [$eq] of that value. *)
Theorem selector_entries_are_conjoined_up_to_a_connective :
  (forall doc, matches doc (VObj []) = Ok true)
  /\ (forall doc key value rest,
        String.eqb key "$and" = false -> String.eqb key "$or" = false ->
        matches doc (VObj ((key, value) :: rest))
        = (b <-! matches doc (VObj [(key, value)]) ;;
           if b then matches doc (VObj rest) else Ok false))
  /\ (forall doc subs rest,
        matches doc (VObj (("$and", VArr subs) :: rest)) = every (matches doc) subs)
  /\ (forall doc subs rest,
        matches doc (VObj (("$or", VArr subs) :: rest)) = some (matches doc) subs)
  /\ (forall doc key value,
        is_nullish doc = false ->
        String.eqb key "$and" = false -> String.eqb key "$or" = false ->
        scalar value = true -> defined value = true ->
        matches doc (VObj [(key, value)])
        = matches doc (VObj [(key, VObj [("$eq", value)])])).
Proof.
  split; [| split; [| split; [| split]]].
  - reflexivity.
  - intros doc key value rest. apply matches_cons.
  - reflexivity.
  - reflexivity.
  - intros doc key value Hdoc Hand Hor Hs Hd.
    destruct (matches_equal doc key value Hdoc Hand Hor Hs Hd) as [-> ->].
    reflexivity.
Qed.

End Selectors.

(** The user [u1] against his name, written both ways. *)
Lemma selector_entries_witness :
  matchesSelector MockExamples.engine Scripted.user1 (VObj [("name", VStr "Ann")])
  = matchesSelector MockExamples.engine Scripted.user1
      (VObj [("name", VObj [("$eq", VStr "Ann")])]).
Proof.
  exact (proj2 (proj2 (proj2 (proj2
           (selector_entries_are_conjoined_up_to_a_connective MockExamples.engine))))
           Scripted.user1 "name" (VStr "Ann") eq_refl eq_refl eq_refl eq_refl eq_refl).
Defined.

(** *** Sorting *)

Section Sorting.

Variable host : Host.
Variable model : string.

Lemma compare_agree (order : list SortBy) (a b : Value) :
  compareDocs host model order a b
  = compareBy
      (map (fun o => (getFieldName host model (field o),
                      if String.eqb (direction o) "desc" then "desc" else "asc"))
           order) a b.
Proof.
  induction order as [| o order IH]; [reflexivity |].
  cbn [compareDocs compareBy map]. rewrite IH.
  destruct (String.eqb (direction o) "desc"); reflexivity.
Qed.

Lemma sortWith_ext {A} (f g : A -> A -> Z) (l : list A) :
  (forall a b, f a b = g a b) -> sortWith f l = sortWith g l.
Proof.
  intros H. unfold sortWith. induction l as [| x l IH]; [reflexivity |].
  cbn [fold_right]. rewrite IH.
  generalize (fold_right (insertSorted g) [] l). intros sorted.
  induction sorted as [| y sorted IHs]; [reflexivity |].
  cbn [insertSorted]. now rewrite H, IHs.
Qed.

(** X15.  The in-memory sort of [findMany]'s fallback orders documents
    exactly as the in-memory store's [sortDocs] orders them for the sort
    that [findMany] sends to the store. *)
Theorem fallback_sorts_as_the_store (order : list SortBy) (sort : list (string * string))
    (docs : list Value) :
  sortOf host model order = Some sort ->
  inMemory host model order None docs = sortWith (compareBy sort) docs.
Proof.
  unfold sortOf, inMemory. destruct order as [| o order]; [discriminate |].
  intros H. injection H as <-.
  apply sortWith_ext. intros a b. apply compare_agree.
Qed.

End Sorting.

(** Three people by age, descending. *)
Lemma fallback_sorts_witness :
  inMemory Scripted.plainHost "user" (Scripted.byAge "desc") None
    [Scripted.aged30; Scripted.ageless; Scripted.aged25]
  = sortWith (compareBy [("age", "desc")])
      [Scripted.aged30; Scripted.ageless; Scripted.aged25].
Proof.
  exact (fallback_sorts_as_the_store Scripted.plainHost "user" (Scripted.byAge "desc")
           [("age", "desc")] [Scripted.aged30; Scripted.ageless; Scripted.aged25]
           eq_refl).
Defined.

End StoreLaws.

(** ** Further properties of the adapter *)

Module AdapterLaws.
Import Compiler Mock Adapter Reference Auxiliary Vocabulary AdapterFacts.

(** *** [update] *)

Section Updating.

Context {St : Type}.
Variable couch : Nano.ServerScope St.
Variable config : CouchDBAdapterConfig.
Variable host : Host.

Lemma not_404_409 (e : JsError) :
  statusCode e = None -> status_is e 404 = false /\ status_is e 409 = false.
Proof. unfold status_is. now intros ->. Qed.

Lemma update_write_fetch_fails (db : Nano.DocumentScope St) (model : string)
    (docId transformedData : Value) (e : JsError) (s1 s2 : St) :
  Nano.get db docId s1 = (Throw e, s2) ->
  update_write config host db model docId transformedData s1
  = (if status_is e 404 then throw (NewError ("Document not found: " ++ toString docId))
     else if status_is e 409 then
            existing <- Nano.get db docId ;;
            insertAndFetch host db model (merge existing transformedData)
          else throw e) s2.
Proof.
  intros Hget. unfold update_write.
  now rewrite (tryCatch_throw _ _ _ _ _ (bind_throw _ _ _ _ _ Hget)).
Qed.

Lemma update_write_other_model (db : Nano.DocumentScope St) (model : string)
    (docId transformedData existing : Value) (s1 s2 : St) :
  Nano.get db docId s1 = (Ok existing, s2) ->
  otherModel config host existing model = true ->
  update_write config host db model docId transformedData s1
  = (Throw (NewError ("Document not found for update in model " ++ model)), s2).
Proof.
  intros Hget Hother. unfold update_write.
  assert (Hbody :
    bind (Nano.get db docId)
      (fun existing =>
         if otherModel config host existing model then
           throw (NewError ("Document not found for update in model " ++ model))
         else insertAndFetch host db model (merge existing transformedData)) s1
    = (Throw (NewError ("Document not found for update in model " ++ model)), s2)).
  { rewrite (bind_ok _ _ _ _ _ Hget), Hother. reflexivity. }
  rewrite (tryCatch_throw _ _ _ _ _ Hbody). reflexivity.
Qed.

Lemma update_write_insert_fails (db : Nano.DocumentScope St) (model : string)
    (docId transformedData existing : Value) (e : JsError) (s1 s2 s3 : St) :
  Nano.get db docId s1 = (Ok existing, s2) ->
  otherModel config host existing model = false ->
  Nano.insert db (merge existing transformedData) s2 = (Throw e, s3) ->
  status_is e 404 = false -> status_is e 409 = false ->
  update_write config host db model docId transformedData s1 = (Throw e, s3).
Proof.
  intros Hget Hother Hins H404 H409. unfold update_write.
  assert (Hbody :
    bind (Nano.get db docId)
      (fun existing =>
         if otherModel config host existing model then
           throw (NewError ("Document not found for update in model " ++ model))
         else insertAndFetch host db model (merge existing transformedData)) s1
    = (Throw e, s3)).
  { rewrite (bind_ok _ _ _ _ _ Hget), Hother. unfold insertAndFetch.
    now apply bind_throw. }
  rewrite (tryCatch_throw _ _ _ _ _ Hbody). now rewrite H404, H409.
Qed.

(** X16.  An [update] that cannot find its document fails without writing.
    When the where clause names no identifier and the store finds no
    document for it, and when the document fetched is stamped for another
    model, the error is "Document not found for update in model ..."; when
    the fetch fails with 404 it is "Document not found: " and the
    identifier.  In each case the store is left as the last look-up left
    it.  A failure of the fetch or of the write with any status but 404
    and 409 is rethrown as it is. *)
Theorem update_reports_what_it_cannot_find
    (data_ update_ : Value) (model : string) (where_ : Value)
    (db : Nano.DocumentScope St) (s s0 : St) :
  let transformedWhere :=
    transformWhereClause host where_ (getDefaultModelName host model) in
  getDatabase couch config (getModelName host model) s = (Ok db, s0) ->
  (forall docId selector found s1,
      idFromWhere transformedWhere = Ok docId -> truthy docId = false ->
      modelSelector config host transformedWhere model = Ok selector ->
      Nano.find db (query selector (Some 1)) s0 = (Ok found, s1) ->
      Nano.docs found = [] ->
      update couch config host data_ update_ model where_ s
      = (Throw (NewError ("Document not found for update in model " ++ model)), s1))
  /\ (forall docId e s1 s2,
        update_resolve config host db model transformedWhere s0 = (Ok docId, s1) ->
        Nano.get db docId s1 = (Throw e, s2) ->
        status_is e 404 = true ->
        update couch config host data_ update_ model where_ s
        = (Throw (NewError ("Document not found: " ++ toString docId)), s2))
  /\ (forall docId existing s1 s2,
        update_resolve config host db model transformedWhere s0 = (Ok docId, s1) ->
        Nano.get db docId s1 = (Ok existing, s2) ->
        otherModel config host existing model = true ->
        update couch config host data_ update_ model where_ s
        = (Throw (NewError ("Document not found for update in model " ++ model)), s2))
  /\ (forall docId e s1 s2,
        update_resolve config host db model transformedWhere s0 = (Ok docId, s1) ->
        Nano.get db docId s1 = (Throw e, s2) ->
        status_is e 404 = false -> status_is e 409 = false ->
        update couch config host data_ update_ model where_ s = (Throw e, s2))
  /\ (forall docId existing e s1 s2 s3,
        update_resolve config host db model transformedWhere s0 = (Ok docId, s1) ->
        Nano.get db docId s1 = (Ok existing, s2) ->
        otherModel config host existing model = false ->
        Nano.insert db
          (merge existing
             (transformInput host (coalesce update_ data_)
                (getDefaultModelName host model) "update")) s2
        = (Throw e, s3) ->
        status_is e 404 = false -> status_is e 409 = false ->
        update couch config host data_ update_ model where_ s = (Throw e, s3)).
Proof.
  intros transformedWhere Hdb.
  split; [| split; [| split; [| split]]].
  - intros docId selector found s1 Hid Hfalsy Hsel Hfind Hnone.
    unfold update. rewrite (bind_ok _ _ _ _ _ Hdb).
    assert (Hres : update_resolve config host db model transformedWhere s0
                   = (Throw (NewError ("Document not found for update in model " ++ model)),
                      s1)).
    { unfold update_resolve, bind, lift. subst transformedWhere.
      rewrite Hid, Hfalsy. cbn [negb]. rewrite Hsel, Hfind, Hnone. reflexivity. }
    now rewrite (bind_throw _ _ _ _ _ Hres).
  - intros docId e s1 s2 Hres Hget H404.
    unfold update. rewrite (bind_ok _ _ _ _ _ Hdb), (bind_ok _ _ _ _ _ Hres).
    rewrite (update_write_fetch_fails _ _ _ _ _ _ _ Hget). now rewrite H404.
  - intros docId existing s1 s2 Hres Hget Hother.
    unfold update. rewrite (bind_ok _ _ _ _ _ Hdb), (bind_ok _ _ _ _ _ Hres).
    now apply (update_write_other_model _ _ _ _ existing s1 s2).
  - intros docId e s1 s2 Hres Hget H404 H409.
    unfold update. rewrite (bind_ok _ _ _ _ _ Hdb), (bind_ok _ _ _ _ _ Hres).
    rewrite (update_write_fetch_fails _ _ _ _ _ _ _ Hget). now rewrite H404, H409.
  - intros docId existing e s1 s2 s3 Hres Hget Hother Hins H404 H409.
    unfold update. rewrite (bind_ok _ _ _ _ _ Hdb), (bind_ok _ _ _ _ _ Hres).
    now apply (update_write_insert_fails _ _ _ _ existing e s1 s2 s3).
Qed.

End Updating.

(** An update of [u1] whose fetch finds nothing: the store sees the look-up
    of the database and the fetch, and no write. *)
Lemma update_reports_witness :
  update Scripted.server Scripted.sharedConfig Scripted.plainHost
    VUndefined Scripted.newName "user" (Scripted.byId "u1")
    (Scripted.start [Scripted.Done; Scripted.Fails Scripted.notFound])
  = (Throw (NewError "Document not found: u1"),
     {| Scripted.script := [];
        Scripted.log := [Scripted.DbGet "better_auth";
                         Scripted.Get "better_auth" (VStr "u1")] |}).
Proof.
  pose proof
    (fun db s0 docId e s1 s2 H1 H2 H3 H4 =>
       proj1 (proj2 (update_reports_what_it_cannot_find Scripted.server
                       Scripted.sharedConfig Scripted.plainHost
                       VUndefined Scripted.newName "user" (Scripted.byId "u1") db
                       (Scripted.start [Scripted.Done; Scripted.Fails Scripted.notFound])
                       s0 H1)) docId e s1 s2 H2 H3 H4) as missing.
  eapply (missing _ _ (VStr "u1")); reflexivity.
Defined.
(** *** [delete] and [deleteMany] *)

Section Removing.

Context {St : Type}.
Variable couch : Nano.ServerScope St.
Variable config : CouchDBAdapterConfig.
Variable host : Host.

Lemma deleteMany_loop_removals (db : Nano.DocumentScope St)
    (docs : list Value) (s s' : St) (n : Z) (result : outcome unit) :
  Removals db docs s n result s' ->
  forall deletedCount,
    deleteMany_loop db docs deletedCount s
    = (match result with
       | Ok _ => Ok (deletedCount + n)
       | Throw e => Throw e
       | OutOfFuel => OutOfFuel
       end, s').
Proof.
  induction 1 as [s
                 | doc rest s s' s'' n result Hdel _ IH
                 | doc rest s s' s'' e n result Hdel H404 _ IH
                 | doc rest s s' e Hdel H404]; intros deletedCount.
  - cbn [deleteMany_loop]. unfold ret. do 2 f_equal. lia.
  - cbn [deleteMany_loop].
    assert (Hbody :
      tryCatch
        (bind (Nano.destroy db (JS.get doc "_id") (orElse (JS.get doc "_rev") (VStr "")))
           (fun _ => ret (deletedCount + 1)))
        (fun error => if negb (status_is error 404) then throw error
                      else ret deletedCount) s
      = (Ok (deletedCount + 1), s')).
    { apply tryCatch_ok. now rewrite (bind_ok _ _ _ _ _ Hdel). }
    rewrite (bind_ok _ _ _ _ _ Hbody), IH.
    destruct result; try reflexivity. do 2 f_equal. lia.
  - cbn [deleteMany_loop].
    assert (Hbody :
      tryCatch
        (bind (Nano.destroy db (JS.get doc "_id") (orElse (JS.get doc "_rev") (VStr "")))
           (fun _ => ret (deletedCount + 1)))
        (fun error => if negb (status_is error 404) then throw error
                      else ret deletedCount) s
      = (Ok deletedCount, s')).
    { rewrite (tryCatch_throw _ _ _ _ _ (bind_throw _ _ _ _ _ Hdel)).
      now rewrite H404. }
    rewrite (bind_ok _ _ _ _ _ Hbody). apply IH.
  - cbn [deleteMany_loop].
    assert (Hbody :
      tryCatch
        (bind (Nano.destroy db (JS.get doc "_id") (orElse (JS.get doc "_rev") (VStr "")))
           (fun _ => ret (deletedCount + 1)))
        (fun error => if negb (status_is error 404) then throw error
                      else ret deletedCount) s
      = (Throw e, s')).
    { rewrite (tryCatch_throw _ _ _ _ _ (bind_throw _ _ _ _ _ Hdel)).
      now rewrite H404. }
    now rewrite (bind_throw _ _ _ _ _ Hbody).
Qed.

Lemma Removals_total (db : Nano.DocumentScope St) :
  (forall id rev s, fst (Nano.destroy db id rev s) <> OutOfFuel) ->
  forall docs s, exists n result s', Removals db docs s n result s'.
Proof.
  intros Htotal. induction docs as [| doc rest IH]; intros s.
  - exists 0, (Ok tt), s. constructor.
  - destruct (Nano.destroy db (JS.get doc "_id") (orElse (JS.get doc "_rev") (VStr "")) s)
      as [[[] | e |] s'] eqn:Hdel.
    + destruct (IH s') as [n [result [s'' Hrest]]].
      exists (n + 1), result, s''. now apply (Removals_removed db doc rest s s' s'').
    + destruct (status_is e 404) eqn:H404.
      * destruct (IH s') as [n [result [s'' Hrest]]].
        exists n, result, s''. now apply (Removals_gone db doc rest s s' s'' e).
      * exists 0, (Throw e), s'. now apply (Removals_failed db doc rest s s' e).
    + exfalso. apply (Htotal (JS.get doc "_id") (orElse (JS.get doc "_rev") (VStr "")) s).
      now rewrite Hdel.
Qed.

(** X17.  [deleteMany] removes the documents found one after the other, in
    the order found, each under its [_id] with its [_rev]; a removal that
    fails with 404 is passed over without counting, the first removal that
    fails otherwise ends the batch with its error, and the number returned
    is the number of removals that succeeded. *)
Theorem deleteMany_counts_successful_removals
    (model : string) (where_ : Value) (db : Nano.DocumentScope St)
    (selector : Value) (found : Nano.FindResponse)
    (n : Z) (result : outcome unit) (s s0 s1 s2 : St) :
  getDatabase couch config (getModelName host model) s = (Ok db, s0) ->
  modelSelector config host
    (transformWhereClause host where_ (getDefaultModelName host model)) model
  = Ok selector ->
  Nano.find db (query selector None) s0 = (Ok found, s1) ->
  Removals db (Nano.docs found) s1 n result s2 ->
  deleteMany couch config host model where_ s
  = (match result with
     | Ok _ => Ok n
     | Throw e => Throw e
     | OutOfFuel => OutOfFuel
     end, s2).
Proof.
  intros Hdb Hsel Hfind Hrem. unfold deleteMany.
  rewrite (bind_ok _ _ _ _ _ Hdb).
  unfold bind at 1, lift. rewrite Hsel.
  rewrite (bind_ok _ _ _ _ _ Hfind).
  rewrite (deleteMany_loop_removals _ _ _ _ _ _ Hrem 0).
  destruct result; reflexivity.
Qed.

Lemma delete_remove_other_model (db : Nano.DocumentScope St) (model : string)
    (docId doc : Value) (s1 s2 : St) :
  truthy docId = true ->
  Nano.get db docId s1 = (Ok doc, s2) ->
  otherModel config host doc model = true ->
  delete_remove config host db model docId s1 = (Ok tt, s2).
Proof.
  intros Ht Hget Hother. unfold delete_remove. rewrite Ht. cbn [negb].
  apply tryCatch_ok. now rewrite (bind_ok _ _ _ _ _ Hget), Hother.
Qed.

(** X18.  Under the shared database a [delete] whose identifier leads to a
    document stamped for another model returns successfully without
    removing anything: the store is left as the fetch left it.  A failure
    of the fetch or of the removal with a status other than 404 is
    rethrown. *)
Theorem delete_spares_other_models
    (model : string) (where_ : Value) (db : Nano.DocumentScope St) (s s0 : St) :
  let transformedWhere :=
    transformWhereClause host where_ (getDefaultModelName host model) in
  getDatabase couch config (getModelName host model) s = (Ok db, s0) ->
  (forall docId doc s1 s2,
      delete_resolve config host db model transformedWhere s0 = (Ok (Some docId), s1) ->
      truthy docId = true ->
      Nano.get db docId s1 = (Ok doc, s2) ->
      otherModel config host doc model = true ->
      delete couch config host model where_ s = (Ok tt, s2))
  /\ (forall docId e s1 s2,
        delete_resolve config host db model transformedWhere s0 = (Ok (Some docId), s1) ->
        truthy docId = true ->
        Nano.get db docId s1 = (Throw e, s2) ->
        status_is e 404 = false ->
        delete couch config host model where_ s = (Throw e, s2))
  /\ (forall docId doc e s1 s2 s3,
        delete_resolve config host db model transformedWhere s0 = (Ok (Some docId), s1) ->
        truthy docId = true ->
        Nano.get db docId s1 = (Ok doc, s2) ->
        otherModel config host doc model = false ->
        Nano.destroy db (JS.get doc "_id") (orElse (JS.get doc "_rev") (VStr "")) s2
        = (Throw e, s3) ->
        status_is e 404 = false ->
        delete couch config host model where_ s = (Throw e, s3)).
Proof.
  intros transformedWhere Hdb. split; [| split].
  - intros docId doc s1 s2 Hres Ht Hget Hother.
    unfold delete. rewrite (bind_ok _ _ _ _ _ Hdb), (bind_ok _ _ _ _ _ Hres).
    now apply (delete_remove_other_model _ _ _ doc).
  - intros docId e s1 s2 Hres Ht Hget H404.
    unfold delete. rewrite (bind_ok _ _ _ _ _ Hdb), (bind_ok _ _ _ _ _ Hres).
    unfold delete_remove. rewrite Ht. cbn [negb].
    rewrite (tryCatch_throw _ _ _ _ _ (bind_throw _ _ _ _ _ Hget)).
    now rewrite H404.
  - intros docId doc e s1 s2 s3 Hres Ht Hget Hother Hdel H404.
    unfold delete. rewrite (bind_ok _ _ _ _ _ Hdb), (bind_ok _ _ _ _ _ Hres).
    unfold delete_remove. rewrite Ht. cbn [negb].
    assert (Hbody :
      bind (Nano.get db docId)
        (fun doc =>
           if otherModel config host doc model then ret tt
           else Nano.destroy db (JS.get doc "_id") (orElse (JS.get doc "_rev") (VStr "")))
        s1 = (Throw e, s3)).
    { rewrite (bind_ok _ _ _ _ _ Hget), Hother. exact Hdel. }
    rewrite (tryCatch_throw _ _ _ _ _ Hbody). now rewrite H404.
Qed.

End Removing.

(** A delete for sessions whose identifier is the user's: the store sees
    the look-up of the database and the fetch, and no removal. *)
Lemma delete_spares_witness :
  Adapter.delete Scripted.server Scripted.sharedConfig Scripted.plainHost
    "session" (Scripted.byId "u1")
    (Scripted.start [Scripted.Done; Scripted.Document Scripted.user1])
  = (Ok tt,
     {| Scripted.script := [];
        Scripted.log := [Scripted.DbGet "better_auth";
                         Scripted.Get "better_auth" (VStr "u1")] |}).
Proof.
  pose proof
    (fun db s0 docId doc s1 s2 H1 H2 H3 H4 H5 =>
       proj1 (delete_spares_other_models Scripted.server
                Scripted.sharedConfig Scripted.plainHost
                "session" (Scripted.byId "u1") db
                (Scripted.start [Scripted.Done; Scripted.Document Scripted.user1])
                s0 H1) docId doc s1 s2 H2 H3 H4 H5) as spared.
  eapply spared; reflexivity.
Defined.

(** A batch over three documents of which the second is gone already: all
    three removals are tried in order, and two are counted. *)
Lemma deleteMany_counts_witness :
  deleteMany Scripted.server Scripted.sharedConfig Scripted.plainHost
    "user" Scripted.admins
    (Scripted.start [Scripted.Done;
                     Scripted.Found [Scripted.admin "u1" "1-a";
                                     Scripted.admin "u2" "1-b";
                                     Scripted.admin "u3" "1-c"] None;
                     Scripted.Done;
                     Scripted.Fails Scripted.notFound;
                     Scripted.Done])
  = (Ok 2,
     {| Scripted.script := [];
        Scripted.log :=
          [Scripted.DbGet "better_auth";
           Scripted.Find "better_auth"
             (query (VObj [("role", VObj [("$eq", VStr "admin")]);
                           ("betterAuthModel", VStr "user")]) None);
           Scripted.Destroy "better_auth" (VStr "u1") (VStr "1-a");
           Scripted.Destroy "better_auth" (VStr "u2") (VStr "1-b");
           Scripted.Destroy "better_auth" (VStr "u3") (VStr "1-c")] |}).
Proof.
  pose proof
    (fun db selector found s0 s1 s2 =>
       deleteMany_counts_successful_removals Scripted.server
         Scripted.sharedConfig Scripted.plainHost
         "user" Scripted.admins
         db selector found (0 + 1 + 1) (Ok tt)
         (Scripted.start [Scripted.Done;
                          Scripted.Found [Scripted.admin "u1" "1-a";
                                          Scripted.admin "u2" "1-b";
                                          Scripted.admin "u3" "1-c"] None;
                          Scripted.Done;
                          Scripted.Fails Scripted.notFound;
                          Scripted.Done])
         s0 s1 s2) as batch.
  eapply batch; try reflexivity.
  eapply Removals_removed; [reflexivity |].
  eapply Removals_gone; [reflexivity | reflexivity |].
  eapply Removals_removed; [reflexivity |].
  apply Removals_done.
Defined.

(** *** [findOne] and [findMany] *)

Section Finding.

Context {St : Type}.
Variable couch : Nano.ServerScope St.
Variable config : CouchDBAdapterConfig.
Variable host : Host.



End Finding.



(** *** The identifier of [update] and [delete] *)

Section Resolving.

Context {St : Type}.
Variable config : CouchDBAdapterConfig.
Variable host : Host.

Lemma findIdCondition_first (pre post : list Value) (c : Value) :
  Forall (fun p => is_nullish p = false /\ names (JS.get p "field") = false) pre ->
  is_nullish c = false -> names (JS.get c "field") = true ->
  findIdCondition (pre ++ c :: post) = Ok (Some c).
Proof.
  intros Hpre Hc Hf. induction Hpre as [| p pre [Hp Hn] _ IH]; cbn [app findIdCondition].
  - assert (Hget : getE c "field" = Ok (JS.get c "field")) by (destruct c; easy).
    rewrite Hget. cbn [obind]. unfold names in Hf. now rewrite Hf.
  - assert (Hget : getE p "field" = Ok (JS.get p "field")) by (destruct p; easy).
    rewrite Hget. cbn [obind]. unfold names in Hn. now rewrite Hn.
Qed.

Lemma idFromWhere_first (pre post : list Value) (c : Value) (i : string) :
  Forall (fun p => is_nullish p = false /\ names (JS.get p "field") = false) pre ->
  is_nullish c = false -> names (JS.get c "field") = true ->
  truthy (JS.get c "value") = true ->
  stringOf (JS.get c "value") = Ok i -> i <> "" ->
  idFromWhere (VArr (pre ++ c :: post)) = Ok (VStr i).
Proof.
  intros Hpre Hc Hf Hv Hi Hne. unfold idFromWhere.
  rewrite (findIdCondition_first pre post c Hpre Hc Hf). cbn [obind]. rewrite Hv, Hi.
  cbn [obind truthy]. apply String.eqb_neq in Hne. now rewrite Hne.
Qed.

(** X21.  [update] and [delete] read the identifier off the where array
    without asking the store: the first condition whose field is [id] or
    [_id] gives it, as the string of its value, whatever its operator and
    whatever the other conditions.  (For a truthy value that [String]
    converts, to a string that is not empty.) *)
Theorem identifier_is_read_off_the_where_array
    (db : Nano.DocumentScope St) (model : string) (pre post : list Value) (c : Value)
    (i : string) (s : St) :
  Forall (fun p => is_nullish p = false /\ names (JS.get p "field") = false) pre ->
  is_nullish c = false -> names (JS.get c "field") = true ->
  truthy (JS.get c "value") = true ->
  stringOf (JS.get c "value") = Ok i -> i <> "" ->
  idFromWhere (VArr (pre ++ c :: post)) = Ok (VStr i)
  /\ update_resolve config host db model (VArr (pre ++ c :: post)) s
     = (Ok (VStr i), s)
  /\ delete_resolve config host db model (VArr (pre ++ c :: post)) s
     = (Ok (Some (VStr i)), s).
Proof.
  intros Hpre Hc Hf Hv Hi Hne.
  pose proof (idFromWhere_first pre post c i Hpre Hc Hf Hv Hi Hne) as Hid.
  assert (Ht : truthy (VStr i) = true).
  { cbn [truthy]. apply String.eqb_neq in Hne. now rewrite Hne. }
  split; [exact Hid | split].
  - unfold update_resolve, bind, lift. rewrite Hid, Ht. reflexivity.
  - unfold delete_resolve, bind, lift. rewrite Hid, Ht. reflexivity.
Qed.

End Resolving.

(** A where array with a condition on the name before the one on [_id]. *)
Lemma identifier_witness :
  idFromWhere
    (VArr ([condition "name" "eq" (VStr "Ann") "AND"]
           ++ condition "_id" "eq" (VStr "u1") "AND" :: []))
  = Ok (VStr "u1").
Proof.
  apply (identifier_is_read_off_the_where_array
           Scripted.sharedConfig Scripted.plainHost
           (Scripted.scope "better_auth") "user"
           [condition "name" "eq" (VStr "Ann") "AND"] []
           (condition "_id" "eq" (VStr "u1") "AND") "u1" (Scripted.start []));
    try reflexivity.
  - constructor; [split; reflexivity | constructor].
  - discriminate.
Defined.

(** *** [create] and [updateMany] *)

Section Writing.

Context {St : Type}.
Variable couch : Nano.ServerScope St.
Variable config : CouchDBAdapterConfig.
Variable host : Host.

Lemma get_spread (a b : Value) (k : string) :
  get (VObj (spread (props_of a) (props_of b))) k = spreadGet a b k.
Proof.
  unfold spreadGet. cbn [get]. rewrite lookup_spread.
  destruct (lookup k (rev (props_of b))); reflexivity.
Qed.

(** X22.  The document that [create] writes is the caller's data with the
    host's transformed values over it, field by field: a field of the data
    that the host's [transformInput] drops is kept.  Its [_id] is that of
    the merged data, or the merged data's [id] when that has no truthy [_id]
    but a truthy [id]; its [betterAuthModel] is the model's name under the
    shared database. *)
Theorem create_writes_the_callers_fields (model : string) (data : Value) :
  let base := transformInput host data (getDefaultModelName host model) "create" in
  let written := encode config host model data in
  (forall k, k <> "_id" -> k <> "betterAuthModel" ->
     get written k = spreadGet data base k)
  /\ get written "_id"
     = (if (negb (truthy (spreadGet data base "_id"))
            && truthy (spreadGet data base "id"))%bool
        then spreadGet data base "id" else spreadGet data base "_id")
  /\ get written "betterAuthModel"
     = (if useModelAsDatabase config then spreadGet data base "betterAuthModel"
        else VStr (getModelName host model)).
Proof.
  intros base written. subst written. unfold encode. fold base.
  rewrite !get_spread.
  set (td := VObj (spread (props_of data) (props_of base))).
  assert (Htd : forall k, get td k = spreadGet data base k)
    by (intros k; apply get_spread).
  destruct (negb (truthy (spreadGet data base "_id"))
            && truthy (spreadGet data base "id"))%bool;
    destruct (useModelAsDatabase config); cbn [negb set]; subst td; cbn [set];
    repeat split;
    try (intros k H1 H2);
    repeat first [ rewrite get_assign_same
                 | rewrite get_assign_other by congruence
                 | rewrite get_spread ];
    reflexivity.
Qed.

(** X23.  [updateMany] fails before it writes anything: without data (an
    [update] and a [data] that are both missing, or a falsy one) with the
    error "updateMany requires data or update parameter", raised once the
    database is at hand and before the where clause is compiled; with the
    compiler's error when the where clause does not compile; and with the
    store's error when the query fails. *)
Theorem updateMany_fails_before_it_writes (data_ update_ : Value) (model : string)
    (where_ : Value) (db : Nano.DocumentScope St) (s s0 : St) :
  let transformedWhere :=
    transformWhereClause host where_ (getDefaultModelName host model) in
  getDatabase couch config (getModelName host model) s = (Ok db, s0) ->
  (truthy (coalesce update_ data_) = false ->
   updateMany couch config host data_ update_ model where_ s
   = (Throw (NewError "updateMany requires data or update parameter"), s0))
  /\ (forall e,
        truthy (coalesce update_ data_) = true ->
        convertWhereToSelector transformedWhere = Throw e ->
        updateMany couch config host data_ update_ model where_ s = (Throw e, s0))
  /\ (forall selector e s1,
        truthy (coalesce update_ data_) = true ->
        modelSelector config host transformedWhere model = Ok selector ->
        Nano.find db (query selector None) s0 = (Throw e, s1) ->
        updateMany couch config host data_ update_ model where_ s = (Throw e, s1)).
Proof.
  intros transformedWhere Hdb. split; [| split].
  - intros Hdata. unfold updateMany.
    rewrite (bind_ok _ _ _ _ _ Hdb). now rewrite Hdata.
  - intros e Hdata Hsel. unfold updateMany.
    rewrite (bind_ok _ _ _ _ _ Hdb), Hdata. cbn [negb].
    unfold bind at 1, lift, modelSelector. fold transformedWhere.
    now rewrite Hsel.
  - intros selector e s1 Hdata Hsel Hfind. unfold updateMany.
    rewrite (bind_ok _ _ _ _ _ Hdb), Hdata. cbn [negb].
    unfold bind at 1, lift. fold transformedWhere. rewrite Hsel.
    now apply bind_throw.
Qed.

End Writing.

(** A user with a field that the host does not know. *)
Lemma create_writes_witness :
  get (encode Scripted.sharedConfig Scripted.plainHost "user"
         (VObj [("id", VStr "u2"); ("nickname", VStr "Bob")])) "nickname"
  = VStr "Bob".
Proof.
  apply (proj1 (create_writes_the_callers_fields Scripted.sharedConfig
                  Scripted.plainHost "user"
                  (VObj [("id", VStr "u2"); ("nickname", VStr "Bob")])));
    discriminate.
Defined.

(** A batch without data: the store sees the look-up of the database and
    nothing else. *)
Lemma updateMany_fails_witness :
  updateMany Scripted.server Scripted.sharedConfig Scripted.plainHost
    VUndefined VUndefined "user" Scripted.admins (Scripted.start [Scripted.Done])
  = (Throw (NewError "updateMany requires data or update parameter"),
     {| Scripted.script := []; Scripted.log := [Scripted.DbGet "better_auth"] |}).
Proof.
  pose proof
    (fun db s0 H1 H2 =>
       proj1 (updateMany_fails_before_it_writes Scripted.server
                Scripted.sharedConfig Scripted.plainHost
                VUndefined VUndefined "user" Scripted.admins db
                (Scripted.start [Scripted.Done]) s0 H1) H2) as refused.
  eapply refused; reflexivity.
Defined.

End AdapterLaws.

(** ** The adapter over the in-memory store *)

Module EndToEnd.
Import Compiler Mock Adapter Reference Auxiliary Vocabulary AdapterFacts StoreLaws.
Import MockCouchDB.
Section OverTheMock.

Variable regexTest : string -> string -> outcome bool.
Variable random : nat -> string.
Variable now : nat -> Z.
Variable config : CouchDBAdapterConfig.
Variable host : Host.

Local Abbreviation couch := (MockCouchDB.server regexTest random now).
Local Abbreviation handle name :=
  {| Nano.insert := MockCouchDB.insert random now name;
     Nano.get := MockCouchDB.get name;
     Nano.find := MockCouchDB.find regexTest name;
     Nano.destroy := MockCouchDB.destroy name |}.

Lemma database_ensure (name name' : string) (s : State) :
  database name' (ensure name s) = database name' s.
Proof.
  unfold ensure. destruct (mapGet (VStr name) (databases s)) eqn:E; [reflexivity |].
  destruct (String.eqb name name') eqn:En.
  - apply String.eqb_eq in En. subst name'. rewrite database_withDatabase.
    unfold database. now rewrite E.
  - apply String.eqb_neq in En. now apply database_withDatabase_other.
Qed.

Lemma ensure_exists (name : string) (s : State) :
  exists db, mapGet (VStr name) (databases (ensure name s)) = Some db.
Proof.
  unfold ensure. destruct (mapGet (VStr name) (databases s)) as [db |] eqn:E.
  - exists db. exact E.
  - exists []. unfold withDatabase. cbn [databases].
    now apply mapGet_mapSet_same.
Qed.

Lemma ensure_idempotent (name : string) (s : State) :
  ensure name (ensure name s) = ensure name s.
Proof.
  destruct (ensure_exists name s) as [db Hdb].
  unfold ensure at 1. now rewrite Hdb.
Qed.

Lemma getDatabase_mock (model : string) (s : State) :
  getDatabase couch config model s
  = (Ok (handle (databaseName config model)), ensure (databaseName config model) s).
Proof.
  unfold getDatabase. fold (databaseName config model).
  set (name := databaseName config model).
  assert (Huse : (if useModelAsDatabase config then Nano.use couch model
                  else Nano.use couch name) = Nano.use couch name).
  { subst name. unfold databaseName. destruct (useModelAsDatabase config); reflexivity. }
  rewrite Huse. cbn [Nano.db_get Nano.db_create Nano.use MockCouchDB.server].
  unfold bind, tryCatch, db_get, db_create, use, ensure.
  destruct (mapGet (VStr name) (databases s)) as [db |] eqn:E.
  - rewrite E. reflexivity.
  - cbn [status_is statusCode databaseNotFound Z.eqb Pos.eqb].
    rewrite E.
    assert (Hnow : mapGet (VStr name) (databases (withDatabase name [] s)) = Some []).
    { unfold withDatabase. cbn [databases]. now apply mapGet_mapSet_same. }
    rewrite Hnow. reflexivity.
Qed.

(** X24.  Over the in-memory store [getDatabase] always succeeds.  It works
    on the database named after the model under [useModelAsDatabase], and on
    [config.database] or [better_auth] otherwise.  The database is made,
    empty, if it is not there; the documents of every database are as they
    were; the store stays in order; and a second call changes nothing. *)
Theorem getDatabase_makes_the_database_once (model : string) (s : State) :
  let name := databaseName config model in
  getDatabase couch config model s = (Ok (handle name), ensure name s)
  /\ (forall other, database other (ensure name s) = database other s)
  /\ (exists docs, mapGet (VStr name) (databases (ensure name s)) = Some docs)
  /\ getDatabase couch config model (ensure name s) = (Ok (handle name), ensure name s)
  /\ (wellKeyed s -> wellKeyed (ensure name s)).
Proof.
  intros name. split; [| split; [| split; [| split]]].
  - apply getDatabase_mock.
  - intros other. apply database_ensure.
  - apply ensure_exists.
  - rewrite getDatabase_mock. fold name. now rewrite ensure_idempotent.
  - apply ensure_wellKeyed.
Qed.

End OverTheMock.

(** The first call on the empty store. *)
Lemma getDatabase_witness :
  wellKeyed (ensure "better_auth" empty).
Proof.
  apply (proj2 (proj2 (proj2 (proj2
           (getDatabase_makes_the_database_once MockExamples.engine MockExamples.random
              MockExamples.now Scripted.sharedConfig "user" empty))))).
  split; [exact I | constructor].
Defined.

Section RoundTrip.

Variable regexTest : string -> string -> outcome bool.
Variable random : nat -> string.
Variable now : nat -> Z.
Variable config : CouchDBAdapterConfig.
Variable host : Host.

Local Abbreviation couch := (MockCouchDB.server regexTest random now).
Local Abbreviation handle name :=
  {| Nano.insert := MockCouchDB.insert random now name;
     Nano.get := MockCouchDB.get name;
     Nano.find := MockCouchDB.find regexTest name;
     Nano.destroy := MockCouchDB.destroy name |}.

Lemma modelSelector_byId (model i : string) :
  modelSelector config host (Scripted.byId i) model = Ok (byIdSelector config host model i).
Proof.
  unfold modelSelector, byIdSelector.
  destruct (useModelAsDatabase config); reflexivity.
Qed.

Lemma matches_byId (model i : string) (props : list (string * Value)) :
  matchesSelector regexTest (VObj props) (byIdSelector config host model i)
  = Ok (strictEq (JS.get (VObj props) "_id") (VStr i)
        && ofModel config host model (VObj props))%bool.
Proof.
  unfold byIdSelector, ofModel.
  destruct (useModelAsDatabase config); cbn [negb orb].
  - cbn [matchesSelector String.eqb Ascii.eqb Bool.eqb getE obind].
    unfold matchOperators.
    cbn [JS.get lookup String.eqb Ascii.eqb Bool.eqb defined obind].
    destruct (strictEq _ (VStr i)); reflexivity.
  - cbn [matchesSelector String.eqb Ascii.eqb Bool.eqb getE obind].
    unfold matchOperators.
    cbn [JS.get lookup String.eqb Ascii.eqb Bool.eqb defined obind].
    destruct (strictEq _ (VStr i)); cbn [andb]; [| reflexivity].
    destruct (strictEq _ (VStr (getModelName host model))); reflexivity.
Qed.

Lemma filterDocs_byId (model i : string) (db : list (Value * Value)) :
  uniqueKeys db -> Forall keyedBy db ->
  filterDocs regexTest (map snd db) (byIdSelector config host model i)
  = Ok (match mapGet (VStr i) db with
        | Some d => if ofModel config host model d then [d] else []
        | None => []
        end).
Proof.
  induction db as [| [k d] db IH]; intros Hu Hk; [reflexivity |].
  cbn [uniqueKeys] in Hu. destruct Hu as [Hfresh Hu].
  inversion Hk as [| x l [_ [Hobj [Hid Hrev]]] Hk']. subst x l. cbn [fst snd] in *.
  specialize (IH Hu Hk').
  cbn [map snd filterDocs mapGet].
  destruct d as [| | | | | | props]; try discriminate Hobj.
  rewrite matches_byId, Hid. cbn [obind]. rewrite IH. cbn [obind].
  destruct (strictEq k (VStr i)) eqn:E; cbn [andb].
  - apply strictEq_eq in E. rewrite E in Hfresh. rewrite Hfresh.
    destruct (ofModel config host model (VObj props)); reflexivity.
  - reflexivity.
Qed.

Lemma find_byId (model i : string) (name : string) (s : State) :
  uniqueKeys (database name s) -> Forall keyedBy (database name s) ->
  find regexTest name (query (byIdSelector config host model i) (Some 1)) s
  = (Ok {| Nano.docs :=
             match mapGet (VStr i) (database name s) with
             | Some d => if ofModel config host model d then [d] else []
             | None => []
             end;
           Nano.next :=
             match mapGet (VStr i) (database name s) with
             | Some d => if ofModel config host model d then Some "mock_bookmark" else None
             | None => None
             end |}, s).
Proof.
  intros Hu Hk. unfold find, query. cbn [Nano.selector Nano.sort Nano.skip Nano.limit].
  pose proof (filterDocs_byId model i _ Hu Hk) as Hfilter.
  unfold ofModel in *. unfold byIdSelector in *.
  destruct (useModelAsDatabase config); cbn [negb orb] in *; rewrite Hfilter;
    destruct (mapGet (VStr i) (database name s)) as [d |]; try reflexivity.
  destruct (strictEq _ _); reflexivity.
Qed.

Lemma whereRecordOf_byId (i : string) :
  whereRecordOf (Scripted.byId i) = Ok (VObj [("_id", VObj [("equals", VStr i)])]).
Proof. reflexivity. Qed.

Lemma findOne_byId (model i : string) (s : State) :
  transformWhereClause host (Scripted.byId i) (getDefaultModelName host model)
  = Scripted.byId i ->
  wellKeyed s ->
  let name := databaseName config (getModelName host model) in
  findOne couch config host (Scripted.byId i) model s
  = (Ok (match mapGet (VStr i) (database name s) with
         | Some d => if ofModel config host model d then Some (decode host model d) else None
         | None => None
         end), ensure name s).
Proof.
  intros Hwhere Hs name. unfold findOne.
  rewrite (bind_ok _ _ _ _ _ (getDatabase_mock regexTest random now config _ s)).
  fold name. rewrite Hwhere.
  assert (Hs' : wellKeyed (ensure name s)) by now apply ensure_wellKeyed.
  destruct (database_keyed name _ Hs') as [Hu Hk].
  apply tryCatch_ok.
  unfold bind at 1, lift. rewrite whereRecordOf_byId.
  cbn [JS.get lookup String.eqb Ascii.eqb Bool.eqb truthy].
  unfold bind at 1. rewrite modelSelector_byId.
  cbn [Nano.find].
  rewrite (bind_ok _ _ _ _ _ (find_byId model i name _ Hu Hk)).
  cbn [Nano.docs]. rewrite database_ensure.
  destruct (mapGet (VStr i) (database name s)) as [d |]; [| reflexivity].
  destruct (ofModel config host model d); reflexivity.
Qed.


Lemma insert_fresh (name : string) (doc : Value) (s : State) :
  truthy (JS.get doc "_rev") = false ->
  exists r s', insert random now name doc s = (Ok r, s').
Proof.
  intros Hrev. unfold insert. rewrite Hrev.
  destruct (truthy (JS.get doc "_id")); cbn [andb];
    match goal with
    | |- context [match ?m with Some _ => false | None => false end] =>
        replace (match m with Some _ => false | None => false end) with false
          by (destruct m; reflexivity)
    end; unfold getRev; eexists; eexists; reflexivity.
Qed.

Lemma insert_exists (name : string) (doc : Value) (s s' : State)
    (r : Nano.InsertResponse) :
  insert random now name doc s = (Ok r, s') -> ensure name s' = s'.
Proof.
  unfold insert.
  destruct (truthy (JS.get doc "_id"));
    (match goal with
     | |- context [if ?c then _ else _] => destruct c
     end; [discriminate |]);
    unfold getRev; intros H; injection H as <- <-;
    unfold ensure, withDatabase; cbn [databases];
    now rewrite mapGet_mapSet_same.
Qed.

Lemma insertAndFetch_mock (name model : string) (doc : Value) (i : string) (s : State) :
  JS.get doc "_id" = VStr i -> i <> "" ->
  (exists r s', insert random now name doc s = (Ok r, s')) ->
  exists rev s',
    insertAndFetch host (handle name) model doc s
    = (Ok (decode host model (storedAs (VStr i) rev doc)), s')
    /\ database name s' = mapSet (VStr i) (storedAs (VStr i) rev doc) (database name s)
    /\ (forall name', name <> name' -> database name' s' = database name' s)
    /\ ensure name s' = s'
    /\ (wellKeyed s -> wellKeyed s').
Proof.
  intros Hid Hi [r [s' Hins]].
  destruct (insert_ok random now _ _ _ _ _ Hins) as [Hdb [Hsame [_ Hother]]].
  assert (Ht : truthy (JS.get doc "_id") = true).
  { rewrite Hid. cbn [truthy]. now rewrite (proj2 (String.eqb_neq i "") Hi). }
  rewrite Ht, Hid in Hsame.
  exists (Nano.rev r), s'. rewrite Hsame in Hdb.
  split; [| split; [exact Hdb | split; [exact Hother | split]]].
  - unfold insertAndFetch. cbn [Nano.insert Nano.get].
    rewrite (bind_ok _ _ _ _ _ Hins).
    assert (Hget : get name (Nano.id r) s'
                   = (Ok (storedAs (VStr i) (Nano.rev r) doc), s')).
    { unfold get. rewrite Hsame, Hdb. now rewrite mapGet_mapSet_same. }
    now rewrite (bind_ok _ _ _ _ _ Hget).
  - now apply (insert_exists name doc s s' r).
  - intros Hs. now apply (insert_wellKeyed random now name doc s s' (Ok r)).
Qed.

Lemma insert_current (name : string) (doc stored : Value) (s : State) :
  truthy (JS.get doc "_id") = true ->
  mapGet (JS.get doc "_id") (database name s) = Some stored ->
  strictEq (JS.get doc "_rev") (JS.get stored "_rev") = true ->
  exists r s', insert random now name doc s = (Ok r, s').
Proof.
  intros Hid Hget Heq. unfold insert. rewrite Hid, Hget, Heq.
  rewrite andb_false_r. unfold getRev. eexists; eexists; reflexivity.
Qed.

Lemma create_mock (data : Value) (model i : string) (s : State) :
  let doc := encode config host model data in
  let name := databaseName config (getModelName host model) in
  JS.get doc "_id" = VStr i -> i <> "" ->
  truthy (JS.get doc "_rev") = false ->
  exists rev s',
    create couch config host data model s
    = (Ok (decode host model (storedAs (VStr i) rev doc)), s')
    /\ database name s' = mapSet (VStr i) (storedAs (VStr i) rev doc) (database name s)
    /\ (forall name', name <> name' -> database name' s' = database name' s)
    /\ ensure name s' = s'
    /\ (wellKeyed s -> wellKeyed s').
Proof.
  intros doc name Hid Hi Hrev.
  destruct (insertAndFetch_mock name model doc i (ensure name s) Hid Hi
              (insert_fresh name doc (ensure name s) Hrev))
    as [rev [s' [Hrun [Hdb [Hother [Hens Hwf]]]]]].
  exists rev, s'. split; [| split; [| split; [| split]]].
  - unfold create.
    rewrite (bind_ok _ _ _ _ _ (getDatabase_mock regexTest random now config _ s)).
    fold name doc. now apply tryCatch_ok.
  - now rewrite Hdb, database_ensure.
  - intros name' Hn. now rewrite (Hother name' Hn), database_ensure.
  - exact Hens.
  - intros Hs. apply Hwf. now apply ensure_wellKeyed.
Qed.

Lemma get_stored_model (model i rev : string) (data : Value) :
  ofModel config host model (storedAs (VStr i) rev (encode config host model data)) = true.
Proof.
  unfold ofModel. destruct (useModelAsDatabase config) eqn:Hc; [reflexivity |].
  cbn [orb]. unfold storedAs.
  rewrite get_assign_other by discriminate.
  rewrite get_assign_other by discriminate.
  unfold encode. rewrite Hc. cbn [negb].
  match goal with
  | |- context [set ?o "betterAuthModel" ?v] =>
      assert (Hset : JS.get (VObj (props_of (set o "betterAuthModel" v))) "betterAuthModel" = v)
  end.
  { match goal with
    | |- context [if ?c then _ else _] => destruct c
    end; cbn [set props_of]; apply get_assign_same. }
  rewrite Hset. cbn [strictEq]. apply String.eqb_refl.
Qed.

Lemma idFromWhere_byId (i : string) :
  i <> "" -> idFromWhere (Scripted.byId i) = Ok (VStr i).
Proof.
  intros Hi. unfold idFromWhere, Scripted.byId.
  cbn [findIdCondition getE JS.get lookup String.eqb Ascii.eqb Bool.eqb obind
       strictEq orb truthy toString].
  rewrite (proj2 (String.eqb_neq i "") Hi).
  unfold stringOf. cbn [printable toString negb obind truthy].
  now rewrite (proj2 (String.eqb_neq i "") Hi).
Qed.

Lemma stored_entry (i : string) (db : list (Value * Value)) (d : Value) :
  Forall keyedBy db -> mapGet (VStr i) db = Some d ->
  exists props r,
    d = VObj props /\ JS.get d "_id" = VStr i /\ JS.get d "_rev" = VStr r /\ r <> "".
Proof.
  intros Hk Hget. apply mapGet_In in Hget.
  rewrite Forall_forall in Hk. destruct (Hk _ Hget) as [_ [Hobj [Hid Hrev]]].
  cbn [fst snd] in *.
  destruct d as [| | | | | | props]; try discriminate Hobj.
  destruct (JS.get (VObj props) "_rev") as [| | | | r | |] eqn:Er; try discriminate Hrev.
  exists props, r. repeat split; try assumption.
  cbn [revision] in Hrev. apply negb_true_iff in Hrev. now apply String.eqb_neq.
Qed.

Lemma ensure_withDatabase (name : string) (db : list (Value * Value)) (s : State) :
  ensure name (withDatabase name db s) = withDatabase name db s.
Proof.
  unfold ensure, withDatabase at 1. cbn [databases].
  now rewrite mapGet_mapSet_same.
Qed.

Lemma delete_byId (model i : string) (s : State) :
  transformWhereClause host (Scripted.byId i) (getDefaultModelName host model)
  = Scripted.byId i ->
  i <> "" -> wellKeyed s ->
  let name := databaseName config (getModelName host model) in
  Adapter.delete couch config host model (Scripted.byId i) s
  = (Ok tt,
     match mapGet (VStr i) (database name s) with
     | Some d =>
         if otherModel config host d model then ensure name s
         else withDatabase name (mapDelete (VStr i) (database name s)) (ensure name s)
     | None => ensure name s
     end).
Proof.
  intros Hwhere Hi Hs name. unfold Adapter.delete.
  rewrite (bind_ok _ _ _ _ _ (getDatabase_mock regexTest random now config _ s)).
  fold name. rewrite Hwhere.
  assert (Ht : truthy (VStr i) = true).
  { cbn [truthy]. now rewrite (proj2 (String.eqb_neq i "") Hi). }
  assert (Hres : delete_resolve config host (handle name) model (Scripted.byId i)
                   (ensure name s) = (Ok (Some (VStr i)), ensure name s)).
  { unfold delete_resolve, bind, lift. rewrite (idFromWhere_byId i Hi), Ht. reflexivity. }
  rewrite (bind_ok _ _ _ _ _ Hres).
  unfold delete_remove. rewrite Ht. cbn [negb Nano.get Nano.destroy].
  assert (Hs' : wellKeyed (ensure name s)) by now apply ensure_wellKeyed.
  destruct (database_keyed name _ Hs') as [Hu Hk].
  rewrite database_ensure in Hu, Hk.
  destruct (mapGet (VStr i) (database name s)) as [d |] eqn:Hget.
  - destruct (stored_entry i _ d Hk Hget) as [props [r [-> [Hid [Hrev Hr]]]]].
    assert (Hfetch : get name (VStr i) (ensure name s) = (Ok (VObj props), ensure name s)).
    { unfold get. now rewrite database_ensure, Hget. }
    destruct (otherModel config host (VObj props) model) eqn:Hother.
    + apply tryCatch_ok. now rewrite (bind_ok _ _ _ _ _ Hfetch), Hother.
    + apply tryCatch_ok. rewrite (bind_ok _ _ _ _ _ Hfetch), Hother.
      rewrite Hid, Hrev. unfold orElse.
      assert (Htr : truthy (VStr r) = true).
      { cbn [truthy]. now rewrite (proj2 (String.eqb_neq r "") Hr). }
      rewrite Htr. unfold destroy. rewrite database_ensure, Hget, Hrev.
      cbn [strictEq]. now rewrite String.eqb_refl.
  - assert (Hfetch : get name (VStr i) (ensure name s)
                     = (Throw documentNotFound, ensure name s)).
    { unfold get. now rewrite database_ensure, Hget. }
    rewrite (tryCatch_throw _ _ _ _ _ (bind_throw _ _ _ _ _ Hfetch)).
    reflexivity.
Qed.

Lemma ofModel_otherModel (model : string) (d : Value) :
  ofModel config host model d = true -> otherModel config host d model = false.
Proof.
  unfold ofModel, otherModel.
  destruct (useModelAsDatabase config); [reflexivity |]. cbn [orb negb andb].
  intros ->. now rewrite andb_false_r.
Qed.

Lemma update_byId (data_ update_ : Value) (model i : string) (d : Value) (s : State) :
  let name := databaseName config (getModelName host model) in
  let transformedData :=
    transformInput host (coalesce update_ data_) (getDefaultModelName host model)
      "update" in
  transformWhereClause host (Scripted.byId i) (getDefaultModelName host model)
  = Scripted.byId i ->
  i <> "" -> wellKeyed s ->
  mapGet (VStr i) (database name s) = Some d ->
  otherModel config host d model = false ->
  exists rev s',
    update couch config host data_ update_ model (Scripted.byId i) s
    = (Ok (decode host model (storedAs (VStr i) rev (merge d transformedData))), s')
    /\ database name s'
       = mapSet (VStr i) (storedAs (VStr i) rev (merge d transformedData))
           (database name s)
    /\ ensure name s' = s'
    /\ wellKeyed s'.
Proof.
  intros name transformedData Hwhere Hi Hs Hget Hother.
  assert (Ht : truthy (VStr i) = true).
  { cbn [truthy]. now rewrite (proj2 (String.eqb_neq i "") Hi). }
  assert (Hs' : wellKeyed (ensure name s)) by now apply ensure_wellKeyed.
  destruct (database_keyed name _ Hs') as [Hu Hk].
  rewrite database_ensure in Hu, Hk.
  destruct (stored_entry i _ d Hk Hget) as [props [r [Hd [Hid [Hrev Hr]]]]].
  destruct (merge_pins d transformedData) as [Mid Mrev].
  assert (Hins : exists r' s', insert random now name (merge d transformedData)
                                 (ensure name s) = (Ok r', s')).
  { apply (insert_current name _ d).
    - now rewrite Mid, Hid.
    - now rewrite Mid, Hid, database_ensure.
    - rewrite Mrev, Hrev. cbn [strictEq]. apply String.eqb_refl. }
  assert (Hmid : JS.get (merge d transformedData) "_id" = VStr i) by now rewrite Mid.
  destruct (insertAndFetch_mock name model (merge d transformedData) i (ensure name s)
              Hmid Hi Hins) as [rev [s' [Hrun [Hdb [_ [Hens Hwf]]]]]].
  exists rev, s'. split; [| split; [| split]].
  - unfold update. 
    rewrite (bind_ok _ _ _ _ _ (getDatabase_mock regexTest random now config _ s)).
    fold name. rewrite Hwhere.
    assert (Hres : update_resolve config host (handle name) model (Scripted.byId i)
                     (ensure name s) = (Ok (VStr i), ensure name s)).
    { unfold update_resolve, bind, lift. rewrite (idFromWhere_byId i Hi), Ht. reflexivity. }
    rewrite (bind_ok _ _ _ _ _ Hres).
    unfold update_write. apply tryCatch_ok.
    assert (Hfetch : Nano.get (handle name) (VStr i) (ensure name s)
                     = (Ok d, ensure name s)).
    { cbn [Nano.get]. unfold get. rewrite database_ensure, Hget. now rewrite Hd. }
    rewrite (bind_ok _ _ _ _ _ Hfetch), Hother. exact Hrun.
  - now rewrite Hdb, database_ensure.
  - exact Hens.
  - now apply Hwf.
Qed.


Lemma stored_discriminator (model i rev : string) (data : Value) :
  useModelAsDatabase config = false ->
  JS.get (storedAs (VStr i) rev (encode config host model data)) "betterAuthModel"
  = VStr (getModelName host model).
Proof.
  intros Hc. unfold storedAs.
  rewrite get_assign_other by discriminate.
  rewrite get_assign_other by discriminate.
  unfold encode. rewrite Hc. cbn [negb].
  match goal with
  | |- context [if ?c then _ else _] => destruct c
  end; cbn [set props_of]; apply get_assign_same.
Qed.

Lemma lookup_rev_none (k : string) (l : list (string * Value)) :
  lookup k l = None -> lookup k (rev l) = None.
Proof.
  induction l as [| [k' v] l IH]; [reflexivity |].
  cbn [lookup rev]. destruct (String.eqb k' k) eqn:E; [discriminate |].
  intros H. specialize (IH H).
  induction (rev l) as [| [k0 v0] r IHr]; cbn [app lookup].
  - now rewrite E.
  - cbn [lookup] in IH. destruct (String.eqb k0 k); [discriminate | now apply IHr].
Qed.

(** X25.  Over the in-memory store a document that [create] has written
    with the identifier [i] (and without a [_rev] of its own) is found
    again: [findOne] for the model with the where clause [_id = i] returns
    the very document that [create] returned and leaves the store as it is.
    Under the shared database, [findOne] with the same where clause for a
    model of another name returns [null]. *)
Theorem created_documents_are_found (data : Value) (model i : string) (s : State) :
  let doc := encode config host model data in
  wellKeyed s ->
  JS.get doc "_id" = VStr i -> i <> "" ->
  truthy (JS.get doc "_rev") = false ->
  transformWhereClause host (Scripted.byId i) (getDefaultModelName host model)
  = Scripted.byId i ->
  exists created s',
    create couch config host data model s = (Ok created, s')
    /\ findOne couch config host (Scripted.byId i) model s' = (Ok (Some created), s')
    /\ wellKeyed s'
    /\ (forall other,
          useModelAsDatabase config = false ->
          getModelName host other <> getModelName host model ->
          transformWhereClause host (Scripted.byId i) (getDefaultModelName host other)
          = Scripted.byId i ->
          findOne couch config host (Scripted.byId i) other s' = (Ok None, s')).
Proof.
  intros doc Hs Hid Hi Hrev Hwhere.
  destruct (create_mock data model i s Hid Hi Hrev)
    as [rev [s' [Hcreate [Hdb [_ [Hens Hwf]]]]]].
  exists (decode host model (storedAs (VStr i) rev doc)), s'.
  split; [exact Hcreate | split; [| split; [now apply Hwf |]]].
  - rewrite (findOne_byId model i s' Hwhere (Hwf Hs)). cbv zeta.
    rewrite Hens, Hdb. rewrite mapGet_mapSet_same by reflexivity.
    subst doc. now rewrite get_stored_model.
  - intros other Hshared Hne Hwhere'.
    rewrite (findOne_byId other i s' Hwhere' (Hwf Hs)). cbv zeta.
    assert (Hname : databaseName config (getModelName host other)
                    = databaseName config (getModelName host model)).
    { unfold databaseName. now rewrite Hshared. }
    rewrite Hname, Hens, Hdb. rewrite mapGet_mapSet_same by reflexivity.
    unfold ofModel. rewrite Hshared. cbn [orb]. subst doc.
    rewrite (stored_discriminator model i rev data Hshared). cbn [strictEq].
    assert (Hneq : String.eqb (getModelName host model) (getModelName host other) = false).
    { apply String.eqb_neq. congruence. }
    now rewrite Hneq.
Qed.

(** X26.  Over the in-memory store a document that [create] has written
    with the identifier [i] is removed by [delete] with the where clause
    [_id = i]: the delete returns, [findOne] with the same where clause then
    returns [null], and a second delete returns as well and leaves the
    store as it is. *)
Theorem created_documents_can_be_deleted (data : Value) (model i : string) (s : State) :
  let doc := encode config host model data in
  wellKeyed s ->
  JS.get doc "_id" = VStr i -> i <> "" ->
  truthy (JS.get doc "_rev") = false ->
  transformWhereClause host (Scripted.byId i) (getDefaultModelName host model)
  = Scripted.byId i ->
  exists created s' s'',
    create couch config host data model s = (Ok created, s')
    /\ Adapter.delete couch config host model (Scripted.byId i) s' = (Ok tt, s'')
    /\ findOne couch config host (Scripted.byId i) model s'' = (Ok None, s'')
    /\ Adapter.delete couch config host model (Scripted.byId i) s'' = (Ok tt, s'').
Proof.
  intros doc Hs Hid Hi Hrev Hwhere.
  destruct (create_mock data model i s Hid Hi Hrev)
    as [rev [s' [Hcreate [Hdb [_ [Hens Hwf]]]]]].
  specialize (Hwf Hs).
  set (name := databaseName config (getModelName host model)) in *.
  set (stored := storedAs (VStr i) rev doc) in *.
  assert (Hget : mapGet (VStr i) (database name s') = Some stored).
  { rewrite Hdb. now apply mapGet_mapSet_same. }
  assert (Hmine : otherModel config host stored model = false).
  { apply ofModel_otherModel. subst stored doc. apply get_stored_model. }
  set (s'' := withDatabase name (mapDelete (VStr i) (database name s')) s').
  destruct (database_keyed name s' Hwf) as [Hu Hk].
  assert (Hwf'' : wellKeyed s'').
  { apply wellKeyed_withDatabase; [exact Hwf | |].
    - now apply uniqueKeys_mapDelete.
    - now apply Forall_mapDelete. }
  assert (Hgone : mapGet (VStr i) (database name s'') = None).
  { subst s''. rewrite database_withDatabase. now apply mapGet_mapDelete_same. }
  assert (Hens'' : ensure name s'' = s'') by apply ensure_withDatabase.
  exists (decode host model stored), s', s''.
  split; [exact Hcreate | split; [| split]].
  - rewrite (delete_byId model i s' Hwhere Hi Hwf). cbv zeta. fold name.
    now rewrite Hget, Hmine, Hens.
  - rewrite (findOne_byId model i s'' Hwhere Hwf''). cbv zeta. fold name.
    now rewrite Hgone, Hens''.
  - rewrite (delete_byId model i s'' Hwhere Hi Hwf''). cbv zeta. fold name.
    now rewrite Hgone, Hens''.
Qed.

(** X27.  Over the in-memory store an [update] by identifier of a stored
    document of the model returns the document as it is stored afterwards,
    decoded, and [findOne] with the same where clause returns the same.
    The stored document keeps its identifier; each other field (but [_rev])
    has the value that the update gives it and, where the update gives
    none, the value it had.  (The update does not set [betterAuthModel].) *)
Theorem updated_documents_are_found (data_ update_ : Value) (model i : string)
    (d : Value) (s : State) :
  let name := databaseName config (getModelName host model) in
  let transformedData :=
    transformInput host (coalesce update_ data_) (getDefaultModelName host model)
      "update" in
  wellKeyed s ->
  transformWhereClause host (Scripted.byId i) (getDefaultModelName host model)
  = Scripted.byId i ->
  i <> "" ->
  mapGet (VStr i) (database name s) = Some d ->
  ofModel config host model d = true ->
  has transformedData "betterAuthModel" = false ->
  exists stored s',
    update couch config host data_ update_ model (Scripted.byId i) s
    = (Ok (decode host model stored), s')
    /\ findOne couch config host (Scripted.byId i) model s'
       = (Ok (Some (decode host model stored)), s')
    /\ get name (VStr i) s' = (Ok stored, s')
    /\ JS.get stored "_id" = VStr i
    /\ (forall k, k <> "_id" -> k <> "_rev" ->
          JS.get stored k
          = match lookup k (rev (props_of transformedData)) with
            | Some v => v
            | None => JS.get d k
            end).
Proof.
  intros name transformedData Hs Hwhere Hi Hget Hmine Hkeep.
  destruct (update_byId data_ update_ model i d s Hwhere Hi Hs Hget
              (ofModel_otherModel model d Hmine))
    as [revn [s' [Hupdate [Hdb [Hens Hwf]]]]].
  fold name transformedData in Hupdate, Hdb, Hens.
  set (stored := storedAs (VStr i) revn (merge d transformedData)) in *.
  destruct (database_keyed name s Hs) as [_ Hk].
  destruct (stored_entry i _ d Hk Hget) as [props [r [Hd _]]].
  assert (Hfields : forall k, k <> "_id" -> k <> "_rev" ->
            JS.get stored k
            = match lookup k (rev (props_of transformedData)) with
              | Some v => v
              | None => JS.get d k
              end).
  { intros k H1 H2. subst stored.
    destruct (get_stored (VStr i) revn (merge d transformedData)) as [_ [_ G]].
    rewrite (G k H1 H2).
    assert (Hm : exists p, merge d transformedData = VObj p)
      by (unfold merge; cbn [set]; eexists; reflexivity).
    destruct Hm as [p Hp]. rewrite Hp. cbn [props_of]. rewrite <- Hp.
    rewrite (merge_field d transformedData k H1 H2).
    rewrite Hd. reflexivity. }
  assert (Hstored : mapGet (VStr i) (database name s') = Some stored).
  { rewrite Hdb. now apply mapGet_mapSet_same. }
  exists stored, s'. split; [exact Hupdate | split; [| split; [| split]]].
  - rewrite (findOne_byId model i s' Hwhere Hwf). cbv zeta. fold name.
    rewrite Hens, Hstored.
    assert (Hstill : ofModel config host model stored = true).
    { unfold ofModel in *. destruct (useModelAsDatabase config); [reflexivity |].
      cbn [orb] in *. rewrite (Hfields "betterAuthModel") by discriminate.
      assert (Hnone : lookup "betterAuthModel" (rev (props_of transformedData)) = None).
      { apply lookup_rev_none. destruct transformedData; try reflexivity.
        cbn [has] in Hkeep. cbn [props_of].
        destruct (lookup "betterAuthModel" props0); [discriminate | reflexivity]. }
      now rewrite Hnone. }
    now rewrite Hstill.
  - unfold get. rewrite Hstored. reflexivity.
  - subst stored. apply (get_stored (VStr i) revn (merge d transformedData)).
  - exact Hfields.
Qed.

End RoundTrip.

(** The user [u2] written beside [u1], then looked up, and then removed. *)
Lemma created_documents_witness :
  exists created s',
    create MockExamples.server Scripted.sharedConfig Scripted.plainHost
      (VObj [("id", VStr "u2"); ("name", VStr "Bob")]) "user" MockExamples.oneUser
    = (Ok created, s')
    /\ findOne MockExamples.server Scripted.sharedConfig Scripted.plainHost
         (Scripted.byId "u2") "user" s'
       = (Ok (Some created), s').
Proof.
  destruct (created_documents_are_found MockExamples.engine MockExamples.random
              MockExamples.now Scripted.sharedConfig Scripted.plainHost
              (VObj [("id", VStr "u2"); ("name", VStr "Bob")]) "user" "u2"
              MockExamples.oneUser oneUser_wellKeyed eq_refl
              ltac:(discriminate) eq_refl eq_refl)
    as [created [s' [Hcreate [Hfind _]]]].
  exists created, s'. split; assumption.
Defined.

Lemma deleted_documents_witness :
  exists created s' s'',
    create MockExamples.server Scripted.sharedConfig Scripted.plainHost
      (VObj [("id", VStr "u2"); ("name", VStr "Bob")]) "user" MockExamples.oneUser
    = (Ok created, s')
    /\ Adapter.delete MockExamples.server Scripted.sharedConfig Scripted.plainHost
         "user" (Scripted.byId "u2") s'
       = (Ok tt, s'')
    /\ findOne MockExamples.server Scripted.sharedConfig Scripted.plainHost
         (Scripted.byId "u2") "user" s''
       = (Ok None, s'').
Proof.
  destruct (created_documents_can_be_deleted MockExamples.engine MockExamples.random
              MockExamples.now Scripted.sharedConfig Scripted.plainHost
              (VObj [("id", VStr "u2"); ("name", VStr "Bob")]) "user" "u2"
              MockExamples.oneUser oneUser_wellKeyed eq_refl
              ltac:(discriminate) eq_refl eq_refl)
    as [created [s' [s'' [Hcreate [Hdelete [Hfind _]]]]]].
  exists created, s', s''. repeat split; assumption.
Defined.

(** The user [u1] renamed. *)
Lemma updated_documents_witness :
  exists stored s',
    update MockExamples.server Scripted.sharedConfig Scripted.plainHost
      VUndefined Scripted.newName "user" (Scripted.byId "u1") MockExamples.oneUser
    = (Ok (decode Scripted.plainHost "user" stored), s')
    /\ JS.get stored "name" = VStr "Anna"
    /\ JS.get stored "email" = VStr "ann@example.org".
Proof.
  destruct (updated_documents_are_found MockExamples.engine MockExamples.random
              MockExamples.now Scripted.sharedConfig Scripted.plainHost
              VUndefined Scripted.newName "user" "u1" Scripted.user1
              MockExamples.oneUser oneUser_wellKeyed eq_refl
              ltac:(discriminate) eq_refl eq_refl eq_refl)
    as [stored [s' [Hupdate [_ [_ [_ Hfields]]]]]].
  exists stored, s'. split; [exact Hupdate | split].
  - rewrite Hfields; [reflexivity | discriminate | discriminate].
  - rewrite Hfields; [reflexivity | discriminate | discriminate].
Defined.

Section CountingOverTheMock.

Variable regexTest : string -> string -> outcome bool.
Variable random : nat -> string.
Variable now : nat -> Z.
Variable config : CouchDBAdapterConfig.
Variable host : Host.

Local Abbreviation couch := (MockCouchDB.server regexTest random now).
Local Abbreviation handle name :=
  {| Nano.insert := MockCouchDB.insert random now name;
     Nano.get := MockCouchDB.get name;
     Nano.find := MockCouchDB.find regexTest name;
     Nano.destroy := MockCouchDB.destroy name |}.

Lemma find_page (name : string) (selector : Value) (bookmark : option string)
    (s : State) :
  find regexTest name (pageQuery selector bookmark) s
  = find regexTest name (pageQuery selector None) s.
Proof. reflexivity. Qed.

Lemma count_loop_mock (name : string) (selector : Value) (page : Nano.FindResponse)
    (s s1 : State) :
  find regexTest name (pageQuery selector None) s = (Ok page, s1) ->
  (Nano.docs page = [] ->
   forall fuel total bookmark,
     count_loop (S fuel) (handle name) selector total bookmark s = (Ok total, s))
  /\ (Nano.docs page <> [] ->
      forall fuel total bookmark,
        count_loop fuel (handle name) selector total bookmark s = (OutOfFuel, s)).
Proof.
  intros Hfind.
  pose proof (find_state regexTest _ _ _ _ _ Hfind) as Hs. subst s1.
  assert (Hany : forall bookmark,
             Nano.find (handle name)
               {| Nano.selector := selector; Nano.limit := Some pageSize;
                  Nano.skip := None; Nano.sort := None;
                  Nano.bookmark := bookmark |} s = (Ok page, s)).
  { intros bookmark. exact Hfind. }
  assert (Hnext : Nano.next page = match Nano.docs page with
                                   | [] => None
                                   | _ => Some "mock_bookmark"
                                   end).
  { revert Hfind. unfold find.
    destruct (match Nano.selector (pageQuery selector None) with
              | VObj (_ :: _) => _
              | _ => _
              end) as [docs | e |]; try discriminate.
    intros H. injection H as <-. reflexivity. }
  split.
  - intros Hnone fuel total bookmark. cbn [count_loop].
    rewrite (bind_ok _ _ _ _ _ (Hany _)). rewrite Hnext, Hnone.
    cbn [length]. unfold ret. do 2 f_equal. lia.
  - intros Hsome fuel. induction fuel as [| fuel IH]; intros total bookmark;
      [reflexivity |].
    cbn [count_loop]. rewrite (bind_ok _ _ _ _ _ (Hany _)). rewrite Hnext.
    destruct (Nano.docs page) as [| d docs]; [now contradiction Hsome |].
    cbn [String.eqb Ascii.eqb Bool.eqb]. apply IH.
Qed.

(** X28.  Over the in-memory store [count] returns 0 when no document
    matches its selector, and does not return when one does: the store
    answers every page request with the same documents and a bookmark,
    whatever bookmark the request carries, and [count] asks for the next
    page as long as a non-empty page comes with a bookmark. *)
Theorem count_over_the_in_memory_store
    (where_ : Value) (model : string) (selector : Value) (page : Nano.FindResponse)
    (s s1 : State) :
  let name := databaseName config (getModelName host model) in
  modelSelector config host
    (transformWhereClause host where_ (getDefaultModelName host model)) model
  = Ok selector ->
  find regexTest name (pageQuery selector None) (ensure name s) = (Ok page, s1) ->
  (Nano.docs page = [] ->
   forall fuel, (0 < fuel)%nat ->
     count couch config host fuel where_ model s = (Ok 0, ensure name s))
  /\ (Nano.docs page <> [] ->
      forall fuel,
        count couch config host fuel where_ model s = (OutOfFuel, ensure name s)).
Proof.
  intros name Hsel Hfind.
  destruct (count_loop_mock name selector page _ _ Hfind) as [Hempty Hmore].
  split.
  - intros Hnone fuel Hfuel. destruct fuel as [| fuel]; [lia |].
    unfold count.
    rewrite (bind_ok _ _ _ _ _ (getDatabase_mock regexTest random now config _ s)).
    fold name. unfold bind at 1, lift. rewrite Hsel. now apply Hempty.
  - intros Hsome fuel. unfold count.
    rewrite (bind_ok _ _ _ _ _ (getDatabase_mock regexTest random now config _ s)).
    fold name. unfold bind at 1, lift. rewrite Hsel. now apply Hmore.
Qed.

End CountingOverTheMock.

(** The store with the user [u1]: the sessions are counted, the users are
    not, with whatever fuel. *)
Lemma count_over_the_in_memory_store_witness :
  count MockExamples.server Scripted.sharedConfig Scripted.plainHost 1
    (VArr []) "session" MockExamples.oneUser
  = (Ok 0, MockExamples.oneUser)
  /\ count MockExamples.server Scripted.sharedConfig Scripted.plainHost 1000
       (VArr []) "user" MockExamples.oneUser
     = (OutOfFuel, MockExamples.oneUser).
Proof.
  split.
  - apply (proj1 (count_over_the_in_memory_store MockExamples.engine MockExamples.random
                    MockExamples.now Scripted.sharedConfig Scripted.plainHost
                    (VArr []) "session" (VObj [("betterAuthModel", VStr "session")])
                    {| Nano.docs := []; Nano.next := None |}
                    MockExamples.oneUser MockExamples.oneUser eq_refl eq_refl));
      [reflexivity | lia].
  - apply (proj2 (count_over_the_in_memory_store MockExamples.engine MockExamples.random
                    MockExamples.now Scripted.sharedConfig Scripted.plainHost
                    (VArr []) "user" (VObj [("betterAuthModel", VStr "user")])
                    {| Nano.docs := [Scripted.user1]; Nano.next := Some "mock_bookmark" |}
                    MockExamples.oneUser MockExamples.oneUser eq_refl eq_refl)).
    discriminate.
Defined.


Section BatchesOverTheMock.

Variable regexTest : string -> string -> outcome bool.
Variable random : nat -> string.
Variable now : nat -> Z.
Variable config : CouchDBAdapterConfig.
Variable host : Host.

Local Abbreviation couch := (MockCouchDB.server regexTest random now).
Local Abbreviation handle name :=
  {| Nano.insert := MockCouchDB.insert random now name;
     Nano.get := MockCouchDB.get name;
     Nano.find := MockCouchDB.find regexTest name;
     Nano.destroy := MockCouchDB.destroy name |}.

Lemma filterDocs_filter (selector : Value) (docs found : list Value) :
  filterDocs regexTest docs selector = Ok found ->
  found = filter (isMatch regexTest selector) docs.
Proof.
  revert found. induction docs as [| d docs IH]; intros found H.
  - now injection H as <-.
  - cbn [filterDocs] in H. cbn [filter]. unfold isMatch at 1.
    destruct (matchesSelector regexTest d selector) as [keep | |]; try discriminate.
    cbn [obind] in H.
    destruct (filterDocs regexTest docs selector) as [k | |]; try discriminate.
    cbn [obind] in H. injection H as <-. rewrite (IH k eq_refl).
    destruct keep; reflexivity.
Qed.

Lemma filterDocs_unmatched (selector : Value) (docs found : list Value) :
  filterDocs regexTest docs selector = Ok found ->
  filterDocs regexTest
    (filter (fun d => negb (isMatch regexTest selector d)) docs) selector
  = Ok [].
Proof.
  revert found. induction docs as [| d docs IH]; intros found H; [reflexivity |].
  cbn [filterDocs] in H. cbn [filter]. unfold isMatch at 1.
  destruct (matchesSelector regexTest d selector) as [keep | |] eqn:Hd; try discriminate.
  cbn [obind] in H.
  destruct (filterDocs regexTest docs selector) as [k | |] eqn:Hk; try discriminate.
  specialize (IH k eq_refl).
  destruct keep; cbn [negb]; [exact IH |].
  cbn [filterDocs]. rewrite Hd. cbn [obind]. now rewrite IH.
Qed.

Lemma mapGet_app_none {A} (k : Value) (pre rest : list (Value * A)) :
  mapGet k pre = None -> mapGet k (pre ++ rest) = mapGet k rest.
Proof.
  induction pre as [| [k0 v0] pre IH]; [reflexivity |].
  cbn [mapGet app]. destruct (strictEq k0 k); [discriminate | exact IH].
Qed.

Lemma mapDelete_app_none {A} (k : Value) (pre rest : list (Value * A)) :
  mapGet k pre = None -> mapDelete k (pre ++ rest) = pre ++ mapDelete k rest.
Proof.
  induction pre as [| [k0 v0] pre IH]; [reflexivity |].
  cbn [mapGet mapDelete app]. destruct (strictEq k0 k); [discriminate |].
  intros H. now rewrite IH.
Qed.

Lemma mapSet_app_none {A} (k : Value) (v : A) (pre rest : list (Value * A)) :
  mapGet k pre = None -> rest <> [] ->
  mapSet k v (pre ++ rest) = pre ++ mapSet k v rest.
Proof.
  intros Hnone Hrest. induction pre as [| [k0 v0] pre IH]; [reflexivity |].
  cbn [mapGet mapSet app] in *. destruct (strictEq k0 k); [discriminate |].
  now rewrite IH.
Qed.

Lemma mapGet_present {A} (pre rest : list (Value * A)) (k : Value) (v : A) :
  strictEq k k = true -> mapGet k (pre ++ (k, v) :: rest) <> None.
Proof.
  intros Hk. induction pre as [| [k0 v0] pre IH]; cbn [app mapGet].
  - now rewrite Hk.
  - destruct (strictEq k0 k); [discriminate | exact IH].
Qed.

Lemma uniqueKeys_middle {A} (pre rest : list (Value * A)) (k : Value) (v : A) :
  uniqueKeys (pre ++ (k, v) :: rest) -> mapGet k pre = None.
Proof.
  induction pre as [| [k0 v0] pre IH]; [reflexivity |].
  cbn [app uniqueKeys mapGet]. intros [Hfresh Hu].
  destruct (strictEq k0 k) eqn:E.
  - pose proof (strictEq_eq _ _ E) as ->.
    now apply mapGet_present in Hfresh.
  - now apply IH.
Qed.

Lemma uniqueKeys_drop {A} (pre rest : list (Value * A)) (e : Value * A) :
  uniqueKeys (pre ++ e :: rest) -> uniqueKeys (pre ++ rest).
Proof.
  induction pre as [| [k0 v0] pre IH]; cbn [app uniqueKeys].
  - destruct e. now intros [_ H].
  - intros [Hfresh Hu]. split; [| now apply IH].
    destruct e as [k v].
    destruct (mapGet k0 pre) eqn:Hpre.
    + rewrite <- Hfresh. clear -Hpre. revert Hpre.
      induction pre as [| [k1 v1] pre IHp]; [discriminate |].
      cbn [mapGet app]. destruct (strictEq k1 k0); [reflexivity | exact IHp].
    + rewrite mapGet_app_none by exact Hpre.
      rewrite mapGet_app_none in Hfresh by exact Hpre.
      cbn [mapGet] in Hfresh. destruct (strictEq k k0); [discriminate | exact Hfresh].
Qed.

(** The loop of [deleteMany] over the documents that [f] picks among the
    entries [rest], which follow the entries [kept] in the database. *)
Lemma deleteMany_loop_mock (name : string) (f : Value -> bool)
    (rest : list (Value * Value)) :
  forall (kept : list (Value * Value)) (s : State) (n : Z),
    database name s = kept ++ rest ->
    uniqueKeys (kept ++ rest) ->
    Forall keyedBy rest ->
    Forall (fun e => scalar (fst e) = true) rest ->
    exists s',
      deleteMany_loop (handle name) (filter f (map snd rest)) n s
      = (Ok (n + Z.of_nat (length (filter f (map snd rest)))), s')
      /\ database name s' = kept ++ filter (fun e => negb (f (snd e))) rest
      /\ (forall other, other <> name -> database other s' = database other s)
      /\ (ensure name s = s -> ensure name s' = s').
Proof.
  induction rest as [| [k d] rest IH]; intros kept s n Hdb Hu Hkeyed Hscalar.
  - exists s. cbn. rewrite Z.add_0_r. repeat split; trivial.
  - inversion Hkeyed as [| ? ? [Htruthy [Hobj [Hid Hrev]]] Hkeyed']; subst.
    inversion Hscalar as [| ? ? Hk Hscalar']; subst.
    cbn [fst snd] in *. cbn [map filter snd].
    destruct (f d) eqn:Hf; cbn [negb].
    + pose proof (uniqueKeys_middle _ _ _ _ Hu) as Hfresh.
      assert (Hdestroy :
        destroy name (JS.get d "_id") (orElse (JS.get d "_rev") (VStr "")) s
        = (Ok tt, withDatabase name (kept ++ rest) s)).
      { unfold destroy. rewrite Hid, Hdb, (mapGet_app_none _ _ _ Hfresh).
        cbn [mapGet]. rewrite (strictEq_refl _ Hk).
        destruct (JS.get d "_rev") as [| | | | r | |] eqn:Hr; try discriminate.
        cbn in Hrev. unfold orElse. cbn [truthy]. rewrite Hrev.
        rewrite (strictEq_refl (VStr r) eq_refl). cbn [negb].
        rewrite (mapDelete_app_none _ _ _ Hfresh). cbn [mapDelete].
        now rewrite (strictEq_refl _ Hk). }
      destruct (IH kept (withDatabase name (kept ++ rest) s) (n + 1)) as
        [s' [Hloop [Hfinal [Hother Hsame]]]]; trivial.
      * apply database_withDatabase.
      * eapply uniqueKeys_drop, Hu.
      * exists s'. split; [| split; [exact Hfinal | split]].
        -- cbn [deleteMany_loop]. unfold bind at 1, tryCatch, bind at 1.
           cbn [Nano.destroy]. rewrite Hdestroy. unfold ret at 1.
           rewrite Hloop. do 2 f_equal. cbn [length]. lia.
        -- intros other Hne. rewrite (Hother other Hne).
           now apply database_withDatabase_other.
        -- intros _. apply Hsame. unfold ensure, withDatabase at 1. cbn [databases].
           now rewrite mapGet_mapSet_same.
    + destruct (IH (kept ++ [(k, d)]) s n) as [s' [Hloop [Hfinal [Hother Hsame]]]];
        trivial.
      * now rewrite <- app_assoc.
      * now rewrite <- app_assoc.
      * exists s'. rewrite <- app_assoc in Hfinal. now repeat split.
Qed.


Lemma map_snd_filter {A B} (f : B -> bool) (l : list (A * B)) :
  map snd (filter (fun e => f (snd e)) l) = filter f (map snd l).
Proof.
  induction l as [| [a b] l IH]; [reflexivity |].
  cbn [filter map snd]. destruct (f b); cbn [map snd]; now rewrite IH.
Qed.

Lemma filter_all {A} (l : list A) : filter (fun _ => true) l = l.
Proof. induction l as [| a l IH]; [reflexivity |]. cbn [filter]. now rewrite IH. Qed.

Lemma filter_none {A} (l : list A) : filter (fun _ => false) l = [].
Proof. induction l as [| a l IH]; [reflexivity | exact IH]. Qed.

(** The documents that [find] keeps for a selector, and what it keeps of
    the others. *)
Lemma filtered_selects (selector : Value) (docs found : list Value) :
  match selector with
  | VObj (_ :: _) => filterDocs regexTest docs selector
  | _ => Ok docs
  end = Ok found ->
  found = filter (selects regexTest selector) docs
  /\ match selector with
     | VObj (_ :: _) =>
         filterDocs regexTest (filter (fun d => negb (selects regexTest selector d)) docs) selector
     | _ => Ok (filter (fun d => negb (selects regexTest selector d)) docs)
     end = Ok [].
Proof.
  assert (Hplain : (forall d, selects regexTest selector d = true) ->
                   Ok docs = Ok found ->
                   found = filter (selects regexTest selector) docs
                   /\ Ok (filter (fun d => negb (selects regexTest selector d)) docs)
                      = Ok (@nil Value) :> outcome (list Value)).
  { intros Hall H. injection H as <-. split.
    - rewrite (filter_ext (selects regexTest selector) (fun _ => true)) by exact Hall.
      now rewrite filter_all.
    - rewrite (filter_ext (fun d => negb (selects regexTest selector d)) (fun _ => false)).
      + now rewrite filter_none.
      + intros d. now rewrite Hall. }
  destruct selector as [| | | | | | [| p ps]]; try (apply Hplain; reflexivity).
  intros H. split.
  - now apply filterDocs_filter.
  - exact (filterDocs_unmatched _ _ _ H).
Qed.

(** What [find] answers to a query with a selector only, and what it
    answers once the documents it found are gone. *)
Lemma find_all (name : string) (selector : Value) (page : Nano.FindResponse)
    (s s1 : State) :
  find regexTest name (query selector None) s = (Ok page, s1) ->
  Nano.docs page = filter (selects regexTest selector) (map snd (database name s))
  /\ forall s',
       database name s'
       = filter (fun e => negb (selects regexTest selector (snd e))) (database name s) ->
       find regexTest name (query selector None) s'
       = (Ok {| Nano.docs := []; Nano.next := None |}, s').
Proof.
  unfold find, query. cbn [Nano.selector Nano.sort Nano.skip Nano.limit].
  intros H.
  destruct (match selector with
            | VObj (_ :: _) => filterDocs regexTest (map snd (database name s)) selector
            | _ => Ok (map snd (database name s))
            end) as [found | e |] eqn:Hfound; try discriminate.
  injection H as <- <-. cbn [Nano.docs].
  destruct (filtered_selects _ _ _ Hfound) as [Hdocs Hrest].
  split; [exact Hdocs |].
  intros s' Hs'.
  rewrite Hs', (map_snd_filter (fun d => negb (selects regexTest selector d))).
  now rewrite Hrest.
Qed.

(** X29.  Over the in-memory store, in a database whose identifiers are
    strings, numbers or booleans, [deleteMany] removes exactly what its
    selector selects: when the store answers its query, it returns the
    number of documents found, the database keeps the documents that the
    selector does not select, in their order, and no other, the other
    databases are as before, and a second [deleteMany] with the same
    arguments returns 0 and changes nothing. *)
Theorem deleteMany_removes_what_the_selector_selects
    (where_ : Value) (model : string) (selector : Value) (page : Nano.FindResponse)
    (s s1 : State) :
  let name := databaseName config (getModelName host model) in
  wellKeyed s ->
  Forall (fun entry => scalar (fst entry) = true) (database name s) ->
  modelSelector config host
    (transformWhereClause host where_ (getDefaultModelName host model)) model
  = Ok selector ->
  find regexTest name (query selector None) (ensure name s) = (Ok page, s1) ->
  exists s',
    deleteMany couch config host model where_ s
    = (Ok (Z.of_nat (length (Nano.docs page))), s')
    /\ database name s'
       = filter (fun entry => negb (selects regexTest selector (snd entry))) (database name s)
    /\ (forall other, other <> name -> database other s' = database other s)
    /\ deleteMany couch config host model where_ s' = (Ok 0, s').
Proof.
  intros name Hs Hscalar Hsel Hfind.
  pose proof (find_state regexTest _ _ _ _ _ Hfind) as ->.
  destruct (find_all _ _ _ _ _ Hfind) as [Hdocs Hagain].
  rewrite database_ensure in Hdocs, Hagain.
  destruct (database_keyed name s Hs) as [Hu Hkeyed].
  destruct (deleteMany_loop_mock name (selects regexTest selector) (database name s) []
              (ensure name s) 0) as [s' [Hloop [Hfinal [Hother Hexists]]]].
  - now rewrite database_ensure.
  - exact Hu.
  - exact Hkeyed.
  - exact Hscalar.
  - exists s'. cbn [app] in Hfinal. rewrite <- Hdocs in Hloop.
    split; [| split; [exact Hfinal | split]].
    + unfold deleteMany.
      rewrite (bind_ok _ _ _ _ _ (getDatabase_mock regexTest random now config _ s)).
      fold name. unfold bind at 1, lift. rewrite Hsel.
      unfold bind at 1. cbn [Nano.find]. rewrite Hfind. exact Hloop.
    + intros other Hne. rewrite (Hother other Hne). apply database_ensure.
    + unfold deleteMany.
      rewrite (bind_ok _ _ _ _ _ (getDatabase_mock regexTest random now config _ s')).
      fold name. rewrite (Hexists (ensure_idempotent _ _)).
      unfold bind at 1, lift. rewrite Hsel.
      unfold bind at 1. cbn [Nano.find]. rewrite (Hagain s' Hfinal). reflexivity.
Qed.


Lemma mapGet_keys {A B} (k : Value) (m : list (Value * A)) (m' : list (Value * B)) :
  map fst m = map fst m' -> mapGet k m = None -> mapGet k m' = None.
Proof.
  revert m'. induction m as [| [k0 v0] m IH]; intros [| [k1 v1] m'] H; try discriminate.
  - reflexivity.
  - cbn [map fst] in H. injection H as -> Hrest. cbn [mapGet].
    destruct (strictEq k1 k); [discriminate | now apply IH].
Qed.

Lemma uniqueKeys_keys {A B} (m : list (Value * A)) (m' : list (Value * B)) :
  map fst m = map fst m' -> uniqueKeys m -> uniqueKeys m'.
Proof.
  revert m'. induction m as [| [k0 v0] m IH]; intros [| [k1 v1] m'] H; try discriminate.
  - trivial.
  - cbn [map fst] in H. injection H as -> Hrest. cbn [uniqueKeys].
    intros [Hfresh Hu]. split; [now apply (mapGet_keys _ m) | now apply IH].
Qed.

(** The write of [updateMany] for a document as it is stored. *)
Lemma insert_merged (name : string) (k d data : Value)
    (kept rest : list (Value * Value)) (s : State) :
  database name s = kept ++ (k, d) :: rest ->
  mapGet k kept = None ->
  scalar k = true ->
  keyedBy (k, d) ->
  exists r s',
    insert random now name (merge d data) s = (Ok r, s')
    /\ database name s' = kept ++ (k, storedAs k (Nano.rev r) (merge d data)) :: rest
    /\ (forall other, other <> name -> database other s' = database other s)
    /\ ensure name s' = s'.
Proof.
  intros Hdb Hfresh Hk [Htruthy [Hobj [Hid Hrev]]]. cbn [fst snd] in *.
  destruct (merge_pins d data) as [Hmid Hmrev].
  unfold insert. rewrite Hmid, Hid, Htruthy, Hdb, (mapGet_app_none _ _ _ Hfresh).
  cbn [mapGet]. rewrite (strictEq_refl _ Hk), Hmrev.
  destruct (JS.get d "_rev") as [| | | | r | |] eqn:Hr; try discriminate.
  rewrite (strictEq_refl (VStr r) eq_refl), andb_false_r.
  unfold getRev. eexists; eexists. split; [reflexivity |].
  cbn [Nano.rev]. split; [| split].
  - rewrite database_withDatabase. unfold database at 1. cbn [databases].
    fold (database name s). rewrite Hdb.
    rewrite mapSet_app_none by (trivial; discriminate).
    cbn [mapSet]. now rewrite (strictEq_refl _ Hk).
  - intros other Hne. now rewrite database_withDatabase_other.
  - unfold ensure, withDatabase at 1. cbn [databases].
    now rewrite mapGet_mapSet_same.
Qed.

(** The loop of [updateMany] over the documents that [f] picks among the
    entries [rest], which follow the entries [kept] in the database. *)
Lemma updateMany_loop_mock (name : string) (f : Value -> bool) (data : Value)
    (rest : list (Value * Value)) :
  forall (kept : list (Value * Value)) (s : State) (n : Z),
    database name s = kept ++ rest ->
    uniqueKeys (kept ++ rest) ->
    Forall keyedBy rest ->
    Forall (fun e => scalar (fst e) = true) rest ->
    exists s' rest',
      updateMany_loop (handle name) data (filter f (map snd rest)) n s
      = (Ok (n + Z.of_nat (length (filter f (map snd rest)))), s')
      /\ database name s' = kept ++ rest'
      /\ Forall2 (updatedTo f data) rest rest'
      /\ (forall other, other <> name -> database other s' = database other s)
      /\ (ensure name s = s -> ensure name s' = s').
Proof.
  induction rest as [| [k d] rest IH]; intros kept s n Hdb Hu Hkeyed Hscalar.
  - exists s, []. cbn. rewrite Z.add_0_r. repeat split; trivial.
  - inversion Hkeyed as [| ? ? Hkd Hkeyed']; subst.
    inversion Hscalar as [| ? ? Hk Hscalar']; subst.
    cbn [fst snd] in *. cbn [map filter snd].
    destruct (f d) eqn:Hf.
    + pose proof (uniqueKeys_middle _ _ _ _ Hu) as Hfresh.
      destruct (insert_merged name k d data kept rest s Hdb Hfresh Hk Hkd)
        as [r [s1 [Hinsert [Hdb1 [Hother1 Hens1]]]]].
      set (doc := storedAs k (Nano.rev r) (merge d data)) in *.
      destruct (IH (kept ++ [(k, doc)]) s1 (n + 1))
        as [s' [rest' [Hloop [Hfinal [Hrel [Hother Hsame]]]]]]; trivial.
      * now rewrite <- app_assoc.
      * rewrite <- app_assoc. cbn [app].
        apply (uniqueKeys_keys (kept ++ (k, d) :: rest)); [| exact Hu].
        now rewrite !map_app.
      * exists s', ((k, doc) :: rest'). rewrite <- app_assoc in Hfinal.
        split; [| split; [exact Hfinal | split; [| split]]].
        -- cbn [updateMany_loop]. unfold bind at 1, tryCatch, bind at 1.
           cbn [Nano.insert]. rewrite Hinsert. unfold ret at 1.
           rewrite Hloop. do 2 f_equal. cbn [length]. lia.
        -- constructor; [| exact Hrel]. split; [reflexivity |].
           cbn [fst snd]. rewrite Hf. now exists (Nano.rev r).
        -- intros other Hne. now rewrite (Hother other Hne), (Hother1 other Hne).
        -- intros _. now apply Hsame.
    + destruct (IH (kept ++ [(k, d)]) s n)
        as [s' [rest' [Hloop [Hfinal [Hrel [Hother Hsame]]]]]]; trivial.
      * now rewrite <- app_assoc.
      * now rewrite <- app_assoc.
      * exists s', ((k, d) :: rest'). rewrite <- app_assoc in Hfinal.
        repeat split; trivial.
        constructor; [| exact Hrel]. split; [reflexivity |].
        cbn [fst snd]. now rewrite Hf.
Qed.


Lemma updatedTo_keys (f : Value -> bool) (data : Value) (l l' : list (Value * Value)) :
  Forall2 (updatedTo f data) l l' -> map fst l' = map fst l.
Proof.
  induction 1 as [| e e' l l' [Hfst _] _ IH]; [reflexivity |].
  cbn [map]. now rewrite Hfst, IH.
Qed.

Lemma updatedTo_mapGet (f : Value -> bool) (data : Value) (l l' : list (Value * Value))
    (k d : Value) :
  Forall2 (updatedTo f data) l l' ->
  mapGet k l = Some d ->
  if f d
  then exists rev, mapGet k l' = Some (storedAs k rev (merge d data))
  else mapGet k l' = Some d.
Proof.
  induction 1 as [| [k0 d0] [k1 d1] l l' [Hfst Hsnd] _ IH]; [discriminate |].
  cbn [fst snd] in *. subst k1. cbn [mapGet].
  destruct (strictEq k0 k) eqn:E; [| exact IH].
  intros H. injection H as ->. apply strictEq_eq in E. subst k0.
  destruct (f d).
  - destruct Hsnd as [rev ->]. now exists rev.
  - now rewrite Hsnd.
Qed.

(** X30.  Over the in-memory store, in a database whose identifiers are
    strings, numbers or booleans, [updateMany] with data rewrites exactly
    what its selector selects and meets no conflict: when the store answers
    its query, it returns the number of documents found, the database keeps
    its identifiers in their order, every document that the selector selects
    is stored as the merge of the new values over it, under its identifier
    and a new revision, every other document is as before, and so are the
    other databases. *)
Theorem updateMany_rewrites_what_the_selector_selects
    (data_ update_ : Value) (model : string) (where_ : Value) (selector : Value)
    (page : Nano.FindResponse) (s s1 : State) :
  let name := databaseName config (getModelName host model) in
  let transformedData :=
    transformInput host (coalesce update_ data_) (getDefaultModelName host model)
      "update" in
  wellKeyed s ->
  Forall (fun entry => scalar (fst entry) = true) (database name s) ->
  truthy (coalesce update_ data_) = true ->
  modelSelector config host
    (transformWhereClause host where_ (getDefaultModelName host model)) model
  = Ok selector ->
  find regexTest name (query selector None) (ensure name s) = (Ok page, s1) ->
  exists s',
    updateMany couch config host data_ update_ model where_ s
    = (Ok (Z.of_nat (length (Nano.docs page))), s')
    /\ map fst (database name s') = map fst (database name s)
    /\ (forall k d,
          mapGet k (database name s) = Some d ->
          if selects regexTest selector d
          then exists rev,
                 mapGet k (database name s')
                 = Some (storedAs k rev (merge d transformedData))
          else mapGet k (database name s') = Some d)
    /\ (forall other, other <> name -> database other s' = database other s).
Proof.
  intros name transformedData Hs Hscalar Hdata Hsel Hfind.
  pose proof (find_state regexTest _ _ _ _ _ Hfind) as ->.
  destruct (find_all _ _ _ _ _ Hfind) as [Hdocs _].
  rewrite database_ensure in Hdocs.
  destruct (database_keyed name s Hs) as [Hu Hkeyed].
  destruct (updateMany_loop_mock name (selects regexTest selector) transformedData
              (database name s) [] (ensure name s) 0)
    as [s' [rest' [Hloop [Hfinal [Hrel [Hother _]]]]]].
  - now rewrite database_ensure.
  - exact Hu.
  - exact Hkeyed.
  - exact Hscalar.
  - exists s'. cbn [app] in Hfinal. rewrite <- Hdocs in Hloop. rewrite Hfinal.
    split; [| split; [| split]].
    + unfold updateMany.
      rewrite (bind_ok _ _ _ _ _ (getDatabase_mock regexTest random now config _ s)).
      fold name. rewrite Hdata. cbn [negb].
      unfold bind at 1, lift. rewrite Hsel.
      unfold bind at 1. cbn [Nano.find]. rewrite Hfind. exact Hloop.
    + exact (updatedTo_keys _ _ _ _ Hrel).
    + intros k d Hget. exact (updatedTo_mapGet _ _ _ _ k d Hrel Hget).
    + intros other Hne. rewrite (Hother other Hne). apply database_ensure.
Qed.

End BatchesOverTheMock.

(** The store with the user [u1]: the users are removed, and a second
    removal finds none. *)
Lemma deleteMany_removes_witness :
  exists s',
    deleteMany MockExamples.server Scripted.sharedConfig Scripted.plainHost
      "user" (VArr []) MockExamples.oneUser
    = (Ok 1, s')
    /\ database "better_auth" s' = []
    /\ (forall other, other <> "better_auth" ->
          database other s' = database other MockExamples.oneUser)
    /\ deleteMany MockExamples.server Scripted.sharedConfig Scripted.plainHost
         "user" (VArr []) s'
       = (Ok 0, s').
Proof.
  apply (deleteMany_removes_what_the_selector_selects MockExamples.engine MockExamples.random
           MockExamples.now Scripted.sharedConfig Scripted.plainHost
           (VArr []) "user" (VObj [("betterAuthModel", VStr "user")])
           {| Nano.docs := [Scripted.user1]; Nano.next := Some "mock_bookmark" |}
           MockExamples.oneUser MockExamples.oneUser).
  - exact oneUser_wellKeyed.
  - repeat constructor.
  - reflexivity.
  - reflexivity.
Defined.

(** The store with the user [u1]: the users are renamed. *)
Lemma updateMany_rewrites_witness :
  exists s',
    updateMany MockExamples.server Scripted.sharedConfig Scripted.plainHost
      Scripted.newName VUndefined "user" (VArr []) MockExamples.oneUser
    = (Ok 1, s')
    /\ map fst (database "better_auth" s') = [VStr "u1"]
    /\ (forall k d,
          mapGet k (database "better_auth" MockExamples.oneUser) = Some d ->
          if selects MockExamples.engine (VObj [("betterAuthModel", VStr "user")]) d
          then exists rev,
                 mapGet k (database "better_auth" s')
                 = Some (storedAs k rev (merge d Scripted.newName))
          else mapGet k (database "better_auth" s') = Some d)
    /\ (forall other, other <> "better_auth" ->
          database other s' = database other MockExamples.oneUser).
Proof.
  apply (updateMany_rewrites_what_the_selector_selects MockExamples.engine MockExamples.random
           MockExamples.now Scripted.sharedConfig Scripted.plainHost
           Scripted.newName VUndefined "user" (VArr [])
           (VObj [("betterAuthModel", VStr "user")])
           {| Nano.docs := [Scripted.user1]; Nano.next := Some "mock_bookmark" |}
           MockExamples.oneUser MockExamples.oneUser).
  - exact oneUser_wellKeyed.
  - repeat constructor.
  - reflexivity.
  - reflexivity.
  - reflexivity.
Defined.

End EndToEnd.
